(* ===== verification/_CoqProject ===== *)
-Q . S2P
Prelude.v
Sha2.v
DhtId.v
NodeStateArray.v
KBuckets.v
DhtMessage.v
CrawlerPacket.v
Dto.v
Containers.v
Gossip.v
Dispatch.v
FileParsing.v
SearchMaps.v
FileNode.v
Receive.v
Lookup.v
Blockchain.v
Orphans.v
Mining.v
Storage.v
Crypto.v
Sessions.v
Float64.v
Batches.v
PageRank.v
DhtNode.v
Crawler.v
CrawlNode.v
Bloom.v
Search.v
Client.v
Engine.v
Network.v
Provenance.v
Web.v
Routes.v
Transfer.v
