(* ===== verification/Prelude.v ===== *)
(** * Peerster: a verification development

    Peerster is a peer-to-peer program in Go: gossip with anti-entropy and distance-vector
    routing, file sharing and search, a block chain of file names, a Kademlia-like DHT with
    encrypted operations, and a web crawler with a search engine on top of the DHT.  The
    development models it as executable Rocq definitions and proves what its parts promise,
    including where the code falls short of that.

    ** How the code is modelled

    - A function that only computes is a function.  [log.Fatal], panics and normal returns
      are the constructors of [outcome] (below), a monad with stdpp's notations.
    - A container guarded by a mutex, or built on [sync.Map], is a record or a finite map,
      and each method is one atomic function from the state to the new state and the result.
    - A listening routine handles one message at a time.  Its handler is a function from the
      state and the message to the new state and a list of effects (packets sent, goroutines
      started, data sent on channels).  Channels are named by numbers.
    - Goroutines that wait (the iterative lookups of the DHT) are a transition system whose
      events are arriving replies, choices of [select] and timers.  A goroutine that runs
      alone (a download, a search, rumor mongering, one step of a key exchange) takes what it
      waits for, and its random choices, as arguments.
    - Machine integers are a [Z] with its wrap-around written out ([wrap], [int64]); floats
      are the binary64 numbers of [SpecFloat]; bytes are integers below 256; strings are byte
      strings; SHA-256, SHA-512, FNV and modular powers are executable.
    - Maps of Go are [gmap]; where Go visits a map in an unspecified order, the model uses the
      order of [map_to_list] or a parameter ([range], [order], [words]), and the theorems
      hold for every order.
    - Third-party code is a type class with the laws the code relies on: the database [Bolt]
      and the encoding [Protobuf] ([Storage]), [AEAD] ([Crypto]), [Signatures] ([Sessions]),
      [Cache] and [Sketch] ([PageRank]), [Murmur] ([Bloom]), the format of datagrams [Wire]
      ([Dispatch]) and its sizes [DataWire] ([Transfer]).  So is what Go's library leaves
      open: [NaturalLog] ([Bloom]) and unstable sorting [GoSort] ([Search]).  Each has an
      instance at the end of its file, or in a file that uses it.
    - Where a part uses lookups in the network, [LookupNodes] and [LookupValue] are functions
      of the key; how lookups work is the subject of [Lookup].
    - Printing is the evaluation of what is printed.  Of the sockets, the receive buffer of
      10,000 bytes is modelled ([Dispatch.readPacket]); [Transfer] carries its packets through
      it as bytes.  The other parts hand over packets as they were decoded: that a chat message,
      a status packet or a message of the hash table fits the buffer is outside their theorems.

    ** The files, and the source they model

    - [Prelude]: outcomes, machine integers, byte strings, lists.
    - [Sha2]: SHA-256 and SHA-512 (the standard library's, tested on known vectors).
    - [DhtId] (dht_util/util.go, dht/helpers.go): identifiers, the XOR metric and its order,
      common leading bits, random identifiers.
    - [NodeStateArray] (dht/SafeNodeStateArray.go): the candidates of a lookup.
    - [KBuckets] (gossiper/kBuckets.go): the routing table of the DHT; whether a node answers
      a ping is a parameter.
    - [DhtMessage] (dht/nodeState.go, dht/chanMap.go, constructors of gossiper/dht.go):
      messages and the channels of the goroutines that wait for a reply.
    - [CrawlerPacket] (webcrawler/crawlerpacket.go, PageInfo.go): data of the crawler.
    - [Dto] (dto/DTO.go): packets, client requests, accessors, hashes of transactions and
      blocks.
    - [Containers] (the other files of dto/, routing/): containers of the gossiper.
    - [Gossip] (gossiper/gossiper.go, rumorMongering.go, antiEntropy.go, DSDV.go, helpers.go,
      UIfunctions.go, printing.go): rumors, status packets, private messages, forwarding.
    - [Network]: networks of gossipers; the status exchanges that bring all nodes to the same
      messages.  [Provenance]: all runs of such a network, with packets lost, repeated and
      reordered; who created a rumor, and where it is shown.
    - [Web] (main.go): the handlers of the web page, the start of a node, sending.
    - [Routes]: the routing tables of a network in all its runs; private messages on their way.
    - [Dispatch] (gossiper/gossiper.go): the buffer of the receive loop, the receive loops and
      the channels they feed.  [Receive]: the loop with the routines of the gossip and files.
    - [FileParsing] (fileparsing/): chunks, metafiles, and the containers of files.
    - [SearchMaps] (filesearching/): owners of chunks, names of files, running searches.
    - [FileNode] (gossiper/fileSharing.go, fileSearching.go): downloads and searches.
    - [Transfer]: requests and replies for data on their way through a network.
    - [Lookup] (gossiper/dhtAPI.go): [LookupNodes] and [LookupValue].
    - [Blockchain], [Orphans], [Mining] (gossiper/blockchain.go): the ledger of blocks with
      its forks, blocks that arrive before their parents, the mining routine.
    - [Storage] (dht/storage.go): the database of a node and the queue of its crawler.
    - [Crypto] (diffie_hellman/): the key exchange and AES-GCM.
    - [Sessions] (gossiper/diffiehellman.go, getKey of gossiper/webcrawler.go): negotiation
      of keys between nodes, their use and expiry.
    - [Float64]: the floating-point operations and their order.
    - [Batches] (gossiper/webcrawler.go): cutting data into packets, and the nodes that are
      responsible for it.
    - [PageRank] (gossiper/pageRank.go): ranks of pages and the updates nodes exchange.
    - [DhtNode] (gossiper/dht.go): what a node does with DHT messages, encrypted or not.
    - [Crawler] (webcrawler/webcrawler.go): words and links of a page, the crawl loop.
    - [CrawlNode] (gossiper/webcrawler.go): feeding the crawler, and storing what it finds at
      the responsible nodes.
    - [Bloom] (bloomfilter/bloomfilter.go): the Bloom filter.
    - [Search] (webcrawler/SearchResults.go, DoSearch of gossiper/dht.go): searches.
    - [Client] (client/client.go, main.go): the requests of clients, up to the DHT.
    - [Engine]: from the crawl of a page to the search that finds it.

    ** What the theorems show

    - Invariants kept by every operation: of the candidate array and the routing table of the
      DHT, of the message map (the IDs of an origin have no gap), of the own message counter,
      of the listeners for DHT replies, of the ledger of blocks, of the mining routine, of
      the cache of ranks, of the set of known links of a crawl.
    - Behaviour of each handler on its branches: rumors, status packets, private messages,
      data replies, search requests and replies, blocks, stores and lookups of the DHT.
    - Refinement: anti-entropy sends a peer, once each, the message it can accept next of every
      origin of which it lacks one (and an empty packet for an origin it does not know that is
      registered without messages); the crawl queue in the database is a list with a head,
      across restarts; the Bloom filter is a set of positions (and a filter that no slice can
      hold is refused by [make]).
    - Lookups: they terminate after at most three steps per identifier of the network, they
      can always move on while they wait, and what they return is ordered, bounded, all
      answered and closest.
    - Round trips: reading, chunking and reassembling a file is the identity; what is stored
      under a key is found; encrypted links and stores have the effect of plain ones; a
      printed identifier can be looked up.
    - Networks of gossipers: in every run, with packets lost, repeated and reordered, a stored
      rumor is one that the node of its origin created, and each node shows it exactly once;
      a message posted on the web page becomes such a rumor.  Rounds of status exchanges over
      known peers, as many as the longest list of messages and the longest path, bring every
      rumor to every node.  (Start leaves the tickers of anti-entropy and route rumors out;
      the same exchange follows every rumor that is answered with a status.)  Unless addresses
      are forged, next hops never form a loop and lead to their origin, and private messages
      arrive along them; so do the chunks of a file that one node shares and another downloads,
      if the chunks and the metafile fit the receive buffer.
    - No packet stops a node, whatever its type and mode, of those that the routines of the
      gossip and of the files get; the exceptions are stated (malformed search results,
      published blocks, and the messages of the hash table in [DhtNode]).
    - Composition: a page that was crawled is indexed by its words, its links reach the nodes
      responsible for them (but for the link that closes each packet, which is lost), and a
      search shows at most ten of the pages that contain all its words, the best ones, by
      their rank, this page among them if they are fewer than ten; a negotiation of two honest nodes ends with the
      same key; a request of a client reaches the routine it is meant for.
    - Bounds: hop limits, budgets of searches, sizes of buckets, batches and results.
    - Defects, stated as theorems about the model: each finding names its theorem.

    ** Bounds and fuel

    Recursion is on a list or a number of time-outs, with two exceptions.  Walks along the
    block chain take fuel, one more than the number of blocks: a walk that needs more would
    visit a block twice, and running out is the error [no_return], which the theorems exclude.
    Updates of ranks are recursive calls of the handler on the same node; [depth] bounds the
    stack, and running out of it is the overflow that Go's runtime reports.  Termination of
    the lookups is proved by a measure (three for each identifier not queried yet, two for
    each goroutine that waits, one for each reply that is ready).

    ** What is not modelled

    Fetching and parsing of web pages, stemming and stop words; protobuf, sockets and bbolt's
    files, beyond their laws; flags, the text of JSON and the pages of the HTTP server (main.go,
    frontend/); the tools find_keyword and diffie_hellman/main.go.  The scheduler: each
    handler is one step, so data races of handlers that Go runs at the same time are outside
    the model.  The runs of [Provenance] interleave the handlers of different nodes, and those
    of one node, but no two parts of the same handler; only status packets, rumors and
    private messages are sent in them.  [Transfer] carries the packets of one download at a
    time, in the order they are sent, while the routes stay as they are. *)
From Stdlib Require Export ZArith Lia.
From stdpp Require Export base tactics numbers list gmap strings sorting option.
From stdpp Require Export list.

#[global] Set Default Proof Using "Type".

Declare Scope go_scope.
Delimit Scope go_scope with go.

(** ** Failing computations

    A Go function of the program can return, stop the process through
    [log.Fatal] ([dto.LogError]), or panic. *)
Inductive outcome (A : Type) : Type :=
  | Ok (a : A)
  | Fatal (msg : string)
  | Panic (msg : string).
Arguments Ok {A} a.
Arguments Fatal {A} msg.
Arguments Panic {A} msg.

#[export] Instance outcome_ret : MRet outcome := fun A a => Ok a.
#[export] Instance outcome_bind : MBind outcome := fun A B f m =>
  match m with
  | Ok a => f a
  | Fatal s => Fatal s
  | Panic s => Panic s
  end.
#[export] Instance outcome_fmap : FMap outcome := fun A B f m =>
  match m with
  | Ok a => Ok (f a)
  | Fatal s => Fatal s
  | Panic s => Panic s
  end.
#[export] Instance outcome_eq_dec `{EqDecision A} : EqDecision (outcome A).
Proof. solve_decision. Defined.

Lemma outcome_bind_Ok {A B} (f : A -> outcome B) (m : outcome A) (b : B) :
  (m ≫= f) = Ok b <-> exists a, m = Ok a /\ f a = Ok b.
Proof.
  split.
  - destruct m; simpl; intros H; try discriminate. eauto.
  - intros (a & -> & H). exact H.
Qed.

Lemma Ok_inj {A} (a b : A) : Ok a = Ok b -> a = b.
Proof. by intros [=]. Qed.

(** ** Machine integers: unsigned values are a [Z] kept in range by [wrap]. *)
Open Scope Z_scope.

Definition wrap (w z : Z) : Z := z mod 2 ^ w.
Abbreviation u8 := (wrap 8).
Abbreviation u32 := (wrap 32).
Abbreviation u64 := (wrap 64).
(** Go's conversion of a 64-bit pattern to [int] (two's complement). *)
Definition int64 (z : Z) : Z := (z + 2 ^ 63) mod 2 ^ 64 - 2 ^ 63.

Definition in_width (w z : Z) : Prop := 0 <= z < 2 ^ w.
#[export] Instance in_width_dec w z : Decision (in_width w z).
Proof. unfold in_width. apply _. Defined.
Abbreviation byte_ok := (in_width 8).

Create HintDb peerster discriminated.

Lemma wrap_range w z : 0 <= w -> in_width w (wrap w z).
Proof. intros. apply Z.mod_pos_bound. lia. Qed.
Lemma wrap_small w z : in_width w z -> wrap w z = z.
Proof. apply Z.mod_small. Qed.
Lemma wrap_succ_lt w z : in_width w z -> z + 1 < 2 ^ w -> wrap w (z + 1) = z + 1.
Proof. unfold in_width. intros ??. apply wrap_small. unfold in_width. lia. Qed.
Lemma wrap_pred_0 w : 0 < w -> wrap w (0 - 1) = 2 ^ w - 1.
Proof.
  intros. unfold wrap. pose proof (Z.pow_gt_1 2 w).
  rewrite <-(Z.mod_add _ 1), Z.mod_small by lia. lia.
Qed.
Lemma wrap_pred_pos w z : in_width w z -> 0 < z -> wrap w (z - 1) = z - 1.
Proof. unfold in_width. intros ??. apply wrap_small. unfold in_width. lia. Qed.
Lemma int64_small z : - 2 ^ 63 <= z < 2 ^ 63 -> int64 z = z.
Proof. intros. unfold int64. rewrite Z.mod_small; lia. Qed.

Lemma in_width_lxor w a b :
  0 <= w -> in_width w a -> in_width w b -> in_width w (Z.lxor a b).
Proof.
  unfold in_width. intros Hw [Ha0 Ha] [Hb0 Hb].
  assert (H0 : 0 <= Z.lxor a b) by (apply Z.lxor_nonneg; lia).
  split; [exact H0 |].
  destruct (Z.eq_dec (Z.lxor a b) 0) as [->|Hn]; [apply Z.pow_pos_nonneg; lia |].
  apply Z.log2_lt_pow2; [lia |].
  destruct (Z.eq_dec a 0) as [->|]; [rewrite Z.lxor_0_l in *; apply Z.log2_lt_pow2; lia |].
  destruct (Z.eq_dec b 0) as [->|]; [rewrite Z.lxor_0_r in *; apply Z.log2_lt_pow2; lia |].
  pose proof (Z.log2_lxor a b).
  pose proof (proj1 (Z.log2_lt_pow2 a w ltac:(lia)) Ha).
  pose proof (proj1 (Z.log2_lt_pow2 b w ltac:(lia)) Hb). lia.
Qed.
#[export] Hint Resolve wrap_range wrap_small in_width_lxor : peerster.

(** ** Byte strings *)
Abbreviation bytes := (list Z).
Abbreviation wf_bytes := (Forall (in_width 8)).

Definition bytes_of_string (s : string) : bytes :=
  (fun a => Z.of_N (Ascii.N_of_ascii a)) <$> String.list_ascii_of_string s.

(** The number a big-endian byte string denotes. *)
Fixpoint be (l : bytes) : Z :=
  match l with
  | [] => 0
  | b :: t => b * 2 ^ (8 * Z.of_nat (length t)) + be t
  end.

Lemma be_range l : wf_bytes l -> 0 <= be l < 2 ^ (8 * Z.of_nat (length l)).
Proof.
  induction 1 as [|b t [Hb0 Hb] Ht IH]; cbn [be length]; [lia |].
  rewrite Nat2Z.inj_succ, Z.mul_succ_r, Z.pow_add_r by lia.
  change (2 ^ 8) with 256 in *. nia.
Qed.

Lemma shifted_add_lxor b k x :
  0 <= k -> 0 <= x < 2 ^ k -> b * 2 ^ k + x = Z.lxor (Z.shiftl b k) x.
Proof.
  intros Hk Hx. rewrite <-Z.shiftl_mul_pow2 by done. rewrite Z.add_nocarry_lxor; [done |].
  apply Z.bits_inj'. intros i Hi. rewrite Z.land_spec, Z.bits_0.
  destruct (decide (i < k)).
  - rewrite Z.shiftl_spec_low by lia. done.
  - rewrite <-(Z.mod_small x (2 ^ k)), Z.mod_pow2_bits_high by lia. apply andb_false_r.
Qed.

Lemma lxor_shifted a b k x y :
  0 <= k -> 0 <= x < 2 ^ k -> 0 <= y < 2 ^ k ->
  Z.lxor (a * 2 ^ k + x) (b * 2 ^ k + y) = Z.lxor a b * 2 ^ k + Z.lxor x y.
Proof.
  intros Hk Hx Hy.
  rewrite (shifted_add_lxor (Z.lxor a b)); [| done | apply (in_width_lxor k); done].
  rewrite !shifted_add_lxor, Z.shiftl_lxor by done.
  rewrite !Z.lxor_assoc. f_equal. rewrite <-!Z.lxor_assoc. f_equal. apply Z.lxor_comm.
Qed.

Lemma wf_bytes_lxor l1 l2 :
  wf_bytes l1 -> wf_bytes l2 -> wf_bytes (zip_with Z.lxor l1 l2).
Proof.
  intros H1. revert l2. induction H1 as [|a t Ha Ht IH]; intros l2 H2; simpl; [constructor |].
  destruct H2; constructor; [apply in_width_lxor; done | auto].
Qed.

Lemma be_lxor l1 l2 :
  wf_bytes l1 -> wf_bytes l2 -> length l1 = length l2 ->
  be (zip_with Z.lxor l1 l2) = Z.lxor (be l1) (be l2).
Proof.
  intros H1. revert l2. induction H1 as [|a t Ha Ht IH]; intros l2 H2 Hl.
  - destruct l2; done.
  - destruct H2 as [|b t2 Hb Ht2]; simplify_eq/=.
    rewrite length_zip_with_l_eq, IH by done. rewrite <-Hl.
    rewrite lxor_shifted; [done | lia | by apply be_range |].
    rewrite Hl. by apply be_range.
Qed.

(** The leading digits decide a comparison. *)
Lemma concat_lt x y p a b : x < y -> 0 <= a < p -> 0 <= b < p -> x * p + a < y * p + b.
Proof.
  intros. apply Z.lt_le_trans with ((x + 1) * p); [lia |].
  apply Z.le_trans with (y * p); [apply Z.mul_le_mono_nonneg_r; lia | lia].
Qed.

Lemma be_inj l1 l2 :
  wf_bytes l1 -> wf_bytes l2 -> length l1 = length l2 -> be l1 = be l2 -> l1 = l2.
Proof.
  intros H1. revert l2. induction H1 as [|a t Ha Ht IH]; intros l2 H2 Hl Hbe.
  - destruct l2; done.
  - destruct H2 as [|b t2 Hb Ht2]; simplify_eq/=. rewrite <-Hl in Hbe.
    pose proof (be_range _ Ht). pose proof (be_range _ Ht2) as R2. rewrite <-Hl in R2.
    assert (a = b) as -> by nia. f_equal. apply IH; [done | done | lia].
Qed.

(** ** Sorted lists *)
Lemma StronglySorted_sublist {A} (R : relation A) (l1 l2 : list A) :
  l1 `sublist_of` l2 -> StronglySorted R l2 -> StronglySorted R l1.
Proof.
  induction 1 as [|x l1 l2 Hs IH|x l1 l2 Hs IH]; intros Hl; [done | |].
  - inversion Hl as [|?? Hl2 Hx]; subst. constructor; [by apply IH |].
    apply Forall_forall. intros y Hy. rewrite Forall_forall in Hx.
    apply Hx. by eapply elem_of_sublist.
  - inversion Hl; subst. by apply IH.
Qed.

(** An element of a sorted list is among the first [k], or they are all before it. *)
Lemma take_or_after {A} (R : relation A) (l : list A) k x :
  StronglySorted R l -> x ∈ l ->
  x ∈ take k l \/ (length (take k l) = k /\ Forall (fun y => R y x) (take k l)).
Proof.
  intros Hs Hx. rewrite <-(take_drop k l) in Hs, Hx. apply StronglySorted_app in Hs as (Hr & _ & _).
  apply elem_of_app in Hx as [Hx|Hx]; [by left | right]. split.
  - rewrite length_take. destruct (Nat.le_gt_cases k (length l)); [lia |].
    rewrite drop_ge in Hx by lia. set_solver.
  - apply Forall_forall. auto.
Qed.

(** ** Results of fallible computations *)
Definition is_Ok {A} (m : outcome A) : bool := if m is Ok _ then true else false.
Definition is_Panic {A} (m : outcome A) : bool := if m is Panic _ then true else false.

(** ** Strings and their bytes *)
Lemma bytes_of_string_length s : length (bytes_of_string s) = String.length s.
Proof. unfold bytes_of_string. rewrite length_fmap. induction s; simpl; auto. Qed.

Lemma bytes_of_string_inj s1 s2 : bytes_of_string s1 = bytes_of_string s2 -> s1 = s2.
Proof.
  unfold bytes_of_string. revert s2. induction s1 as [|a s1 IH]; intros [|b s2]; try done.
  cbn [String.list_ascii_of_string]. rewrite !fmap_cons. intros H. injection H as Ha Hs.
  f_equal; [| by apply IH]. rewrite <-(Ascii.ascii_N_embedding a), <-(Ascii.ascii_N_embedding b).
  f_equal. lia.
Qed.

(** [fmt.Sprintf("%x", b)]: two lower-case digits per byte. *)
Definition hex_digit (d : Z) : Ascii.ascii :=
  Ascii.ascii_of_N (Z.to_N (if d <? 10 then 48 + d else 87 + d)).
Definition hex (b : bytes) : string :=
  String.string_of_list_ascii (b ≫= fun x => [hex_digit (x / 16); hex_digit (x mod 16)]).

(** ** Lists *)
Lemma filter_none {A} (P : A -> Prop) `{!forall x, Decision (P x)} (l : list A) :
  Forall (fun x => ~ P x) l -> filter P l = [].
Proof. induction 1 as [|x l Hx _ IH]; [done |]. by rewrite filter_cons_False. Qed.
Lemma filter_all {A} (P : A -> Prop) `{!forall x, Decision (P x)} (l : list A) :
  Forall P l -> filter P l = l.
Proof. induction 1; [done |]. rewrite filter_cons_True by done. congruence. Qed.

(** A function without repetitions on a list is injective there. *)
Lemma NoDup_fmap_elem {A B} (f : A -> B) (l : list A) x y :
  NoDup (f <$> l) -> x ∈ l -> y ∈ l -> f x = f y -> x = y.
Proof.
  intros Hnd [i Hi]%list_elem_of_lookup_1 [j Hj]%list_elem_of_lookup_1 Hf.
  assert (i = j) as ->; [| congruence].
  apply (NoDup_lookup _ i j (f x) Hnd); rewrite list_lookup_fmap; [by rewrite Hi | by rewrite Hj, Hf].
Qed.
