(* ===== verification/Sha2.v ===== *)
(** * The SHA-2 functions of Go's standard library

    [crypto/sha256.Sum256] and [crypto/sha512.Sum512], which the program uses for
    identifiers, checksums and block hashes, as executable functions on byte lists
    (FIPS 180-4).  One set of definitions serves both word sizes. *)
From S2P Require Import Prelude.

Record sha2_params := {
  sw : Z;                    (* word width: 32 or 64 *)
  s_len_bytes : nat;         (* size of the length field: 8 or 16 bytes *)
  s_block : nat;             (* block size: 64 or 128 bytes *)
  s_k : list Z;              (* round constants *)
  s_h0 : list Z;             (* initial state, eight words *)
  s_S0 : Z * Z * Z; s_S1 : Z * Z * Z;   (* rotations of the round function *)
  s_s0 : Z * Z * Z; s_s1 : Z * Z * Z;   (* two rotations and a shift of the schedule *)
}.

Section sha2.
Context (p : sha2_params).

Definition rotr (n x : Z) : Z :=
  Z.lor (Z.shiftr x n) (wrap (sw p) (Z.shiftl x (sw p - n))).
Definition big_sigma (r : Z * Z * Z) (x : Z) : Z :=
  let '(a, b, c) := r in Z.lxor (Z.lxor (rotr a x) (rotr b x)) (rotr c x).
Definition small_sigma (r : Z * Z * Z) (x : Z) : Z :=
  let '(a, b, c) := r in Z.lxor (Z.lxor (rotr a x) (rotr b x)) (Z.shiftr x c).
Definition Ch (x y z : Z) : Z :=
  Z.lxor (Z.land x y) (Z.land (Z.lxor x (2 ^ sw p - 1)) z).
Definition Maj (x y z : Z) : Z :=
  Z.lxor (Z.lxor (Z.land x y) (Z.land x z)) (Z.land y z).

(** [be_split n z]: the [n] low bytes of [z], most significant first. *)
Fixpoint be_split (n : nat) (z : Z) : bytes :=
  match n with
  | O => []
  | S k => wrap 8 (Z.shiftr z (8 * Z.of_nat k)) :: be_split k z
  end.

Definition pad (m : bytes) : bytes :=
  let l := length m in
  let used := ((l + 1 + s_len_bytes p) mod s_block p)%nat in
  let zeros := ((s_block p - used) mod s_block p)%nat in
  m ++ [128] ++ replicate zeros 0 ++ be_split (s_len_bytes p) (8 * Z.of_nat l).

Fixpoint chunks (n : nat) (fuel : nat) (l : bytes) : list bytes :=
  match fuel with
  | O => []
  | S f => match l with [] => [] | _ => take n l :: chunks n f (drop n l) end
  end.

(** The message schedule, kept most recent word first. *)
Fixpoint schedule (n : nat) (acc : list Z) : list Z :=
  match n with
  | O => reverse acc
  | S k =>
      let w i := nth i acc 0 in
      schedule k
        (wrap (sw p) (small_sigma (s_s1 p) (w 1%nat) + w 6%nat
                      + small_sigma (s_s0 p) (w 14%nat) + w 15%nat) :: acc)
  end.

Definition round (st : list Z) (kw : Z * Z) : list Z :=
  match st with
  | [a; b; c; d; e; f; g; h] =>
      let t1 := h + big_sigma (s_S1 p) e + Ch e f g + kw.1 + kw.2 in
      let t2 := big_sigma (s_S0 p) a + Maj a b c in
      [wrap (sw p) (t1 + t2); a; b; c; wrap (sw p) (d + t1); e; f; g]
  | _ => st
  end.

Definition compress (st : list Z) (block : bytes) : list Z :=
  let words := be <$> chunks (s_len_bytes p / 2)%nat 16 block in
  let ws := schedule (length (s_k p) - 16) (reverse words) in
  zip_with (fun x y => wrap (sw p) (x + y)) st (foldl round st (zip (s_k p) ws)).

Definition sha2 (m : bytes) : bytes :=
  let padded := pad m in
  let st := foldl compress (s_h0 p) (chunks (s_block p) (length padded) padded) in
  st ≫= be_split (s_len_bytes p / 2)%nat.
End sha2.

(** The constants: the fractional parts of the square roots of the first eight primes
    and of the cube roots of the first 64 (SHA-256) or 80 (SHA-512) primes, to [w] bits. *)
Fixpoint cbrt_bits (n : nat) (r x : Z) : Z :=
  match n with
  | O => r
  | S k =>
      let r' := r + 2 ^ Z.of_nat k in
      cbrt_bits k (if r' * r' * r' <=? x then r' else r) x
  end.
Definition cbrt_frac (w p : Z) : Z := wrap w (cbrt_bits (Z.to_nat w + 4) 0 (p * 2 ^ (3 * w))).
Definition sqrt_frac (w p : Z) : Z := wrap w (Z.sqrt (p * 2 ^ (2 * w))).

Definition is_prime (n : Z) : bool :=
  forallb (fun d => negb (n mod d =? 0)) (seqZ 2 (Z.sqrt n - 1)).
Definition first_primes (n : nat) : list Z :=
  take n (List.filter is_prime (seqZ 2 410)).

Definition sha256_k : list Z := Eval vm_compute in cbrt_frac 32 <$> first_primes 64.
Definition sha256_h : list Z := Eval vm_compute in sqrt_frac 32 <$> first_primes 8.
Definition sha512_k : list Z := Eval vm_compute in cbrt_frac 64 <$> first_primes 80.
Definition sha512_h : list Z := Eval vm_compute in sqrt_frac 64 <$> first_primes 8.

Definition sha256_params : sha2_params := {|
  sw := 32; s_len_bytes := 8; s_block := 64; s_k := sha256_k; s_h0 := sha256_h;
  s_S0 := (2, 13, 22); s_S1 := (6, 11, 25); s_s0 := (7, 18, 3); s_s1 := (17, 19, 10) |}.

Definition sha512_params : sha2_params := {|
  sw := 64; s_len_bytes := 16; s_block := 128; s_k := sha512_k; s_h0 := sha512_h;
  s_S0 := (28, 34, 39); s_S1 := (14, 18, 41); s_s0 := (1, 8, 7); s_s1 := (19, 61, 6) |}.

Definition Sum256 (m : bytes) : bytes := sha2 sha256_params m.
Definition Sum512 (m : bytes) : bytes := sha2 sha512_params m.

(** The outputs have the declared sizes and consist of bytes. *)
Lemma be_split_length n z : length (be_split n z) = n.
Proof. induction n; simpl; congruence. Qed.
Lemma be_split_wf n z : wf_bytes (be_split n z).
Proof. induction n; simpl; constructor; auto with lia. apply wrap_range. lia. Qed.

Lemma be_be_split n z : be (be_split n z) = z mod 2 ^ (8 * Z.of_nat n).
Proof.
  induction n as [|n IH]; [by rewrite Z.mod_1_r |]. cbn [be_split be].
  rewrite IH, be_split_length, Nat2Z.inj_succ, Z.mul_succ_r, Z.pow_add_r by lia.
  rewrite Z.rem_mul_r by lia. unfold wrap. rewrite Z.shiftr_div_pow2 by lia. lia.
Qed.
Lemma be_split_inj n a b :
  0 <= a < 2 ^ (8 * Z.of_nat n) -> 0 <= b < 2 ^ (8 * Z.of_nat n) ->
  be_split n a = be_split n b -> a = b.
Proof.
  intros Ha Hb H. apply (f_equal be) in H. rewrite !be_be_split, !Z.mod_small in H by done. done.
Qed.

Lemma round_length p st kw : length (round p st kw) = length st.
Proof. by destruct st as [|? [|? [|? [|? [|? [|? [|? [|? [|??]]]]]]]]]. Qed.
Lemma compress_length p st b : length (compress p st b) = length st.
Proof.
  unfold compress. rewrite length_zip_with_l_eq; [done |].
  generalize (zip (s_k p) (schedule p (length (s_k p) - 16)
    (reverse (be <$> chunks (s_len_bytes p / 2) 16 b)))) as l.
  assert (H : forall l st', length (foldl (round p) st' l) = length st'); [| done].
  induction l as [|kw l IH]; intros st'; simpl; [done |]. by rewrite IH, round_length.
Qed.
Lemma sha2_length p m :
  length (sha2 p m) = (length (s_h0 p) * (s_len_bytes p / 2))%nat.
Proof.
  unfold sha2.
  generalize (chunks (s_block p) (length (pad p m)) (pad p m)). intros bs.
  assert (H : length (foldl (compress p) (s_h0 p) bs) = length (s_h0 p)).
  { generalize (s_h0 p). induction bs as [|b bs IH]; intros st; simpl; [done |].
    by rewrite IH, compress_length. }
  rewrite <-H. generalize (foldl (compress p) (s_h0 p) bs). clear H.
  intros ws. induction ws as [|w ws IH]; [done |].
  rewrite bind_cons.
  rewrite length_app, be_split_length, IH. done.
Qed.
Lemma sha2_wf p m : wf_bytes (sha2 p m).
Proof.
  unfold sha2. generalize (foldl (compress p) (s_h0 p) (chunks (s_block p)
    (length (pad p m)) (pad p m))). intros ws.
  induction ws as [|w ws IH]; [constructor |]. rewrite bind_cons.
  apply Forall_app. split; [apply be_split_wf | exact IH].
Qed.

Lemma Sum256_length m : length (Sum256 m) = 32%nat.
Proof. apply (sha2_length sha256_params). Qed.
Lemma Sum512_length m : length (Sum512 m) = 64%nat.
Proof. apply (sha2_length sha512_params). Qed.
Lemma Sum256_wf m : wf_bytes (Sum256 m).
Proof. apply sha2_wf. Qed.
Lemma Sum512_wf m : wf_bytes (Sum512 m).
Proof. apply sha2_wf. Qed.
#[export] Hint Resolve Sum256_length Sum512_length Sum256_wf Sum512_wf : peerster.
#[global] Opaque Sum256 Sum512.

(** The published test vectors of the message "abc". *)
Example Sum256_abc : Sum256 (bytes_of_string "abc") =
  [186; 120; 22; 191; 143; 1; 207; 234; 65; 65; 64; 222; 93; 174; 34; 35; 176; 3; 97; 163; 150; 23; 122; 156; 180; 16; 255; 97; 242; 0; 21; 173].
Proof. vm_compute. reflexivity. Qed.
Example Sum512_abc : Sum512 (bytes_of_string "abc") =
  [221; 175; 53; 161; 147; 97; 122; 186; 204; 65; 115; 73; 174; 32; 65; 49; 18; 230; 250; 78; 137; 169; 126; 162; 10; 158; 238; 230; 75; 85; 211; 154; 33; 146; 153; 42; 39; 79; 193; 168; 54; 186; 60; 35; 163; 254; 235; 189; 69; 77; 68; 35; 100; 60; 232; 14; 42; 154; 201; 79; 165; 76; 164; 159].
Proof. vm_compute. reflexivity. Qed.
