(* ===== verification/DhtId.v ===== *)
(** * Node identifiers and the XOR metric

    Models dht_util/util.go and dht/helpers.go: identifiers, their XOR distance and
    ordering, insertion into a list kept by distance, generation of identifiers that
    share a prefix, and the conversions to and from byte slices. *)
From S2P Require Import Prelude Sha2.

(** ** dht_util/util.go *)
Definition IDByteSize : nat := 512 / 8.

(** [type TypeID [IDByteSize]byte]: a list of bytes; [wf_id] is the array's type. *)
Abbreviation TypeID := (list Z).
Definition wf_id (id : TypeID) : Prop := length id = IDByteSize /\ wf_bytes id.
#[export] Instance wf_id_dec id : Decision (wf_id id).
Proof. unfold wf_id. apply _. Defined.

Definition zero_id : TypeID := replicate IDByteSize 0.

Definition ConvertToTypeID (idB : bytes) : TypeID * bool :=
  if bool_decide (length idB = IDByteSize) then (idB, true) else (zero_id, false).

Definition GenerateKeyHash (key : string) : TypeID := Sum512 (bytes_of_string key).

(** ** dht/nodeState.go *)
Record NodeState := mkNodeState {
  NodeID : TypeID;
  Address : string   (* "host:port" *)
}.
#[export] Instance NodeState_eq_dec : EqDecision NodeState.
Proof. solve_decision. Defined.
#[export] Instance NodeState_countable : Countable NodeState.
Proof.
  refine (inj_countable' (fun n => (NodeID n, Address n))
            (fun p => mkNodeState p.1 p.2) _). by intros [].
Defined.

(** ** dht/helpers.go *)
Definition xorDistance (id1 id2 : TypeID) : TypeID := zip_with Z.lxor id1 id2.

Fixpoint compare (id1 id2 : TypeID) : Z :=
  match id1, id2 with
  | v :: t1, w :: t2 => if v <? w then -1 else if v >? w then 1 else compare t1 t2
  | _, _ => 0
  end.

Definition isCloser (target id1 id2 : TypeID) : bool :=
  compare (xorDistance target id1) (xorDistance target id2) >? 0.

Fixpoint InsertOrdered (target : TypeID) (prevClosest : list NodeState)
    (potential : NodeState) : list NodeState :=
  match prevClosest with
  | [] => [potential]
  | prev :: rest =>
      if isCloser target (NodeID prev) (NodeID potential)
      then potential :: prev :: rest
      else prev :: InsertOrdered target rest potential
  end.

(** [bits.LeadingZeros8]. *)
Definition LeadingZeros8 (x : Z) : nat :=
  if x =? 0 then 8%nat else (7 - Z.to_nat (Z.log2 x))%nat.

Fixpoint CommonLeadingBits (id1 id2 : TypeID) : nat :=
  match id1, id2 with
  | v :: t1, w :: t2 =>
      let xored := Z.lxor v w in
      if xored =? 0 then (8 + CommonLeadingBits t1 t2)%nat else LeadingZeros8 xored
  | _, _ => 0%nat
  end.

(** Go's [^x] on a byte. *)
Definition bnot (x : Z) : Z := Z.lxor x 255.

(** [rnd] is what [rand.Read] leaves in [generated]. *)
Definition RandNodeID (rnd base : TypeID) (leadingBitsInCommon : nat) : outcome TypeID :=
  let q := (leadingBitsInCommon / 8)%nat in
  let r := (leadingBitsInCommon mod 8)%nat in
  let generated := take q base ++ drop q rnd in
  let b1 := Z.shiftr 128 (Z.of_nat r) in
  match base !! q, generated !! q with
  | Some bq, Some gq =>
      let b2 := Z.land (bnot (Z.land bq b1)) b1 in
      let gq :=
        if (0 <? r)%nat then
          let b := Z.shiftr 255 (Z.of_nat r) in
          Z.lor (Z.land gq b) (Z.land bq (bnot b))
        else gq in
      let gq := Z.lor (Z.land gq (bnot b1)) b2 in
      Ok (<[q := gq]> generated)
  | _, _ => Panic "index out of range"
  end.

(** [Itob]: [uint64(v)], big endian. *)
Definition Itob (v : Z) : bytes := be_split 8 (u64 v).

(** ** The metric *)
Definition dist (target : TypeID) (n : NodeState) : Z := Z.lxor (be target) (be (NodeID n)).
Definition closer_eq (target : TypeID) (a b : NodeState) : Prop := dist target a <= dist target b.
Definition wf_node (n : NodeState) : Prop := wf_id (NodeID n).
#[export] Instance wf_node_dec n : Decision (wf_node n).
Proof. unfold wf_node. apply _. Defined.

#[export] Instance closer_eq_trans t : Transitive (closer_eq t).
Proof. intros a b c. unfold closer_eq. lia. Qed.
#[export] Instance closer_eq_total t : Total (closer_eq t).
Proof. intros a b. unfold closer_eq. lia. Qed.

Lemma wf_id_xor a b : wf_id a -> wf_id b -> wf_id (xorDistance a b).
Proof.
  intros [La Wa] [Lb Wb]. unfold wf_id, xorDistance.
  rewrite length_zip_with_l_eq by congruence. auto using wf_bytes_lxor.
Qed.

Lemma wf_id_eq a b : wf_id a -> wf_id b -> be a = be b -> a = b.
Proof. intros [La Wa] [Lb Wb] H. apply be_inj; congruence. Qed.

Lemma GenerateKeyHash_wf key : wf_id (GenerateKeyHash key).
Proof. split; [apply Sum512_length | apply Sum512_wf]. Qed.

Lemma wf_id_zero : wf_id zero_id.
Proof. by apply (bool_decide_unpack _). Qed.
#[export] Hint Resolve wf_id_xor GenerateKeyHash_wf wf_id_zero : peerster.

Lemma compare_be_gen a b :
  wf_bytes a -> wf_bytes b -> length a = length b ->
  compare a b = Z.sgn (be a - be b).
Proof.
  intros Ha. revert b. induction Ha as [|x a Hx Ha IH]; intros b Hb Hl.
  - by destruct b.
  - destruct Hb as [|y b Hy Hb]; simplify_eq/=. rewrite IH, <-Hl by done.
    pose proof (be_range a Ha). pose proof (be_range b Hb) as Rb. rewrite <-Hl in Rb.
    destruct (Z.ltb_spec x y); [|rewrite Z.gtb_ltb; destruct (Z.ltb_spec y x)].
    + symmetry. apply Z.sgn_neg. apply Z.lt_sub_0. by apply concat_lt.
    + symmetry. apply Z.sgn_pos. apply Z.lt_0_sub. by apply concat_lt.
    + replace y with x by lia. f_equal. lia.
Qed.

(** Comparing identifiers byte by byte compares the numbers they denote. *)
Lemma compare_be a b : wf_id a -> wf_id b -> compare a b = Z.sgn (be a - be b).
Proof. intros [? ?] [? ?]. apply compare_be_gen; congruence. Qed.

Lemma be_xorDistance a b : wf_id a -> wf_id b -> be (xorDistance a b) = Z.lxor (be a) (be b).
Proof. intros [? ?] [? ?]. apply be_lxor; congruence. Qed.

(** [isCloser] decides the strict XOR-metric order. *)
Lemma isCloser_true t a b :
  wf_id t -> wf_id a -> wf_id b ->
  isCloser t a b = true <-> Z.lxor (be t) (be b) < Z.lxor (be t) (be a).
Proof.
  intros Ht Ha Hb. unfold isCloser. rewrite compare_be, !be_xorDistance by auto with peerster.
  rewrite Z.gtb_lt. pose proof (Z.sgn_pos_iff (Z.lxor (be t) (be a) - Z.lxor (be t) (be b))).
  pose proof (Z.sgn_spec (Z.lxor (be t) (be a) - Z.lxor (be t) (be b))). lia.
Qed.

Lemma isCloser_false t a b :
  wf_id t -> wf_id a -> wf_id b ->
  isCloser t a b = false <-> Z.lxor (be t) (be a) <= Z.lxor (be t) (be b).
Proof.
  intros. rewrite <-not_true_iff_false, isCloser_true by done. lia.
Qed.

(** ** InsertOrdered *)
Lemma InsertOrdered_perm t l p : InsertOrdered t l p ≡ₚ p :: l.
Proof.
  induction l as [|x l IH]; simpl; [done |].
  destruct (isCloser _ _ _); [done |]. rewrite IH. apply Permutation_swap.
Qed.

Lemma elem_of_InsertOrdered t l p n : n ∈ InsertOrdered t l p <-> n = p \/ n ∈ l.
Proof. by rewrite InsertOrdered_perm, elem_of_cons. Qed.

Lemma length_InsertOrdered t l p : length (InsertOrdered t l p) = S (length l).
Proof. by rewrite InsertOrdered_perm. Qed.

Lemma InsertOrdered_ne t l p : InsertOrdered t l p <> [].
Proof. intros H. apply (f_equal length) in H. by rewrite length_InsertOrdered in H. Qed.

(** Inserting into a list ordered from closest to furthest keeps it so. *)
Lemma InsertOrdered_sorted t l p :
  wf_id t -> wf_node p -> Forall wf_node l ->
  StronglySorted (closer_eq t) l -> StronglySorted (closer_eq t) (InsertOrdered t l p).
Proof.
  intros Ht Hp Hl Hs. induction Hs as [|x l Hs IH Hx]; simpl.
  - repeat constructor.
  - inversion Hl as [|?? Hwx Hwl]; subst.
    destruct (isCloser t (NodeID x) (NodeID p)) eqn:Hc.
    + apply isCloser_true in Hc; [| done..].
      assert (closer_eq t p x) by (unfold closer_eq, dist; lia).
      constructor; [by constructor |]. constructor; [done |].
      eapply Forall_impl; [exact Hx|]. intros y Hy. by etransitivity.
    + apply isCloser_false in Hc; [| done..].
      constructor; [by apply IH |]. apply Forall_forall. intros y Hy.
      apply elem_of_InsertOrdered in Hy as [->|Hy]; [exact Hc |].
      by eapply Forall_forall in Hx.
Qed.

Lemma InsertOrdered_wf t l p :
  wf_node p -> Forall wf_node l -> Forall wf_node (InsertOrdered t l p).
Proof. intros. rewrite InsertOrdered_perm. by constructor. Qed.

(** The inserted node becomes the head exactly when it beats the old head. *)
Lemma InsertOrdered_head t l p :
  head (InsertOrdered t l p) =
  match head l with
  | Some x => if isCloser t (NodeID x) (NodeID p) then Some p else Some x
  | None => Some p
  end.
Proof. destruct l; simpl; [done |]. by destruct (isCloser _ _ _). Qed.
#[export] Hint Resolve InsertOrdered_sorted InsertOrdered_wf : peerster.

(** ** CommonLeadingBits *)
Lemma log2_unique_bit v k : 0 <= k -> 0 <= v < 2 ^ (k + 1) -> Z.testbit v k = true -> Z.log2 v = k.
Proof.
  intros Hk Hv Hb. destruct (Z.eq_dec v 0) as [->|]; [by rewrite Z.bits_0 in Hb |].
  pose proof (proj1 (Z.log2_lt_pow2 v (k + 1) ltac:(lia)) ltac:(lia)).
  destruct (decide (Z.log2 v < k)); [|lia].
  rewrite Z.bits_above_log2 in Hb by lia. done.
Qed.

Lemma lt_pow2_bits v k :
  0 <= k -> 0 <= v -> (forall i, k <= i -> Z.testbit v i = false) -> v < 2 ^ k.
Proof.
  intros Hk Hv Hb. destruct (Z.eq_dec v 0) as [->|]; [apply Z.pow_pos_nonneg; lia |].
  apply Z.log2_lt_pow2; [lia |]. destruct (decide (k <= Z.log2 v)); [|lia].
  specialize (Hb _ l). rewrite Z.bit_log2 in Hb by lia. done.
Qed.

Lemma byte_bit_high v i : byte_ok v -> 8 <= i -> Z.testbit v i = false.
Proof.
  intros Hv Hi. rewrite <-(wrap_small 8 v Hv). unfold wrap. apply Z.mod_pow2_bits_high. lia.
Qed.

Lemma log2_concat x k r : 0 <= k -> 0 < x -> 0 <= r < 2 ^ k -> Z.log2 (x * 2 ^ k + r) = Z.log2 x + k.
Proof.
  intros Hk Hx Hr. pose proof (Z.log2_spec x Hx) as [Hl Hu]. pose proof (Z.log2_nonneg x).
  apply Z.log2_unique; [lia |].
  rewrite <-Z.add_1_r, <-Z.add_assoc, (Z.add_comm k 1), Z.add_assoc.
  rewrite !Z.pow_add_r in * by lia. rewrite <-Z.add_1_r, Z.pow_add_r in Hu by lia. nia.
Qed.

Lemma CommonLeadingBits_gen a b :
  wf_bytes a -> wf_bytes b -> length a = length b ->
  Z.of_nat (CommonLeadingBits a b) =
    8 * Z.of_nat (length a) - (if bool_decide (a = b) then 0 else Z.log2 (Z.lxor (be a) (be b)) + 1).
Proof.
  intros Ha. revert b. induction Ha as [|x a Hx Ha IH]; intros b Hb Hl.
  - destruct b; done.
  - destruct Hb as [|y b Hy Hb]; simplify_eq/=. specialize (IH b Hb Hl).
    pose proof (be_range a Ha) as Ra. pose proof (be_range b Hb) as Rb. rewrite <-Hl in Rb |- *.
    rewrite lxor_shifted by lia.
    destruct (Z.eqb_spec (Z.lxor x y) 0) as [E|E].
    + apply Z.lxor_eq in E as ->. rewrite Z.lxor_nilpotent, Z.mul_0_l, Z.add_0_l.
      case_bool_decide as E1; case_bool_decide as E2; simplify_eq; lia.
    + rewrite bool_decide_eq_false_2 by (intros ?; simplify_eq; by rewrite Z.lxor_nilpotent in E).
      pose proof (in_width_lxor 8 x y ltac:(lia) Hx Hy) as [Hp Hlt].
      rewrite log2_concat; [| lia.. | apply (in_width_lxor (8 * Z.of_nat (length a))); unfold in_width; lia].
      unfold LeadingZeros8. rewrite (proj2 (Z.eqb_neq _ _) E).
      pose proof (proj1 (Z.log2_lt_pow2 (Z.lxor x y) 8 ltac:(lia)) Hlt).
      pose proof (Z.log2_nonneg (Z.lxor x y)). lia.
Qed.

(** The number of common leading bits measures the XOR distance. *)
Lemma CommonLeadingBits_log2 a b :
  wf_id a -> wf_id b -> a <> b ->
  Z.of_nat (CommonLeadingBits a b) = 511 - Z.log2 (Z.lxor (be a) (be b)).
Proof.
  intros [La Wa] [Lb Wb] Hne. rewrite CommonLeadingBits_gen, La by congruence.
  rewrite bool_decide_eq_false_2 by done. change (Z.of_nat IDByteSize) with 64. lia.
Qed.

Lemma CommonLeadingBits_refl a : wf_id a -> CommonLeadingBits a a = (IDByteSize * 8)%nat.
Proof.
  intros [La Wa]. apply Nat2Z.inj. rewrite CommonLeadingBits_gen, La by done.
  by rewrite bool_decide_eq_true_2.
Qed.

Lemma CommonLeadingBits_full a b :
  wf_id a -> wf_id b -> (CommonLeadingBits a b < IDByteSize * 8)%nat <-> a <> b.
Proof.
  intros Ha Hb. split.
  - intros H ->. rewrite CommonLeadingBits_refl in H by done. lia.
  - intros Hne. pose proof (CommonLeadingBits_log2 a b Ha Hb Hne).
    pose proof (Z.log2_nonneg (Z.lxor (be a) (be b))). unfold IDByteSize. simpl. lia.
Qed.

Lemma CommonLeadingBits_app p a b :
  CommonLeadingBits (p ++ a) (p ++ b) = (8 * length p + CommonLeadingBits a b)%nat.
Proof.
  induction p as [|x p IH]; simpl; [done |]. rewrite Z.lxor_nilpotent, IH. simpl. lia.
Qed.

(** ** RandNodeID *)
Lemma land_byte_ok x y : byte_ok x -> 0 <= y -> byte_ok (Z.land x y).
Proof.
  intros Hx Hy. assert (0 <= Z.land x y) by (apply Z.land_nonneg; right; done).
  split; [done |]. apply lt_pow2_bits; [lia | done |].
  intros i Hi. by rewrite Z.land_spec, (byte_bit_high x).
Qed.
Lemma lor_byte_ok x y : byte_ok x -> byte_ok y -> byte_ok (Z.lor x y).
Proof.
  intros Hx Hy. pose proof Hx as [Hx0 _]. pose proof Hy as [Hy0 _].
  assert (0 <= Z.lor x y) by (apply Z.lor_nonneg; done).
  split; [done |]. apply lt_pow2_bits; [lia | done |].
  intros i Hi. by rewrite Z.lor_spec, (byte_bit_high x), (byte_bit_high y).
Qed.
Lemma bnot_byte_ok x : byte_ok x -> byte_ok (bnot x).
Proof. intros. apply in_width_lxor; [lia | done |]. unfold in_width. lia. Qed.
#[export] Hint Resolve land_byte_ok lor_byte_ok bnot_byte_ok : peerster.

(** The byte that [RandNodeID] writes at index [q], as one expression. *)
Definition rand_byte (bq gq : Z) (r : nat) : Z :=
  let b1 := Z.shiftr 128 (Z.of_nat r) in
  let b2 := Z.land (bnot (Z.land bq b1)) b1 in
  let gq :=
    if (0 <? r)%nat then
      let b := Z.shiftr 255 (Z.of_nat r) in
      Z.lor (Z.land gq b) (Z.land bq (bnot b))
    else gq in
  Z.lor (Z.land gq (bnot b1)) b2.

Lemma shiftr_128 r : (r < 8)%nat -> Z.shiftr 128 (Z.of_nat r) = 2 ^ (7 - Z.of_nat r).
Proof. intros H. by do 8 (destruct r as [|r]; [done |]); lia. Qed.
Lemma shiftr_255 r : (r < 8)%nat -> Z.shiftr 255 (Z.of_nat r) = Z.ones (8 - Z.of_nat r).
Proof. intros H. by do 8 (destruct r as [|r]; [done |]); lia. Qed.

Lemma bnot_bit x i : 0 <= i < 8 -> Z.testbit (bnot x) i = negb (Z.testbit x i).
Proof.
  intros H. unfold bnot. rewrite Z.lxor_spec. change 255 with (Z.ones 8).
  rewrite Z.ones_spec_low by lia. apply xorb_true_r.
Qed.

Lemma rand_byte_ok bq gq r :
  byte_ok bq -> byte_ok gq -> (r < 8)%nat -> byte_ok (rand_byte bq gq r).
Proof.
  intros Hb Hg Hr. unfold rand_byte.
  assert (forall n, 0 <= n -> byte_ok (Z.shiftr 128 n)) as H1.
  { intros n Hn. rewrite Z.shiftr_div_pow2 by done.
    pose proof (Z.pow_pos_nonneg 2 n ltac:(lia) Hn).
    split; [apply Z.div_pos; lia | apply Z.div_lt_upper_bound; lia]. }
  assert (forall n, 0 <= Z.shiftr 255 n) as H2 by (intros; by apply Z.shiftr_nonneg).
  assert (byte_ok (Z.shiftr 255 (Z.of_nat r))) as H3.
  { rewrite shiftr_255 by done. destruct r as [|[|[|[|[|[|[|[|]]]]]]]]; try done; lia. }
  specialize (H1 (Z.of_nat r) ltac:(lia)). destruct H1 as [H1 H1'].
  apply lor_byte_ok.
  - apply land_byte_ok; [| by apply bnot_byte_ok].
    destruct (0 <? r)%nat; [| done].
    apply lor_byte_ok; apply land_byte_ok; auto. by apply bnot_byte_ok.
  - apply land_byte_ok; [| done]. apply bnot_byte_ok. by apply land_byte_ok.
Qed.

(** Its bits agree with the base above position [7 - r], where they differ. *)
Lemma rand_byte_bit bq gq r i :
  (r < 8)%nat -> 7 - Z.of_nat r <= i < 8 ->
  Z.testbit (rand_byte bq gq r) i = xorb (Z.testbit bq i) (i =? 7 - Z.of_nat r).
Proof.
  intros Hr Hi. unfold rand_byte. rewrite shiftr_128, shiftr_255 by done.
  rewrite !Z.lor_spec, !Z.land_spec, !bnot_bit, !Z.land_spec by lia.
  rewrite Z.pow2_bits_eqb by lia.
  destruct (Z.eqb_spec (7 - Z.of_nat r) i) as [E|E].
  - rewrite <-E, Z.eqb_refl. by destruct (Z.testbit bq _); rewrite andb_false_r.
  - rewrite (proj2 (Z.eqb_neq i _)) by lia. rewrite xorb_false_r, !andb_false_r, orb_false_r.
    rewrite andb_true_r. destruct (Nat.ltb_spec 0 r); [| lia].
    rewrite Z.lor_spec, !Z.land_spec, bnot_bit, Z.ones_spec_high by lia.
    by rewrite andb_false_r, andb_true_r.
Qed.

Lemma rand_byte_zeros bq gq r :
  byte_ok bq -> byte_ok gq -> (r < 8)%nat ->
  Z.lxor bq (rand_byte bq gq r) <> 0 /\ LeadingZeros8 (Z.lxor bq (rand_byte bq gq r)) = r.
Proof.
  intros Hb Hg Hr. pose proof (rand_byte_ok bq gq r Hb Hg Hr) as Hok.
  pose proof (in_width_lxor 8 _ _ ltac:(lia) Hb Hok) as [Hp Hlt].
  assert (Hl : Z.log2 (Z.lxor bq (rand_byte bq gq r)) = 7 - Z.of_nat r).
  { apply log2_unique_bit; [lia | split; [done |] |].
    - apply lt_pow2_bits; [lia | done |]. intros i Hi.
      destruct (decide (i < 8)); [| apply byte_bit_high; [done | lia]].
      rewrite Z.lxor_spec, rand_byte_bit by lia.
      rewrite (proj2 (Z.eqb_neq i _)) by lia. by rewrite xorb_false_r, xorb_nilpotent.
    - rewrite Z.lxor_spec, rand_byte_bit, Z.eqb_refl by lia. by destruct (Z.testbit _ _). }
  assert (Z.lxor bq (rand_byte bq gq r) <> 0).
  { intros E. rewrite Z.lxor_eq_0_iff in E. rewrite <-E, Z.lxor_nilpotent in Hl.
    pose proof (rand_byte_bit bq gq r (7 - Z.of_nat r) Hr ltac:(lia)) as Hbit.
    rewrite Z.eqb_refl, <-E in Hbit. by destruct (Z.testbit _ _). }
  split; [done |]. unfold LeadingZeros8. rewrite (proj2 (Z.eqb_neq _ _)), Hl by done. lia.
Qed.

Lemma RandNodeID_bits rnd base l :
  wf_id rnd -> wf_id base -> (l < IDByteSize * 8)%nat ->
  exists g, RandNodeID rnd base l = Ok g /\ wf_id g /\ CommonLeadingBits base g = l.
Proof.
  intros [Lr Wr] [Lb Wb] Hlt. unfold RandNodeID.
  set (q := (l / 8)%nat). set (r := (l mod 8)%nat).
  assert (Hr : (r < 8)%nat) by (apply Nat.mod_upper_bound; lia).
  assert (Hl : l = (8 * q + r)%nat) by (apply Nat.div_mod_eq).
  assert (Hq : (q < 64)%nat) by (change (IDByteSize * 8)%nat with 512%nat in Hlt; lia).
  change IDByteSize with 64%nat in *.
  destruct (lookup_lt_is_Some_2 base q) as [bq Hbq]; [lia |].
  destruct (lookup_lt_is_Some_2 rnd q) as [gq Hgq]; [lia |].
  assert (Hlt' : length (take q base) = q) by (rewrite length_take; lia).
  rewrite Hbq, lookup_app_r by lia. rewrite Hlt', Nat.sub_diag, lookup_drop, Nat.add_0_r, Hgq.
  change (exists g, Ok (<[q:=rand_byte bq gq r]> (take q base ++ drop q rnd)) = Ok g
    /\ wf_id g /\ CommonLeadingBits base g = l).
  assert (byte_ok bq) by (by eapply Forall_lookup_1 in Wb).
  assert (byte_ok gq) by (by eapply Forall_lookup_1 in Wr).
  eexists; split; [reflexivity |]. split; [split |].
  - rewrite length_insert, length_app, Hlt', length_drop. change IDByteSize with 64%nat. lia.
  - apply Forall_insert; [apply Forall_app; split; [by apply Forall_take | by apply Forall_drop] |].
    by apply rand_byte_ok.
  - rewrite insert_app_r_alt, Hlt', Nat.sub_diag by lia.
    rewrite (drop_S _ gq) by done. simpl (<[0%nat:=_]> _).
    rewrite <-(take_drop q base) at 1. rewrite (drop_S _ bq) by done.
    rewrite CommonLeadingBits_app, Hlt'. simpl.
    destruct (rand_byte_zeros bq gq r) as [Hn Hz]; [done.. |].
    rewrite (proj2 (Z.eqb_neq _ _) Hn), Hz. lia.
Qed.

(** For every position [l < 512], whatever the random bytes, [RandNodeID] returns
    an identifier that has exactly [l] leading bits in common with the base (the bit
    after the prefix is flipped), and it panics on every other position. *)
Theorem RandNodeID_common_bits rnd base l :
  wf_id rnd -> wf_id base ->
  if (l <? IDByteSize * 8)%nat
  then exists g, RandNodeID rnd base l = Ok g /\ wf_id g /\ CommonLeadingBits base g = l
  else RandNodeID rnd base l = Panic "index out of range".
Proof.
  intros Hr Hb. destruct (Nat.ltb_spec l (IDByteSize * 8)) as [Hlt|Hge]; [by apply RandNodeID_bits |].
  unfold RandNodeID. rewrite lookup_ge_None_2; [done |]. destruct Hb as [-> _].
  change (IDByteSize * 8)%nat with 512%nat in Hge. change IDByteSize with 64%nat.
  pose proof (Nat.div_mod_eq l 8). pose proof (Nat.mod_upper_bound l 8 ltac:(lia)). lia.
Qed.

Definition sample_id (x : Z) : TypeID := replicate 63 0 ++ [x].
Lemma sample_id_wf x : byte_ok x -> wf_id (sample_id x).
Proof.
  intros. split; [done |]. unfold sample_id. apply Forall_app. split; [| by constructor].
  apply Forall_replicate. unfold in_width. lia.
Qed.

Lemma RandNodeID_common_bits_witness :
  wf_id (sample_id 7) /\ wf_id zero_id /\
  (exists g, RandNodeID (sample_id 7) zero_id 509 = Ok g /\ wf_id g /\
    CommonLeadingBits zero_id g = 509%nat).
Proof.
  assert (wf_id (sample_id 7)) by (apply (bool_decide_unpack _); vm_compute; exact I).
  split; [done |]. split; [apply wf_id_zero |].
  exact (RandNodeID_common_bits (sample_id 7) zero_id 509 ltac:(done) wf_id_zero).
Defined.

(** C38. [isCloser] is the strict order of the XOR metric on the numbers the
    identifiers denote, and inserting a node with [InsertOrdered] into a list ordered
    from closest to furthest gives an ordered list with exactly one more node. *)
Theorem InsertOrdered_metric t l p :
  wf_id t -> wf_node p -> Forall wf_node l -> StronglySorted (closer_eq t) l ->
  (forall n, wf_node n -> isCloser t (NodeID n) (NodeID p) = true <-> dist t p < dist t n) /\
  StronglySorted (closer_eq t) (InsertOrdered t l p) /\ InsertOrdered t l p ≡ₚ p :: l.
Proof.
  intros Ht Hp Hl Hs. split; [intros n Hn; by apply isCloser_true |].
  split; [by apply InsertOrdered_sorted | apply InsertOrdered_perm].
Qed.

Definition sample_node (x : Z) : NodeState := mkNodeState (sample_id x) "127.0.0.1:5000".
Lemma InsertOrdered_metric_witness :
  InsertOrdered zero_id [sample_node 1; sample_node 6] (sample_node 3)
    = [sample_node 1; sample_node 3; sample_node 6] /\
  StronglySorted (closer_eq zero_id)
    (InsertOrdered zero_id [sample_node 1; sample_node 6] (sample_node 3)).
Proof.
  split; [vm_compute; reflexivity |].
  apply InsertOrdered_metric.
  - apply wf_id_zero.
  - by apply (bool_decide_unpack _).
  - by repeat constructor; apply (bool_decide_unpack _).
  - repeat constructor. unfold closer_eq. vm_compute. discriminate.
Defined.

(** The number of common leading bits is the position of the leading bit of the XOR
    distance: 512 exactly for equal identifiers, and otherwise [c < 512] with the
    distance in the interval [2^(511-c), 2^(512-c)). *)
Theorem CommonLeadingBits_metric a b :
  wf_id a -> wf_id b ->
  let c := Z.of_nat (CommonLeadingBits a b) in
  (c = 512 <-> a = b) /\
  (a <> b -> 0 <= c < 512 /\ 2 ^ (511 - c) <= Z.lxor (be a) (be b) < 2 ^ (512 - c)).
Proof.
  intros Ha Hb c. subst c. split.
  - split; [| intros <-; by rewrite CommonLeadingBits_refl].
    intros Hc. destruct (decide (a = b)) as [|Hne]; [done |].
    apply CommonLeadingBits_full in Hne; [| done..].
    change (IDByteSize * 8)%nat with 512%nat in Hne. lia.
  - intros Hne. rewrite CommonLeadingBits_log2 by done.
    assert (0 < Z.lxor (be a) (be b)) as Hpos.
    { assert (0 <= Z.lxor (be a) (be b)).
      { destruct Ha, Hb. apply Z.lxor_nonneg. split; intros _; by apply be_range. }
      destruct (Z.eq_dec (Z.lxor (be a) (be b)) 0) as [E|]; [| lia].
      apply Z.lxor_eq in E. by apply wf_id_eq in E. }
    pose proof (CommonLeadingBits_log2 a b Ha Hb Hne). pose proof (Z.log2_nonneg (Z.lxor (be a) (be b))).
    split; [lia |]. destruct (Z.log2_spec _ Hpos) as [Hlo Hhi].
    replace (511 - (511 - Z.log2 (Z.lxor (be a) (be b)))) with (Z.log2 (Z.lxor (be a) (be b))) by lia.
    replace (512 - (511 - Z.log2 (Z.lxor (be a) (be b))))
      with (Z.succ (Z.log2 (Z.lxor (be a) (be b)))) by lia. done.
Qed.

Lemma CommonLeadingBits_metric_witness :
  CommonLeadingBits (sample_id 1) (sample_id 6) = 509%nat /\
  2 ^ (511 - 509) <= Z.lxor (be (sample_id 1)) (be (sample_id 6)) < 2 ^ (512 - 509).
Proof.
  split; [vm_compute; reflexivity |].
  apply (CommonLeadingBits_metric (sample_id 1) (sample_id 6));
    [apply (bool_decide_unpack _); vm_compute; exact I .. | discriminate].
Defined.
