(* ===== verification/NodeStateArray.v ===== *)
(** * The array of candidate nodes of a lookup (dht/SafeNodeStateArray.go)

    One DHT lookup keeps the nodes it has heard of ordered by distance to its target,
    with the sets of nodes it has queried and that have answered.  Each method holds
    the structure's mutex from beginning to end, so a method is one atomic function of
    the state. *)
From S2P Require Import Prelude DhtId.

(** Reading a Go [map\[K\]bool]: a missing key reads [false]. *)
Definition flag (m : gmap TypeID bool) (k : TypeID) : bool := default false (m !! k).

Record SafeNodeStateArray := mkSNSA {
  Target : TypeID;
  exists_ : gmap TypeID bool;
  Queried : gmap TypeID bool;
  Responded : gmap TypeID bool;
  array : list NodeState
}.

Definition NewSafeNodeStateArray (target : TypeID) : SafeNodeStateArray :=
  mkSNSA target ∅ ∅ ∅ [].

(** The identity test [( *snsa.array)\[0\] == potential] compares pointers; the fresh
    pointer is the only element with its identifier (see [snsa_ok]), so it is the
    comparison of the nodes. *)
Definition Insert (s : SafeNodeStateArray) (potential : NodeState) : SafeNodeStateArray * bool :=
  if flag (exists_ s) (NodeID potential) then (s, false)
  else
    let array' := InsertOrdered (Target s) (array s) potential in
    (mkSNSA (Target s) (<[NodeID potential := true]> (exists_ s)) (Queried s) (Responded s) array',
     bool_decide (head array' = Some potential)).

(** [closer = closer || snsa.Insert(node)]: Go does not evaluate [Insert] when [closer]
    already holds. *)
Fixpoint InsertArray_loop (s : SafeNodeStateArray) (nodes : list NodeState)
    (except : TypeID) (closer : bool) : SafeNodeStateArray * bool :=
  match nodes with
  | [] => (s, closer)
  | node :: rest =>
      if bool_decide (NodeID node <> except) then
        if closer then InsertArray_loop s rest except true
        else let '(s', c) := Insert s node in InsertArray_loop s' rest except c
      else InsertArray_loop s rest except closer
  end.
Definition InsertArray (s : SafeNodeStateArray) (nodes : list NodeState) (except : TypeID) :=
  InsertArray_loop s nodes except false.

Definition SetQueried (s : SafeNodeStateArray) (ns : NodeState) : SafeNodeStateArray :=
  mkSNSA (Target s) (exists_ s) (<[NodeID ns := true]> (Queried s)) (Responded s) (array s).
Definition SetResponded (s : SafeNodeStateArray) (ns : NodeState) : SafeNodeStateArray :=
  mkSNSA (Target s) (exists_ s) (Queried s) (<[NodeID ns := true]> (Responded s)) (array s).

Definition hasResponded (s : SafeNodeStateArray) (ns : NodeState) : bool :=
  flag (Responded s) (NodeID ns).
Definition wasQueried (s : SafeNodeStateArray) (ns : NodeState) : bool :=
  flag (Queried s) (NodeID ns).

Fixpoint GetAlphaUnqueried_loop (s : SafeNodeStateArray) (l : list NodeState) (alpha : Z)
    : list NodeState :=
  match l with
  | [] => []
  | ns :: rest =>
      if negb (wasQueried s ns) then
        ns :: (if alpha - 1 =? 0 then [] else GetAlphaUnqueried_loop s rest (alpha - 1))
      else GetAlphaUnqueried_loop s rest alpha
  end.
Definition GetAlphaUnqueried (s : SafeNodeStateArray) (alpha : Z) : list NodeState :=
  GetAlphaUnqueried_loop s (array s) alpha.

Definition GetArrayCopy (s : SafeNodeStateArray) : list NodeState := array s.

Fixpoint GetKClosestUnqueried_loop (s : SafeNodeStateArray) (l : list NodeState) (k : Z)
    : list NodeState * list NodeState :=
  match l with
  | [] => ([], [])
  | node :: rest =>
      if hasResponded s node then
        let '(u, r) := if k - 1 =? 0 then ([], []) else GetKClosestUnqueried_loop s rest (k - 1)
        in (u, node :: r)
      else if negb (wasQueried s node) then
        let '(u, r) := if k - 1 =? 0 then ([], []) else GetKClosestUnqueried_loop s rest (k - 1)
        in (node :: u, r)
      else if k =? 0 then ([], []) else GetKClosestUnqueried_loop s rest k
  end.
Definition GetKClosestUnqueried (s : SafeNodeStateArray) (k : Z) :=
  GetKClosestUnqueried_loop s (array s) k.

Fixpoint GetKClosestResponded_loop (s : SafeNodeStateArray) (l : list NodeState) (k : Z)
    : list NodeState * bool :=
  match l with
  | [] => ([], false)
  | node :: rest =>
      if hasResponded s node then
        let '(r, ok) := if k - 1 =? 0 then ([], true) else GetKClosestResponded_loop s rest (k - 1)
        in (node :: r, ok)
      else if k =? 0 then ([], true) else GetKClosestResponded_loop s rest k
  end.
Definition GetKClosestResponded (s : SafeNodeStateArray) (k : Z) :=
  GetKClosestResponded_loop s (array s) k.

(** ** Invariant *)
Definition ids (l : list NodeState) : list TypeID := NodeID <$> l.

Record snsa_ok (s : SafeNodeStateArray) : Prop := {
  ok_target : wf_id (Target s);
  ok_nodes : Forall wf_node (array s);
  ok_sorted : StronglySorted (closer_eq (Target s)) (array s);
  ok_nodup : NoDup (ids (array s));
  ok_exists : forall id, flag (exists_ s) id = true <-> id ∈ ids (array s)
}.

Lemma flag_insert m k k' : flag (<[k := true]> m) k' = true <-> k' = k \/ flag m k' = true.
Proof.
  unfold flag. destruct (decide (k = k')) as [->|Hne].
  - rewrite lookup_insert_eq. simpl. tauto.
  - rewrite lookup_insert_ne by done. naive_solver.
Qed.

Lemma NewSafeNodeStateArray_ok t : wf_id t -> snsa_ok (NewSafeNodeStateArray t).
Proof.
  intros. split; simpl; [done | constructor | constructor | constructor |].
  intros id. unfold flag. rewrite lookup_empty. simpl. set_solver.
Qed.

Lemma SetQueried_ok s ns : snsa_ok s -> snsa_ok (SetQueried s ns).
Proof. by intros []; split. Qed.
Lemma SetResponded_ok s ns : snsa_ok s -> snsa_ok (SetResponded s ns).
Proof. by intros []; split. Qed.

Lemma Insert_frame s p :
  Target (Insert s p).1 = Target s /\ Queried (Insert s p).1 = Queried s /\
  Responded (Insert s p).1 = Responded s.
Proof. unfold Insert. by destruct (flag _ _). Qed.

Lemma Insert_ok s p : wf_node p -> snsa_ok s -> snsa_ok (Insert s p).1.
Proof.
  intros Hp [Ht Hn Hs Hd He]. unfold Insert.
  destruct (flag (exists_ s) (NodeID p)) eqn:Hf; [done |].
  assert (Hfresh : NodeID p ∉ ids (array s)) by (rewrite <-He; congruence).
  split; simpl; [done | by apply InsertOrdered_wf | by apply InsertOrdered_sorted | |].
  - unfold ids. rewrite InsertOrdered_perm. by constructor.
  - intros id. rewrite flag_insert, He. unfold ids. rewrite InsertOrdered_perm. set_solver.
Qed.

Lemma Insert_elem s p n :
  snsa_ok s -> n ∈ ids (array (Insert s p).1) <-> n = NodeID p \/ n ∈ ids (array s).
Proof.
  intros [_ _ _ _ He]. unfold Insert. destruct (flag _ _) eqn:Hf; simpl.
  - apply He in Hf. set_solver.
  - unfold ids. rewrite InsertOrdered_perm. set_solver.
Qed.

(** [Insert] answers [true] exactly when the node is new and strictly closer than
    every node of the array. *)
Lemma Insert_closest s p :
  wf_node p -> snsa_ok s ->
  (Insert s p).2 = true <->
    NodeID p ∉ ids (array s) /\ Forall (fun m => dist (Target s) p < dist (Target s) m) (array s).
Proof.
  intros Hp [Ht Hn Hs Hd He]. unfold Insert.
  destruct (flag (exists_ s) (NodeID p)) eqn:Hf; simpl.
  { apply He in Hf. split; [done | tauto]. }
  assert (Hfresh : NodeID p ∉ ids (array s)) by (rewrite <-He; congruence).
  rewrite bool_decide_eq_true, InsertOrdered_head.
  destruct (array s) as [|x l] eqn:El; simpl; [split; [by constructor | done] |].
  inversion Hs as [|?? Hs' Hx]; inversion Hn as [|?? Hwx Hwl]; subst.
  assert (x <> p) by (intros ->; set_solver).
  destruct (isCloser (Target s) (NodeID x) (NodeID p)) eqn:Hc.
  - apply isCloser_true in Hc; [| done..]. split; [| done]. intros _. split; [done |].
    constructor; [exact Hc |]. eapply Forall_impl; [exact Hx |].
    unfold closer_eq, dist in *. intros; lia.
  - apply isCloser_false in Hc; [| done..]. split; [congruence |].
    intros [_ Hall]. inversion Hall; subst. unfold dist in *. lia.
Qed.

(** ** InsertArray *)
Lemma InsertArray_loop_ok s nodes ex c :
  Forall wf_node nodes -> snsa_ok s -> snsa_ok (InsertArray_loop s nodes ex c).1.
Proof.
  intros Hn. revert s c. induction Hn as [|n nodes Hwn Hn IH]; intros s c Hs; simpl; [done |].
  case_bool_decide; [| by apply IH]. destruct c; [by apply IH |].
  pose proof (Insert_ok s n Hwn Hs). destruct (Insert s n) as [s' c']. by apply IH.
Qed.
Lemma InsertArray_ok s nodes ex :
  Forall wf_node nodes -> snsa_ok s -> snsa_ok (InsertArray s nodes ex).1.
Proof. apply InsertArray_loop_ok. Qed.

Lemma InsertArray_loop_frame s nodes ex c :
  let s' := (InsertArray_loop s nodes ex c).1 in
  Target s' = Target s /\ Queried s' = Queried s /\ Responded s' = Responded s.
Proof.
  revert s c. induction nodes as [|n nodes IH]; intros s c; simpl; [done |].
  case_bool_decide; [| apply IH]. destruct c; [apply IH |].
  pose proof (Insert_frame s n) as (? & ? & ?). destruct (Insert s n) as [s' c'].
  destruct (IH s' c') as (? & ? & ?). simpl in *. split_and!; congruence.
Qed.
Lemma InsertArray_frame s nodes ex :
  let s' := (InsertArray s nodes ex).1 in
  Target s' = Target s /\ Queried s' = Queried s /\ Responded s' = Responded s.
Proof. apply InsertArray_loop_frame. Qed.

Lemma InsertArray_loop_closer s nodes ex : InsertArray_loop s nodes ex true = (s, true).
Proof. induction nodes as [|n nodes IH]; simpl; [done |]. by case_bool_decide. Qed.

(** The nodes split into a prefix that is inserted and a rest that is ignored; the rest
    is empty unless the last node of the prefix became the closest one. *)
Lemma InsertArray_loop_split s nodes ex :
  Forall wf_node nodes -> snsa_ok s ->
  let '(s', closer) := InsertArray_loop s nodes ex false in
  exists pre post, nodes = pre ++ post /\
    (forall id, id ∈ ids (array s') <->
       id ∈ ids (array s) \/ id ∈ ids (filter (fun n => NodeID n <> ex) pre)) /\
    (closer = false -> post = []) /\
    (closer = true -> exists n, last pre = Some n /\ head (array s') = Some n).
Proof.
  intros Hn. revert s. induction Hn as [|n nodes Hwn Hn IH]; intros s Hs; simpl.
  { exists [], []. split_and!; [done | set_solver | done | done]. }
  destruct (decide (NodeID n <> ex)) as [Hd|Hd].
  - rewrite bool_decide_eq_true_2 by done.
    pose proof (Insert_elem s n) as Hel. pose proof (Insert_ok s n Hwn Hs) as Hok.
    assert (Hhead : (Insert s n).2 = true -> head (array (Insert s n).1) = Some n).
    { unfold Insert. destruct (flag _ _); simpl; [done |]. by rewrite bool_decide_eq_true. }
    destruct (Insert s n) as [s' c'] eqn:Ei; simpl in *. destruct c'.
    + rewrite InsertArray_loop_closer. exists [n], nodes. split_and!; [done | | done | by eauto].
      intros id. rewrite Hel by done. rewrite filter_cons_True, filter_nil by done. set_solver.
    + specialize (IH s' Hok). destruct (InsertArray_loop s' nodes ex false) as [s'' c''].
      destruct IH as (pre & post & -> & Hids & Hf & Ht). exists (n :: pre), post.
      split_and!; [done | | done |].
      * intros id. rewrite Hids, Hel, filter_cons_True by done. set_solver.
      * intros Hc. destruct (Ht Hc) as (m & Hm & Hhd). exists m. split; [| done].
        by rewrite last_cons, Hm.
  - rewrite bool_decide_eq_false_2 by done. specialize (IH s Hs).
    destruct (InsertArray_loop s nodes ex false) as [s'' c''].
    destruct IH as (pre & post & -> & Hids & Hf & Ht). exists (n :: pre), post.
    split_and!; [done | | done |].
    + intros id. by rewrite Hids, filter_cons_False.
    + intros Hc. destruct (Ht Hc) as (m & Hm & Hhd). exists m. split; [| done].
      by rewrite last_cons, Hm.
Qed.

(** An answered list only adds identifiers of its own nodes. *)
Lemma InsertArray_ids s nodes ex id :
  Forall wf_node nodes -> snsa_ok s ->
  id ∈ ids (array (InsertArray s nodes ex).1) -> id ∈ ids (array s) \/ id ∈ ids nodes.
Proof.
  intros Hn Hs. unfold InsertArray. pose proof (InsertArray_loop_split s nodes ex Hn Hs) as H.
  destruct (InsertArray_loop s nodes ex false) as [s' c].
  destruct H as (pre & post & -> & Hids & _). simpl. rewrite Hids. unfold ids.
  intros [?|Hin]; [by left | right]. apply list_elem_of_fmap in Hin as (n & -> & Hin).
  apply list_elem_of_filter in Hin as [_ Hin]. apply list_elem_of_fmap_2. set_solver.
Qed.

Lemma InsertArray_mono s nodes ex id :
  Forall wf_node nodes -> snsa_ok s ->
  id ∈ ids (array s) -> id ∈ ids (array (InsertArray s nodes ex).1).
Proof.
  intros Hn Hs. unfold InsertArray. pose proof (InsertArray_loop_split s nodes ex Hn Hs) as H.
  destruct (InsertArray_loop s nodes ex false) as [s' c].
  destruct H as (pre & post & -> & Hids & _). simpl. rewrite Hids. tauto.
Qed.

(** A list that brings a closer node brings a new one. *)
Lemma InsertArray_closer_new s nodes ex :
  Forall wf_node nodes -> snsa_ok s -> (InsertArray s nodes ex).2 = true ->
  exists n, n ∈ array (InsertArray s nodes ex).1 /\ NodeID n ∉ ids (array s).
Proof.
  unfold InsertArray. intros Hn. revert s. induction Hn as [|n nodes Hwn Hn IH]; intros s Hs; simpl.
  { done. }
  case_bool_decide; [| by apply IH].
  pose proof (Insert_closest s n Hwn Hs) as Hc. pose proof (Insert_ok s n Hwn Hs) as Hok.
  pose proof (Insert_elem s n) as Hel. destruct (Insert s n) as [s' [|]]; simpl in *.
  - intros _. rewrite InsertArray_loop_closer. destruct (proj1 Hc eq_refl) as [Hnew _].
    assert (Hin : NodeID n ∈ ids (array s')) by (apply Hel; auto).
    apply list_elem_of_fmap in Hin as (m & Em & Hm). exists m. simpl. by rewrite <-Em.
  - intros Hr. destruct (IH s' Hok Hr) as (m & Hm & Hnew). exists m. split; [done |].
    intros Hin. apply Hnew, Hel; auto.
Qed.

(** ** The selection methods, against list specifications *)
Definition unqueried (s : SafeNodeStateArray) (n : NodeState) : bool := negb (wasQueried s n).

Lemma GetAlphaUnqueried_loop_spec s l alpha :
  0 < alpha ->
  GetAlphaUnqueried_loop s l alpha = take (Z.to_nat alpha) (filter (fun n => unqueried s n) l).
Proof.
  revert alpha. induction l as [|n l IH]; intros alpha Ha; simpl; [by destruct (Z.to_nat alpha) |].
  rewrite filter_cons. change (negb (wasQueried s n)) with (unqueried s n).
  destruct (unqueried s n) eqn:E.
  - rewrite decide_True by done.
    replace (Z.to_nat alpha) with (S (Z.to_nat (alpha - 1))) by lia. simpl. f_equal.
    destruct (Z.eqb_spec (alpha - 1) 0) as [->|]; [done | apply IH; lia].
  - rewrite decide_False by (by intros ?). by apply IH.
Qed.

(** A node that the final phase of a lookup counts: it answered or was never asked. *)
Definition usable (s : SafeNodeStateArray) (n : NodeState) : bool :=
  hasResponded s n || unqueried s n.

Lemma GetKClosestUnqueried_loop_spec s l k :
  0 < k ->
  let best := take (Z.to_nat k) (filter (fun n => usable s n) l) in
  GetKClosestUnqueried_loop s l k =
    (filter (fun n => negb (hasResponded s n)) best, filter (fun n => hasResponded s n) best).
Proof.
  cbv zeta. revert k. induction l as [|n l IH]; intros k Hk; cbn [GetKClosestUnqueried_loop].
  { by destruct (Z.to_nat k). }
  rewrite filter_cons. change (negb (wasQueried s n)) with (unqueried s n).
  assert (Hnext : Z.to_nat k = S (Z.to_nat (k - 1))) by lia.
  assert (Hu : usable s n = hasResponded s n || unqueried s n) by done.
  destruct (hasResponded s n) eqn:Er; simpl in Hu.
  - rewrite decide_True by (rewrite Hu; exact I). rewrite Hnext. cbn [take].
    rewrite !filter_cons, decide_False, decide_True by (rewrite Er; simpl; tauto).
    destruct (Z.eqb_spec (k - 1) 0) as [->|]; [done |]. by rewrite IH by lia.
  - destruct (unqueried s n) eqn:E.
    + rewrite decide_True by (rewrite Hu; exact I). rewrite Hnext. cbn [take].
      rewrite !filter_cons, decide_True, decide_False by (rewrite Er; simpl; tauto).
      destruct (Z.eqb_spec (k - 1) 0) as [->|]; [done |]. by rewrite IH by lia.
    + rewrite decide_False by (rewrite Hu; tauto). rewrite (proj2 (Z.eqb_neq k 0)) by lia. by apply IH.
Qed.

Lemma GetKClosestResponded_loop_spec s l k :
  0 < k ->
  let answered := filter (fun n => hasResponded s n) l in
  GetKClosestResponded_loop s l k =
    (take (Z.to_nat k) answered, bool_decide (k <= Z.of_nat (length answered))).
Proof.
  cbv zeta. revert k. induction l as [|n l IH]; intros k Hk; cbn [GetKClosestResponded_loop].
  { rewrite bool_decide_eq_false_2 by (simpl; lia). by destruct (Z.to_nat k). }
  rewrite filter_cons. destruct (hasResponded s n) eqn:Er.
  - rewrite decide_True by done.
    replace (Z.to_nat k) with (S (Z.to_nat (k - 1))) by lia. cbn [take length].
    destruct (Z.eqb_spec (k - 1) 0) as [E|].
    + rewrite E. rewrite bool_decide_eq_true_2 by lia. done.
    + rewrite IH by lia. f_equal. apply bool_decide_ext. lia.
  - rewrite decide_False by (by intros ?). rewrite (proj2 (Z.eqb_neq k 0)) by lia. by apply IH.
Qed.

(** ** Properties *)

(** The array stays well formed under [Insert] and [InsertArray]: ordered by
    distance, without duplicates, with [exists] its set of identifiers; [Insert] answers
    [true] exactly for a new node strictly closer than all others. *)
Theorem snsa_insert_invariant s p nodes ex :
  wf_node p -> Forall wf_node nodes -> snsa_ok s ->
  snsa_ok (Insert s p).1 /\ snsa_ok (InsertArray s nodes ex).1 /\
  ((Insert s p).2 = true <-> NodeID p ∉ ids (array s) /\
    Forall (fun m => dist (Target s) p < dist (Target s) m) (array s)).
Proof.
  intros Hp Hn Hs. split; [by apply Insert_ok |].
  split; [by apply InsertArray_ok | by apply Insert_closest].
Qed.

Definition sample_snsa : SafeNodeStateArray :=
  (Insert (Insert (NewSafeNodeStateArray zero_id) (sample_node 9)).1 (sample_node 4)).1.
Lemma sample_snsa_ok : snsa_ok sample_snsa.
Proof.
  apply Insert_ok; [by apply (bool_decide_unpack _) |].
  apply Insert_ok; [by apply (bool_decide_unpack _) |].
  apply NewSafeNodeStateArray_ok, wf_id_zero.
Qed.
Lemma snsa_insert_invariant_witness :
  (Insert sample_snsa (sample_node 2)).2 = true /\
  snsa_ok (Insert sample_snsa (sample_node 2)).1.
Proof.
  split; [vm_compute; reflexivity |].
  apply (snsa_insert_invariant sample_snsa (sample_node 2) [] zero_id);
    [by apply (bool_decide_unpack _) | by constructor | apply sample_snsa_ok].
Defined.

(** [InsertArray] inserts a prefix of the answered nodes (other than [except]).
    When it returns [false] the prefix is the whole list.  When it returns [true] it
    stopped at the first node that became the closest: every later node is dropped,
    because Go does not evaluate [Insert] once [closer] holds. *)
Theorem InsertArray_prefix s nodes ex :
  Forall wf_node nodes -> snsa_ok s ->
  let '(s', closer) := InsertArray s nodes ex in
  exists pre post, nodes = pre ++ post /\
    (forall id, id ∈ ids (array s') <->
       id ∈ ids (array s) \/ id ∈ ids (filter (fun n => NodeID n <> ex) pre)) /\
    (closer = false -> post = []) /\
    (closer = true -> exists n, last pre = Some n /\ head (array s') = Some n).
Proof. apply InsertArray_loop_split. Qed.

(** Three answered nodes, two of them never inserted. *)
Lemma InsertArray_prefix_witness :
  (array <$> [(InsertArray sample_snsa [sample_node 1; sample_node 6; sample_node 3] zero_id).1])
    = [[sample_node 1; sample_node 4; sample_node 9]] /\
  let '(s', closer) := InsertArray sample_snsa [sample_node 1; sample_node 6; sample_node 3] zero_id in
  exists pre post, [sample_node 1; sample_node 6; sample_node 3] = pre ++ post /\
    (forall id, id ∈ ids (array s') <->
       id ∈ ids (array sample_snsa) \/ id ∈ ids (filter (fun n => NodeID n <> zero_id) pre)) /\
    (closer = false -> post = []) /\
    (closer = true -> exists n, last pre = Some n /\ head (array s') = Some n).
Proof.
  split; [vm_compute; reflexivity |].
  apply InsertArray_prefix; [| apply sample_snsa_ok].
  repeat constructor; by apply (bool_decide_unpack _).
Defined.

(** The selection methods compute what their comments say, for every positive bound:
    the first [alpha] nodes that were not queried; the [k] closest nodes that answered
    or were never queried, split into the two kinds; the [k] closest that answered,
    with [ok] telling whether there are [k]. *)
Theorem selections_spec s k :
  0 < k ->
  let n := Z.to_nat k in
  let best := take n (filter (fun m => usable s m) (array s)) in
  let answered := filter (fun m => hasResponded s m) (array s) in
  GetAlphaUnqueried s k = take n (filter (fun m => unqueried s m) (array s)) /\
  GetKClosestUnqueried s k =
    (filter (fun m => negb (hasResponded s m)) best, filter (fun m => hasResponded s m) best) /\
  GetKClosestResponded s k = (take n answered, bool_decide (k <= Z.of_nat (length answered))).
Proof.
  intros Hk. split; [by apply GetAlphaUnqueried_loop_spec |].
  split; [by apply GetKClosestUnqueried_loop_spec | by apply GetKClosestResponded_loop_spec].
Qed.

Lemma selections_spec_witness :
  GetAlphaUnqueried sample_snsa 1 = [sample_node 4] /\
  GetAlphaUnqueried sample_snsa 1 =
    take (Z.to_nat 1) (filter (fun m => unqueried sample_snsa m) (array sample_snsa)).
Proof.
  split; [vm_compute; reflexivity |]. apply (selections_spec sample_snsa 1). lia.
Defined.
