(* ===== verification/KBuckets.v ===== *)
(** * The routing table of the DHT (gossiper/kBuckets.go)

    A node keeps 512 buckets; bucket [i] holds at most [bucketSize] nodes whose
    identifiers have exactly [i] leading bits in common with its own, most recently
    seen first. *)
From S2P Require Import Prelude DhtId NodeStateArray.

Definition bucketSize : nat := 20.

Record bucket := mkBucket { Nodes : list NodeState }.
Definition newBucket : bucket := mkBucket [].

Record bucketTable := mkTable {
  MyNodeID : TypeID;
  Buckets : list bucket   (* an array of IDByteSize * 8 buckets *)
}.
Definition newBucketTable (myNodeID : TypeID) : bucketTable :=
  mkTable myNodeID (replicate (IDByteSize * 8) newBucket).

(** The index and the node with the given identifier, as the [range] loop finds them. *)
Fixpoint find_node (l : list NodeState) (id : TypeID) : option (nat * NodeState) :=
  match l with
  | [] => None
  | n :: rest =>
      if decide (NodeID n = id) then Some (0%nat, n)
      else (fun p => (S p.1, p.2)) <$> find_node rest id
  end.

Section update.
(** The answer of [sendPing]: whether the node replied before the timeout. *)
Context (alive : NodeState -> bool).

Definition bucket_updateNode (b : bucket) (ns : NodeState) : bucket * bool :=
  match find_node (Nodes b) (NodeID ns) with
  | Some (i, node) =>
      (mkBucket ((node :: take i (Nodes b)) ++ drop (S i) (Nodes b)), false)
  | None =>
      match (bucketSize <=? length (Nodes b))%nat, Nodes b !! (bucketSize - 1)%nat with
      | true, Some lastNode =>
          if alive lastNode
          then (mkBucket (lastNode :: take (bucketSize - 1) (Nodes b)), false)
          else (mkBucket (ns :: take (bucketSize - 1) (Nodes b)), true)
      | _, _ => (mkBucket (ns :: Nodes b), true)
      end
  end.

Definition updateNode (bt : bucketTable) (ns : NodeState) : bucketTable * bool :=
  let clb := CommonLeadingBits (MyNodeID bt) (NodeID ns) in
  match Buckets bt !! clb with
  | Some b =>
      let '(b', changed) := bucket_updateNode b ns in
      (mkTable (MyNodeID bt) (<[clb := b']> (Buckets bt)), changed)
  | None => (bt, false)
  end.
End update.

Definition alphaClosest_step (target : TypeID) (alpha : nat)
    (results : list NodeState) (node : NodeState) : list NodeState :=
  if (length results <? alpha)%nat then results ++ [node]
  else
    let results := InsertOrdered target results node in
    if (alpha <? length results)%nat then take alpha results else results.

Definition all_nodes (bt : bucketTable) : list NodeState := Buckets bt ≫= Nodes.

Definition alphaClosest (bt : bucketTable) (target : TypeID) (alpha : nat) : list NodeState :=
  foldl (fun results b => foldl (alphaClosest_step target alpha) results (Nodes b)) [] (Buckets bt).

(** ** Invariant *)
Record bucket_ok (me : TypeID) (i : nat) (b : bucket) : Prop := {
  bo_size : (length (Nodes b) <= bucketSize)%nat;
  bo_nodup : NoDup (ids (Nodes b));
  bo_wf : Forall wf_node (Nodes b);
  bo_clb : Forall (fun n => CommonLeadingBits me (NodeID n) = i) (Nodes b)
}.
Record table_ok (bt : bucketTable) : Prop := {
  to_me : wf_id (MyNodeID bt);
  to_len : length (Buckets bt) = (IDByteSize * 8)%nat;
  to_buckets : forall i b, Buckets bt !! i = Some b -> bucket_ok (MyNodeID bt) i b
}.

Lemma newBucketTable_ok me : wf_id me -> table_ok (newBucketTable me).
Proof.
  intros Hme. split; [done | apply length_replicate |].
  intros i b [-> _]%lookup_replicate_1. split; simpl; try constructor. unfold bucketSize. lia.
Qed.

Lemma find_node_Some l id i n :
  find_node l id = Some (i, n) -> l = take i l ++ n :: drop (S i) l /\ NodeID n = id.
Proof.
  revert i. induction l as [|x l IH]; intros i H; simpl in H; [done |].
  destruct (decide (NodeID x = id)) as [Hx|Hx]; [by simplify_eq |].
  destruct (find_node l id) as [[j m]|]; simplify_eq/=.
  destruct (IH j eq_refl) as [E ?]. split; [|done]. simpl. by rewrite <-E.
Qed.
Lemma find_node_None l id : find_node l id = None <-> id ∉ ids l.
Proof.
  induction l as [|x l IH]; simpl; [set_solver |].
  destruct (decide (NodeID x = id)); [set_solver |]. rewrite fmap_None, IH. set_solver.
Qed.

(** The four outcomes of [bucket.updateNode] as a relation between the node lists. *)
Inductive bucket_change (alive : NodeState -> bool) (ns : NodeState)
    : list NodeState -> list NodeState -> bool -> Prop :=
  | bc_known pre n post :
      NodeID n = NodeID ns ->
      bucket_change alive ns (pre ++ n :: post) (n :: pre ++ post) false
  | bc_room l :
      NodeID ns ∉ ids l -> (length l < bucketSize)%nat ->
      bucket_change alive ns l (ns :: l) true
  | bc_alive l n :
      NodeID ns ∉ ids (l ++ [n]) -> length (l ++ [n]) = bucketSize -> alive n = true ->
      bucket_change alive ns (l ++ [n]) (n :: l) false
  | bc_dead l n :
      NodeID ns ∉ ids (l ++ [n]) -> length (l ++ [n]) = bucketSize -> alive n = false ->
      bucket_change alive ns (l ++ [n]) (ns :: l) true.

Lemma bucket_updateNode_change alive b ns :
  (length (Nodes b) <= bucketSize)%nat ->
  let '(b', changed) := bucket_updateNode alive b ns in
  bucket_change alive ns (Nodes b) (Nodes b') changed.
Proof.
  intros Hlen. unfold bucket_updateNode.
  destruct (find_node (Nodes b) (NodeID ns)) as [[i n]|] eqn:Ef.
  - apply find_node_Some in Ef as [E Hid]. cbn [Nodes]. rewrite E at 1. by constructor.
  - apply find_node_None in Ef. destruct (Nat.leb_spec bucketSize (length (Nodes b))) as [Hge|Hlt].
    + assert (length (Nodes b) = bucketSize) as Hl by lia.
      assert (exists l n, Nodes b = l ++ [n]) as (l & n & El).
      { destruct (Nodes b) as [|x l] using rev_ind; [done | eauto]. }
      assert (length l = (bucketSize - 1)%nat) as Hll.
      { rewrite El, length_app in Hl. simpl in Hl. lia. }
      rewrite El in *. rewrite lookup_app_r, Hll, Nat.sub_diag by lia. simpl ([n] !! 0%nat).
      cbn match. rewrite take_app_length' by done.
      destruct (alive n) eqn:Ea; by constructor.
    + by constructor.
Qed.

Lemma bucket_ok_perm me i l l' : l ≡ₚ l' -> bucket_ok me i (mkBucket l) -> bucket_ok me i (mkBucket l').
Proof.
  intros Hp [Hs Hd Hwf Hclb]. unfold ids in *. simpl in *.
  split; unfold ids; simpl; by rewrite <-Hp.
Qed.

Lemma bucket_ok_cons me i l ns :
  wf_node ns -> CommonLeadingBits me (NodeID ns) = i -> NodeID ns ∉ ids l ->
  (length l < bucketSize)%nat -> bucket_ok me i (mkBucket l) -> bucket_ok me i (mkBucket (ns :: l)).
Proof.
  intros Hw Hc Hn Hl [Hs Hd Hwf Hclb]. simpl in *. split; simpl; [lia | by apply NoDup_cons | by constructor | by constructor].
Qed.

Lemma bucket_ok_init me i l n : bucket_ok me i (mkBucket (l ++ [n])) -> bucket_ok me i (mkBucket l).
Proof.
  intros [Hs Hd Hwf Hclb]. unfold ids in *. simpl in *. rewrite length_app, ?fmap_app in *.
  apply NoDup_app in Hd as [Hd _]. apply Forall_app in Hwf as [? _]. apply Forall_app in Hclb as [? _].
  split; simpl; [lia | done..].
Qed.

Lemma bucket_change_ok alive ns me i l l' changed :
  wf_node ns -> CommonLeadingBits me (NodeID ns) = i ->
  bucket_change alive ns l l' changed -> bucket_ok me i (mkBucket l) -> bucket_ok me i (mkBucket l').
Proof.
  intros Hw Hc Hb Hok. destruct Hb as [pre n post Hid | l Hn Hl | l n Hn Hl _ | l n Hn Hl _].
  - eapply bucket_ok_perm; [| done]. by rewrite Permutation_middle.
  - by apply bucket_ok_cons.
  - eapply bucket_ok_perm; [| done]. symmetry. apply Permutation_cons_append.
  - apply bucket_ok_cons; [done | done | unfold ids in *; set_solver | | by eapply bucket_ok_init].
    rewrite length_app in Hl. simpl in Hl. lia.
Qed.

Lemma updateNode_ok alive bt ns : wf_node ns -> table_ok bt -> table_ok (updateNode alive bt ns).1.
Proof.
  intros Hw [Hme Hlen Hbs]. unfold updateNode.
  destruct (Buckets bt !! CommonLeadingBits (MyNodeID bt) (NodeID ns)) as [b|] eqn:Eb; [| done].
  pose proof (Hbs _ _ Eb) as Hb. pose proof (bucket_updateNode_change alive b ns (bo_size _ _ _ Hb)) as Hch.
  destruct (bucket_updateNode alive b ns) as [[l'] changed]. destruct b as [l].
  split; simpl; [done | by rewrite length_insert |].
  intros i c [(<- & <- & ?)|[? Hi]]%list_lookup_insert_Some; [| by apply Hbs].
  by eapply bucket_change_ok.
Qed.

Fixpoint updateNodes (alive : NodeState -> bool) (bt : bucketTable) (l : list NodeState) : bucketTable :=
  match l with
  | [] => bt
  | ns :: rest => updateNodes alive (updateNode alive bt ns).1 rest
  end.

Lemma updateNodes_ok alive bt l : Forall wf_node l -> table_ok bt -> table_ok (updateNodes alive bt l).
Proof. intros Hl. revert bt. induction Hl; intros bt Hbt; simpl; auto using updateNode_ok. Qed.

(** Nodes of different buckets differ, so no identifier occurs twice in the table. *)
Lemma all_nodes_nodup bt : table_ok bt -> NoDup (ids (all_nodes bt)).
Proof.
  intros [_ _ Hbs]. unfold all_nodes, ids in *. revert Hbs.
  assert (H : forall l k, (forall i b, l !! i = Some b -> bucket_ok (MyNodeID bt) (k + i) b) ->
    NoDup (NodeID <$> l ≫= Nodes) /\
    Forall (fun n => (k <= CommonLeadingBits (MyNodeID bt) (NodeID n))%nat) (l ≫= Nodes)).
  { induction l as [|b l IH]; intros k Hl; [split; constructor |].
    destruct (Hl 0%nat b eq_refl) as [_ Hd _ Hc]. rewrite Nat.add_0_r in Hc.
    destruct (IH (S k)) as [IHd IHk]; [intros i c Hi; rewrite Nat.add_succ_comm; by apply (Hl (S i)) |].
    rewrite bind_cons, fmap_app, Forall_app, NoDup_app. rewrite Forall_forall in Hc, IHk.
    split_and!; [done | | done | |].
    - intros id (n & -> & Hn)%list_elem_of_fmap (m & Hid & Hm)%list_elem_of_fmap.
      specialize (Hc n Hn). specialize (IHk m Hm). rewrite <-Hid in IHk. lia.
    - apply Forall_forall. intros n Hn. specialize (Hc n Hn). lia.
    - apply Forall_forall. intros n Hn. specialize (IHk n Hn). lia. }
  intros Hbs. by apply (H _ 0%nat).
Qed.

Lemma all_nodes_wf bt : table_ok bt -> Forall wf_node (all_nodes bt).
Proof.
  intros [_ _ Hbs]. apply Forall_forall. intros n Hn. unfold all_nodes in Hn.
  apply list_elem_of_bind in Hn as (b & Hn & [i Hi]%list_elem_of_lookup_1).
  destruct (Hbs i b Hi) as [_ _ Hwf _]. by eapply Forall_forall in Hwf.
Qed.

Lemma all_nodes_not_me bt n : table_ok bt -> n ∈ all_nodes bt -> NodeID n <> MyNodeID bt.
Proof.
  intros [Hme Hlen Hbs] Hn E. unfold all_nodes in Hn.
  apply list_elem_of_bind in Hn as (b & Hn & [i Hi]%list_elem_of_lookup_1).
  destruct (Hbs i b Hi) as [_ _ _ Hc]. eapply Forall_forall in Hc; [| done]. simpl in Hc.
  rewrite E, CommonLeadingBits_refl in Hc by done. apply lookup_lt_Some in Hi. lia.
Qed.

(** ** alphaClosest *)
Lemma alphaClosest_foldl bt t alpha :
  alphaClosest bt t alpha = foldl (alphaClosest_step t alpha) [] (all_nodes bt).
Proof.
  unfold alphaClosest, all_nodes. generalize (@nil NodeState). 
  induction (Buckets bt) as [|b bs IH]; intros acc; [done |].
  rewrite bind_cons, foldl_app. simpl. by rewrite IH.
Qed.

Lemma alphaClosest_step_eq t alpha r n :
  (length r <= alpha)%nat ->
  alphaClosest_step t alpha r n =
    if (length r <? alpha)%nat then r ++ [n] else take alpha (InsertOrdered t r n).
Proof.
  intros Hr. unfold alphaClosest_step. destruct (Nat.ltb_spec (length r) alpha); [done |].
  rewrite length_InsertOrdered. by rewrite (proj2 (Nat.ltb_lt _ _)) by lia.
Qed.

(** Length, origin and distinctness of the accumulated results. *)
Lemma alphaClosest_fold_inv t alpha l r :
  (length r <= alpha)%nat ->
  let r' := foldl (alphaClosest_step t alpha) r l in
  length r' = (alpha `min` (length r + length l))%nat /\ r' ⊆+ r ++ l.
Proof.
  cbv zeta. revert r. induction l as [|n l IH]; intros r Hr; simpl.
  { rewrite app_nil_r. split; [lia | done]. }
  rewrite alphaClosest_step_eq by done. destruct (Nat.ltb_spec (length r) alpha).
  - destruct (IH (r ++ [n])) as [Hl Hs]; [rewrite length_app; simpl; lia |].
    rewrite length_app in Hl. simpl in Hl. rewrite <-app_assoc in Hs. split; [lia | done].
  - destruct (IH (take alpha (InsertOrdered t r n))) as [Hl Hs].
    { rewrite length_take. lia. }
    rewrite length_take, length_InsertOrdered in Hl. split; [lia |].
    etrans; [exact Hs |]. etrans; [apply submseteq_skips_r, submseteq_take |].
    rewrite InsertOrdered_perm, <-Permutation_middle. done.
Qed.

(** [r] holds the best nodes of [seen]: ordered, and no worse than the rest. *)
Definition best_of (t : TypeID) (r seen : list NodeState) : Prop :=
  StronglySorted (closer_eq t) r /\
  exists omitted, r ++ omitted ≡ₚ seen /\ forall x y, x ∈ r -> y ∈ omitted -> closer_eq t x y.

Lemma sorted_take_drop t l k x y :
  StronglySorted (closer_eq t) l -> x ∈ take k l -> y ∈ drop k l -> closer_eq t x y.
Proof.
  intros Hs Hx Hy. rewrite <-(take_drop k l) in Hs. by eapply StronglySorted_app_1_elem_of.
Qed.

Lemma best_of_step t alpha r seen n :
  wf_id t -> wf_node n -> Forall wf_node seen -> length r = alpha -> best_of t r seen ->
  best_of t (take alpha (InsertOrdered t r n)) (n :: seen).
Proof.
  intros Ht Hn Hw Hl (Hs & om & Hp & Hle). set (l := InsertOrdered t r n).
  assert (Hwr : Forall wf_node r) by (rewrite <-Hp in Hw; by apply Forall_app in Hw as [? _]).
  assert (Hsl : StronglySorted (closer_eq t) l) by (by apply InsertOrdered_sorted).
  assert (Hpl : l ≡ₚ n :: r) by apply InsertOrdered_perm.
  assert (exists y, drop alpha l = [y]) as [y Hy].
  { assert (length (drop alpha l) = 1%nat) as H1.
    { rewrite length_drop. unfold l. rewrite length_InsertOrdered. lia. }
    destruct (drop alpha l) as [|y [|]]; [done | by exists y | done]. }
  split; [rewrite <-(take_drop alpha l) in Hsl; by eapply StronglySorted_app_1_l |].
  exists (y :: om). split.
  - rewrite <-Hp. transitivity (l ++ om); [| by rewrite Hpl].
    rewrite <-(take_drop alpha l) at 2. by rewrite Hy, <-app_assoc.
  - intros x z Hx Hz. assert (Hxy : closer_eq t x y).
    { apply (sorted_take_drop t l alpha); [done | done |]. rewrite Hy. set_solver. }
    apply elem_of_cons in Hz as [->|Hz]; [done |].
    assert (Hall : take alpha l ++ [y] ≡ₚ n :: r) by (by rewrite <-Hy, take_drop).
    assert (Hyin : y ∈ n :: r) by (rewrite <-Hall; set_solver).
    apply elem_of_cons in Hyin as [->|Hyr]; [| etrans; [exact Hxy | by apply Hle]].
    apply Hle; [| done]. rewrite <-Permutation_cons_append in Hall.
    apply Permutation_cons_inv in Hall. by rewrite <-Hall.
Qed.

Lemma alphaClosest_fold_best t alpha l r seen :
  wf_id t -> Forall wf_node (seen ++ l) -> length r = alpha -> best_of t r seen ->
  best_of t (foldl (alphaClosest_step t alpha) r l) (seen ++ l).
Proof.
  intros Ht. revert r seen. induction l as [|n l IH]; intros r seen Hw Hl Hb; simpl.
  { by rewrite app_nil_r. }
  assert (Hw' : Forall wf_node (n :: seen ++ l)) by (by rewrite Permutation_middle).
  inversion Hw' as [|?? Hn Hrest]; subst. apply Forall_app in Hrest as [Hseen _].
  rewrite alphaClosest_step_eq by lia. rewrite (proj2 (Nat.ltb_ge _ _)) by lia.
  assert (Hlen : length (take (length r) (InsertOrdered t r n)) = length r).
  { rewrite length_take, length_InsertOrdered. lia. }
  destruct (IH (take (length r) (InsertOrdered t r n)) (n :: seen) Hw' Hlen) as (Hs & om & Hp & Hle).
  { by apply best_of_step. }
  split; [done |]. exists om. split; [| done]. rewrite Hp. simpl. by rewrite Permutation_middle.
Qed.

Lemma alphaClosest_fold_fill t alpha l r :
  (length r + length l <= alpha)%nat -> foldl (alphaClosest_step t alpha) r l = r ++ l.
Proof.
  revert r. induction l as [|n l IH]; intros r Hl; simpl in *; [by rewrite app_nil_r |].
  rewrite alphaClosest_step_eq by lia. rewrite (proj2 (Nat.ltb_lt _ _)) by lia.
  rewrite IH, <-app_assoc by (rewrite length_app; simpl; lia). done.
Qed.

(** ** Properties *)

(** C11. The table invariant: 512 buckets of at most [bucketSize] distinct well-formed
    nodes, each in the bucket of its number of leading bits in common with the owner;
    it is established by the constructor and kept by every sequence of updates,
    whatever the pings answer.  Hence no identifier occurs twice, and never the owner's. *)
Theorem bucketTable_invariant me alive l :
  wf_id me -> Forall wf_node l ->
  let bt := updateNodes alive (newBucketTable me) l in
  table_ok bt /\ NoDup (ids (all_nodes bt)) /\
  Forall (fun n => NodeID n <> MyNodeID bt) (all_nodes bt).
Proof.
  intros Hme Hl bt. assert (Hok : table_ok bt) by (apply updateNodes_ok, newBucketTable_ok; done).
  split; [done |]. split; [by apply all_nodes_nodup |].
  apply Forall_forall. intros n Hn. by apply all_nodes_not_me.
Qed.

Lemma bucketTable_invariant_witness :
  let bt := updateNodes (fun _ => true) (newBucketTable zero_id) [sample_node 2; sample_node 3] in
  all_nodes bt = [sample_node 3; sample_node 2] /\ NoDup (ids (all_nodes bt)).
Proof.
  split; [vm_compute; reflexivity |].
  apply (bucketTable_invariant zero_id (fun _ => true) [sample_node 2; sample_node 3]).
  - apply wf_id_zero.
  - repeat constructor; by apply (bool_decide_unpack _).
Defined.

(** [bucket.updateNode] on every branch: a known node moves to the front; a new node
    enters at the front while there is room; a full bucket keeps its least recently
    seen node, moved to the front, when it answers the ping, and otherwise replaces it. *)
Theorem bucket_updateNode_branches alive b ns :
  (length (Nodes b) <= bucketSize)%nat ->
  let '(b', changed) := bucket_updateNode alive b ns in
  bucket_change alive ns (Nodes b) (Nodes b') changed /\
  (length (Nodes b') <= bucketSize)%nat /\
  (changed = true <-> NodeID ns ∉ ids (Nodes b) /\ NodeID ns ∈ ids (Nodes b')).
Proof.
  intros Hlen. pose proof (bucket_updateNode_change alive b ns Hlen) as H.
  destruct (bucket_updateNode alive b ns) as [[l'] changed]. destruct b as [l]. simpl in *.
  split; [done |]. destruct H as [pre n post Hid | l Hn Hl | l n Hn Hl _ | l n Hn Hl _].
  - rewrite length_app in Hlen. simpl in *. rewrite length_app. split; [lia |].
    split; [done |]. intros [Hn _]. unfold ids in Hn. rewrite fmap_app in Hn. set_solver.
  - split; [simpl; lia |]. split; [| done]. intros _. split; [done | set_solver].
  - rewrite length_app in Hl. simpl in *. split; [lia |]. split; [done |].
    intros [_ Hin]. unfold ids in *. set_solver.
  - rewrite length_app in Hl. simpl in *. split; [lia |]. split; [| done]. intros _.
    split; [done | set_solver].
Qed.

Lemma bucket_updateNode_branches_witness :
  (length (Nodes (mkBucket [sample_node 2; sample_node 3])) <= bucketSize)%nat /\
  let '(b', changed) :=
    bucket_updateNode (fun _ => true) (mkBucket [sample_node 2; sample_node 3]) (sample_node 3) in
  bucket_change (fun _ => true) (sample_node 3) [sample_node 2; sample_node 3] (Nodes b') changed /\
  (length (Nodes b') <= bucketSize)%nat /\
  (changed = true <-> NodeID (sample_node 3) ∉ ids [sample_node 2; sample_node 3] /\
    NodeID (sample_node 3) ∈ ids (Nodes b')).
Proof.
  split; [simpl; unfold bucketSize; lia |].
  apply (bucket_updateNode_branches (fun _ => true) (mkBucket [sample_node 2; sample_node 3])).
  simpl. unfold bucketSize. lia.
Defined.

(** [alphaClosest] returns [min alpha n] distinct known nodes ([n] the number of
    nodes in the table).  When the first [alpha] nodes of the traversal are already in
    order of distance to the target, the result is in order and no omitted node is
    closer than a returned one. *)
Theorem alphaClosest_correct bt t alpha :
  wf_id t -> table_ok bt ->
  let r := alphaClosest bt t alpha in
  length r = (alpha `min` length (all_nodes bt))%nat /\ r ⊆+ all_nodes bt /\ NoDup (ids r) /\
  (StronglySorted (closer_eq t) (take alpha (all_nodes bt)) -> best_of t r (all_nodes bt)).
Proof.
  intros Ht Hok r. subst r. rewrite alphaClosest_foldl.
  destruct (alphaClosest_fold_inv t alpha (all_nodes bt) []) as [Hl Hs]; [simpl; lia |].
  split; [done |]. split; [done |]. split.
  { pose proof (all_nodes_nodup bt Hok) as Hd. apply submseteq_Permutation in Hs as [k Hk].
    simpl in Hk. unfold ids in *. rewrite Hk, fmap_app, NoDup_app in Hd. tauto. }
  intros Hsort. destruct (decide (length (all_nodes bt) <= alpha)%nat) as [Hle|Hgt].
  - rewrite alphaClosest_fold_fill by done. rewrite take_ge in Hsort by done.
    split; [done |]. exists []. split; [by rewrite app_nil_r | set_solver].
  - rewrite <-(take_drop alpha (all_nodes bt)) at 1. rewrite foldl_app.
    rewrite (alphaClosest_fold_fill t alpha (take alpha (all_nodes bt)))
      by (rewrite length_take; simpl; lia).
    rewrite <-(take_drop alpha (all_nodes bt)) at 3. simpl.
    apply alphaClosest_fold_best; [done | | rewrite length_take; lia |].
    + rewrite take_drop. by apply all_nodes_wf.
    + split; [done |]. exists []. split; [by rewrite app_nil_r | set_solver].
Qed.

Lemma alphaClosest_correct_witness :
  let bt := updateNodes (fun _ => true) (newBucketTable zero_id) [sample_node 2; sample_node 3] in
  alphaClosest bt (sample_id 3) 1 = [sample_node 3] /\
  best_of (sample_id 3) (alphaClosest bt (sample_id 3) 1) (all_nodes bt).
Proof.
  split; [vm_compute; reflexivity |].
  apply alphaClosest_correct.
  - by apply (bool_decide_unpack _).
  - apply updateNodes_ok; [repeat constructor; by apply (bool_decide_unpack _) |].
    apply newBucketTable_ok, wf_id_zero.
  - vm_compute. repeat constructor.
Defined.

(** Without that order [alphaClosest] can lose the closest node: with nodes 128, 64,
    32 and 1 in the table of node 0, the three nodes returned for target 32 are 1, 128
    and 64, although node 32 is known and at distance 0.  (The first [alpha]
    nodes are appended without being sorted, and insertion drops the last element.) *)
Theorem alphaClosest_loses_closest :
  exists (alive : NodeState -> bool) (l : list NodeState) (t : TypeID) (n : NodeState),
    Forall wf_node l /\ wf_id t /\
    let bt := updateNodes alive (newBucketTable zero_id) l in
    n ∈ all_nodes bt /\ n ∉ alphaClosest bt t 3 /\ length (alphaClosest bt t 3) = 3%nat /\
    Forall (fun m => dist t n < dist t m) (alphaClosest bt t 3).
Proof.
  exists (fun _ => true), [sample_node 128; sample_node 64; sample_node 32; sample_node 1],
    (sample_id 32), (sample_node 32).
  split; [repeat constructor; by apply (bool_decide_unpack _) |].
  split; [by apply (bool_decide_unpack _) |]. cbv zeta.
  set (bt := updateNodes _ _ _).
  assert (E1 : all_nodes bt = [sample_node 128; sample_node 64; sample_node 32; sample_node 1])
    by (vm_compute; reflexivity).
  assert (E2 : alphaClosest bt (sample_id 32) 3 = [sample_node 1; sample_node 128; sample_node 64])
    by (vm_compute; reflexivity).
  rewrite E1, E2. split; [set_solver |]. split; [by apply (bool_decide_unpack _) |].
  split; [done |]. repeat constructor.
Qed.
