(* ===== verification/DhtMessage.v ===== *)
(** * DHT messages and the listeners for their replies

    Models dht/nodeState.go (the messages and their classification), the message
    constructors of gossiper/dht.go, and dht/chanMap.go (the map from the nonce of a
    request to the channel of the goroutine that waits for the reply). *)
From S2P Require Import Prelude DhtId.

(** ** dht/nodeState.go: a [nil] pointer field is [None]. *)
Record Store := mkStore {
  st_Key : TypeID; st_Type : string; st_Data : bytes; st_Encrypted : bool
}.
Record NodeLookup := mkNodeLookup { nl_NodeID : TypeID }.
Record NodeReply := mkNodeReply { nr_NodeStates : list NodeState }.
Record ValueLookup := mkValueLookup {
  vl_Key : TypeID; vl_DbKey : string; vl_DbBucket : string;
  vl_Encrypted : bool; vl_EncryptedKey : bytes
}.
Record ValueReply := mkValueReply {
  vr_NodeStates : option (list NodeState); vr_Data : option bytes; vr_Encrypted : bool
}.

Record Message := mkMessage {
  Nonce : Z;
  SenderID : TypeID;
  m_Store : option Store;
  m_Ping : option unit;
  m_PingReply : option unit;
  m_NodeLookup : option NodeLookup;
  m_NodeReply : option NodeReply;
  m_ValueLookup : option ValueLookup;
  m_ValueReply : option ValueReply
}.

Inductive MessageType :=
  | StoreT | PingT | PingReplyT | NodeLookupT | NodeReplyT | ValueLookupT | ValueReplyT
  | NoneT (* the value -1 *).
#[export] Instance MessageType_eq_dec : EqDecision MessageType.
Proof. solve_decision. Defined.

Definition GetUnderlyingType (msg : Message) : MessageType :=
  if m_Store msg is Some _ then StoreT
  else if m_Ping msg is Some _ then PingT
  else if m_PingReply msg is Some _ then PingReplyT
  else if m_NodeLookup msg is Some _ then NodeLookupT
  else if m_NodeReply msg is Some _ then NodeReplyT
  else if m_ValueLookup msg is Some _ then ValueLookupT
  else if m_ValueReply msg is Some _ then ValueReplyT
  else NoneT.

(** ** Constructors (gossiper/dht.go); [nonce] is the value of [rand.Uint64] or the nonce
    of the request that is answered. *)
Definition emptyMessage (nonce : Z) (me : TypeID) : Message :=
  mkMessage nonce me None None None None None None None.
Definition newDHTStore (nonce : Z) (me : TypeID) (key : TypeID) (data : bytes)
    (storeType : string) (encrypted : bool) : Message :=
  mkMessage nonce me (Some (mkStore key storeType data encrypted)) None None None None None None.
Definition newDHTPing (nonce : Z) (me : TypeID) : Message :=
  mkMessage nonce me None (Some ()) None None None None None.
Definition newDHTPingReply (me : TypeID) (nonce : Z) : Message :=
  mkMessage nonce me None None (Some ()) None None None None.
Definition newDHTNodeLookup (nonce : Z) (me : TypeID) (id : TypeID) : Message :=
  mkMessage nonce me None None None (Some (mkNodeLookup id)) None None None.
Definition newDHTNodeReply (me : TypeID) (nodeStates : list NodeState) (nonce : Z) : Message :=
  mkMessage nonce me None None None None (Some (mkNodeReply nodeStates)) None None.
Definition newDHTValueLookup (nonce : Z) (me : TypeID) (key : TypeID) (dbBucket : string)
    (encrypt : bool) : Message :=
  mkMessage nonce me None None None None None
    (Some (mkValueLookup key "" dbBucket encrypt [])) None.
Definition newDHTValueReplyData (me : TypeID) (data : bytes) (nonce : Z) (encrypt : bool) : Message :=
  mkMessage nonce me None None None None None None (Some (mkValueReply None (Some data) encrypt)).
Definition newDHTValueReplyNodes (me : TypeID) (nodeStates : list NodeState) (nonce : Z) : Message :=
  mkMessage nonce me None None None None None None
    (Some (mkValueReply (Some nodeStates) None false)).

(** ** dht/chanMap.go

    A channel is the list of buffered messages (capacity 2); channels are named by
    locations, so that a listener keeps its channel after the map forgets it. *)
Record ChanMap := mkChanMap {
  NonceMessageMap : gmap Z nat;          (* nonce to channel *)
  channels : gmap nat (list Message);    (* channel to its buffer *)
  next_chan : nat
}.
Definition NewChanMap : ChanMap := mkChanMap ∅ ∅ 0.

(** [LoadOrStore]: the channel in use for the nonce and whether it is new. *)
Definition AddListener (cm : ChanMap) (nonce : Z) : ChanMap * nat * bool :=
  match NonceMessageMap cm !! nonce with
  | Some c => (cm, c, false)
  | None =>
      let c := next_chan cm in
      (mkChanMap (<[nonce := c]> (NonceMessageMap cm)) (<[c := []]> (channels cm)) (S c), c, true)
  end.

Definition RemoveListener (cm : ChanMap) (nonce : Z) : ChanMap :=
  mkChanMap (delete nonce (NonceMessageMap cm)) (channels cm) (next_chan cm).

(** [None]: the send blocks because the buffer is full. *)
Definition InformListener (cm : ChanMap) (nonce : Z) (message : Message) : option ChanMap :=
  match NonceMessageMap cm !! nonce with
  | Some c =>
      let buf := default [] (channels cm !! c) in
      if (length buf <? 2)%nat
      then Some (mkChanMap (delete nonce (NonceMessageMap cm))
                   (<[c := buf ++ [message]]> (channels cm)) (next_chan cm))
      else None
  | None => Some cm
  end.

(** Receiving: [None] while the buffer is empty. *)
Definition chan_recv (cm : ChanMap) (c : nat) : option (ChanMap * Message) :=
  match channels cm !! c with
  | Some (msg :: buf) =>
      Some (mkChanMap (NonceMessageMap cm) (<[c := buf]> (channels cm)) (next_chan cm), msg)
  | _ => None
  end.

(** Every registered channel is an empty buffer of its own: a listener leaves the map
    before its channel holds a message. *)
Record chanmap_ok (cm : ChanMap) : Prop := {
  cm_fresh : forall c, c ∈ dom (channels cm) -> (c < next_chan cm)%nat;
  cm_empty : forall nonce c, NonceMessageMap cm !! nonce = Some c -> channels cm !! c = Some [];
  cm_inj : forall n1 n2 c, NonceMessageMap cm !! n1 = Some c ->
    NonceMessageMap cm !! n2 = Some c -> n1 = n2
}.

Lemma NewChanMap_ok : chanmap_ok NewChanMap.
Proof.
  split; simpl.
  - intros c Hc. set_solver.
  - intros n c Hn. by rewrite lookup_empty in Hn.
  - intros n1 n2 c Hn. by rewrite lookup_empty in Hn.
Qed.

Lemma AddListener_ok cm nonce : chanmap_ok cm -> chanmap_ok (AddListener cm nonce).1.1.
Proof.
  intros [Hf He Hi]. unfold AddListener. destruct (NonceMessageMap cm !! nonce) as [c|] eqn:En; [done |].
  assert (Hnew : channels cm !! next_chan cm = None).
  { apply not_elem_of_dom. intros Hc. apply Hf in Hc. lia. }
  split; simpl.
  - intros c Hc. rewrite dom_insert_L in Hc.
    apply elem_of_union in Hc as [->%elem_of_singleton|Hc]; [lia |]. apply Hf in Hc. lia.
  - intros n c [[<- <-]|[Hne Hn]]%lookup_insert_Some; [apply lookup_insert_eq |].
    apply He in Hn. rewrite lookup_insert_ne by congruence. done.
  - intros n1 n2 c [[<- <-]|[Hne1 H1]]%lookup_insert_Some [[<- E]|[Hne2 H2]]%lookup_insert_Some;
      [done | | | by eapply Hi].
    + apply He in H2. congruence.
    + subst. apply He in H1. congruence.
Qed.

Lemma RemoveListener_ok cm nonce : chanmap_ok cm -> chanmap_ok (RemoveListener cm nonce).
Proof.
  intros [Hf He Hi]. split; simpl; [done | |].
  - intros n c [_ Hn]%lookup_delete_Some. by eapply He.
  - intros n1 n2 c [_ H1]%lookup_delete_Some [_ H2]%lookup_delete_Some. by eapply Hi.
Qed.

Lemma InformListener_ok cm nonce msg :
  chanmap_ok cm -> exists cm', InformListener cm nonce msg = Some cm' /\ chanmap_ok cm'.
Proof.
  intros [Hf He Hi]. unfold InformListener.
  destruct (NonceMessageMap cm !! nonce) as [c|] eqn:En; [| by exists cm].
  rewrite (He _ _ En). simpl. eexists. split; [done |]. split; simpl.
  - intros d Hd. rewrite dom_insert_lookup_L in Hd by (rewrite (He _ _ En); eauto). by apply Hf.
  - intros n d [Hne Hn]%lookup_delete_Some. rewrite lookup_insert_ne; [by eapply He |].
    intros <-. apply Hne. by eapply Hi.
  - intros n1 n2 d [_ H1]%lookup_delete_Some [_ H2]%lookup_delete_Some. by eapply Hi.
Qed.

(** ** Properties *)

(** Classification: every constructor yields a message of its own type, carrying its
    nonce and sender; a message is of no type exactly when all its parts are absent. *)
Theorem constructors_classified nonce me key data ty bkt enc ns :
  GetUnderlyingType (newDHTStore nonce me key data ty enc) = StoreT /\
  GetUnderlyingType (newDHTPing nonce me) = PingT /\
  GetUnderlyingType (newDHTPingReply me nonce) = PingReplyT /\
  GetUnderlyingType (newDHTNodeLookup nonce me key) = NodeLookupT /\
  GetUnderlyingType (newDHTNodeReply me ns nonce) = NodeReplyT /\
  GetUnderlyingType (newDHTValueLookup nonce me key bkt enc) = ValueLookupT /\
  GetUnderlyingType (newDHTValueReplyData me data nonce enc) = ValueReplyT /\
  GetUnderlyingType (newDHTValueReplyNodes me ns nonce) = ValueReplyT /\
  (forall msg, GetUnderlyingType msg = NoneT -> msg = emptyMessage (Nonce msg) (SenderID msg)).
Proof.
  split_and!; try done.
  intros [n s [] [] [] [] [] [] []]; unfold GetUnderlyingType; simpl; done.
Qed.

(** The listener map: a new listener's channel is fresh and empty; the first reply
    with the nonce is delivered to exactly that channel without blocking and ends the
    registration, so a second reply with the same nonce changes nothing; after
    [RemoveListener] no reply is delivered. *)
Theorem listener_one_shot cm nonce msg msg' :
  chanmap_ok cm -> NonceMessageMap cm !! nonce = None ->
  exists c cm1 cm2 cm3,
    AddListener cm nonce = (cm1, c, true) /\ channels cm !! c = None /\
    InformListener cm1 nonce msg = Some cm2 /\
    InformListener cm2 nonce msg' = Some cm2 /\
    chan_recv cm2 c = Some (cm3, msg) /\ chan_recv cm3 c = None /\
    (forall d, d <> c -> channels cm2 !! d = channels cm !! d) /\
    InformListener (RemoveListener cm1 nonce) nonce msg = Some (RemoveListener cm1 nonce) /\
    chanmap_ok cm1 /\ chanmap_ok cm2.
Proof.
  intros Hok Hn. pose proof (AddListener_ok cm nonce Hok) as Hok1.
  unfold AddListener in *. rewrite Hn in *. simpl in Hok1.
  destruct (InformListener_ok _ nonce msg Hok1) as (cm2 & E2 & Hok2).
  exists (next_chan cm), (mkChanMap (<[nonce:=next_chan cm]> (NonceMessageMap cm))
    (<[next_chan cm:=[]]> (channels cm)) (S (next_chan cm))), cm2,
    (mkChanMap (NonceMessageMap cm2) (<[next_chan cm := []]> (channels cm2)) (next_chan cm2)).
  pose proof E2 as E2'. unfold InformListener in E2'. simpl in E2'.
  rewrite !lookup_insert_eq in E2'. simpl in E2'. injection E2' as <-.
  split_and!; try done.
  - apply not_elem_of_dom. intros Hc. apply (cm_fresh _ Hok) in Hc. lia.
  - unfold InformListener. simpl. by rewrite lookup_delete_eq.
  - unfold chan_recv. simpl. by rewrite lookup_insert_eq.
  - unfold chan_recv. simpl. by rewrite lookup_insert_eq.
  - intros d Hd. simpl. by rewrite !lookup_insert_ne by done.
  - unfold InformListener. simpl. by rewrite lookup_delete_eq.
Qed.

Lemma listener_one_shot_witness :
  chanmap_ok NewChanMap /\
  exists c cm1 cm2 cm3,
    AddListener NewChanMap 7 = (cm1, c, true) /\ channels NewChanMap !! c = None /\
    InformListener cm1 7 (newDHTPingReply zero_id 7) = Some cm2 /\
    InformListener cm2 7 (newDHTPingReply zero_id 7) = Some cm2 /\
    chan_recv cm2 c = Some (cm3, newDHTPingReply zero_id 7) /\ chan_recv cm3 c = None /\
    (forall d, d <> c -> channels cm2 !! d = channels NewChanMap !! d) /\
    InformListener (RemoveListener cm1 7) 7 (newDHTPingReply zero_id 7)
      = Some (RemoveListener cm1 7) /\
    chanmap_ok cm1 /\ chanmap_ok cm2.
Proof.
  split; [apply NewChanMap_ok |].
  apply listener_one_shot; [apply NewChanMap_ok | apply lookup_empty].
Defined.
