(* ===== verification/CrawlerPacket.v ===== *)
(** * Packets exchanged with the web crawler (webcrawler/crawlerpacket.go)

    The data that the crawler and the gossiper exchange.  The channel [ResChan] that a
    packet carries for its answer is modelled where it is used. *)
From S2P Require Import Prelude DhtId.

(** occurrences of a keyword by url *)
Record KeywordToURLMap := mkKeywordToURLMap { km_Keyword : string; km_LinkData : gmap string Z }.
Record HyperlinkPackage := mkHyperlinkPackage {
  hp_Links : list string; hp_Encrypted : bool; hp_EncryptedLinks : bytes
}.
Record EncryptedCrawlerPacket := mkEncryptedCrawlerPacket { ecp_Packet : bytes; ecp_Origin : TypeID }.
Record OutBoundLinksPackage := mkOutBoundLinksPackage {
  ob_Url : string; ob_OutBoundLinks : list string
}.
Record Citations := mkCitations { ci_Url : string; ci_CitedBy : list string }.
Record CitationsPackage := mkCitationsPackage { cp_CitationsList : list Citations }.
Record IndexPackage := mkIndexPackage { ip_KeywordFrequencies : gmap string Z; ip_Url : string }.
Record PageHashPackage := mkPageHashPackage { ph_Hash : TypeID; ph_Type : string }.
Record PastMapPackage := mkPastMapPackage { pp_Content : bytes }.
Record DoneCrawl := mkDoneCrawl { dc_Delete : bool }.
Record PageInfo := mkPageInfo {
  pi_Hyperlinks : list string; pi_KeywordFrequencies : gmap string Z; pi_Hash : TypeID
}.
