(* ===== verification/Dto.v ===== *)
(** * Gossip packets and client requests (dto/DTO.go)

    A packet is a record of optional parts of which one is meant to be present.  The
    accessors select a field by the name of the part that is present and stop the process
    ([log.Fatal]) for the others.  The time stamp of the error value is not modelled. *)
From S2P Require Import Prelude Sha2 DhtId DhtMessage CrawlerPacket.

(** ** Parts of a packet *)
Record SimpleMessage := mkSimpleMessage {
  sm_OriginalName : string; sm_RelayPeerAddr : string; sm_Contents : string
}.
Record RumorMessage := mkRumorMessage { rm_Origin : string; rm_ID : Z; rm_Text : string }.
Record PeerStatus := mkPeerStatus { ps_Identifier : string; ps_NextID : Z }.
Record StatusPacket := mkStatusPacket { sp_Want : list PeerStatus }.
Record PrivateMessage := mkPrivateMessage {
  pm_Origin : string; pm_ID : Z; pm_Text : string; pm_Destination : string; pm_HopLimit : Z
}.
Record DataRequest := mkDataRequest {
  dreq_Origin : string; dreq_Destination : string; dreq_HopLimit : Z; dreq_HashValue : bytes
}.
Record DataReply := mkDataReply {
  drep_Origin : string; drep_Destination : string; drep_HopLimit : Z; drep_HashValue : bytes;
  drep_Data : bytes
}.
Record SearchRequest := mkSearchRequest {
  sreq_Origin : string; sreq_Budget : Z; sreq_Keywords : list string
}.
Record SearchResult := mkSearchResult {
  sres_FileName : string; sres_MetafileHash : bytes; sres_ChunkMap : list Z; sres_ChunkCount : Z
}.
Record SearchReply := mkSearchReply {
  srep_Origin : string; srep_Destination : string; srep_HopLimit : Z;
  srep_Results : list SearchResult
}.
Record File := mkFile { f_Name : string; f_Size : Z; f_MetafileHash : bytes }.
Record TxPublish := mkTxPublish { tx_File : File; tx_HopLimit : Z }.
Record Block := mkBlock { b_PrevHash : bytes; b_Nonce : bytes; b_Transactions : list TxPublish }.
Record BlockPublish := mkBlockPublish { bp_Block : Block; bp_HopLimit : Z }.
Record DiffieHellman := mkDiffieHellman {
  dh_Origin : string; dh_Destination : string; dh_HopLimit : Z; dh_P : string; dh_G : string;
  dh_DiffiePublicKey : bytes; dh_R : bytes; dh_S : bytes; dh_ExpirationDate : Z;
  dh_NodeID : TypeID; dh_Init : bool; dh_ID : TypeID
}.

(** [IsFullMatch] of a result is a stub in the source. *)
Definition IsFullMatch (sres : SearchResult) : bool := true.

Definition ToRumorMessage (pm : PrivateMessage) : RumorMessage :=
  mkRumorMessage (pm_Origin pm) 0 (pm_Text pm).

(** The hop limit is a [uint32] that wraps around below zero. *)
Definition decrement_hop (h : Z) : Z := u32 (h - 1).
Arguments decrement_hop : simpl never.
Definition pm_DecrementHopCount (pm : PrivateMessage) : PrivateMessage * bool :=
  let h := decrement_hop (pm_HopLimit pm) in
  (mkPrivateMessage (pm_Origin pm) (pm_ID pm) (pm_Text pm) (pm_Destination pm) h, 0 <? h).
Definition dreq_DecrementHopCount (dreq : DataRequest) : DataRequest * bool :=
  let h := decrement_hop (dreq_HopLimit dreq) in
  (mkDataRequest (dreq_Origin dreq) (dreq_Destination dreq) h (dreq_HashValue dreq), 0 <? h).
Definition drep_DecrementHopCount (drep : DataReply) : DataReply * bool :=
  let h := decrement_hop (drep_HopLimit drep) in
  (mkDataReply (drep_Origin drep) (drep_Destination drep) h (drep_HashValue drep) (drep_Data drep),
   0 <? h).
Definition srep_DecrementHopCount (srep : SearchReply) : SearchReply * bool :=
  let h := decrement_hop (srep_HopLimit srep) in
  (mkSearchReply (srep_Origin srep) (srep_Destination srep) h (srep_Results srep), 0 <? h).
Definition tx_DecrementHopCount (txpub : TxPublish) : TxPublish * bool :=
  let h := decrement_hop (tx_HopLimit txpub) in (mkTxPublish (tx_File txpub) h, 0 <? h).
Definition bp_DecrementHopCount (blpub : BlockPublish) : BlockPublish * bool :=
  let h := decrement_hop (bp_HopLimit blpub) in (mkBlockPublish (bp_Block blpub) h, 0 <? h).

(** ** Hashes of transactions and blocks *)
(** [binary.Write] of a [uint32] in little-endian order. *)
Definition le32 (z : Z) : bytes := rev (be_split 4 (u32 z)).

Definition TxPublish_preimage (t : TxPublish) : bytes :=
  le32 (Z.of_nat (String.length (f_Name (tx_File t)))) ++ bytes_of_string (f_Name (tx_File t)) ++
  f_MetafileHash (tx_File t).
Definition TxPublish_Hash (t : TxPublish) : bytes := Sum256 (TxPublish_preimage t).

Definition Block_preimage (b : Block) : bytes :=
  b_PrevHash b ++ b_Nonce b ++ le32 (Z.of_nat (length (b_Transactions b))) ++
  concat (TxPublish_Hash <$> b_Transactions b).
Definition Block_Hash (b : Block) : bytes := Sum256 (Block_preimage b).

(** ** Packets *)
Record GossipPacket := mkGossipPacket {
  g_Simple : option SimpleMessage;
  g_Rumor : option RumorMessage;
  g_Status : option StatusPacket;
  g_Private : option PrivateMessage;
  g_DataRequest : option DataRequest;
  g_DataReply : option DataReply;
  g_SearchRequest : option SearchRequest;
  g_SearchReply : option SearchReply;
  g_TxPublish : option TxPublish;
  g_BlockPublish : option BlockPublish;
  g_DHTMessage : option Message;
  g_HyperlinkMessage : option HyperlinkPackage;
  g_EncryptedWebCrawlerPacket : option EncryptedCrawlerPacket;
  g_DiffieHellman : option DiffieHellman
}.

Definition GetUnderlyingType (g : GossipPacket) : string :=
  if g_Simple g is Some _ then "simple"
  else if g_Rumor g is Some _ then "rumor"
  else if g_Status g is Some _ then "status"
  else if g_Private g is Some _ then "private"
  else if g_DataRequest g is Some _ then "datarequest"
  else if g_DataReply g is Some _ then "datareply"
  else if g_SearchRequest g is Some _ then "searchrequest"
  else if g_SearchReply g is Some _ then "searchreply"
  else if g_TxPublish g is Some _ then "txpublish"
  else if g_BlockPublish g is Some _ then "blockpublish"
  else if g_DHTMessage g is Some _ then "dhtmessage"
  else if g_HyperlinkMessage g is Some _ then "hyperlinkmessage"
  else if g_EncryptedWebCrawlerPacket g is Some _ then "encryptedhyperlinkmessage"
  else if g_DiffieHellman g is Some _ then "diffiehellman"
  else "".

Definition IsChatRumor (rm : RumorMessage) : bool := negb (String.eqb (rm_Text rm) "").
Definition IsChatPacket (packet : GossipPacket) : bool :=
  if g_Rumor packet is Some rm then negb (String.eqb (rm_Text rm) "") else false.

(** ** Accessors *)
(** A [switch] on a string, in the order of its cases. *)
Fixpoint switch {A} (subtype : string) (cases : list (string * A)) (dflt : A) : A :=
  match cases with
  | [] => dflt
  | (k, v) :: rest => if String.eqb subtype k then v else switch subtype rest dflt
  end.

Definition LogError {A} (what : string) : outcome A := Fatal what.
Definition deref {A} (p : option A) : outcome A :=
  if p is Some a then Ok a else Panic "nil pointer dereference".
Definition cant {A} (verb field kind : string) : outcome A :=
  LogError ("Can't " +:+ verb +:+ " " +:+ field +:+ " from a " +:+ kind +:+ " message").
Definition no_sub_struct : string := "Gossip packet has no non-nil sub struct".

(** The packet after the assignment through the pointer of one of its parts. *)
Definition with_Private (g : GossipPacket) (p : PrivateMessage) : GossipPacket :=
  mkGossipPacket (g_Simple g) (g_Rumor g) (g_Status g) (Some p) (g_DataRequest g) (g_DataReply g)
    (g_SearchRequest g) (g_SearchReply g) (g_TxPublish g) (g_BlockPublish g) (g_DHTMessage g)
    (g_HyperlinkMessage g) (g_EncryptedWebCrawlerPacket g) (g_DiffieHellman g).
Definition with_DataRequest (g : GossipPacket) (p : DataRequest) : GossipPacket :=
  mkGossipPacket (g_Simple g) (g_Rumor g) (g_Status g) (g_Private g) (Some p) (g_DataReply g)
    (g_SearchRequest g) (g_SearchReply g) (g_TxPublish g) (g_BlockPublish g) (g_DHTMessage g)
    (g_HyperlinkMessage g) (g_EncryptedWebCrawlerPacket g) (g_DiffieHellman g).
Definition with_DataReply (g : GossipPacket) (p : DataReply) : GossipPacket :=
  mkGossipPacket (g_Simple g) (g_Rumor g) (g_Status g) (g_Private g) (g_DataRequest g) (Some p)
    (g_SearchRequest g) (g_SearchReply g) (g_TxPublish g) (g_BlockPublish g) (g_DHTMessage g)
    (g_HyperlinkMessage g) (g_EncryptedWebCrawlerPacket g) (g_DiffieHellman g).
Definition with_SearchReply (g : GossipPacket) (p : SearchReply) : GossipPacket :=
  mkGossipPacket (g_Simple g) (g_Rumor g) (g_Status g) (g_Private g) (g_DataRequest g)
    (g_DataReply g) (g_SearchRequest g) (Some p) (g_TxPublish g) (g_BlockPublish g)
    (g_DHTMessage g) (g_HyperlinkMessage g) (g_EncryptedWebCrawlerPacket g) (g_DiffieHellman g).
Definition with_TxPublish (g : GossipPacket) (p : TxPublish) : GossipPacket :=
  mkGossipPacket (g_Simple g) (g_Rumor g) (g_Status g) (g_Private g) (g_DataRequest g)
    (g_DataReply g) (g_SearchRequest g) (g_SearchReply g) (Some p) (g_BlockPublish g)
    (g_DHTMessage g) (g_HyperlinkMessage g) (g_EncryptedWebCrawlerPacket g) (g_DiffieHellman g).
Definition with_BlockPublish (g : GossipPacket) (p : BlockPublish) : GossipPacket :=
  mkGossipPacket (g_Simple g) (g_Rumor g) (g_Status g) (g_Private g) (g_DataRequest g)
    (g_DataReply g) (g_SearchRequest g) (g_SearchReply g) (g_TxPublish g) (Some p)
    (g_DHTMessage g) (g_HyperlinkMessage g) (g_EncryptedWebCrawlerPacket g) (g_DiffieHellman g).

Definition GetOrigin (g : GossipPacket) : outcome string :=
  switch (GetUnderlyingType g) [
    ("simple", sm_OriginalName <$> deref (g_Simple g));
    ("rumor", rm_Origin <$> deref (g_Rumor g));
    ("status", cant "extract" "origin name" "STATUS");
    ("private", pm_Origin <$> deref (g_Private g));
    ("datarequest", dreq_Origin <$> deref (g_DataRequest g));
    ("datareply", drep_Origin <$> deref (g_DataReply g));
    ("searchrequest", sreq_Origin <$> deref (g_SearchRequest g));
    ("searchreply", srep_Origin <$> deref (g_SearchReply g));
    ("txpublish", cant "extract" "origin name" "TXPUBLISH");
    ("blockpublish", cant "extract" "origin name" "BLOCKPUBLISH");
    ("dhtmessage", cant "extract" "origin name" "MESSAGE");
    ("diffiehellman", dh_Origin <$> deref (g_DiffieHellman g))
  ] (LogError no_sub_struct).

Definition GetSeqID (g : GossipPacket) : outcome Z :=
  switch (GetUnderlyingType g) [
    ("simple", cant "extract" "ID" "SIMPLE");
    ("rumor", rm_ID <$> deref (g_Rumor g));
    ("status", cant "extract" "ID" "STATUS");
    ("private", pm_ID <$> deref (g_Private g));
    ("datarequest", cant "extract" "ID" "DATA REQUEST");
    ("datareply", cant "extract" "ID" "DATA REPLY");
    ("searchrequest", cant "extract" "ID" "SEARCH REQUEST");
    ("searchreply", cant "extract" "ID" "SEARCH REPLY");
    ("txpublish", cant "extract" "ID" "TXPUBLISH");
    ("blockpublish", cant "extract" "ID" "BLOCKPUBLISH");
    ("dhtmessage", cant "extract" "ID" "MESSAGE")
  ] (LogError no_sub_struct).

Definition GetContents (g : GossipPacket) : outcome string :=
  switch (GetUnderlyingType g) [
    ("simple", sm_Contents <$> deref (g_Simple g));
    ("rumor", rm_Text <$> deref (g_Rumor g));
    ("status", cant "extract" "contents" "STATUS");
    ("private", pm_Text <$> deref (g_Private g));
    ("datarequest", cant "extract" "contents" "DATA REQUEST");
    ("datareply", cant "extract" "contents" "DATA REPLY");
    ("searchrequest", cant "extract" "contents" "DATA REPLY");
    ("searchreply", cant "extract" "contents" "DATA REPLY");
    ("txpublish", cant "extract" "contents" "TXPUBLISH");
    ("blockpublish", cant "extract" "contents" "BLOCKPUBLISH");
    ("dhtmessage", cant "extract" "contents" "MESSAGE")
  ] (LogError no_sub_struct).

Definition GetHopLimit (g : GossipPacket) : outcome Z :=
  switch (GetUnderlyingType g) [
    ("simple", cant "extract" "hop-limit" "SIMPLE");
    ("rumor", cant "extract" "hop-limit" "RUMOR");
    ("status", cant "extract" "hop-limit" "STATUS");
    ("private", pm_HopLimit <$> deref (g_Private g));
    ("datarequest", dreq_HopLimit <$> deref (g_DataRequest g));
    ("datareply", drep_HopLimit <$> deref (g_DataReply g));
    ("searchrequest", cant "extract" "hop-limit" "SEARCH REQUEST");
    ("searchreply", srep_HopLimit <$> deref (g_SearchReply g));
    ("txpublish", tx_HopLimit <$> deref (g_TxPublish g));
    ("blockpublish", bp_HopLimit <$> deref (g_BlockPublish g));
    ("dhtmessage", cant "extract" "hop-limit" "MESSAGE");
    ("diffiehellman", dh_HopLimit <$> deref (g_DiffieHellman g))
  ] (LogError no_sub_struct).

Definition GetDestination (g : GossipPacket) : outcome string :=
  switch (GetUnderlyingType g) [
    ("simple", cant "extract" "destination" "SIMPLE");
    ("rumor", cant "extract" "destination" "RUMOR");
    ("status", cant "extract" "destination" "STATUS");
    ("private", pm_Destination <$> deref (g_Private g));
    ("datarequest", dreq_Destination <$> deref (g_DataRequest g));
    ("datareply", drep_Destination <$> deref (g_DataReply g));
    ("searchrequest", cant "extract" "destination" "SEARCH REQUEST");
    ("searchreply", srep_Destination <$> deref (g_SearchReply g));
    ("txpublish", cant "extract" "destination" "TXPUBLISH");
    ("blockpublish", cant "extract" "destination" "BLOCKPUBLISH");
    ("dhtmessage", cant "extract" "destination" "MESSAGE")
  ] (LogError no_sub_struct).

Definition GetHashValue (g : GossipPacket) : outcome bytes :=
  switch (GetUnderlyingType g) [
    ("simple", cant "extract" "hash value" "SIMPLE");
    ("rumor", cant "extract" "hash value" "RUMOR");
    ("status", cant "extract" "hash value" "STATUS");
    ("private", cant "extract" "hash value" "PRIVATE");
    ("datarequest", dreq_HashValue <$> deref (g_DataRequest g));
    ("datareply", drep_HashValue <$> deref (g_DataReply g));
    ("searchrequest", cant "extract" "hash value" "SEARCH REQUEST");
    ("searchreply", cant "extract" "hash value" "SEARCH REPLY");
    ("txpublish", cant "extract" "hash value" "TXPUBLISH");
    ("blockpublish", cant "extract" "hash value" "BLOCKPUBLISH");
    ("dhtmessage", cant "extract" "hash value" "MESSAGE")
  ] (LogError no_sub_struct).

Definition GetData (g : GossipPacket) : outcome bytes :=
  switch (GetUnderlyingType g) [
    ("simple", cant "extract" "data" "SIMPLE");
    ("rumor", cant "extract" "data" "RUMOR");
    ("status", cant "extract" "data" "STATUS");
    ("private", cant "extract" "data" "PRIVATE");
    ("datarequest", cant "extract" "data" "DATA REQUEST");
    ("datareply", drep_Data <$> deref (g_DataReply g));
    ("searchrequest", cant "extract" "data" "SEARCH REQUEST");
    ("searchreply", cant "extract" "data" "SEARCH REPLY");
    ("txpublish", cant "extract" "data" "TXPUBLISH");
    ("blockpublish", cant "extract" "data" "BLOCKPUBLISH");
    ("dhtmessage", cant "extract" "data" "MESSAGE")
  ] (LogError no_sub_struct).

Definition DecrementHopCount (g : GossipPacket) : outcome (GossipPacket * bool) :=
  switch (GetUnderlyingType g) [
    ("simple", cant "decrement" "hop count" "SIMPLE");
    ("rumor", cant "decrement" "hop count" "RUMOR");
    ("status", cant "decrement" "hop count" "STATUS");
    ("private", (fun p => let '(p', send) := pm_DecrementHopCount p in (with_Private g p', send)) <$> deref (g_Private g));
    ("datarequest", (fun p => let '(p', send) := dreq_DecrementHopCount p in (with_DataRequest g p', send)) <$> deref (g_DataRequest g));
    ("datareply", (fun p => let '(p', send) := drep_DecrementHopCount p in (with_DataReply g p', send)) <$> deref (g_DataReply g));
    ("searchrequest", cant "decrement" "hop count" "SEARCH REQUEST");
    ("searchreply", (fun p => let '(p', send) := srep_DecrementHopCount p in (with_SearchReply g p', send)) <$> deref (g_SearchReply g));
    ("txpublish", (fun p => let '(p', send) := tx_DecrementHopCount p in (with_TxPublish g p', send)) <$> deref (g_TxPublish g));
    ("blockpublish", (fun p => let '(p', send) := bp_DecrementHopCount p in (with_BlockPublish g p', send)) <$> deref (g_BlockPublish g));
    ("dhtmessage", cant "decrement" "hop count" "MESSAGE")
  ] (LogError no_sub_struct).

Definition GetBudget (g : GossipPacket) : outcome Z :=
  switch (GetUnderlyingType g) [
    ("simple", cant "extract" "budget" "SIMPLE");
    ("rumor", cant "extract" "budget" "RUMOR");
    ("status", cant "extract" "budget" "STATUS");
    ("private", cant "extract" "budget" "PRIVATE");
    ("datarequest", cant "extract" "budget" "DATA REQUEST");
    ("datareply", cant "extract" "budget" "DATA REPLY");
    ("searchrequest", sreq_Budget <$> deref (g_SearchRequest g));
    ("searchreply", cant "extract" "budget" "SEARCH REPLY");
    ("txpublish", cant "extract" "budget" "TXPUBLISH");
    ("blockpublish", cant "extract" "budget" "BLOCKPUBLISH");
    ("dhtmessage", cant "extract" "budget" "MESSAGE")
  ] (LogError no_sub_struct).

Definition GetKeywords (g : GossipPacket) : outcome (list string) :=
  switch (GetUnderlyingType g) [
    ("simple", cant "extract" "keywords" "SIMPLE");
    ("rumor", cant "extract" "keywords" "RUMOR");
    ("status", cant "extract" "keywords" "STATUS");
    ("private", cant "extract" "keywords" "PRIVATE");
    ("datarequest", cant "extract" "keywords" "DATA REQUEST");
    ("datareply", cant "extract" "keywords" "DATA REPLY");
    ("searchrequest", sreq_Keywords <$> deref (g_SearchRequest g));
    ("searchreply", cant "extract" "keywords" "SEARCH REPLY");
    ("txpublish", cant "extract" "keywords" "TXPUBLISH");
    ("blockpublish", cant "extract" "keywords" "BLOCKPUBLISH");
    ("dhtmessage", cant "extract" "keywords" "MESSAGE")
  ] (LogError no_sub_struct).

Definition GetSearchResults (g : GossipPacket) : outcome (list SearchResult) :=
  switch (GetUnderlyingType g) [
    ("simple", cant "extract" "search results" "SIMPLE");
    ("rumor", cant "extract" "search results" "RUMOR");
    ("status", cant "extract" "search results" "STATUS");
    ("private", cant "extract" "search results" "PRIVATE");
    ("datarequest", cant "extract" "search results" "DATA REQUEST");
    ("datareply", cant "extract" "search results" "DATA REPLY");
    ("searchrequest", cant "extract" "search results" "SEARCH REQUEST");
    ("searchreply", srep_Results <$> deref (g_SearchReply g));
    ("txpublish", cant "extract" "search results" "TXPUBLISH");
    ("blockpublish", cant "extract" "search results" "BLOCKPUBLISH");
    ("dhtmessage", cant "extract" "search results" "MESSAGE")
  ] (LogError no_sub_struct).


(** A packet whose only part is a rumor, or a private message, ... *)
Definition empty_packet : GossipPacket :=
  mkGossipPacket None None None None None None None None None None None None None None.
Definition simple_packet (m : SimpleMessage) : GossipPacket :=
  mkGossipPacket (Some m) None None None None None None None None None None None None None.
Definition rumor_packet (m : RumorMessage) : GossipPacket :=
  mkGossipPacket None (Some m) None None None None None None None None None None None None.
Definition status_packet (m : StatusPacket) : GossipPacket :=
  mkGossipPacket None None (Some m) None None None None None None None None None None None.

(** ** Packets with their sender *)
Record PacketAddressPair := mkPacketAddressPair {
  pap_Packet : GossipPacket; pap_SenderAddress : string
}.
Definition pap_GetOrigin (pap : PacketAddressPair) := GetOrigin (pap_Packet pap).
Definition pap_GetSeqID (pap : PacketAddressPair) := GetSeqID (pap_Packet pap).
Definition pap_GetContents (pap : PacketAddressPair) := GetContents (pap_Packet pap).
Definition pap_GetHopLimit (pap : PacketAddressPair) := GetHopLimit (pap_Packet pap).
Definition pap_GetDestination (pap : PacketAddressPair) := GetDestination (pap_Packet pap).
Definition pap_GetHashValue (pap : PacketAddressPair) := GetHashValue (pap_Packet pap).
Definition pap_GetData (pap : PacketAddressPair) := GetData (pap_Packet pap).
Definition pap_DecrementHopCount (pap : PacketAddressPair) : outcome (PacketAddressPair * bool) :=
  (fun r : GossipPacket * bool => (mkPacketAddressPair r.1 (pap_SenderAddress pap), r.2))
    <$> DecrementHopCount (pap_Packet pap).
Definition pap_GetBudget (pap : PacketAddressPair) := GetBudget (pap_Packet pap).
Definition pap_GetKeywords (pap : PacketAddressPair) := GetKeywords (pap_Packet pap).
Definition pap_GetSearchResults (pap : PacketAddressPair) := GetSearchResults (pap_Packet pap).
Definition pap_GetSenderAddress (pap : PacketAddressPair) : outcome string :=
  switch (GetUnderlyingType (pap_Packet pap)) [
    ("simple", sm_RelayPeerAddr <$> deref (g_Simple (pap_Packet pap)))
  ] (Ok (pap_SenderAddress pap)).

(** ** Client requests *)
Record FileToShare := mkFileToShare { fts_FileName : string }.
Record FileToDownload := mkFileToDownload {
  ftd_FileName : string; ftd_Origin : string; ftd_Metahash : bytes
}.
Record FileToSearch := mkFileToSearch { ftse_Budget : Z; ftse_Keywords : list string }.
Record DHTLookup := mkDHTLookup { dl_Node : option TypeID; dl_Key : option string }.
Record DHTStore := mkDHTStore { ds_Key : option TypeID; ds_Type : string; ds_Value : bytes }.
Record DHTRequest := mkDHTRequest { dr_Store : option DHTStore; dr_Lookup : option DHTLookup }.
Record ClientRequest := mkClientRequest {
  cr_Packet : option GossipPacket;
  cr_FileShare : option FileToShare;
  cr_FileDownload : option FileToDownload;
  cr_FileSearch : option FileToSearch;
  cr_DHTLookup : option DHTLookup;
  cr_DHTStore : option DHTStore
}.
Definition ClientRequest_GetUnderlyingType (cr : ClientRequest) : string :=
  if cr_Packet cr is Some p then GetUnderlyingType p
  else if cr_FileShare cr is Some _ then "fileShare"
  else if cr_FileDownload cr is Some _ then "fileDownload"
  else if cr_FileSearch cr is Some _ then "fileSearch"
  else if (if cr_DHTLookup cr is Some l then (if dl_Node l is Some _ then true else false) else false)
    then "nodeSearch"
  else if (if cr_DHTLookup cr is Some l then (if dl_Key l is Some _ then true else false) else false)
    then "keySearch"
  else if cr_DHTStore cr is Some _ then "store"
  else "".

(** ** Lemmas *)
(** Deciding the type of a packet part by part. *)
Ltac packet_cases g tac :=
  unfold GetUnderlyingType;
  destruct (g_Simple g); [tac |]; destruct (g_Rumor g); [tac |];
  destruct (g_Status g); [tac |]; destruct (g_Private g); [tac |];
  destruct (g_DataRequest g); [tac |]; destruct (g_DataReply g); [tac |];
  destruct (g_SearchRequest g); [tac |]; destruct (g_SearchReply g); [tac |];
  destruct (g_TxPublish g); [tac |]; destruct (g_BlockPublish g); [tac |];
  destruct (g_DHTMessage g); [tac |]; destruct (g_HyperlinkMessage g); [tac |];
  destruct (g_EncryptedWebCrawlerPacket g); [tac |]; destruct (g_DiffieHellman g); tac.

Lemma le32_inj a b : in_width 32 a -> in_width 32 b -> le32 a = le32 b -> a = b.
Proof.
  intros Ha Hb H. unfold le32 in H. apply (f_equal (@rev Z)) in H. rewrite !rev_involutive in H.
  rewrite !wrap_small in H by done. by apply (be_split_inj 4).
Qed.

Lemma le32_length a : length (le32 a) = 4%nat.
Proof. unfold le32. rewrite length_rev. apply be_split_length. Qed.

Lemma TxPublish_preimage_inj t1 t2 :
  Z.of_nat (String.length (f_Name (tx_File t1))) < 2 ^ 32 ->
  Z.of_nat (String.length (f_Name (tx_File t2))) < 2 ^ 32 ->
  TxPublish_preimage t1 = TxPublish_preimage t2 ->
  f_Name (tx_File t1) = f_Name (tx_File t2) /\ f_MetafileHash (tx_File t1) = f_MetafileHash (tx_File t2).
Proof.
  intros H1 H2 H. unfold TxPublish_preimage in H.
  apply app_inj_1 in H as [Hl H]; [| by rewrite !le32_length].
  apply le32_inj in Hl; [| unfold in_width; lia..].
  apply app_inj_1 in H as [Hn Hm]; [| rewrite !bytes_of_string_length; lia].
  by split; [apply bytes_of_string_inj |].
Qed.

Lemma concat_inj_fixed n (l1 l2 : list bytes) :
  Forall (fun l => length l = n) l1 -> Forall (fun l => length l = n) l2 -> length l1 = length l2 ->
  concat l1 = concat l2 -> l1 = l2.
Proof.
  intros H1. revert l2. induction H1 as [|x l1 Hx H1 IH]; intros [|y l2] H2 Hl Hc; try done.
  inversion H2; subst. simpl in Hc. apply app_inj_1 in Hc as [-> Hc]; [| congruence].
  f_equal. apply IH; [done | by injection Hl | done].
Qed.

(** A part of a packet survives the decrement of its hop limit. *)
Definition relayed (t : string) : bool :=
  bool_decide (t ∈ ["private"; "datarequest"; "datareply"; "searchreply"; "txpublish"; "blockpublish"]).

Lemma decrement_hop_spec h :
  in_width 32 h ->
  decrement_hop h = (if decide (h = 0) then 2 ^ 32 - 1 else h - 1) /\
  (0 <? decrement_hop h) = bool_decide (h <> 1).
Proof.
  intros Hw. unfold decrement_hop. destruct (decide (h = 0)) as [->|Hn].
  - rewrite wrap_pred_0 by lia. done.
  - unfold in_width in Hw. rewrite wrap_pred_pos by (unfold in_width; lia). split; [done |].
    apply eq_true_iff_eq. rewrite Z.ltb_lt, bool_decide_eq_true. lia.
Qed.

(** One type of relayed packet, given the facts about the decremented limit. *)
Ltac relay Hs Hd :=
  simpl; intros _ [= <-]; eexists; rewrite Hs, Hd; split; [reflexivity |]; by split_and!.

Lemma decrement_packet g h :
  relayed (GetUnderlyingType g) = true -> GetHopLimit g = Ok h -> in_width 32 h ->
  exists g', DecrementHopCount g = Ok (g', bool_decide (h <> 1)) /\
    GetHopLimit g' = Ok (if decide (h = 0) then 2 ^ 32 - 1 else h - 1) /\
    GetUnderlyingType g' = GetUnderlyingType g /\
    GetOrigin g' = GetOrigin g /\ GetDestination g' = GetDestination g /\
    GetHashValue g' = GetHashValue g /\ GetData g' = GetData g /\ GetContents g' = GetContents g /\
    GetSearchResults g' = GetSearchResults g.
Proof.
  intros Hr Hh Hw. pose proof (decrement_hop_spec h Hw) as [Hd Hs].
  revert Hr Hh. unfold DecrementHopCount, GetHopLimit, GetOrigin, GetDestination,
    GetHashValue, GetData, GetContents, GetSearchResults.
  destruct g as [[] [] [] p4 p5 p6 p7 p8 p9 p10 p11 p12 p13 p14]; try (intros; discriminate).
  destruct p4; [relay Hs Hd |]. destruct p5; [relay Hs Hd |]. destruct p6; [relay Hs Hd |].
  destruct p7; [intros; discriminate |]. destruct p8; [relay Hs Hd |].
  destruct p9; [relay Hs Hd |]. destruct p10; [relay Hs Hd |].
  by destruct p11, p12, p13, p14.
Qed.

(** ** Properties *)

(** The packets of the crawlers have parts, but none of the accessors knows their types: each
    one reports a packet without parts and ends the process. *)
Theorem crawler_packets_unnamed g :
  GetUnderlyingType g = "hyperlinkmessage" \/ GetUnderlyingType g = "encryptedhyperlinkmessage" ->
  GetOrigin g = Fatal no_sub_struct /\ GetSeqID g = Fatal no_sub_struct /\ GetContents g = Fatal no_sub_struct /\
  GetHopLimit g = Fatal no_sub_struct /\ GetDestination g = Fatal no_sub_struct /\
  GetHashValue g = Fatal no_sub_struct /\ GetData g = Fatal no_sub_struct /\
  DecrementHopCount g = Fatal no_sub_struct /\ GetBudget g = Fatal no_sub_struct /\
  GetKeywords g = Fatal no_sub_struct /\ GetSearchResults g = Fatal no_sub_struct.
Proof.
  unfold GetOrigin, GetSeqID, GetContents, GetHopLimit, GetDestination, GetHashValue, GetData,
    DecrementHopCount, GetBudget, GetKeywords, GetSearchResults.
  by intros [-> | ->].
Qed.
Lemma crawler_packets_unnamed_witness : exists g, GetOrigin g = Fatal no_sub_struct.
Proof.
  exists (mkGossipPacket None None None None None None None None None None None (Some (mkHyperlinkPackage ["a"] false [])) None None).
  apply crawler_packets_unnamed. left. reflexivity.
Defined.

(** Decrementing the hop limit keeps the type, the destination and the other fields
    that the accessors read; the packet is to be sent unless its limit was one, and a
    limit of zero becomes [2^32 - 1] and is sent too. *)
Theorem DecrementHopCount_spec g h :
  relayed (GetUnderlyingType g) = true -> GetHopLimit g = Ok h -> in_width 32 h ->
  exists g', DecrementHopCount g = Ok (g', bool_decide (h <> 1)) /\
    GetHopLimit g' = Ok (if decide (h = 0) then 2 ^ 32 - 1 else h - 1) /\
    GetUnderlyingType g' = GetUnderlyingType g /\
    GetOrigin g' = GetOrigin g /\ GetDestination g' = GetDestination g /\
    GetHashValue g' = GetHashValue g /\ GetData g' = GetData g /\ GetContents g' = GetContents g /\
    GetSearchResults g' = GetSearchResults g.
Proof. apply decrement_packet. Qed.

Definition sample_private (h : Z) : GossipPacket :=
  mkGossipPacket None None None (Some (mkPrivateMessage "A" 0 "hello" "B" h)) None None None None
    None None None None None None.
Lemma DecrementHopCount_spec_witness :
  exists g', DecrementHopCount (sample_private 0) = Ok (g', true) /\ GetHopLimit g' = Ok (2 ^ 32 - 1).
Proof.
  destruct (DecrementHopCount_spec (sample_private 0) 0 eq_refl eq_refl) as (g' & H1 & H2 & _).
  - unfold in_width. lia.
  - exists g'. exact (conj H1 H2).
Defined.

(** What the hashes cover.  The bytes hashed for a transaction determine the name and
    the metafile hash of its file, and for a block its parent, nonce and the hashes of
    its transactions.  The size of the file and the hop limit are not covered: they can
    be altered without changing any hash. *)
Theorem hash_preimages b1 b2 t1 t2 :
  let wf b := length (b_PrevHash b) = 32%nat /\ length (b_Nonce b) = 32%nat /\
    Z.of_nat (length (b_Transactions b)) < 2 ^ 32 in
  let wft t := Z.of_nat (String.length (f_Name (tx_File t))) < 2 ^ 32 in
  wf b1 -> wf b2 -> wft t1 -> wft t2 ->
  (TxPublish_preimage t1 = TxPublish_preimage t2 <->
    f_Name (tx_File t1) = f_Name (tx_File t2) /\
    f_MetafileHash (tx_File t1) = f_MetafileHash (tx_File t2)) /\
  (Block_preimage b1 = Block_preimage b2 <->
    b_PrevHash b1 = b_PrevHash b2 /\ b_Nonce b1 = b_Nonce b2 /\
    TxPublish_Hash <$> b_Transactions b1 = TxPublish_Hash <$> b_Transactions b2) /\
  (forall size hop, TxPublish_Hash
     (mkTxPublish (mkFile (f_Name (tx_File t1)) size (f_MetafileHash (tx_File t1))) hop)
     = TxPublish_Hash t1).
Proof.
  cbv zeta. intros (Hp1 & Hn1 & Hl1) (Hp2 & Hn2 & Hl2) Ht1 Ht2. split; [| split].
  - split; [by apply TxPublish_preimage_inj |]. unfold TxPublish_preimage. by intros [-> ->].
  - unfold Block_preimage. split.
    + intros H. apply app_inj_1 in H as [Hp H]; [| congruence].
      apply app_inj_1 in H as [Hn H]; [| congruence].
      apply app_inj_1 in H as [Hl H]; [| by rewrite !le32_length].
      apply le32_inj in Hl; [| unfold in_width; lia..]. split; [done |]. split; [done |].
      apply (concat_inj_fixed 32); [| | rewrite !length_fmap; lia | done];
        apply Forall_fmap, Forall_forall; intros; apply Sum256_length.
    + intros (-> & -> & H). assert (Hl := f_equal length H). rewrite !length_fmap in Hl.
      by rewrite H, Hl.
  - done.
Qed.

Definition sample_tx (size hop : Z) : TxPublish := mkTxPublish (mkFile "f" size [1; 2]) hop.
Definition sample_block (n : Z) : Block := mkBlock (replicate 32 0) (replicate 32 n) [sample_tx 5 10].
Lemma hash_preimages_witness :
  Block_preimage (sample_block 1) <> Block_preimage (sample_block 2) /\
  TxPublish_Hash (sample_tx 7 10) = TxPublish_Hash (sample_tx 5 10).
Proof.
  assert (Hb : forall n, length (b_PrevHash (sample_block n)) = 32%nat /\
    length (b_Nonce (sample_block n)) = 32%nat /\
    Z.of_nat (length (b_Transactions (sample_block n))) < 2 ^ 32) by (intros n; by split_and!).
  destruct (hash_preimages (sample_block 1) (sample_block 2) (sample_tx 5 10) (sample_tx 7 10)
    (Hb 1) (Hb 2) ltac:(done) ltac:(done)) as (_ & H2 & H3).
  split; [rewrite H2; intros (_ & H & _); discriminate | apply H3].
Defined.
