(* ===== verification/Containers.v ===== *)
(** * Shared containers of the gossiper (package dto, package routing)

    Each container is protected by a mutex or built on [sync.Map]; a method is one atomic
    function from the state to the new state and the result.  The order in which
    [sync.Map.Range] visits its entries is not specified by Go: the model uses the order of
    [map_to_list], and no theorem depends on it. *)
From S2P Require Import Prelude Dto.

(** ** dto/SafeStringArray.go *)
Record SafeStringArray := mkSSA { ssa_exists : gset string; ssa_array : list string }.
Definition NewSafeStringArray (members : list string) : SafeStringArray :=
  mkSSA (foldl (fun m member => {[member]} ∪ m) ∅ members) members.
Definition AppendUniqueToArray (ssa : SafeStringArray) (item : string) : SafeStringArray * bool :=
  if decide (item ∈ ssa_exists ssa) then (ssa, false)
  else (mkSSA ({[item]} ∪ ssa_exists ssa) (ssa_array ssa ++ [item]), true).
Definition GetArrayCopy (ssa : SafeStringArray) : list string := ssa_array ssa.
Definition GetLength (ssa : SafeStringArray) : nat := length (ssa_array ssa).

(** ** dto/SafeHashFilenamePairArray.go *)
Record MetahashFilenamePair := mkMFP { mfp_Metahash : string; mfp_Filename : string }.
#[export] Instance MetahashFilenamePair_eq_dec : EqDecision MetahashFilenamePair.
Proof. solve_decision. Defined.
#[export] Instance MetahashFilenamePair_countable : Countable MetahashFilenamePair.
Proof.
  apply (inj_countable' (fun p => (mfp_Metahash p, mfp_Filename p)) (fun p => mkMFP p.1 p.2)).
  by intros [].
Defined.
Record SafeHashFilenamePairArray := mkSHFPA {
  shf_exists : gset MetahashFilenamePair; shf_array : list MetahashFilenamePair
}.
Definition NewSafeHashFilenamePairArray : SafeHashFilenamePairArray := mkSHFPA ∅ [].
Definition shf_AppendUniqueToArray (a : SafeHashFilenamePairArray) (metahash : bytes)
    (filename : string) : SafeHashFilenamePairArray * bool :=
  let item := mkMFP (hex metahash) filename in
  if decide (item ∈ shf_exists a) then (a, false)
  else (mkSHFPA ({[item]} ∪ shf_exists a) (shf_array a ++ [item]), true).
Definition shf_GetArrayCopy (a : SafeHashFilenamePairArray) : list MetahashFilenamePair :=
  shf_array a.
Definition shf_GetLength (a : SafeHashFilenamePairArray) : nat := length (shf_array a).

(** ** dto/SafeCounter.go: a [uint32]. *)
Abbreviation SafeCounter := Z (only parsing).
Definition NewSafeCounter : SafeCounter := 1.
Definition GetAndIncrement (sc : SafeCounter) : SafeCounter * Z := (u32 (sc + 1), sc).
Definition SwapIfLess (sc : SafeCounter) (new : Z) : SafeCounter := if sc <? new then new else sc.

(** ** dto/SafeMessageArray.go *)
Abbreviation SafeMessageArray := (list RumorMessage).
Definition NewSafeMessageArray : SafeMessageArray := [].
Definition AppendToArray (sma : SafeMessageArray) (item : RumorMessage) : SafeMessageArray :=
  sma ++ [item].
Definition GetArrayCopyAndDelete (sma : SafeMessageArray) : SafeMessageArray * list RumorMessage :=
  ([], sma).

(** ** dto/SafeMessagesMap.go *)
Abbreviation SafeMessagesMap := (gmap string (gmap Z RumorMessage)).
Definition NewSafeMessagesMap : SafeMessagesMap := ∅.

(** [LoadOrStore(origin, &sync.Map{})]: the messages of an origin, which gets an entry. *)
Definition originMessages (scm : SafeMessagesMap) (origin : string) : gmap Z RumorMessage :=
  default ∅ (scm !! origin).

Definition AddMessage (scm : SafeMessagesMap) (msg : RumorMessage) : SafeMessagesMap * bool :=
  let pm := originMessages scm (rm_Origin msg) in
  let '(pm', notNew) :=
    if rm_ID msg =? 1 then
      if pm !! rm_ID msg is Some _ then (pm, true) else (<[rm_ID msg := msg]> pm, false)
    else if pm !! u32 (rm_ID msg - 1) is Some _ then
      if pm !! rm_ID msg is Some _ then (pm, true) else (<[rm_ID msg := msg]> pm, false)
    else (pm, true) in
  (<[rm_Origin msg := pm']> scm, negb notNew).

Definition GetMessage (scm : SafeMessagesMap) (origin : string) (messageID : Z)
    : SafeMessagesMap * option RumorMessage :=
  let pm := originMessages scm origin in
  (<[origin := pm]> scm, pm !! messageID).

Definition maxID (rm : gmap Z RumorMessage) : Z :=
  map_fold (fun id _ maxID => if maxID <? id then id else maxID) 0 rm.
Definition GetOwnStatusPacket (scm : SafeMessagesMap) : StatusPacket :=
  mkStatusPacket ((fun p => mkPeerStatus p.1 (u32 (maxID p.2 + 1))) <$> map_to_list scm).

(** ** dto/SafeChanMap.go: channels by peer, named by numbers. *)
Record SafeChanMap := mkSafeChanMap { peersMap : gmap string nat; scm_next : nat }.
Definition NewSafeChanMap : SafeChanMap := mkSafeChanMap ∅ 0.
Definition AddOrGetPeerStatusListener (scm : SafeChanMap) (peerAddress : string)
    : SafeChanMap * nat * bool :=
  match peersMap scm !! peerAddress with
  | Some c => (scm, c, false)
  | None =>
      let c := scm_next scm in
      (mkSafeChanMap (<[peerAddress := c]> (peersMap scm)) (S c), c, true)
  end.

(** ** dto/QuitChanMap.go: the quit channels of the goroutines that send a message, by
    peer, origin and message ID; the listener is told to stop by closing its channel. *)
Record QuitChanMap := mkQuitChanMap {
  quitMap : gmap string (gmap string (gmap Z nat));
  closed : gset nat;
  quit_next : nat
}.
Definition NewQuitChanMap : QuitChanMap := mkQuitChanMap ∅ ∅ 0.
Definition originsOf (scm : QuitChanMap) (peerAddress : string) : gmap string (gmap Z nat) :=
  default ∅ (quitMap scm !! peerAddress).
Definition listenersOf (scm : QuitChanMap) (peerAddress origin : string) : gmap Z nat :=
  default ∅ (originsOf scm peerAddress !! origin).
Definition set_listeners (scm : QuitChanMap) (peerAddress origin : string) (om : gmap Z nat)
    (cl : gset nat) (next : nat) : QuitChanMap :=
  mkQuitChanMap (<[peerAddress := <[origin := om]> (originsOf scm peerAddress)]> (quitMap scm))
    cl next.

Definition AddListener (scm : QuitChanMap) (peerAddress origin : string) (messageID : Z)
    : QuitChanMap * nat * bool :=
  let om := listenersOf scm peerAddress origin in
  match om !! messageID with
  | Some c => (set_listeners scm peerAddress origin om (closed scm) (quit_next scm), c, true)
  | None =>
      let c := quit_next scm in
      (set_listeners scm peerAddress origin (<[messageID := c]> om) (closed scm) (S c), c, false)
  end.
Definition DeleteListener (scm : QuitChanMap) (peerAddress origin : string) (messageID : Z)
    : QuitChanMap :=
  set_listeners scm peerAddress origin (delete messageID (listenersOf scm peerAddress origin))
    (closed scm) (quit_next scm).

(** The [quitter] over the listeners of one origin: those of messages below [NextID] are
    closed and removed. *)
Definition quitter (nextID : Z) (om : gmap Z nat) : gmap Z nat * list nat :=
  (filter (fun p => ~ p.1 < nextID) om, (map_to_list (filter (fun p => p.1 < nextID) om)).*2).
Definition InformListeners_step (peerAddress : string) (acc : QuitChanMap * bool) (v : PeerStatus)
    : QuitChanMap * bool :=
  let '(scm, allStopped) := acc in
  let '(om', quits) := quitter (ps_NextID v) (listenersOf scm peerAddress (ps_Identifier v)) in
  (set_listeners scm peerAddress (ps_Identifier v) om' (closed scm ∪ list_to_set quits)
     (quit_next scm),
   allStopped && bool_decide (om' = ∅)).
Definition InformListeners (scm : QuitChanMap) (peerAddress : string) (sp : StatusPacket)
    : QuitChanMap * bool :=
  foldl (InformListeners_step peerAddress) (scm, true) (sp_Want sp).

(** ** routing/SafeRoutingEntry.go, routing/SafeRoutingTable.go *)
Record SafeRoutingTableEntry := mkSRTE { seqNum : Z; srte_address : string }.
Definition NewSafeRoutingTableEntry (seqNum : Z) (address : string) : SafeRoutingTableEntry :=
  mkSRTE seqNum address.
Definition Update (srte : SafeRoutingTableEntry) (seqNum' : Z) (address : string)
    : SafeRoutingTableEntry * bool :=
  if seqNum srte <? seqNum' then (mkSRTE seqNum' address, true) else (srte, false).
Definition GetAddress (srte : SafeRoutingTableEntry) : string := srte_address srte.

Abbreviation SafeRoutingTable := (gmap string SafeRoutingTableEntry).
Definition NewSafeRoutingTable : SafeRoutingTable := ∅.
Definition UpdateEntry (srt : SafeRoutingTable) (seqID : Z) (origin addressSender : string)
    : SafeRoutingTable * bool :=
  match srt !! origin with
  | Some srte => let '(srte', updated) := Update srte seqID addressSender in
      (<[origin := srte']> srt, updated)
  | None => (<[origin := NewSafeRoutingTableEntry seqID addressSender]> srt, true)
  end.
Definition GetNextHop (srt : SafeRoutingTable) (origin : string) : option string :=
  GetAddress <$> (srt !! origin).

(** routing/helpers.go *)
Definition makeRoutingGossip (origin : string) (seqIDCounter : SafeCounter)
    : SafeCounter * GossipPacket :=
  let '(c', id) := GetAndIncrement seqIDCounter in (c', rumor_packet (mkRumorMessage origin id "")).

(** ** The messages of an origin are numbered from 1 without a gap *)
Definition count (scm : SafeMessagesMap) (origin : string) : Z :=
  Z.of_nat (size (originMessages scm origin)).
Definition msgs_ok (scm : SafeMessagesMap) : Prop :=
  forall origin id, is_Some (originMessages scm origin !! id) <-> 1 <= id <= count scm origin.

Lemma NewSafeMessagesMap_ok : msgs_ok NewSafeMessagesMap.
Proof.
  intros o id. unfold count, originMessages, NewSafeMessagesMap. rewrite lookup_empty. simpl.
  rewrite lookup_empty, map_size_empty. split; [by intros [] | lia].
Qed.

Lemma originMessages_insert scm o pm o' :
  originMessages (<[o := pm]> scm) o' = if decide (o' = o) then pm else originMessages scm o'.
Proof.
  unfold originMessages. destruct (decide (o' = o)) as [->|Hne].
  - by rewrite lookup_insert_eq.
  - by rewrite lookup_insert_ne.
Qed.

(** Registering an origin without changing its messages. *)
Lemma originMessages_touch scm o o' :
  originMessages (<[o := originMessages scm o]> scm) o' = originMessages scm o'.
Proof. rewrite originMessages_insert. by destruct (decide _) as [->|]. Qed.

Lemma msgs_ok_touch scm o : msgs_ok scm -> msgs_ok (<[o := originMessages scm o]> scm).
Proof. intros H o' id. unfold count. rewrite originMessages_touch. apply H. Qed.

Lemma AddMessage_cases scm msg :
  msgs_ok scm -> in_width 32 (rm_ID msg) -> count scm (rm_Origin msg) < 2 ^ 32 - 1 ->
  let pm := originMessages scm (rm_Origin msg) in
  AddMessage scm msg =
    if decide (rm_ID msg = count scm (rm_Origin msg) + 1)
    then (<[rm_Origin msg := <[rm_ID msg := msg]> pm]> scm, true)
    else (<[rm_Origin msg := pm]> scm, false).
Proof.
  intros Hok Hw Hc pm. unfold AddMessage. fold pm. pose proof (Hok (rm_Origin msg)) as Hp. fold pm in Hp.
  assert (Hsz : 0 <= count scm (rm_Origin msg)) by (unfold count; lia).
  set (n := count scm (rm_Origin msg)) in *. set (id := rm_ID msg) in *.
  assert (Hnone : pm !! id = None <-> ~ 1 <= id <= n) by (rewrite <-Hp, eq_None_not_Some; tauto).
  assert (Hprev : id <> 1 -> is_Some (pm !! u32 (id - 1)) <-> 2 <= id <= n + 1).
  { intros Hne. rewrite Hp. destruct (decide (id = 0)) as [->|H0].
    - rewrite wrap_pred_0 by lia. lia.
    - unfold in_width in Hw. rewrite wrap_pred_pos by (unfold in_width; lia). lia. }
  destruct (Z.eqb_spec id 1) as [E1|E1].
  - destruct (pm !! id) as [old|] eqn:Eo.
    + rewrite decide_False; [done |]. destruct (proj1 (Hp id)); [by rewrite Eo | lia].
    + rewrite decide_True; [done |]. pose proof (proj1 Hnone eq_refl). lia.
  - specialize (Hprev E1). destruct (pm !! u32 (id - 1)) as [p|] eqn:Ep.
    + pose proof (proj1 Hprev ltac:(eauto)). destruct (pm !! id) as [old|] eqn:Eo.
      * rewrite decide_False; [done |]. destruct (proj1 (Hp id)); [by rewrite Eo | lia].
      * rewrite decide_True; [done |]. pose proof (proj1 Hnone eq_refl). lia.
    + rewrite decide_False; [done |]. intros E. destruct (proj2 Hprev); [lia | done].
Qed.

Lemma AddMessage_ok scm msg :
  msgs_ok scm -> in_width 32 (rm_ID msg) -> count scm (rm_Origin msg) < 2 ^ 32 - 1 ->
  let '(scm', isNew) := AddMessage scm msg in
  msgs_ok scm' /\ (isNew = true <-> rm_ID msg = count scm (rm_Origin msg) + 1) /\
  (forall o, count scm' o = count scm o + (if decide (isNew = true /\ o = rm_Origin msg) then 1 else 0)) /\
  (forall o id, originMessages scm' o !! id =
     if decide (isNew = true /\ o = rm_Origin msg /\ id = rm_ID msg) then Some msg
     else originMessages scm o !! id).
Proof.
  intros Hok Hw Hc. rewrite AddMessage_cases by done.
  pose proof (Hok (rm_Origin msg) (rm_ID msg)) as Hid.
  destruct (decide _) as [E|E].
  - assert (Hnone : originMessages scm (rm_Origin msg) !! rm_ID msg = None).
    { apply eq_None_not_Some. rewrite Hid. lia. }
    assert (Hcount : forall o, count (<[rm_Origin msg := <[rm_ID msg := msg]>
        (originMessages scm (rm_Origin msg))]> scm) o
      = count scm o + (if decide (true = true /\ o = rm_Origin msg) then 1 else 0)).
    { intros o. unfold count. rewrite originMessages_insert.
      destruct (decide (o = rm_Origin msg)) as [->|Hne].
      - rewrite decide_True by done. rewrite map_size_insert_None by done. lia.
      - rewrite decide_False by tauto. lia. }
    split_and!; [| done | done |].
    + intros o id. rewrite Hcount, originMessages_insert.
      destruct (decide (o = rm_Origin msg)) as [->|Hne].
      * rewrite decide_True by done.
        pose proof (Hok (rm_Origin msg) id) as Ho. split.
        -- intros [<-|[_ Hs]]%lookup_insert_is_Some; [unfold count in *; lia |].
           apply Ho in Hs. lia.
        -- intros Hi. apply lookup_insert_is_Some'. destruct (decide (rm_ID msg = id)); [by left | right].
           apply Ho. lia.
      * rewrite decide_False by tauto. rewrite (Hok o id). lia.
    + intros o id. rewrite originMessages_insert. destruct (decide (o = rm_Origin msg)) as [->|Hne].
      * destruct (decide (id = rm_ID msg)) as [->|Hni].
        -- rewrite lookup_insert_eq, decide_True by done. done.
        -- rewrite lookup_insert_ne, decide_False by (congruence || tauto). done.
      * rewrite decide_False by tauto. done.
  - split_and!; [by apply msgs_ok_touch | done | |].
    + intros o. rewrite decide_False by (intros [? _]; done). unfold count.
      rewrite originMessages_touch. lia.
    + intros o id. rewrite decide_False by (intros [? _]; done). by rewrite originMessages_touch.
Qed.

Lemma maxID_spec (rm : gmap Z RumorMessage) :
  (forall id, is_Some (rm !! id) -> id <= maxID rm) /\
  (maxID rm = 0 \/ is_Some (rm !! maxID rm)).
Proof.
  unfold maxID.
  apply (map_fold_weak_ind (fun b (m : gmap Z RumorMessage) =>
    (forall id, is_Some (m !! id) -> id <= b) /\ (b = 0 \/ is_Some (m !! b)))).
  - split; [| by left]. intros id [x Hx]. by rewrite lookup_empty in Hx.
  - intros i x m b _ [Hle Hin]. split.
    + intros id [<-|[_ Hid]]%lookup_insert_is_Some; [destruct (Z.ltb_spec b i); lia |].
      specialize (Hle _ Hid). destruct (Z.ltb_spec b i); lia.
    + destruct (Z.ltb_spec b i); [right; rewrite lookup_insert_eq; eauto |].
      destruct Hin as [?|Hin]; [by left | right]. apply lookup_insert_is_Some'. by right.
Qed.

Lemma maxID_count scm o : msgs_ok scm -> maxID (originMessages scm o) = count scm o.
Proof.
  intros Hok. destruct (maxID_spec (originMessages scm o)) as [Hle Hin].
  assert (0 <= count scm o) by (unfold count; lia).
  assert (count scm o <= maxID (originMessages scm o)).
  { destruct (decide (count scm o = 0)) as [E|E].
    - destruct Hin as [->|Hin]; [lia |]. apply Hok in Hin. lia.
    - apply Hle, Hok. lia. }
  destruct Hin as [?|Hin]; [lia |]. apply Hok in Hin. lia.
Qed.

Lemma GetOwnStatusPacket_elem scm ps :
  msgs_ok scm -> (forall o, count scm o < 2 ^ 32 - 1) ->
  ps ∈ sp_Want (GetOwnStatusPacket scm) <->
  is_Some (scm !! ps_Identifier ps) /\ ps_NextID ps = count scm (ps_Identifier ps) + 1.
Proof.
  intros Hok Hc. unfold GetOwnStatusPacket. cbn [sp_Want]. rewrite list_elem_of_fmap.
  assert (Hnext : forall o pm, scm !! o = Some pm -> u32 (maxID pm + 1) = count scm o + 1).
  { intros o pm Ho. pose proof (maxID_count scm o Hok) as Hm. unfold originMessages in Hm.
    rewrite Ho in Hm. simpl in Hm. rewrite Hm. apply wrap_small. specialize (Hc o).
    unfold in_width, count in *. lia. }
  split.
  - intros ([o pm] & -> & Hin%elem_of_map_to_list). simpl. split; [eauto | by apply Hnext].
  - intros [[pm Ho] Hn]. exists (ps_Identifier ps, pm). split; [| by apply elem_of_map_to_list].
    destruct ps as [o n]. simpl in *. by rewrite Hn, (Hnext o pm Ho).
Qed.

Lemma GetOwnStatusPacket_nodup scm : NoDup (ps_Identifier <$> sp_Want (GetOwnStatusPacket scm)).
Proof.
  unfold GetOwnStatusPacket. cbn [sp_Want]. rewrite <-list_fmap_compose.
  rewrite (list_fmap_ext _ fst) by done. apply NoDup_fst_map_to_list.
Qed.

(** ** The listeners of a peer *)
Definition listener (scm : QuitChanMap) (peer origin : string) (id : Z) : option nat :=
  listenersOf scm peer origin !! id.

Lemma listenersOf_set scm p o om cl n p' o' :
  listenersOf (set_listeners scm p o om cl n) p' o' =
    if decide (p' = p /\ o' = o) then om else listenersOf scm p' o'.
Proof.
  unfold listenersOf, set_listeners, originsOf. simpl.
  destruct (decide (p' = p)) as [->|Hp].
  - rewrite lookup_insert_eq. simpl. destruct (decide (o' = o)) as [->|Ho].
    + rewrite lookup_insert_eq, decide_True by done. done.
    + rewrite lookup_insert_ne, decide_False by (congruence || tauto). done.
  - rewrite lookup_insert_ne, decide_False by (congruence || tauto). done.
Qed.

Definition stops (want : list PeerStatus) (origin : string) (id : Z) : Prop :=
  exists v, v ∈ want /\ ps_Identifier v = origin /\ id < ps_NextID v.

(** A status satisfied by the listeners that remain. *)
Definition stopped (scm : QuitChanMap) (peer origin : string) : Prop :=
  listenersOf scm peer origin = ∅.

Lemma filter_removes (om : gmap Z nat) n id :
  filter (fun p => ~ p.1 < n) om !! id = if decide (id < n) then None else om !! id.
Proof.
  destruct (decide (id < n)) as [Hlt|Hge].
  - apply map_lookup_filter_None. right. intros c _. simpl. tauto.
  - destruct (om !! id) as [c|] eqn:E.
    + by apply map_lookup_filter_Some.
    + apply map_lookup_filter_None. by left.
Qed.

Lemma quitter_closed om n c :
  c ∈ (quitter n om).2 <-> exists id, om !! id = Some c /\ id < n.
Proof.
  unfold quitter. cbn [snd]. rewrite list_elem_of_fmap. split.
  - intros ([id c'] & -> & Hin%elem_of_map_to_list). simpl.
    apply map_lookup_filter_Some in Hin as [? ?]. eauto.
  - intros (id & Hid & Hlt). exists (id, c). split; [done |].
    by apply elem_of_map_to_list, map_lookup_filter_Some.
Qed.

Lemma InformListeners_step_spec peer scm b v :
  let '(scm', b') := InformListeners_step peer (scm, b) v in
  (forall p o id, listener scm' p o id =
     if decide (p = peer /\ ps_Identifier v = o /\ id < ps_NextID v) then None
     else listener scm p o id) /\
  (forall c, c ∈ closed scm' <-> c ∈ closed scm \/
     exists id, listener scm peer (ps_Identifier v) id = Some c /\ id < ps_NextID v) /\
  (b' = true <-> b = true /\ stopped scm' peer (ps_Identifier v)).
Proof.
  unfold InformListeners_step. destruct (quitter _ _) as [om' quits] eqn:Eq.
  pose proof (quitter_closed (listenersOf scm peer (ps_Identifier v)) (ps_NextID v)) as Hc.
  rewrite Eq in Hc. simpl in Hc. unfold quitter in Eq. injection Eq as <- <-.
  split; [| split].
  - intros p o id. unfold listener. rewrite listenersOf_set.
    destruct (decide (p = peer /\ o = ps_Identifier v)) as [[-> ->]|Hne].
    + rewrite filter_removes. destruct (decide (id < ps_NextID v)).
      * by rewrite decide_True.
      * by rewrite decide_False by tauto.
    + rewrite decide_False; [done |]. intros (? & ? & _). apply Hne. by split.
  - intros c. simpl. rewrite elem_of_union, elem_of_list_to_set, Hc. done.
  - rewrite andb_true_iff, bool_decide_eq_true. unfold stopped. rewrite listenersOf_set.
    by rewrite decide_True by done.
Qed.

Lemma stopped_mono (scm scm' : QuitChanMap) p o :
  (forall id, listener scm p o id = None -> listener scm' p o id = None) ->
  stopped scm p o -> stopped scm' p o.
Proof.
  unfold stopped, listener. intros H E. apply map_empty. intros id. apply H. by rewrite E, lookup_empty.
Qed.

Lemma InformListeners_foldl peer want scm b :
  let '(scm', b') := foldl (InformListeners_step peer) (scm, b) want in
  (forall p o id, p <> peer \/ ~ stops want o id -> listener scm' p o id = listener scm p o id) /\
  (forall o id, stops want o id -> listener scm' peer o id = None) /\
  (forall c, c ∈ closed scm' <-> c ∈ closed scm \/
     exists o id, listener scm peer o id = Some c /\ stops want o id) /\
  (b' = true -> b = true /\ forall v, v ∈ want -> stopped scm' peer (ps_Identifier v)) /\
  (NoDup (ps_Identifier <$> want) -> b = true ->
     (forall v, v ∈ want -> stopped scm' peer (ps_Identifier v)) -> b' = true).
Proof.
  revert scm b. induction want as [|v want IH]; intros scm b; cbn [foldl].
  { split_and!; [done | by intros o id (v & Hv & _); set_solver | | by split; [|set_solver] | done].
    intros c. split; [by left |]. intros [?|(o & id & _ & v & Hv & _)]; [done | set_solver]. }
  pose proof (InformListeners_step_spec peer scm b v) as Hstep.
  destruct (InformListeners_step peer (scm, b) v) as [scm1 b1].
  destruct Hstep as (Hl & Hc & Hb). specialize (IH scm1 b1).
  destruct (foldl (InformListeners_step peer) (scm1, b1) want) as [scm2 b2].
  destruct IH as (I1 & I2 & I3 & I4 & I5).
  assert (Hcons : forall o id, stops (v :: want) o id <->
    (ps_Identifier v = o /\ id < ps_NextID v) \/ stops want o id).
  { intros o id. unfold stops. split.
    - intros (x & [->|Hx]%elem_of_cons & ?); [by left | right; eauto].
    - intros [?|(x & Hx & ?)]; [exists v | exists x]; set_solver. }
  assert (Hgone : forall o id, listener scm1 peer o id = None -> listener scm2 peer o id = None).
  { intros o id Hn. destruct (decide (Exists (fun x => ps_Identifier x = o /\ id < ps_NextID x) want))
      as [Hs|Hs]; rewrite Exists_exists in Hs; [by apply I2 | by rewrite I1 by (right; exact Hs)]. }
  split_and!.
  - intros p o id H. rewrite Hcons in H. rewrite I1 by tauto. rewrite Hl. rewrite decide_False by tauto.
    done.
  - intros o id [Hs|Hs]%Hcons; [| by apply I2]. apply Hgone. rewrite Hl. by rewrite decide_True.
  - intros c. rewrite I3, Hc. split.
    + intros [[?|(id & Hid & Hlt)]|(o & id & Hid & Hs)]; [by left | right | right].
      * exists (ps_Identifier v), id. rewrite Hcons. tauto.
      * rewrite Hl in Hid. destruct (decide _); [done |]. exists o, id. rewrite Hcons. tauto.
    + intros [?|(o & id & Hid & Hs)]; [tauto |].
      destruct (decide (ps_Identifier v = o /\ id < ps_NextID v)) as [[<- ?]|Hn]; [left; right; eauto |].
      apply Hcons in Hs as [?|Hs]; [tauto |]. right. exists o, id. rewrite Hl.
      by rewrite decide_False by tauto.
  - intros Hb2. destruct (I4 Hb2) as [Hb1 Hall]. apply Hb in Hb1 as [? Hst]. split; [done |].
    intros x [->|Hx]%elem_of_cons; [| by apply Hall]. eapply stopped_mono; [apply Hgone | done].
  - intros [Hnv Hnd]%NoDup_cons Hbt Hall. apply I5; [done | | set_solver]. apply Hb. split; [done |].
    assert (Hst : stopped scm2 peer (ps_Identifier v)) by (apply Hall; set_solver).
    revert Hst. apply stopped_mono. intros id. rewrite I1; [done |]. right.
    intros (x & Hx & Ex & _). apply Hnv. rewrite <-Ex. by apply list_elem_of_fmap_2.
Qed.

(** ** The routing table after a sequence of updates *)
Lemma UpdateEntry_foldl (l : list (Z * string * string)) origin :
  match foldl (fun srt u => (UpdateEntry srt u.1.1 u.1.2 u.2).1) NewSafeRoutingTable l !! origin with
  | Some e => exists l1 l2, l = l1 ++ (seqNum e, origin, srte_address e) :: l2 /\
      Forall (fun u => u.1.2 = origin -> u.1.1 < seqNum e) l1 /\
      Forall (fun u => u.1.2 = origin -> u.1.1 <= seqNum e) l2
  | None => Forall (fun u => u.1.2 <> origin) l
  end.
Proof.
  induction l as [|[[s o] a] l IH] using rev_ind.
  { simpl. unfold NewSafeRoutingTable. rewrite lookup_empty. constructor. }
  rewrite foldl_snoc. cbn [fst snd]. set (srt := foldl _ _ l) in *. unfold UpdateEntry.
  destruct (decide (o = origin)) as [->|Hne].
  - destruct (srt !! origin) as [e|].
    + destruct IH as (l1 & l2 & -> & H1 & H2). unfold Update.
      destruct (Z.ltb_spec (seqNum e) s) as [Hlt|Hge]; simpl; rewrite lookup_insert_eq; simpl.
      * exists (l1 ++ (seqNum e, origin, srte_address e) :: l2), []. split; [done |].
        split; [| constructor]. rewrite Forall_app, Forall_cons. simpl.
        split_and!; [| done |]; eapply Forall_impl; eauto; simpl; intros u Hu E; specialize (Hu E); lia.
      * exists l1, (l2 ++ [(s, origin, a)]). rewrite <-app_assoc. split_and!; [done | done |].
        rewrite Forall_app. split; [done |]. by repeat constructor.
    + simpl. rewrite lookup_insert_eq. exists l, []. split_and!; [done | | constructor].
      eapply Forall_impl; [exact IH |]. simpl. tauto.
  - assert (E : (match srt !! o with
      | Some srte => let '(srte', updated) := Update srte s a in (<[o:=srte']> srt, updated)
      | None => (<[o:=NewSafeRoutingTableEntry s a]> srt, true) end).1 !! origin = srt !! origin).
    { destruct (srt !! o); [destruct (Update _ _ _) |]; simpl; by rewrite lookup_insert_ne. }
    rewrite E. destruct (srt !! origin) as [e|].
    + destruct IH as (l1 & l2 & -> & H1 & H2). exists l1, (l2 ++ [(s, o, a)]).
      rewrite <-app_assoc. split_and!; [done | done |]. rewrite Forall_app. split; [done |].
      by repeat constructor.
    + rewrite Forall_app. split; [done |]. by repeat constructor.
Qed.

Lemma first_max_unique (l1 l1' l2 l2' : list (Z * string * string)) s s' o a a' :
  l1 ++ (s, o, a) :: l2 = l1' ++ (s', o, a') :: l2' ->
  Forall (fun u => u.1.2 = o -> u.1.1 < s) l1 -> Forall (fun u => u.1.2 = o -> u.1.1 <= s) l2 ->
  Forall (fun u => u.1.2 = o -> u.1.1 < s') l1' -> Forall (fun u => u.1.2 = o -> u.1.1 <= s') l2' ->
  a = a'.
Proof.
  revert l1'. induction l1 as [|u l1 IH]; intros [|u' l1'] E H1 H2 H1' H2'; simplify_eq/=.
  - done.
  - inversion H1' as [|?? Hu _]; subst. simpl in Hu. rewrite Forall_app, Forall_cons in H2.
    destruct H2 as (_ & Hs & _). simpl in Hs. specialize (Hu eq_refl). specialize (Hs eq_refl). lia.
  - inversion H1 as [|?? Hu _]; subst. simpl in Hu. rewrite Forall_app, Forall_cons in H2'.
    destruct H2' as (_ & Hs & _). simpl in Hs. specialize (Hu eq_refl). specialize (Hs eq_refl). lia.
  - inversion H1; inversion H1'; subst. by eapply IH.
Qed.

(** ** Properties *)

(** C10. A message enters the map exactly when it is the next one of its origin.  The IDs
    stored for an origin stay [1..n] (as long as [n < 2^32 - 1]), a repeated or premature
    message changes no stored message, and the status packet names for each known origin
    the ID [n + 1] of the message that would be accepted next, one entry per origin. *)
Theorem AddMessage_in_order scm msg :
  msgs_ok scm -> in_width 32 (rm_ID msg) -> (forall o, count scm o < 2 ^ 32 - 2) ->
  let '(scm', isNew) := AddMessage scm msg in
  msgs_ok scm' /\ (isNew = true <-> rm_ID msg = count scm (rm_Origin msg) + 1) /\
  (forall o id, originMessages scm' o !! id =
     if decide (isNew = true /\ o = rm_Origin msg /\ id = rm_ID msg) then Some msg
     else originMessages scm o !! id) /\
  NoDup (ps_Identifier <$> sp_Want (GetOwnStatusPacket scm')) /\
  (forall ps, ps ∈ sp_Want (GetOwnStatusPacket scm') <->
     is_Some (scm' !! ps_Identifier ps) /\ ps_NextID ps = count scm' (ps_Identifier ps) + 1).
Proof.
  intros Hok Hw Hc. pose proof (AddMessage_ok scm msg Hok Hw) as H.
  destruct (AddMessage scm msg) as [scm' isNew]. destruct H as (Hok' & Hn & Hcount & Hm).
  { specialize (Hc (rm_Origin msg)). lia. }
  split; [done |]. split; [done |]. split; [done |]. split; [apply GetOwnStatusPacket_nodup |].
  intros ps. apply GetOwnStatusPacket_elem; [done |]. intros o. rewrite Hcount. specialize (Hc o).
  destruct (decide _); lia.
Qed.

Lemma NewSafeMessagesMap_count o : count NewSafeMessagesMap o = 0.
Proof. unfold count, originMessages, NewSafeMessagesMap. by rewrite lookup_empty. Qed.

Lemma AddMessage_in_order_witness :
  (AddMessage NewSafeMessagesMap (mkRumorMessage "A" 1 "hi")).2 = true /\
  msgs_ok (AddMessage NewSafeMessagesMap (mkRumorMessage "A" 1 "hi")).1.
Proof.
  pose proof (AddMessage_in_order NewSafeMessagesMap (mkRumorMessage "A" 1 "hi") NewSafeMessagesMap_ok)
    as H.
  destruct (AddMessage NewSafeMessagesMap (mkRumorMessage "A" 1 "hi")) as [scm' isNew].
  destruct H as (Hok & Hn & _).
  - unfold in_width. simpl. lia.
  - intros o. rewrite NewSafeMessagesMap_count. lia.
  - split; [| exact Hok]. apply Hn. rewrite NewSafeMessagesMap_count. reflexivity.
Defined.

(** A status packet of a peer stops exactly the senders it acknowledges: the listeners
    for a message below the [NextID] wanted for its origin are removed and their channels
    closed, all others stay.  The result [true] means that no sender to the peer remains
    for the origins that the packet names; senders of other origins are not looked at. *)
Theorem InformListeners_spec scm peer sp :
  let '(scm', allStopped) := InformListeners scm peer sp in
  (forall p o id, listener scm' p o id =
     if bool_decide (p = peer) && existsb (fun v => bool_decide (ps_Identifier v = o) && (id <? ps_NextID v))
          (sp_Want sp) then None else listener scm p o id) /\
  (forall c, c ∈ closed scm' <-> c ∈ closed scm \/
     exists o id, listener scm peer o id = Some c /\ stops (sp_Want sp) o id) /\
  (allStopped = true -> forall v, v ∈ sp_Want sp -> stopped scm' peer (ps_Identifier v)) /\
  (NoDup (ps_Identifier <$> sp_Want sp) ->
     (forall v, v ∈ sp_Want sp -> stopped scm' peer (ps_Identifier v)) -> allStopped = true).
Proof.
  pose proof (InformListeners_foldl peer (sp_Want sp) scm true) as H. unfold InformListeners.
  destruct (foldl _ _ _) as [scm' b]. destruct H as (H1 & H2 & H3 & H4 & H5). split_and!.
  - intros p o id. destruct (existsb _ _) eqn:E.
    + assert (Hs : stops (sp_Want sp) o id).
      { apply existsb_exists in E as (v & Hv & E). apply andb_true_iff in E as [Eo Ei].
        apply bool_decide_eq_true in Eo. apply Z.ltb_lt in Ei. exists v.
        rewrite list_elem_of_In. done. }
      rewrite andb_true_r. case_bool_decide as Ep; [subst; by apply H2 |]. apply H1. by left.
    + rewrite andb_false_r. apply H1. right. intros (v & Hv & Ev & Hlt).
      apply not_true_iff_false in E. apply E, existsb_exists. exists v.
      rewrite <-list_elem_of_In. split; [done |]. rewrite bool_decide_eq_true_2 by done. simpl. lia.
  - exact H3.
  - intros Hb. by apply H4.
  - intros Hnd Hall. by apply H5.
Qed.

(** The routing table after a sequence of updates [(seqID, origin, sender)]: the next
    hop towards an origin is the sender of the first update that carried the greatest
    sequence number seen for it; there is none exactly when no update named the origin. *)
Theorem UpdateEntry_newest (l : list (Z * string * string)) origin :
  let srt := foldl (fun srt u => (UpdateEntry srt u.1.1 u.1.2 u.2).1) NewSafeRoutingTable l in
  (GetNextHop srt origin = None <-> Forall (fun u => u.1.2 <> origin) l) /\
  (forall addr, GetNextHop srt origin = Some addr <->
     exists l1 seq l2, l = l1 ++ (seq, origin, addr) :: l2 /\
       Forall (fun u => u.1.2 = origin -> u.1.1 < seq) l1 /\
       Forall (fun u => u.1.2 = origin -> u.1.1 <= seq) l2).
Proof.
  cbv zeta. set (srt := foldl _ _ _).
  pose proof (UpdateEntry_foldl l origin) as H. fold srt in H. unfold GetNextHop.
  destruct (srt !! origin) as [[seq addr]|]; simpl.
  - destruct H as (l1 & l2 & -> & H1 & H2). split.
    + split; [done |]. rewrite Forall_app, Forall_cons. simpl. tauto.
    + intros a. split; [intros [= <-]; exists l1, seq, l2; done |].
      intros (l1' & seq' & l2' & E & H1' & H2').
      f_equal. by eapply first_max_unique.
  - split; [done |]. intros a. split; [done |]. intros (l1 & seq & l2 & -> & _).
    rewrite Forall_app, Forall_cons in H. simpl in H. tauto.
Qed.
