(* ===== verification/Gossip.v ===== *)
(** * Rumor mongering, anti-entropy and routing (package gossiper)

    gossiper.go, rumorMongering.go, antiEntropy.go, DSDV.go, helpers.go, UIfunctions.go and
    printing.go.  A listening routine handles one message at a time; a handler is a
    function from the state of the gossiper and the message to the new state and the list
    of its effects (packets sent, goroutines started).  [log.Fatal] and panics end the
    process.  Printing is modelled by the evaluation of its arguments. *)
From S2P Require Import Prelude Dto Containers.

Definition defaultHopLimit : Z := 10.

(** The fields of the gossiper that these files use. *)
Record Gossiper := mkGossiper {
  gs_address : string;
  gs_name : string;
  UseSimple : bool;
  peers : SafeStringArray;
  seqIDCounter : SafeCounter;
  statusChanMap : SafeChanMap;
  quitChanMap : QuitChanMap;
  msgMap : SafeMessagesMap;
  latestMessages : SafeMessageArray;
  origins : SafeStringArray;
  routingTable : SafeRoutingTable;
  matchesGUImap : SafeHashFilenamePairArray
}.

(** What a handler does besides changing the state. *)
Inductive action :=
  | Send (packet : GossipPacket) (addr : string)          (* g.sendUDP *)
  | GoRumorMonger (packet : GossipPacket) (except : string)
  | GoPeerStatusListen (peer : string) (c : nat)
  | SendStatus (c : nat) (sp : option StatusPacket).       (* c <- pap.Packet.Status *)

Definition NewGossiper (address name : string) (members : list string) (simple : bool) : Gossiper :=
  mkGossiper address name simple (NewSafeStringArray members) NewSafeCounter NewSafeChanMap
    NewQuitChanMap NewSafeMessagesMap NewSafeMessageArray (NewSafeStringArray [])
    NewSafeRoutingTable NewSafeHashFilenamePairArray.

Definition set_peers (g : Gossiper) (v : SafeStringArray) : Gossiper :=
  mkGossiper (gs_address g) (gs_name g) (UseSimple g) v (seqIDCounter g) (statusChanMap g)
    (quitChanMap g) (msgMap g) (latestMessages g) (origins g) (routingTable g) (matchesGUImap g).
Definition set_counter (g : Gossiper) (v : SafeCounter) : Gossiper :=
  mkGossiper (gs_address g) (gs_name g) (UseSimple g) (peers g) v (statusChanMap g)
    (quitChanMap g) (msgMap g) (latestMessages g) (origins g) (routingTable g) (matchesGUImap g).
Definition set_statusChanMap (g : Gossiper) (v : SafeChanMap) : Gossiper :=
  mkGossiper (gs_address g) (gs_name g) (UseSimple g) (peers g) (seqIDCounter g) v
    (quitChanMap g) (msgMap g) (latestMessages g) (origins g) (routingTable g) (matchesGUImap g).
Definition set_quitChanMap (g : Gossiper) (v : QuitChanMap) : Gossiper :=
  mkGossiper (gs_address g) (gs_name g) (UseSimple g) (peers g) (seqIDCounter g) (statusChanMap g)
    v (msgMap g) (latestMessages g) (origins g) (routingTable g) (matchesGUImap g).
Definition set_msgMap (g : Gossiper) (v : SafeMessagesMap) : Gossiper :=
  mkGossiper (gs_address g) (gs_name g) (UseSimple g) (peers g) (seqIDCounter g) (statusChanMap g)
    (quitChanMap g) v (latestMessages g) (origins g) (routingTable g) (matchesGUImap g).
Definition set_latest (g : Gossiper) (v : SafeMessageArray) : Gossiper :=
  mkGossiper (gs_address g) (gs_name g) (UseSimple g) (peers g) (seqIDCounter g) (statusChanMap g)
    (quitChanMap g) (msgMap g) v (origins g) (routingTable g) (matchesGUImap g).
Definition set_routes (g : Gossiper) (o : SafeStringArray) (v : SafeRoutingTable) : Gossiper :=
  mkGossiper (gs_address g) (gs_name g) (UseSimple g) (peers g) (seqIDCounter g) (statusChanMap g)
    (quitChanMap g) (msgMap g) (latestMessages g) o v (matchesGUImap g).

(** ** helpers.go *)
Definition wantMap (want : list PeerStatus) : gmap string Z :=
  foldl (fun m ps => <[ps_Identifier ps := ps_NextID ps]> m) ∅ want.
Definition peerStatusDifference (have want : list PeerStatus) : list PeerStatus :=
  omap (fun ps =>
    match wantMap want !! ps_Identifier ps with
    | Some w => if w <? ps_NextID ps then Some (mkPeerStatus (ps_Identifier ps) w) else None
    | None => Some (mkPeerStatus (ps_Identifier ps) 1)
    end) have.
Definition peerStatusUpdated (have want : list PeerStatus) : list PeerStatus :=
  want ++ omap (fun ps =>
    if wantMap want !! ps_Identifier ps is Some _ then None
    else Some (mkPeerStatus (ps_Identifier ps) 1)) have.
Definition stringArrayDifference (first second : list string) : list string :=
  filter (fun key => key ∉ (list_to_set second : gset string)) first.

(** ** printing.go *)
Definition printClientMessage (pair : PacketAddressPair) : outcome unit :=
  _ ← pap_GetContents pair; mret ().
Definition printGossiperMessage (pair : PacketAddressPair) : outcome unit :=
  switch (GetUnderlyingType (pap_Packet pair)) [
    ("simple", _ ← pap_GetOrigin pair; _ ← pap_GetSenderAddress pair; _ ← pap_GetContents pair;
       mret ());
    ("rumor", _ ← pap_GetOrigin pair; _ ← pap_GetSenderAddress pair; _ ← pap_GetSeqID pair;
       _ ← pap_GetContents pair; mret ());
    ("private", _ ← pap_GetOrigin pair; _ ← pap_GetHopLimit pair; _ ← pap_GetContents pair;
       mret ())
  ] (mret ()).

(** ** gossiper.go *)
Definition addToPeers (g : Gossiper) (peerAddr : string) : Gossiper * bool :=
  let '(p, isNew) := AppendUniqueToArray (peers g) peerAddr in (set_peers g p, isNew).
Definition addMessage (g : Gossiper) (rm : RumorMessage) : Gossiper * bool :=
  let '(m, isNew) := AddMessage (msgMap g) rm in
  let g' := set_msgMap g m in
  (if isNew && IsChatRumor rm then set_latest g' (AppendToArray (latestMessages g') rm) else g', isNew).
Definition sendAllPeers (g : Gossiper) (packet : GossipPacket) (exception : string) : list action :=
  Send packet <$> stringArrayDifference (GetArrayCopy (peers g)) [exception].
Definition sendStatusPacket (g : Gossiper) (peerAddress : string) : list action :=
  [Send (status_packet (GetOwnStatusPacket (msgMap g))) peerAddress].

Definition makeGossip (g : Gossiper) (received : GossipPacket) (isFromClient : bool)
    : outcome (Gossiper * GossipPacket) :=
  if UseSimple g then
    origin ← GetOrigin received;
    contents ← GetContents received;
    Ok (g, simple_packet (mkSimpleMessage origin (gs_address g) contents))
  else
    origin ← GetOrigin received;
    text ← GetContents received;
    if isFromClient then
      let '(c, id) := GetAndIncrement (seqIDCounter g) in
      Ok (set_counter g c, rumor_packet (mkRumorMessage origin id text))
    else
      id ← GetSeqID received;
      Ok (g, rumor_packet (mkRumorMessage origin id text)).

(** ** DSDV.go *)
Definition updateDSDV (g : Gossiper) (pap : PacketAddressPair) : outcome Gossiper :=
  origin ← pap_GetOrigin pap;
  if String.eqb origin (gs_name g) then Ok g
  else
    seq ← pap_GetSeqID pap;
    sender ← pap_GetSenderAddress pap;
    let '(rt, _) := UpdateEntry (routingTable g) seq origin sender in
    let '(o, _) := AppendUniqueToArray (origins g) origin in
    Ok (set_routes g o rt).
Definition getNextHop (g : Gossiper) (origin : string) : option string :=
  GetNextHop (routingTable g) origin.

(** The packet is decremented in place: the result carries it for a caller that uses it
    again. *)
Definition forward (g : Gossiper) (packet : GossipPacket) : outcome (GossipPacket * list action) :=
  '(packet', shouldSend) ← DecrementHopCount packet;
  if shouldSend : bool then
    dest ← GetDestination packet';
    match getNextHop g dest with
    | Some nextHop =>
        _ ← (if String.eqb (GetUnderlyingType packet') "private"
             then _ ← GetContents packet'; _ ← GetDestination packet'; mret () else mret ());
        Ok (packet', [Send packet' nextHop])
    | None => Ok (packet', [])
    end
  else Ok (packet', []).

Definition makeRouteRumorPacket (g : Gossiper) : Gossiper * GossipPacket :=
  let '(c, id) := GetAndIncrement (seqIDCounter g) in
  (set_counter g c, rumor_packet (mkRumorMessage (gs_name g) id "")).

(** Assignments through [pap.Packet.Private]. *)
Definition clientPMListen (g : Gossiper) (pap : PacketAddressPair) : outcome (list action) :=
  _ ← printClientMessage pap;
  pm ← deref (g_Private (pap_Packet pap));
  let pm' := mkPrivateMessage (gs_name g) 0 (pm_Text pm) (pm_Destination pm) defaultHopLimit in
  let packet := with_Private (pap_Packet pap) pm' in
  if 0 <? pm_HopLimit pm' then
    dest ← GetDestination packet;
    Ok (if getNextHop g dest is Some nextHop then [Send packet nextHop] else [])
  else Ok [].

Definition privateMessageListen (g : Gossiper) (pap : PacketAddressPair)
    : outcome (Gossiper * list action) :=
  sender ← pap_GetSenderAddress pap;
  let g := (addToPeers g sender).1 in
  dest ← pap_GetDestination pap;
  if String.eqb dest (gs_name g) then
    _ ← printGossiperMessage pap;
    pm ← deref (g_Private (pap_Packet pap));
    Ok (set_latest g (AppendToArray (latestMessages g) (ToRumorMessage pm)), [])
  else
    '(_, actions) ← forward g (pap_Packet pap);
    Ok (g, actions).

(** ** The listening routines of gossiper.go *)
Definition clientListen (g : Gossiper) (pap : PacketAddressPair) : outcome (Gossiper * list action) :=
  _ ← printClientMessage pap;
  '(g, packet) ← makeGossip g (pap_Packet pap) true;
  if negb (UseSimple g) then
    rm ← deref (g_Rumor packet);
    let g := (addMessage g rm).1 in
    Ok (g, [GoRumorMonger packet ""])
  else Ok (g, sendAllPeers g packet "").

Definition rumorListen (g : Gossiper) (pap : PacketAddressPair) : outcome (Gossiper * list action) :=
  sender ← pap_GetSenderAddress pap;
  let g := (addToPeers g sender).1 in
  _ ← (if IsChatPacket (pap_Packet pap) || String.eqb (GetUnderlyingType (pap_Packet pap)) "simple"
       then printGossiperMessage pap else mret ());
  '(g, packet) ← makeGossip g (pap_Packet pap) false;
  if negb (UseSimple g) then
    g ← updateDSDV g pap;
    rm ← deref (g_Rumor packet);
    let '(g, isNew) := addMessage g rm in
    Ok (g, sendStatusPacket g sender ++ (if isNew then [GoRumorMonger packet sender] else []))
  else Ok (g, sendAllPeers g packet sender).

Definition statusListen (g : Gossiper) (pap : PacketAddressPair) : outcome (Gossiper * list action) :=
  peer ← pap_GetSenderAddress pap;
  let g := (addToPeers g peer).1 in
  let '(scm, c, isNew) := AddOrGetPeerStatusListener (statusChanMap g) peer in
  Ok (set_statusChanMap g scm,
      (if isNew then [GoPeerStatusListen peer c] else []) ++ [SendStatus c (g_Status (pap_Packet pap))]).

(** ** rumorMongering.go *)
Definition sendDesired (peerAddress : string) (acc : Gossiper * list action) (v : PeerStatus)
    : Gossiper * list action :=
  let '(g, actions) := acc in
  let '(m, rm) := GetMessage (msgMap g) (ps_Identifier v) (ps_NextID v) in
  (set_msgMap g m, actions ++ [Send (mkGossipPacket None rm None None None None None None None None
     None None None None) peerAddress]).

(** One status packet at a peer's routine; [None] stands for the line IN SYNC. *)
Definition peerStatusListen (g : Gossiper) (peerAddress : string) (sp : StatusPacket)
    : Gossiper * list action * bool (* in sync *) :=
  let mySp := GetOwnStatusPacket (msgMap g) in
  let '(q, notMongering) := InformListeners (quitChanMap g) peerAddress sp in
  let theirDesiredMsgs := peerStatusDifference (sp_Want mySp) (sp_Want sp) in
  let '(g, actions) := foldl (sendDesired peerAddress) (set_quitChanMap g q, []) theirDesiredMsgs in
  if notMongering && bool_decide (theirDesiredMsgs = []) then
    let ourDesiredMsgs := peerStatusDifference (sp_Want sp) (sp_Want mySp) in
    if decide (ourDesiredMsgs = []) then (g, actions, true)
    else (g, actions ++ sendStatusPacket g peerAddress, false)
  else (g, actions, false).

(** [rand.Intn (len choices)] is the argument [r]. *)
Definition pickRandom (choices : list string) (r : nat) : option string := choices !! r.
Definition pickRandomPeer (g_peers : list string) (exceptions : list string) (r : nat)
    : option string :=
  let possiblePicks := stringArrayDifference g_peers exceptions in
  if decide (length possiblePicks = 0%nat) then None else pickRandom possiblePicks r.

(** [trySend] up to its [select], and its two ends. *)
Definition trySend_start (g : Gossiper) (packet : GossipPacket) (peer : string)
    : outcome (Gossiper * list action * option nat) :=
  origin ← GetOrigin packet;
  id ← GetSeqID packet;
  let '(q, quit, alreadySending) := AddListener (quitChanMap g) peer origin id in
  if alreadySending : bool then Ok (set_quitChanMap g q, [], None)
  else Ok (set_quitChanMap g q, [Send packet peer], Some quit).
Definition trySend_timeout (g : Gossiper) (packet : GossipPacket) (peer : string) : outcome Gossiper :=
  origin ← GetOrigin packet;
  id ← GetSeqID packet;
  Ok (set_quitChanMap g (DeleteListener (quitChanMap g) peer origin id)).

(** The peers that [rumorMonger] sends to.  What the environment decides at each pick: the
    known peers at that time, the random index, and the coin thrown before it. *)
Record monger_env := mkMongerEnv { me_peers : list string; me_pick : nat; me_coin : bool }.
Fixpoint rumorMonger_loop (peer : string) (env : list monger_env) : list string :=
  peer ::
  match env with
  | [] => []
  | e :: rest =>
      if me_coin e then []
      else match pickRandomPeer (me_peers e) [peer] (me_pick e) with
           | Some peer' => rumorMonger_loop peer' rest
           | None => []
           end
  end.
Definition rumorMonger (except : string) (first : monger_env) (env : list monger_env) : list string :=
  let exceptions := if String.eqb except "" then [] else [except] in
  match pickRandomPeer (me_peers first) exceptions (me_pick first) with
  | Some peer => rumorMonger_loop peer env
  | None => []
  end.

(** antiEntropy.go and [periodicRouteRumor]: one tick of their tickers. *)
Definition antiEntropy_tick (g : Gossiper) (r : nat) : list action :=
  if UseSimple g then []
  else if pickRandomPeer (GetArrayCopy (peers g)) [] r is Some pick then sendStatusPacket g pick
  else [].
Definition periodicRouteRumor_tick (g : Gossiper) (r : nat)
    : outcome (Gossiper * list action * option nat) :=
  match pickRandomPeer (GetArrayCopy (peers g)) [""] r with
  | Some peer =>
      let '(g, packet) := makeRouteRumorPacket g in
      rm ← deref (g_Rumor packet);
      let g := (addMessage g rm).1 in
      trySend_start g packet peer
  | None => Ok (g, [], None)
  end.

(** ** UIfunctions.go *)
Record FrontEndMessage := mkFEM { fe_Origin : string; fe_Text : string; fe_Type : string }.
Definition GetName (g : Gossiper) : string := gs_name g.
Definition GetLatestMessagesList (g : Gossiper) : Gossiper * list RumorMessage :=
  let '(l, old) := GetArrayCopyAndDelete (latestMessages g) in (set_latest g l, old).
Definition GetPeersList (g : Gossiper) : list string := GetArrayCopy (peers g).
Definition AddPeer (g : Gossiper) (peerAdress : string) : Gossiper := (addToPeers g peerAdress).1.
Definition GetOriginsList (g : Gossiper) : list string := GetArrayCopy (origins g).
Definition ConvertToFEMList (rmList : list RumorMessage) : list FrontEndMessage :=
  (fun rm => mkFEM (rm_Origin rm) (rm_Text rm) (if rm_ID rm =? 0 then "Private" else "Gossip"))
    <$> rmList.
Definition GetMatchesList (g : Gossiper) : list MetahashFilenamePair :=
  shf_GetArrayCopy (matchesGUImap g).

(** ** Lemmas *)
Lemma wantMap_snoc l ps : wantMap (l ++ [ps]) = <[ps_Identifier ps := ps_NextID ps]> (wantMap l).
Proof. unfold wantMap. by rewrite foldl_snoc. Qed.

Lemma wantMap_lookup l o n :
  NoDup (ps_Identifier <$> l) -> wantMap l !! o = Some n <-> mkPeerStatus o n ∈ l.
Proof.
  induction l as [|[o' n'] l IH] using rev_ind; intros Hnd.
  - unfold wantMap. simpl. rewrite lookup_empty. set_solver.
  - rewrite fmap_app in Hnd. apply NoDup_app in Hnd as (Hnd & Hfresh & _).
    rewrite wantMap_snoc, lookup_insert_Some, elem_of_app, list_elem_of_singleton. simpl.
    rewrite IH by done. split.
    + intros [[-> ->]|[? ?]]; [by right | by left].
    + intros [Hin|[= -> ->]]; [right | by left]. split; [| done]. intros ->.
      apply (Hfresh o); [by apply (list_elem_of_fmap_2 ps_Identifier _ (mkPeerStatus o n)) | simpl; set_solver].
Qed.

Lemma elem_of_peerStatusDifference have want ps :
  ps ∈ peerStatusDifference have want <->
  exists h, h ∈ have /\ ps_Identifier ps = ps_Identifier h /\
    match wantMap want !! ps_Identifier h with
    | Some w => w < ps_NextID h /\ ps_NextID ps = w
    | None => ps_NextID ps = 1
    end.
Proof.
  unfold peerStatusDifference. rewrite list_elem_of_omap. split.
  - intros (h & Hh & E). exists h. split; [done |]. destruct (wantMap want !! _) as [w|].
    + destruct (Z.ltb_spec w (ps_NextID h)); simplify_eq/=. split; [done | split; [lia | done]].
    + simplify_eq/=. done.
  - intros (h & Hh & Eo & E). exists h. split; [done |]. destruct ps as [o n]. simpl in *.
    destruct (wantMap want !! _) as [w|].
    + destruct E as [Hlt ->]. rewrite (proj2 (Z.ltb_lt _ _) Hlt). by rewrite Eo.
    + by rewrite Eo, E.
Qed.

(** Messages are stored under their own origin and ID. *)
Definition msgs_keyed (scm : SafeMessagesMap) : Prop :=
  forall o id rm, originMessages scm o !! id = Some rm -> rm_Origin rm = o /\ rm_ID rm = id.

Lemma AddMessage_keyed scm msg :
  msgs_ok scm -> in_width 32 (rm_ID msg) -> count scm (rm_Origin msg) < 2 ^ 32 - 1 ->
  msgs_keyed scm -> msgs_keyed (AddMessage scm msg).1.
Proof.
  intros Hok Hw Hc Hk o id rm. pose proof (AddMessage_ok scm msg Hok Hw Hc) as H.
  destruct (AddMessage scm msg) as [scm' isNew]. destruct H as (_ & _ & _ & Hm). simpl.
  rewrite Hm. destruct (decide _) as [(_ & -> & ->)|]; [by intros [= <-] | apply Hk].
Qed.

Definition desired_packet (g : Gossiper) (v : PeerStatus) : GossipPacket :=
  mkGossipPacket None (originMessages (msgMap g) (ps_Identifier v) !! ps_NextID v) None None None
    None None None None None None None None None.

Lemma sendDesired_foldl peer l g acts :
  let '(g', acts') := foldl (sendDesired peer) (g, acts) l in
  acts' = acts ++ ((fun v => Send (desired_packet g v) peer) <$> l) /\
  (forall o, originMessages (msgMap g') o = originMessages (msgMap g) o).
Proof.
  revert g acts. induction l as [|v l IH]; intros g acts; simpl; [by rewrite app_nil_r |].
  specialize (IH (set_msgMap g (<[ps_Identifier v := originMessages (msgMap g) (ps_Identifier v)]> (msgMap g)))
    (acts ++ [Send (desired_packet g v) peer])).
  unfold desired_packet in IH at 1. destruct (foldl _ _ l) as [g' acts']. destruct IH as [-> Ho].
  split.
  - rewrite <-app_assoc. simpl. do 2 f_equal. apply list_fmap_ext. intros i x _. unfold desired_packet.
    simpl. by rewrite originMessages_touch.
  - intros o. rewrite Ho. simpl. apply originMessages_touch.
Qed.

(** An origin is wanted at most once. *)
Lemma wanted_nodup have want : NoDup (ps_Identifier <$> have) ->
  NoDup (ps_Identifier <$> peerStatusDifference have want).
Proof.
  unfold peerStatusDifference. induction have as [|ps l IH]; [done |].
  rewrite fmap_cons, NoDup_cons. intros [Hn Hnd]. cbn [omap list_omap].
  assert (Hc : forall x, ps_Identifier x = ps_Identifier ps ->
    NoDup (ps_Identifier <$> x :: omap (fun ps => match wantMap want !! ps_Identifier ps with
      | Some w => if w <? ps_NextID ps then Some (mkPeerStatus (ps_Identifier ps) w) else None
      | None => Some (mkPeerStatus (ps_Identifier ps) 1) end) l)).
  { intros x Ex. rewrite fmap_cons, Ex. apply NoDup_cons. split; [| by apply IH].
    intros (y & Ey & Hy)%list_elem_of_fmap. apply Hn. fold (peerStatusDifference l want) in Hy.
    apply elem_of_peerStatusDifference in Hy as (h & Hh & Eh & _). rewrite Ey, Eh. by apply list_elem_of_fmap_2. }
  destruct (wantMap want !! ps_Identifier ps); [destruct (_ <? _) |]; [by apply Hc | by apply IH | by apply Hc].
Qed.

(** Two status packets of well-formed maps: a wanted message is known and is the next one
    for the peer, and every origin of which we have more is wanted. *)
Section status.
Context (ma mb : SafeMessagesMap).
Context (Hoka : msgs_ok ma) (Hokb : msgs_ok mb).
Context (Hca : forall o, count ma o < 2 ^ 32 - 1) (Hcb : forall o, count mb o < 2 ^ 32 - 1).
Let wanted := peerStatusDifference (sp_Want (GetOwnStatusPacket ma)) (sp_Want (GetOwnStatusPacket mb)).

Lemma wantMap_status o w :
  wantMap (sp_Want (GetOwnStatusPacket mb)) !! o = Some w <-> is_Some (mb !! o) /\ w = count mb o + 1.
Proof using Hokb Hcb.
  rewrite wantMap_lookup by apply GetOwnStatusPacket_nodup.
  by rewrite GetOwnStatusPacket_elem.
Qed.

Lemma count_unknown o : mb !! o = None -> count mb o = 0.
Proof. intros E. unfold count, originMessages. by rewrite E. Qed.

Lemma elem_of_wanted v :
  v ∈ wanted <-> ps_NextID v = count mb (ps_Identifier v) + 1 /\ is_Some (ma !! ps_Identifier v) /\
    (count mb (ps_Identifier v) < count ma (ps_Identifier v) \/ mb !! ps_Identifier v = None).
Proof using Hoka Hokb Hca Hcb.
  unfold wanted. rewrite elem_of_peerStatusDifference. split.
  - intros (h & Hh & Eo & H). apply GetOwnStatusPacket_elem in Hh as [Hs Hn]; [| done..].
    rewrite Eo. destruct (wantMap _ !! ps_Identifier h) as [w|] eqn:Ew.
    + apply wantMap_status in Ew as [_ ->]. split_and!; [lia | done | left; lia].
    + assert (mb !! ps_Identifier h = None) as En.
      { apply eq_None_not_Some. intros Hsome. rewrite (proj2 (wantMap_status _ _) (conj Hsome eq_refl)) in Ew.
        done. }
      rewrite count_unknown by done. split_and!; [done | done | by right].
  - intros (Hn & Hs & Hlt). exists (mkPeerStatus (ps_Identifier v) (count ma (ps_Identifier v) + 1)).
    split; [by apply GetOwnStatusPacket_elem |]. split; [done |]. cbn [ps_Identifier ps_NextID].
    destruct (wantMap _ !! ps_Identifier v) as [w|] eqn:Ew.
    + apply wantMap_status in Ew as [Hsb ->]. split; [| done]. destruct Hlt as [?|E]; [lia |].
      rewrite E in Hsb. by destruct Hsb.
    + assert (mb !! ps_Identifier v = None) as En.
      { apply eq_None_not_Some. intros Hsome. rewrite (proj2 (wantMap_status _ _) (conj Hsome eq_refl)) in Ew.
        done. }
      rewrite count_unknown in Hn by done. lia.
Qed.

Lemma desired_complete o : count mb o < count ma o -> exists v, v ∈ wanted /\ ps_Identifier v = o.
Proof using Hoka Hokb Hca Hcb.
  intros Hlt. exists (mkPeerStatus o (count mb o + 1)). split; [| done]. apply elem_of_wanted. simpl.
  split_and!; [done | | by left]. destruct (ma !! o) eqn:E; [eauto |].
  assert (count ma o = 0) by (unfold count, originMessages; by rewrite E).
  unfold count in *. lia.
Qed.

(** A wanted message is sent and accepted; only an origin without any message yields a
    packet without parts. *)
Lemma desired_accepted g v :
  msgMap g = ma -> msgs_keyed ma -> v ∈ wanted ->
  (exists rm, desired_packet g v = rumor_packet rm /\ rm_Origin rm = ps_Identifier v /\
     (AddMessage mb rm).2 = true /\ count mb (rm_Origin rm) < count ma (rm_Origin rm)) \/
  (desired_packet g v = empty_packet /\ is_Some (ma !! ps_Identifier v) /\
     count ma (ps_Identifier v) = 0 /\ mb !! ps_Identifier v = None).
Proof using Hoka Hokb Hca Hcb.
  intros Eg Hk (Hn & Hs & Hlt)%elem_of_wanted. unfold desired_packet. rewrite Eg.
  assert (0 <= count mb (ps_Identifier v)) by (unfold count; lia).
  assert (0 <= count ma (ps_Identifier v)) by (unfold count; lia).
  destruct (decide (count mb (ps_Identifier v) < count ma (ps_Identifier v))) as [Hl|Hge].
  - left. destruct (proj2 (Hoka (ps_Identifier v) (ps_NextID v))) as [rm Erm]; [lia |].
    destruct (Hk _ _ _ Erm) as [Eo Ei]. exists rm. rewrite Erm, Eo. split_and!; [done | done | | done].
    assert (Hw : in_width 32 (rm_ID rm))
      by (specialize (Hca (ps_Identifier v)); unfold in_width; lia).
    pose proof (AddMessage_ok mb rm Hokb Hw) as Ha.
    destruct (AddMessage mb rm) as [mb' isNew]. destruct Ha as (_ & Hnew & _); [by rewrite Eo |].
    simpl. apply Hnew. by rewrite Ei, Eo.
  - right. destruct Hlt as [?|En]; [done |]. rewrite (count_unknown _ En) in *.
    assert (E0 : count ma (ps_Identifier v) = 0) by lia. split_and!; try done.
    destruct (originMessages ma (ps_Identifier v) !! ps_NextID v) eqn:E; [| done].
    assert (Hsome : is_Some (originMessages ma (ps_Identifier v) !! ps_NextID v)) by eauto.
    apply Hoka in Hsome. lia.
Qed.
End status.

(** What the status routine does: the desired messages, then at most its own status. *)
Lemma peerStatusListen_shape g peer sp :
  let theirs := peerStatusDifference (sp_Want (GetOwnStatusPacket (msgMap g))) (sp_Want sp) in
  let '(g', actions, in_sync) := peerStatusListen g peer sp in
  (forall o, originMessages (msgMap g') o = originMessages (msgMap g) o) /\
  exists extra, actions = ((fun v => Send (desired_packet g v) peer) <$> theirs) ++ extra /\
    (extra = [] \/ (extra = sendStatusPacket g' peer /\ theirs = [] /\
       peerStatusDifference (sp_Want sp) (sp_Want (GetOwnStatusPacket (msgMap g))) <> [])) /\
    (in_sync = true -> extra = [] /\ theirs = [] /\
       peerStatusDifference (sp_Want sp) (sp_Want (GetOwnStatusPacket (msgMap g))) = []).
Proof.
  intros theirs. unfold peerStatusListen. destruct (InformListeners _ _ _) as [q notMongering].
  fold theirs. pose proof (sendDesired_foldl peer theirs (set_quitChanMap g q) []) as Hfold.
  destruct (foldl _ _ theirs) as [g' acts]. destruct Hfold as [-> Hsame]. simpl in Hsame.
  rewrite app_nil_l.
  destruct (notMongering && bool_decide (theirs = [])) eqn:Eb.
  - apply andb_true_iff in Eb as [_ Et%bool_decide_eq_true]. destruct (decide _) as [Eo|Eo].
    + split; [done |]. exists []. rewrite app_nil_r. split_and!; [done | by left | done].
    + split; [done |]. exists (sendStatusPacket g' peer). split_and!; [done | by right | done].
  - split; [done |]. exists []. rewrite app_nil_r. split_and!; [done | by left | done].
Qed.

Lemma wantMap_unknown l o : Forall (fun ps => ps_Identifier ps <> o) l -> wantMap l !! o = None.
Proof.
  induction l as [|ps l IH] using rev_ind; intros H; [apply lookup_empty |].
  apply Forall_app in H as [Hl Hp]. inversion Hp; subst. rewrite wantMap_snoc, lookup_insert_ne by done.
  by apply IH.
Qed.

(** The accessors on a packet with a rumor. *)
Lemma rumor_accessors p rm :
  g_Simple p = None -> g_Rumor p = Some rm ->
  GetUnderlyingType p = "rumor" /\ GetOrigin p = Ok (rm_Origin rm) /\
  GetContents p = Ok (rm_Text rm) /\ GetSeqID p = Ok (rm_ID rm).
Proof.
  intros Hs Hr. assert (E : GetUnderlyingType p = "rumor") by (unfold GetUnderlyingType; by rewrite Hs, Hr).
  unfold GetOrigin, GetContents, GetSeqID. rewrite E, Hr. done.
Qed.
Lemma pap_sender_rumor p sender :
  GetUnderlyingType p <> "simple" -> pap_GetSenderAddress (mkPacketAddressPair p sender) = Ok sender.
Proof.
  intros E. unfold pap_GetSenderAddress. cbn [pap_Packet pap_SenderAddress switch].
  by rewrite (proj2 (String.eqb_neq _ _) E).
Qed.
Lemma printGossiperMessage_rumor p rm sender :
  g_Simple p = None -> g_Rumor p = Some rm ->
  printGossiperMessage (mkPacketAddressPair p sender) = Ok ().
Proof.
  intros Hs Hr. destruct (rumor_accessors p rm Hs Hr) as (Et & Eo & Ec & Ei).
  unfold printGossiperMessage, pap_GetOrigin, pap_GetSeqID, pap_GetContents. cbn [pap_Packet].
  rewrite Et, Eo, Ec, Ei. cbn [mbind outcome_bind switch String.eqb Ascii.eqb].
  rewrite pap_sender_rumor by (by rewrite Et). done.
Qed.

(** The state after a rumor before its message is stored. *)
Definition learned (g : Gossiper) (rm : RumorMessage) (sender : string) : Gossiper :=
  let g1 := (addToPeers g sender).1 in
  if decide (rm_Origin rm = gs_name g) then g1
  else set_routes g1 (AppendUniqueToArray (origins g) (rm_Origin rm)).1
         (UpdateEntry (routingTable g) (rm_ID rm) (rm_Origin rm) sender).1.

Lemma addToPeers_fields g sender :
  let g1 := (addToPeers g sender).1 in
  UseSimple g1 = UseSimple g /\ msgMap g1 = msgMap g /\ gs_name g1 = gs_name g /\
  routingTable g1 = routingTable g /\ latestMessages g1 = latestMessages g /\
  seqIDCounter g1 = seqIDCounter g /\ origins g1 = origins g /\ sender ∈ ssa_exists (peers g1).
Proof.
  unfold addToPeers, AppendUniqueToArray. destruct (decide _); simpl; split_and!; set_solver.
Qed.

Lemma learned_fields g rm sender :
  let g' := learned g rm sender in
  msgMap g' = msgMap g /\
  routingTable g' = (if decide (rm_Origin rm = gs_name g) then routingTable g
                     else (UpdateEntry (routingTable g) (rm_ID rm) (rm_Origin rm) sender).1) /\
  latestMessages g' = latestMessages g /\ seqIDCounter g' = seqIDCounter g /\
  sender ∈ ssa_exists (peers g').
Proof.
  destruct (addToPeers_fields g sender) as (E1 & E2 & E3 & E4 & E5 & E6 & _ & E7).
  unfold learned. destruct (decide _); simpl; by split_and!.
Qed.

Lemma rumorListen_eq g p rm sender :
  UseSimple g = false -> g_Simple p = None -> g_Rumor p = Some rm ->
  rumorListen g (mkPacketAddressPair p sender) = Ok (
    let '(g', isNew) := addMessage (learned g rm sender) rm in
    (g', sendStatusPacket g' sender ++ (if isNew then [GoRumorMonger (rumor_packet rm) sender] else []))).
Proof.
  intros Hm Hs Hr. destruct (rumor_accessors p rm Hs Hr) as (Et & Eo & Ec & Ei).
  destruct (addToPeers_fields g sender) as (E1 & _ & E3 & E4 & _ & _ & E8 & _).
  assert (Eta : mkRumorMessage (rm_Origin rm) (rm_ID rm) (rm_Text rm) = rm) by (by destruct rm).
  assert (Ed : updateDSDV (addToPeers g sender).1 (mkPacketAddressPair p sender)
    = Ok (learned g rm sender)).
  { unfold updateDSDV, pap_GetOrigin, pap_GetSeqID, learned. cbn [pap_Packet]. rewrite Eo, Ei.
    rewrite pap_sender_rumor by (by rewrite Et). cbn [mbind outcome_bind]. rewrite E3, E4, E8.
    destruct (String.eqb_spec (rm_Origin rm) (gs_name g)).
    - by rewrite decide_True.
    - rewrite decide_False by done. by destruct (UpdateEntry _ _ _ _), (AppendUniqueToArray _ _). }
  unfold rumorListen. rewrite pap_sender_rumor by (by rewrite Et). cbn [mbind outcome_bind].
  rewrite (printGossiperMessage_rumor p rm sender) by done.
  unfold makeGossip. cbn [pap_Packet]. rewrite E1, Hm, Eo, Ec, Ei.
  cbn [mbind outcome_bind]. rewrite Eta.
  assert (Eprint : (if IsChatPacket p || String.eqb (GetUnderlyingType p) "simple" then Ok ()
    else mret ()) = Ok ()) by (by destruct (_ || _)).
  rewrite Eprint. cbn [mbind outcome_bind]. rewrite E1, Hm, Ed. cbn [negb mbind outcome_bind].
  cbn [rumor_packet g_Rumor deref mbind outcome_bind].
  by destruct (addMessage (learned g rm sender) rm).
Qed.

(** A packet on its way through gossipers: each one that gets it forwards it if it can. *)
Fixpoint relay (route : list Gossiper) (packet : GossipPacket) : outcome nat :=
  match route with
  | [] => Ok 0%nat
  | g :: rest =>
      '(packet', actions) ← forward g packet;
      match actions with
      | [] => Ok 0%nat
      | _ => n ← relay rest packet'; Ok (S n)
      end
  end.

Lemma printGossiperMessage_private p pm sender :
  GetUnderlyingType p = "private" -> g_Private p = Some pm ->
  printGossiperMessage (mkPacketAddressPair p sender) = Ok ().
Proof.
  intros Ht Hp. unfold printGossiperMessage, pap_GetOrigin, pap_GetHopLimit, pap_GetContents.
  cbn [pap_Packet]. unfold GetOrigin, GetHopLimit, GetContents. by rewrite Ht, Hp.
Qed.

Lemma private_contents p : GetUnderlyingType p = "private" -> exists c, GetContents p = Ok c.
Proof.
  intros E. unfold GetContents. rewrite E. revert E.
  packet_cases p ltac:(intros E; try discriminate E; cbn; eauto).
Qed.

(** What [forward] needs: a relayed packet with a readable destination and contents. *)
Lemma forward_total g p h dest :
  relayed (GetUnderlyingType p) = true -> GetHopLimit p = Ok h -> GetDestination p = Ok dest ->
  in_width 32 h ->
  exists p', GetHopLimit p' = Ok (if decide (h = 0) then 2 ^ 32 - 1 else h - 1) /\
    GetDestination p' = Ok dest /\ GetUnderlyingType p' = GetUnderlyingType p /\
    forward g p = Ok (p', if decide (h = 1) then []
                          else if getNextHop g dest is Some nextHop then [Send p' nextHop] else []).
Proof.
  intros Hr Hh Hd Hw. destruct (decrement_packet p h Hr Hh Hw) as (p' & E & Eh & Et & _ & Ed & _ & _ & Ec & _).
  exists p'. split; [done |]. split; [by rewrite Ed |]. split; [done |].
  unfold forward. rewrite E. cbn [mbind outcome_bind].
  destruct (decide (h = 1)) as [->|Hne].
  - by rewrite bool_decide_eq_false_2 by tauto.
  - rewrite bool_decide_eq_true_2 by done. rewrite Ed, Hd. cbn [mbind outcome_bind].
    destruct (getNextHop g dest); [| done].
    destruct (String.eqb_spec (GetUnderlyingType p') "private") as [Ep|]; [| done].
    destruct (private_contents p' Ep) as [c ->]. done.
Qed.

Lemma forward_pos g p h dest :
  relayed (GetUnderlyingType p) = true -> GetHopLimit p = Ok h -> GetDestination p = Ok dest ->
  in_width 32 h -> 0 < h ->
  exists p', GetHopLimit p' = Ok (h - 1) /\ GetDestination p' = Ok dest /\
    GetUnderlyingType p' = GetUnderlyingType p /\
    forward g p = Ok (p', if decide (h = 1) then []
                          else if getNextHop g dest is Some nextHop then [Send p' nextHop] else []).
Proof.
  intros Hr Hh Hd Hw Hpos. destruct (forward_total g p h dest Hr Hh Hd Hw) as (p' & E & ? & ? & ?).
  rewrite decide_False in E by lia. eauto.
Qed.

Lemma pickRandomPeer_spec l ex r p :
  pickRandomPeer l ex r = Some p -> p ∈ l /\ p ∉ ex.
Proof.
  unfold pickRandomPeer, stringArrayDifference, pickRandom. destruct (decide _); [done |].
  intros Hp%list_elem_of_lookup_2. apply list_elem_of_filter in Hp as [Hn Hin]. split; [done |].
  intros Hx. by apply Hn, elem_of_list_to_set.
Qed.

Lemma rumorMonger_loop_spec p0 env i peer peer' :
  rumorMonger_loop p0 env !! i = Some peer -> rumorMonger_loop p0 env !! S i = Some peer' ->
  peer' <> peer /\ exists e, env !! i = Some e /\ peer' ∈ me_peers e /\ me_coin e = false.
Proof.
  revert p0 i. induction env as [|e env IH]; intros p0 i; [by destruct i |].
  cbn [rumorMonger_loop]. destruct (me_coin e) eqn:Ec; [by destruct i |].
  destruct (pickRandomPeer _ _ _) as [p1|] eqn:Ep; [| by destruct i].
  destruct i as [|i]; cbn [lookup list_lookup].
  - intros [= <-]. apply pickRandomPeer_spec in Ep as [Hin Hne].
    destruct env; simpl; intros [= <-]; (split; [set_solver | eauto]).
  - intros H1 H2. by apply (IH p1).
Qed.

Lemma rumorMonger_loop_length p0 env : (length (rumorMonger_loop p0 env) <= S (length env))%nat.
Proof.
  revert p0. induction env as [|e env IH]; intros p0; simpl; [lia |].
  destruct (me_coin e); simpl; [lia |]. destruct (pickRandomPeer _ _ _); simpl; [| lia].
  pose proof (IH s). lia.
Qed.

(** ** Properties *)

(** The packet that answers a lack of messages of [o]: the next one, if there is one. *)
Definition next_packet (ma mb : SafeMessagesMap) (o : string) : GossipPacket :=
  match originMessages ma o !! (count mb o + 1) with Some rm => rumor_packet rm | None => empty_packet end.

(** C8. Anti-entropy.  When a gossiper receives the status packet of a peer whose messages
    are [mb], it sends the peer exactly one packet for every origin of which it has more: the
    very next message, which the peer accepts as new.  (A packet without parts is sent for
    a registered origin without messages that the peer does not know.)  Only if there is no
    such origin, but the peer has more, its own status may follow.  When it reports that the
    two are in sync, nothing is sent and they hold messages with the same IDs; so they hold
    the same messages, if they agree on the ones that both have.  Its own messages do not
    change. *)
Theorem anti_entropy g mb peer :
  msgs_ok (msgMap g) -> msgs_keyed (msgMap g) -> msgs_ok mb ->
  (forall o, count (msgMap g) o < 2 ^ 32 - 1) -> (forall o, count mb o < 2 ^ 32 - 1) ->
  let ma := msgMap g in
  let '(g', actions, in_sync) := peerStatusListen g peer (GetOwnStatusPacket mb) in
  (exists lacking extra,
     actions = ((fun o => Send (next_packet ma mb o) peer) <$> lacking) ++ extra /\ NoDup lacking /\
     (forall o, o ∈ lacking <-> count mb o < count ma o \/ (is_Some (ma !! o) /\ count ma o = 0 /\ mb !! o = None)) /\
     (forall o, count mb o < count ma o -> exists rm, next_packet ma mb o = rumor_packet rm /\
        rm_Origin rm = o /\ (AddMessage mb rm).2 = true) /\
     (extra = [] \/ (extra = [Send (status_packet (GetOwnStatusPacket (msgMap g'))) peer] /\ lacking = [] /\
        exists o, count ma o < count mb o \/ (is_Some (mb !! o) /\ ma !! o = None)))) /\
  (in_sync = true -> actions = [] /\
     (forall o id, is_Some (originMessages ma o !! id) <-> is_Some (originMessages mb o !! id)) /\
     ((forall o id rm rm', originMessages ma o !! id = Some rm -> originMessages mb o !! id = Some rm' -> rm = rm') ->
        forall o, originMessages ma o = originMessages mb o)) /\
  (forall o, originMessages (msgMap g') o = originMessages ma o).
Proof.
  intros Hok Hkey Hokb Hc Hcb ma.
  pose proof (peerStatusListen_shape g peer (GetOwnStatusPacket mb)) as Hshape.
  destruct (peerStatusListen _ _ _) as [[g' actions] in_sync].
  destruct Hshape as (Hsame & extra & -> & Hextra & Hsync). fold ma in Hok, Hkey, Hc, Hsame, Hextra, Hsync |- *.
  set (theirs := peerStatusDifference _ _) in *.
  assert (Hw : forall v, v ∈ theirs <-> _) by (exact (elem_of_wanted _ _ Hok Hokb Hc Hcb)).
  split_and!; [| | done].
  - exists (ps_Identifier <$> theirs), extra. split_and!.
    + f_equal. rewrite <-list_fmap_compose. apply list_fmap_ext. intros i v Hv%list_elem_of_lookup_2.
      unfold compose, next_packet, desired_packet. apply Hw in Hv as (-> & _). fold ma. by destruct (originMessages ma _ !! _).
    + apply wanted_nodup. apply GetOwnStatusPacket_nodup.
    + intros o. rewrite list_elem_of_fmap. split.
      * intros (v & -> & Hv). destruct (desired_accepted _ _ Hok Hokb Hc Hcb g v eq_refl Hkey Hv)
          as [(rm & _ & <- & _ & ?)|(_ & ? & ? & ?)]; [by left | by right].
      * intros [Ho|(Hs & H0 & Hn)].
        -- destruct (desired_complete _ _ Hok Hokb Hc Hcb o Ho) as (v & Hin & <-). by exists v.
        -- exists (mkPeerStatus o (count mb o + 1)). split; [done |]. apply Hw. cbn. split_and!; [done | done | by right].
    + intros o Ho. destruct (desired_complete _ _ Hok Hokb Hc Hcb o Ho) as (v & Hin & Ev).
      destruct (desired_accepted _ _ Hok Hokb Hc Hcb g v eq_refl Hkey Hin) as [(rm & E & Eo & Ha & _)|(_ & _ & H0 & _)].
      * exists rm. split; [| split; [congruence | done]]. rewrite <-E. unfold next_packet, desired_packet.
        apply Hw in Hin as (-> & _). rewrite Ev. fold ma. by destruct (originMessages ma _ !! _).
      * unfold count in Ho, H0. fold ma in Ho, H0. rewrite Ev in H0. lia.
    + destruct Hextra as [->|(-> & Et & Eo)]; [by left | right]. split; [done |]. split; [by rewrite Et |].
      destruct (peerStatusDifference (sp_Want (GetOwnStatusPacket mb)) _) as [|v l] eqn:E; [done |].
      assert (Hv : v ∈ v :: l) by left. rewrite <-E in Hv.
      apply (elem_of_wanted _ _ Hokb Hok Hcb Hc) in Hv as (_ & Hs & [?|?]); exists (ps_Identifier v); [by left | by right].
  - intros Hs. destruct (Hsync Hs) as (-> & Et & Eo). split; [by rewrite Et |].
    assert (Hids : forall o id, is_Some (originMessages ma o !! id) <-> is_Some (originMessages mb o !! id)).
    { intros o id. rewrite (Hok o id), (Hokb o id). assert (Heq : count ma o = count mb o); [| by rewrite Heq].
      destruct (Z.lt_trichotomy (count ma o) (count mb o)) as [H|[H|H]]; [| done |].
      - destruct (desired_complete _ _ Hokb Hok Hcb Hc o H) as (v & Hin & _). fold ma in Hin.
        rewrite Eo in Hin. set_solver.
      - destruct (desired_complete _ _ Hok Hokb Hc Hcb o H) as (v & Hin & _).
        fold ma theirs in Hin. rewrite Et in Hin. set_solver. }
    split; [exact Hids |]. intros Hagree o. apply map_eq. intros id. specialize (Hids o id). specialize (Hagree o id).
    destruct (originMessages ma o !! id) as [rm|], (originMessages mb o !! id) as [rm'|]; [by rewrite (Hagree rm rm') | | | done].
    + destruct (proj1 Hids) as [? ?]; [by eexists | done].
    + destruct (proj2 Hids) as [? ?]; [by eexists | done].
Qed.

Definition sample_gossiper : Gossiper :=
  (addMessage (NewGossiper "127.0.0.1:5000" "A" ["127.0.0.1:5001"] false)
     (mkRumorMessage "A" 1 "hello")).1.
Lemma sample_gossiper_ok :
  msgs_ok (msgMap sample_gossiper) /\ msgs_keyed (msgMap sample_gossiper) /\
  (forall o, count (msgMap sample_gossiper) o < 2 ^ 32 - 2) /\ count (msgMap sample_gossiper) "A" = 1.
Proof.
  unfold sample_gossiper, addMessage. cbn [msgMap NewGossiper].
  assert (Hw : in_width 32 (rm_ID (mkRumorMessage "A" 1 "hello"))) by (unfold in_width; simpl; lia).
  assert (H0 := NewSafeMessagesMap_count).
  pose proof (AddMessage_ok _ _ NewSafeMessagesMap_ok Hw) as Ha.
  pose proof (AddMessage_keyed _ _ NewSafeMessagesMap_ok Hw) as Hk.
  destruct (AddMessage _ _) as [m isNew]. simpl in *. destruct Ha as (Hok & Hnew & Hc & _).
  { rewrite H0. lia. }
  assert (Em : forall b, msgMap (if b : bool then set_latest (set_msgMap (NewGossiper "127.0.0.1:5000" "A" ["127.0.0.1:5001"] false) m)
      [mkRumorMessage "A" 1 "hello"] else set_msgMap (NewGossiper "127.0.0.1:5000" "A" ["127.0.0.1:5001"] false) m) = m) by (by intros []).
  rewrite Em. split_and!; [done | | |].
  - apply Hk; [rewrite H0; lia |]. intros o id rm. unfold originMessages, NewSafeMessagesMap.
    by rewrite lookup_empty.
  - intros o. rewrite Hc, H0. destruct (decide _); lia.
  - rewrite Hc, H0, decide_True; [done |]. split; [| done]. apply Hnew. by rewrite H0.
Qed.

Lemma anti_entropy_witness :
  let '(_, actions, _) := peerStatusListen sample_gossiper "127.0.0.1:5001"
     (GetOwnStatusPacket NewSafeMessagesMap) in
  exists lacking extra, actions = ((fun o => Send (next_packet (msgMap sample_gossiper) NewSafeMessagesMap o)
    "127.0.0.1:5001") <$> lacking) ++ extra /\ "A" ∈ lacking.
Proof.
  destruct sample_gossiper_ok as (Hok & Hk & Hc & H1).
  pose proof (anti_entropy sample_gossiper NewSafeMessagesMap "127.0.0.1:5001" Hok Hk
    NewSafeMessagesMap_ok) as H.
  destruct (peerStatusListen _ _ _) as [[g' actions] in_sync].
  destruct H as ((lacking & extra & E & _ & Hl & _) & _).
  - intros o. specialize (Hc o). lia.
  - intros o. rewrite NewSafeMessagesMap_count. lia.
  - exists lacking, extra. split; [exact E |]. apply Hl. left. rewrite NewSafeMessagesMap_count, H1. lia.
Defined.

(** A premature rumor registers its origin without a message.  From then on the
    gossiper answers every status packet that does not know this origin with a packet
    without any part, and never finds itself in sync with its sender. *)
Theorem premature_rumor_breaks_sync g rm peer sp :
  msgMap g !! rm_Origin rm = None -> in_width 32 (rm_ID rm) -> rm_ID rm <> 1 ->
  Forall (fun ps => ps_Identifier ps <> rm_Origin rm) (sp_Want sp) ->
  let '(g1, isNew) := addMessage g rm in
  let '(_, actions, in_sync) := peerStatusListen g1 peer sp in
  isNew = false /\ in_sync = false /\ Send empty_packet peer ∈ actions.
Proof.
  intros Hnone Hw Hid Hwant. unfold addMessage, AddMessage.
  assert (Eo : originMessages (msgMap g) (rm_Origin rm) = ∅) by (unfold originMessages; by rewrite Hnone).
  rewrite Eo, (proj2 (Z.eqb_neq _ _) Hid), lookup_empty. cbn [negb andb].
  set (g1 := set_msgMap g _).
  pose proof (peerStatusListen_shape g1 peer sp) as H.
  destruct (peerStatusListen g1 peer sp) as [[g' actions] in_sync].
  destruct H as (_ & extra & -> & _ & Hsync). set (theirs := peerStatusDifference _ _) in *.
  assert (Hin : mkPeerStatus (rm_Origin rm) 1 ∈ theirs).
  { apply elem_of_peerStatusDifference.
    exists (mkPeerStatus (rm_Origin rm) 1). split; [| split; [done |]].
    - unfold GetOwnStatusPacket. apply list_elem_of_fmap. exists (rm_Origin rm, ∅). split; [done |].
      apply elem_of_map_to_list. apply lookup_insert_eq.
    - cbn [ps_Identifier ps_NextID]. by rewrite wantMap_unknown. }
  split; [done |]. split.
  - destruct in_sync; [| done]. destruct (Hsync eq_refl) as (_ & Et & _). fold theirs in Et.
    rewrite Et in Hin. set_solver.
  - apply elem_of_app. left. apply list_elem_of_fmap. exists (mkPeerStatus (rm_Origin rm) 1).
    split; [| done]. unfold desired_packet, originMessages. simpl. rewrite lookup_insert_eq. simpl.
    by rewrite lookup_empty.
Qed.

Lemma premature_rumor_breaks_sync_witness :
  let '(g1, isNew) := addMessage (NewGossiper "a" "A" [] false) (mkRumorMessage "B" 2 "late") in
  let '(_, actions, in_sync) := peerStatusListen g1 "b" (mkStatusPacket []) in
  isNew = false /\ in_sync = false /\ Send empty_packet "b" ∈ actions.
Proof.
  apply (premature_rumor_breaks_sync (NewGossiper "a" "A" [] false) (mkRumorMessage "B" 2 "late") "b"
    (mkStatusPacket [])); [apply lookup_empty | unfold in_width; simpl; lia | discriminate | constructor].
Defined.

(** A rumor from a peer (normal mode): the sender becomes a known peer and gets a
    status packet; the route of another origin is updated; the message is stored, shown if
    it has text, and mongered to a peer other than the sender exactly when it is the next
    one of its origin.  The stored messages stay well formed. *)
Theorem rumorListen_spec g p rm sender :
  UseSimple g = false -> g_Simple p = None -> g_Rumor p = Some rm ->
  msgs_ok (msgMap g) -> in_width 32 (rm_ID rm) -> count (msgMap g) (rm_Origin rm) < 2 ^ 32 - 1 ->
  exists g' isNew,
    rumorListen g (mkPacketAddressPair p sender) = Ok (g',
      Send (status_packet (GetOwnStatusPacket (msgMap g'))) sender ::
        (if isNew : bool then [GoRumorMonger (rumor_packet rm) sender] else [])) /\
    (isNew = true <-> rm_ID rm = count (msgMap g) (rm_Origin rm) + 1) /\
    sender ∈ ssa_exists (peers g') /\
    latestMessages g' = latestMessages g ++ (if isNew && IsChatRumor rm then [rm] else []) /\
    routingTable g' = (if decide (rm_Origin rm = gs_name g) then routingTable g
                       else (UpdateEntry (routingTable g) (rm_ID rm) (rm_Origin rm) sender).1) /\
    msgMap g' = (AddMessage (msgMap g) rm).1 /\ msgs_ok (msgMap g') /\
    seqIDCounter g' = seqIDCounter g.
Proof.
  intros Hm Hs Hr Hok Hw Hc. rewrite (rumorListen_eq g p rm sender Hm Hs Hr).
  destruct (learned_fields g rm sender) as (E2 & E4 & E5 & E6 & E7).
  unfold addMessage. rewrite E2. pose proof (AddMessage_ok (msgMap g) rm Hok Hw Hc) as Ha.
  destruct (AddMessage (msgMap g) rm) as [m isNew]. destruct Ha as (Hok' & Hnew & _).
  eexists _, isNew. split; [reflexivity |]. rewrite <-Hnew.
  destruct isNew, (IsChatRumor rm); cbn; rewrite ?E5, ?app_nil_r; by split_and!.
Qed.

Lemma rumorListen_spec_witness :
  exists g' isNew, rumorListen sample_gossiper
    (mkPacketAddressPair (rumor_packet (mkRumorMessage "B" 1 "hi")) "127.0.0.1:5001") =
      Ok (g', Send (status_packet (GetOwnStatusPacket (msgMap g'))) "127.0.0.1:5001" ::
        (if isNew : bool then [GoRumorMonger (rumor_packet (mkRumorMessage "B" 1 "hi")) "127.0.0.1:5001"]
         else [])).
Proof.
  destruct sample_gossiper_ok as (Hok & _ & Hc & _).
  destruct (rumorListen_spec sample_gossiper (rumor_packet (mkRumorMessage "B" 1 "hi"))
    (mkRumorMessage "B" 1 "hi") "127.0.0.1:5001" ltac:(reflexivity) eq_refl eq_refl Hok)
    as (g' & isNew & E & _).
  - unfold in_width. simpl. lia.
  - specialize (Hc "B"). simpl. lia.
  - exists g', isNew. exact E.
Defined.

(** Messages from the client (normal mode).  While the counter is the next own ID, a
    message gets that ID, is accepted by the own message map, shown if it has text and
    mongered, and the counter is again the next own ID: the own messages are numbered
    1, 2, 3, ... without a gap.  Rumors of other origins do not disturb this. *)
Theorem client_messages_numbered g p origin_text :
  UseSimple g = false -> g_Simple p = None ->
  g_Rumor p = Some (mkRumorMessage (gs_name g) 0 origin_text) ->
  msgs_ok (msgMap g) -> seqIDCounter g = count (msgMap g) (gs_name g) + 1 ->
  count (msgMap g) (gs_name g) < 2 ^ 32 - 2 ->
  let rm := mkRumorMessage (gs_name g) (seqIDCounter g) origin_text in
  exists g', clientListen g (mkPacketAddressPair p "") = Ok (g', [GoRumorMonger (rumor_packet rm) ""]) /\
    seqIDCounter g' = seqIDCounter g + 1 /\
    seqIDCounter g' = count (msgMap g') (gs_name g') + 1 /\ gs_name g' = gs_name g /\
    msgs_ok (msgMap g') /\
    originMessages (msgMap g') (gs_name g) !! seqIDCounter g = Some rm /\
    latestMessages g' = latestMessages g ++ (if IsChatRumor rm then [rm] else []) /\
    (forall other, rm_Origin other <> gs_name g -> in_width 32 (rm_ID other) ->
       count (msgMap g') (rm_Origin other) < 2 ^ 32 - 1 ->
       seqIDCounter (addMessage g' other).1 = count (msgMap (addMessage g' other).1) (gs_name g) + 1).
Proof.
  intros Hm Hs Hr Hok Hcnt Hc rm. destruct (rumor_accessors p _ Hs Hr) as (_ & Eo & Ec & _).
  assert (H0 : 0 <= count (msgMap g) (gs_name g)) by (unfold count; lia).
  assert (Hw : in_width 32 (seqIDCounter g)) by (unfold in_width; lia).
  assert (Hinc : u32 (seqIDCounter g + 1) = seqIDCounter g + 1) by (apply wrap_small; unfold in_width; lia).
  unfold clientListen, printClientMessage, pap_GetContents. cbn [pap_Packet]. rewrite Ec.
  cbn [mbind outcome_bind mret outcome_ret]. unfold makeGossip. rewrite Hm, Eo, Ec.
  cbn [mbind outcome_bind GetAndIncrement UseSimple set_counter]. rewrite Hm, Hinc.
  cbn [negb rumor_packet g_Rumor deref mbind outcome_bind rm_Origin rm_Text]. fold rm.
  pose proof (AddMessage_ok (msgMap g) rm Hok Hw ltac:(simpl; lia)) as Ha.
  unfold addMessage at 1 2. cbn [msgMap set_counter].
  destruct (AddMessage (msgMap g) rm) as [m isNew]. destruct Ha as (Hok' & Hnew & Hcount & Hmsg).
  assert (isNew = true) as -> by (apply Hnew; simpl; lia).
  eexists. split; [reflexivity |].
  assert (Hn : count m (gs_name g) = count (msgMap g) (gs_name g) + 1)
    by (rewrite Hcount, decide_True by done; done).
  split_and!; try (destruct (IsChatRumor rm); cbn; rewrite ?app_nil_r; first [done | lia]).
  - destruct (IsChatRumor rm); cbn; rewrite Hmsg, decide_True; done.
  - intros other Hne Hwo Hco. unfold addMessage.
    assert (Em : msgMap (if true && IsChatRumor rm then
        set_latest (set_msgMap (set_counter g (seqIDCounter g + 1)) m)
          (AppendToArray (latestMessages (set_msgMap (set_counter g (seqIDCounter g + 1)) m)) rm)
        else set_msgMap (set_counter g (seqIDCounter g + 1)) m) = m) by (by destruct (IsChatRumor rm)).
    cbn [fst] in Hco |- *. rewrite Em in Hco |- *.
    pose proof (AddMessage_ok m other Hok' Hwo Hco) as Hb.
    destruct (AddMessage m other) as [m2 new2]. destruct Hb as (_ & _ & Hcount2 & _).
    assert (E : count m2 (gs_name g) = count m (gs_name g))
      by (rewrite Hcount2, decide_False by (intros [_ ?]; by apply Hne); lia).
    destruct new2, (IsChatRumor other), (IsChatRumor rm); cbn; lia.
Qed.

Lemma client_messages_numbered_witness :
  let g := NewGossiper "127.0.0.1:5000" "A" [] false in
  exists g', clientListen g (mkPacketAddressPair (rumor_packet (mkRumorMessage "A" 0 "hi")) "") =
    Ok (g', [GoRumorMonger (rumor_packet (mkRumorMessage "A" 1 "hi")) ""]) /\ seqIDCounter g' = 2.
Proof.
  intros g. destruct (client_messages_numbered g (rumor_packet (mkRumorMessage "A" 0 "hi")) "hi"
    eq_refl eq_refl eq_refl NewSafeMessagesMap_ok) as (g' & E & E2 & _).
  - cbn. by rewrite NewSafeMessagesMap_count.
  - cbn. rewrite NewSafeMessagesMap_count. lia.
  - exists g'. split; [exact E | exact E2].
Defined.

(** C35. Forwarding a routed packet never fails.  It is sent to the next hop of its
    destination with the limit decremented, or dropped when the limit was one or no route
    is known; so along any sequence of gossipers a packet with hop limit [h > 0] is sent
    fewer than [h] times. *)
Theorem forward_bounded g p h dest route :
  relayed (GetUnderlyingType p) = true -> GetHopLimit p = Ok h -> GetDestination p = Ok dest ->
  in_width 32 h -> 0 < h ->
  (exists p', GetHopLimit p' = Ok (h - 1) /\ GetDestination p' = Ok dest /\
    GetUnderlyingType p' = GetUnderlyingType p /\
    forward g p = Ok (p', if decide (h = 1) then []
                          else if getNextHop g dest is Some nextHop then [Send p' nextHop] else [])) /\
  (exists n, relay route p = Ok n /\ (Z.of_nat n < h)).
Proof.
  intros Ht Hh Hd Hw Hpos. split; [by apply forward_pos |].
  revert p h Ht Hh Hd Hw Hpos. induction route as [|g' rest IH]; intros p h Ht Hh Hd Hw Hpos.
  { exists 0%nat. split; [done | simpl; lia]. }
  destruct (forward_pos g' p h dest Ht Hh Hd Hw Hpos) as (p' & Hh' & Hd' & Ht' & Hf).
  simpl. rewrite Hf. cbn [mbind outcome_bind].
  destruct (decide (h = 1)); [exists 0%nat; split; [done | simpl; lia] |].
  destruct (getNextHop g' dest) as [nh|]; [| exists 0%nat; split; [done | simpl; lia]].
  destruct (IH p' (h - 1)) as (m & -> & Hn);
    [by rewrite Ht' | done | done | unfold in_width in *; lia | lia |].
  exists (S m). split; [done | lia].
Qed.

Lemma forward_bounded_witness :
  (exists p', GetHopLimit p' = Ok 9 /\
    forward sample_gossiper (sample_private 10) = Ok (p', [])) /\
  exists n, relay [sample_gossiper; sample_gossiper] (sample_private 10) = Ok n /\ (Z.of_nat n < 10).
Proof.
  destruct (forward_bounded sample_gossiper (sample_private 10) 10 "B" [sample_gossiper; sample_gossiper]
    ltac:(reflexivity) ltac:(reflexivity) ltac:(reflexivity)) as ((p' & Hh & _ & _ & Hf) & Hn).
  - unfold in_width. lia.
  - lia.
  - split; [exists p'; split; [exact Hh | exact Hf] | exact Hn].
Defined.

(** A private message: its destination shows it (as a rumor with ID 0) and sends
    nothing; every other gossiper forwards it and shows nothing. *)
Theorem privateMessage_delivered g p pm sender :
  GetUnderlyingType p = "private" -> g_Private p = Some pm -> in_width 32 (pm_HopLimit pm) ->
  exists g' actions, privateMessageListen g (mkPacketAddressPair p sender) = Ok (g', actions) /\
    sender ∈ ssa_exists (peers g') /\
    (if decide (pm_Destination pm = gs_name g)
     then latestMessages g' = latestMessages g ++ [mkRumorMessage (pm_Origin pm) 0 (pm_Text pm)] /\
          actions = []
     else latestMessages g' = latestMessages g /\ (length actions <= 1)%nat).
Proof.
  intros Ht Hp Hw. unfold privateMessageListen. rewrite pap_sender_rumor by (by rewrite Ht).
  assert (Ed : GetDestination p = Ok (pm_Destination pm)) by (unfold GetDestination; by rewrite Ht, Hp).
  assert (Eh : GetHopLimit p = Ok (pm_HopLimit pm)) by (unfold GetHopLimit; by rewrite Ht, Hp).
  destruct (addToPeers_fields g sender) as (_ & _ & En & Er & El & _ & _ & Hs).
  unfold pap_GetDestination. cbn [mbind outcome_bind pap_Packet]. rewrite Ed.
  cbn [mbind outcome_bind]. rewrite En. destruct (String.eqb_spec (pm_Destination pm) (gs_name g)) as [E|E].
  - rewrite printGossiperMessage_private with (pm := pm) by done. cbn [mbind outcome_bind].
    rewrite Hp. cbn [deref mbind outcome_bind]. eexists _, _. split; [reflexivity |].
    rewrite decide_True by done. cbn. rewrite El. done.
  - destruct (forward_total (addToPeers g sender).1 p (pm_HopLimit pm) (pm_Destination pm))
      as (p' & _ & _ & _ & ->); [by rewrite Ht | done | done | done |].
    cbn [mbind outcome_bind]. eexists _, _. split; [reflexivity |]. rewrite decide_False by done.
    split; [done |]. split; [done |]. destruct (decide _); [simpl; lia |].
    destruct (getNextHop (addToPeers g sender).1 (pm_Destination pm)); simpl; lia.
Qed.

Lemma privateMessage_delivered_witness :
  exists g' actions, privateMessageListen (NewGossiper "a" "B" [] false)
      (mkPacketAddressPair (sample_private 10) "b") = Ok (g', actions) /\
    latestMessages g' = [mkRumorMessage "A" 0 "hello"] /\ actions = [].
Proof.
  destruct (privateMessage_delivered (NewGossiper "a" "B" [] false) (sample_private 10)
    (mkPrivateMessage "A" 0 "hello" "B" 10) "b") as (g' & actions & E & _ & H).
  - reflexivity.
  - reflexivity.
  - unfold in_width. simpl. lia.
  - exists g', actions. exact (conj E H).
Defined.

(** Rumor mongering: every peer chosen is a known peer at the time of its choice; the
    first one is not the peer the rumor came from, and no peer is chosen twice in a row. *)
Theorem rumorMonger_choices except first env :
  let sent := rumorMonger except first env in
  (forall peer, head sent = Some peer -> peer ∈ me_peers first /\ (except <> "" -> peer <> except)) /\
  (forall i peer peer', sent !! i = Some peer -> sent !! S i = Some peer' ->
     peer' <> peer /\ exists e, env !! i = Some e /\ peer' ∈ me_peers e /\ me_coin e = false) /\
  (length sent <= S (length env))%nat.
Proof.
  intros sent. subst sent. unfold rumorMonger.
  destruct (pickRandomPeer _ _ _) as [p0|] eqn:E0; [| split_and!; simpl; [done | done | lia]].
  apply pickRandomPeer_spec in E0 as [Hin Hex]. split; [| split].
  - intros peer Hp. destruct env; simpl in Hp; injection Hp as <-; (split; [done |]);
      intros Hne ->; apply Hex; rewrite (proj2 (String.eqb_neq _ _) Hne); set_solver.
  - intros i peer peer' H1 H2. by eapply rumorMonger_loop_spec.
  - apply rumorMonger_loop_length.
Qed.
