(* ===== verification/Dispatch.v ===== *)
(** * Receiving packets (gossiper/gossiper.go: Start, receiveExternalUDP, receiveClientUDP)

    The two receive loops read one datagram at a time and hand it to a routine over a
    channel.  [readPacket] is what the loop makes of the bytes of a datagram, by the
    interface [Wire] to the protobuf library, and [receiveExternalUDP] what it does with the
    packet.  All the channels to the routines of the gossiper are unbuffered, except
    [cCliDHT]: handing over a packet waits until the routine of the channel is ready. *)
From S2P Require Import Prelude DhtMessage CrawlerPacket Dto Containers Gossip.

(** ** Reading a datagram *)
(** The protobuf library, as the receive loop relies on it.  [wire_decode] is what decoding
    leaves in a new packet, the loop ignores the error; [wire_ok] tells the packets that the
    format represents, which are read back also when the buffer goes on with zeros. *)
Class Wire := {
  wire_ok : GossipPacket -> Prop;
  wire_encode : GossipPacket -> bytes;
  wire_decode : bytes -> GossipPacket;
  wire_padded p k : wire_ok p -> wire_decode (wire_encode p ++ replicate k 0) = p
}.

(** The buffer of a datagram.  Reading returns no more than the buffer takes, so the test
    that is to enlarge it never holds, and what does not fit is cut off. *)
Definition packetSize : Z := 10000.
(** The whole buffer is decoded, with the zeros after the datagram. *)
Definition readPacket `{Wire} (datagram : bytes) : GossipPacket :=
  let packetBytes := take (Z.to_nat packetSize) datagram in
  wire_decode (packetBytes ++ replicate (Z.to_nat packetSize - length packetBytes) 0).
Lemma readPacket_encode `{Wire} p : wire_ok p -> Z.of_nat (length (wire_encode p)) <= packetSize ->
  readPacket (wire_encode p) = p.
Proof. intros Hp Hl. unfold readPacket. rewrite take_ge by lia. by apply wire_padded. Qed.
(** What is beyond the buffer is never seen. *)
Lemma readPacket_cut `{Wire} b1 b2 : take (Z.to_nat packetSize) b1 = take (Z.to_nat packetSize) b2 ->
  readPacket b1 = readPacket b2.
Proof. unfold readPacket. by intros ->. Qed.

(** ** Channels and routines *)
Inductive channel :=
  | cRumor | cStatus | cPrivate | cDataRequest | cDataReply | cSearchRequest | cSearchReply
  | cFileNaming | cBlocks | cDHT | cDiffieHellman
  | cUI | cUIPM | cFileShare | cFileDL | cFileSearch | cCliDHT.
#[export] Instance channel_eq_dec : EqDecision channel.
Proof. solve_decision. Defined.

(** The routines that [Start] runs, by the channel that they read.  The routine that reads
    [cFileNaming] and [cBlocks] is [blockchainMiningRoutine], whose start is commented
    out; [clientFileShareListenRoutine] only sends on [cFileNaming]. *)
Definition Start_receivers : list channel :=
  [cRumor; cStatus; cPrivate; cDataRequest; cDataReply; cSearchRequest; cSearchReply; cDHT;
   cDiffieHellman; cUI; cUIPM; cFileShare; cFileDL; cFileSearch; cCliDHT].

(** What the loop does with a packet of a peer. *)
Inductive received :=
  | ToChannel (c : channel) (pap : PacketAddressPair)
  | SaveLinks (links : list string)                  (* UpdateCrawlQueue for each link *)
  | DecryptLinks (p : EncryptedCrawlerPacket)        (* in a goroutine of its own *)
  | Ignored.

Definition unlessSimple (simple : bool) (c : channel) (pap : PacketAddressPair) : received :=
  if simple then Ignored else ToChannel c pap.

Definition receiveExternalUDP (simple : bool) (pap : PacketAddressPair) : outcome received :=
  let packet := pap_Packet pap in
  switch (GetUnderlyingType packet) [
    ("status", mret (unlessSimple simple cStatus pap));
    ("rumor", mret (unlessSimple simple cRumor pap));
    ("private", mret (unlessSimple simple cPrivate pap));
    ("simple", mret (if simple then ToChannel cRumor pap else Ignored));
    ("datarequest", mret (unlessSimple simple cDataRequest pap));
    ("datareply", mret (unlessSimple simple cDataReply pap));
    ("searchrequest", mret (unlessSimple simple cSearchRequest pap));
    ("searchreply", mret (unlessSimple simple cSearchReply pap));
    ("txpublish", mret (unlessSimple simple cFileNaming pap));
    ("blockpublish", mret (unlessSimple simple cBlocks pap));
    ("dhtmessage", mret (unlessSimple simple cDHT pap));
    ("hyperlinkmessage", hp ← deref (g_HyperlinkMessage packet); mret (SaveLinks (hp_Links hp)));
    ("encryptedhyperlinkmessage", p ← deref (g_EncryptedWebCrawlerPacket packet);
       mret (DecryptLinks p));
    ("diffiehellman", mret (unlessSimple simple cDiffieHellman pap))
  ] (mret Ignored).

(** What the loop does with the request of a client. *)
Inductive client_received :=
  | ClientPacket (c : channel) (pap : PacketAddressPair)
  | ClientFileShare (name : string)
  | ClientFileDL (ftd : FileToDownload)
  | ClientFileSearch (fts : FileToSearch)
  | ClientDHT (r : DHTRequest)
  | ClientIgnored.

Definition with_OriginalName (g : GossipPacket) (name : string) : outcome GossipPacket :=
  sm ← deref (g_Simple g);
  mret (mkGossipPacket (Some (mkSimpleMessage name (sm_RelayPeerAddr sm) (sm_Contents sm)))
    (g_Rumor g) (g_Status g) (g_Private g) (g_DataRequest g) (g_DataReply g) (g_SearchRequest g)
    (g_SearchReply g) (g_TxPublish g) (g_BlockPublish g) (g_DHTMessage g) (g_HyperlinkMessage g)
    (g_EncryptedWebCrawlerPacket g) (g_DiffieHellman g)).
Definition with_RumorOrigin (g : GossipPacket) (name : string) : outcome GossipPacket :=
  rm ← deref (g_Rumor g);
  mret (mkGossipPacket (g_Simple g) (Some (mkRumorMessage name (rm_ID rm) (rm_Text rm)))
    (g_Status g) (g_Private g) (g_DataRequest g) (g_DataReply g) (g_SearchRequest g)
    (g_SearchReply g) (g_TxPublish g) (g_BlockPublish g) (g_DHTMessage g) (g_HyperlinkMessage g)
    (g_EncryptedWebCrawlerPacket g) (g_DiffieHellman g)).

Definition receiveClientUDP (name : string) (request : ClientRequest) : outcome client_received :=
  switch (ClientRequest_GetUnderlyingType request) [
    ("simple",
       packet ← deref (cr_Packet request);
       contents ← GetContents packet;
       if String.eqb contents "" then mret ClientIgnored
       else packet ← with_OriginalName packet name;
            mret (ClientPacket cUI (mkPacketAddressPair packet "")));
    ("rumor",
       packet ← deref (cr_Packet request);
       contents ← GetContents packet;
       if String.eqb contents "" then mret ClientIgnored
       else packet ← with_RumorOrigin packet name;
            mret (ClientPacket cUI (mkPacketAddressPair packet "")));
    ("private",
       packet ← deref (cr_Packet request);
       contents ← GetContents packet;
       if String.eqb contents "" then mret ClientIgnored
       else mret (ClientPacket cUIPM (mkPacketAddressPair packet "")));
    ("fileShare", fs ← deref (cr_FileShare request); mret (ClientFileShare (fts_FileName fs)));
    ("fileDownload", fd ← deref (cr_FileDownload request); mret (ClientFileDL fd));
    ("fileSearch", fs ← deref (cr_FileSearch request); mret (ClientFileSearch fs));
    ("nodeSearch", mret (ClientDHT (mkDHTRequest None (cr_DHTLookup request))));
    ("keySearch", mret (ClientDHT (mkDHTRequest None (cr_DHTLookup request))));
    ("store", mret (ClientDHT (mkDHTRequest (cr_DHTStore request) None)))
  ] (mret ClientIgnored).

(** The receive loop as a whole: it hands over a packet once the receiver of its channel
    is ready, and waits for ever when there is none. *)
Inductive loop_state :=
  | Receiving (handed : list received)
  | Stuck (handed : list received) (c : channel).
Definition receive_step (simple : bool) (st : loop_state) (pap : PacketAddressPair) : outcome loop_state :=
  match st with
  | Stuck _ _ => Ok st
  | Receiving l =>
      r ← receiveExternalUDP simple pap;
      match r with
      | ToChannel c _ => Ok (if decide (c ∈ Start_receivers) then Receiving (l ++ [r]) else Stuck l c)
      | Ignored => Ok st
      | _ => Ok (Receiving (l ++ [r]))
      end
  end.
Arguments receive_step : simpl never.
Fixpoint receive_loop (simple : bool) (st : loop_state) (paps : list PacketAddressPair)
    : outcome loop_state :=
  match paps with
  | [] => Ok st
  | pap :: rest => st' ← receive_step simple st pap; receive_loop simple st' rest
  end.

(** ** Lemmas *)
Lemma receiveExternalUDP_Ok simple pap : exists r, receiveExternalUDP simple pap = Ok r.
Proof.
  unfold receiveExternalUDP. packet_cases (pap_Packet pap) ltac:(cbn; eauto).
Qed.

Lemma receive_stuck simple l c paps : receive_loop simple (Stuck l c) paps = Ok (Stuck l c).
Proof. induction paps; simpl; auto. Qed.

Definition published (pap : PacketAddressPair) : Prop :=
  GetUnderlyingType (pap_Packet pap) = "txpublish" \/
  GetUnderlyingType (pap_Packet pap) = "blockpublish".

Lemma receive_step_published l pap :
  published pap -> exists c, receive_step false (Receiving l) pap = Ok (Stuck l c).
Proof.
  intros [E|E]; unfold receive_step, receiveExternalUDP; rewrite E; cbn; eauto.
Qed.

Lemma receive_step_other simple l pap :
  ~ (simple = false /\ published pap) ->
  exists l', receive_step simple (Receiving l) pap = Ok (Receiving (l ++ l')).
Proof.
  intros Hn. unfold receive_step, receiveExternalUDP.
  assert (Ht : simple = false -> GetUnderlyingType (pap_Packet pap) <> "txpublish" /\
    GetUnderlyingType (pap_Packet pap) <> "blockpublish") by (unfold published in Hn; tauto).
  revert Ht. clear Hn.
  packet_cases (pap_Packet pap) ltac:(intros Ht; destruct simple; cbn;
    first [by destruct (Ht eq_refl) | by (eexists [_]) | by (exists []; rewrite app_nil_r)]).
Qed.

(** ** Properties *)

(** One published transaction or block stops a gossiper in normal mode: the receive
    loop hands over every packet before it, then waits for ever on a channel without
    receiver, and no later packet of any peer is received. *)
Theorem published_packet_stops_receiving before pap after :
  Forall (fun q => ~ published q) before -> published pap ->
  exists handed c, receive_loop false (Receiving []) before = Ok (Receiving handed) /\
    receive_loop false (Receiving []) (before ++ pap :: after) = Ok (Stuck handed c).
Proof.
  intros Hb Hp. assert (H : forall l, exists handed c,
    receive_loop false (Receiving l) before = Ok (Receiving handed) /\
    receive_loop false (Receiving l) (before ++ pap :: after) = Ok (Stuck handed c)); [| apply H].
  induction Hb as [|q before Hq Hb IH]; intros l; simpl.
  - destruct (receive_step_published l pap Hp) as [c ->]. exists l, c. split; [done |].
    cbn [mbind outcome_bind]. apply receive_stuck.
  - destruct (receive_step_other false l q) as [l' ->]; [tauto |]. cbn [mbind outcome_bind]. apply IH.
Qed.

Definition sample_txpublish : PacketAddressPair :=
  mkPacketAddressPair (mkGossipPacket None None None None None None None None (Some (sample_tx 5 10))
    None None None None None) "127.0.0.1:5001".
Lemma published_packet_stops_receiving_witness :
  exists handed c,
    receive_loop false (Receiving []) [mkPacketAddressPair (sample_private 10) "x"]
      = Ok (Receiving handed) /\
    receive_loop false (Receiving []) ([mkPacketAddressPair (sample_private 10) "x"] ++
      sample_txpublish :: [mkPacketAddressPair (sample_private 9) "x"]) = Ok (Stuck handed c).
Proof.
  apply published_packet_stops_receiving.
  - constructor; [intros [H|H]; discriminate H | constructor].
  - left. reflexivity.
Defined.
