(* ===== verification/FileParsing.v ===== *)
(** * Files, chunks and metafiles (package fileparsing)

    A file is cut into chunks of at most 8 KiB; the concatenated SHA-256 sums of the chunks
    are its metafile and the sum of the metafile names the file.  The operating system is a
    parameter: reading is a list of results of [Read], the disk a map from paths. *)
From S2P Require Import Prelude Sha2 Dto.

Definition shareBaseDir : string := "./_SharedFiles/".
Definition dlBaseDir : string := "./_Downloads/".
Definition dlBaseDirHW3 : string := "./hw3/_Downloads/".
Definition defaultChunkSize : nat := Z.to_nat 8192.

(** ** helpers.go *)
(** The error of a [Read], if any. *)
Inductive read_err := EOF | ReadError (msg : string).

(** The loop of [ReadChunks] on the results of its reads; it ends at the first error.
    [None]: the list of results ends before an error. *)
Fixpoint ReadChunks_loop (reads : list (bytes * option read_err)) (chunks : list bytes) (size : Z)
    : option (outcome (list bytes * Z)) :=
  match reads with
  | [] => None
  | (chunk, err) :: rest =>
      let '(chunks', size') :=
        if (0 <? length chunk)%nat then (chunks ++ [chunk], size + Z.of_nat (length chunk))
        else (chunks, size) in
      match err with
      | None => ReadChunks_loop rest chunks' size'
      | Some EOF => Some (Ok (chunks', size'))
      | Some (ReadError msg) => Some (Fatal msg)   (* the error is returned *)
      end
  end.
(** [opened] is the result of [os.Open (shareBaseDir + fileName)]. *)
Definition ReadChunks (opened : outcome (list (bytes * option read_err)))
    : option (outcome (list bytes * Z)) :=
  match opened with
  | Ok reads => ReadChunks_loop reads [] 0
  | Fatal msg => Some (Fatal msg)
  | Panic msg => Some (Panic msg)
  end.

(** The disk after writing; [create_ok] and [write_ok] are the answers of the operating
    system (a failed write leaves an unspecified prefix, here nothing). *)
Definition WriteFileFromChunks (disk : gmap string bytes) (create_ok write_ok : bool) (name : string)
    (chunks : list bytes) (hw3 : bool) : gmap string bytes * bool :=
  let path := (if hw3 then dlBaseDirHW3 else dlBaseDir) +:+ name in
  if create_ok then
    if write_ok then (<[path := concat chunks]> disk, true) else (<[path := []]> disk, false)
  else (disk, false).

Definition CreateChunksMap (chunks : list bytes) : gmap bytes bytes * bytes * bytes :=
  let chunkMap := foldl (fun m chunk => <[Sum256 chunk := chunk]> m) ∅ chunks in
  let metafile := concat (Sum256 <$> chunks) in
  (chunkMap, metafile, Sum256 metafile).

(** Cutting a list into pieces of [n] (the last one may be shorter). *)
Fixpoint pieces (n k : nat) (l : bytes) : list bytes :=
  match k with O => [] | S k' => take n l :: pieces n k' (drop n l) end.

Definition ParseMetafile (metafile : bytes) : option (list bytes) :=
  if (length metafile mod 32 =? 0)%nat then Some (pieces 32 (length metafile / 32) metafile) else None.

Definition ConvertToHash32 (hash : bytes) : option bytes :=
  if (length hash =? 32)%nat then Some hash else None.
Definition VerifyDataHash (hash data : bytes) : bool :=
  if (length hash =? 32)%nat then bool_decide (hash = Sum256 data) else false.
Definition EstimateFileSize (metafile : bytes) : Z :=
  if (length metafile mod 32 =? 0)%nat
  then Z.of_nat (length metafile / 32) * Z.of_nat defaultChunkSize else -1.

(** [strings.Contains]. *)
Fixpoint Contains (s sub : string) : bool :=
  String.prefix sub s || match s with String _ s' => Contains s' sub | EmptyString => false end.
Definition ContainsKeyword (name : string) (keywords : list string) : bool :=
  existsb (Contains name) keywords.

(** ** SafeChunkMap.go *)
Abbreviation SafeChunkMap := (gmap bytes bytes).
Definition NewSafeChunkMap : SafeChunkMap := ∅.
Definition AddChunk (scm : SafeChunkMap) (checksum chunk : bytes) : SafeChunkMap * bool :=
  match scm !! checksum with Some _ => (scm, false) | None => (<[checksum := chunk]> scm, true) end.
Definition AddUncheckedChunk (scm : SafeChunkMap) (chunk : bytes) : SafeChunkMap * bool :=
  AddChunk scm (Sum256 chunk) chunk.
Definition GetChunk (scm : SafeChunkMap) (checksum : bytes) : option bytes := scm !! checksum.

(** ** SafeFileEntry.go *)
Record SafeFileEntry := mkSFE {
  sfe_name : string; sfe_size : Z; sfe_metafile : bytes; sfe_metahash : bytes;
  chunkIndices : list Z
}.
Definition NewSafeFileEntry (name : string) (size : Z) (metafile metahash : bytes) : SafeFileEntry :=
  mkSFE name size metafile metahash (Z.of_nat <$> seq 1 (length metafile / 32)).
(** The slice of indices is sorted in place. *)
Definition SafeGetContents (sfe : SafeFileEntry) : SafeFileEntry :=
  mkSFE (sfe_name sfe) (sfe_size sfe) (sfe_metafile sfe) (sfe_metahash sfe)
    (merge_sort Z.le (chunkIndices sfe)).
Definition SafeSetSize (sfe : SafeFileEntry) (newSize : Z) : SafeFileEntry :=
  mkSFE (sfe_name sfe) newSize (sfe_metafile sfe) (sfe_metahash sfe) (chunkIndices sfe).
Definition SafeAddChunkIndex (sfe : SafeFileEntry) (index : Z) : SafeFileEntry :=
  mkSFE (sfe_name sfe) (sfe_size sfe) (sfe_metafile sfe) (sfe_metahash sfe)
    (chunkIndices sfe ++ [index]).

(** ** SafeFileMap.go *)
Abbreviation SafeFileMap := (gmap bytes SafeFileEntry).
Definition NewSafeFileMap : SafeFileMap := ∅.
Definition AddEntry (sfm : SafeFileMap) (name : string) (size : Z) (metafile metahash : bytes)
    : SafeFileMap * bool :=
  match sfm !! metahash with
  | Some _ => (sfm, false)
  | None => (<[metahash := NewSafeFileEntry name size metafile metahash]> sfm, true)
  end.
Definition GetEntry (sfm : SafeFileMap) (metahash : bytes) : option SafeFileEntry := sfm !! metahash.
Definition GetMatches (sfm : SafeFileMap) (keywords : list string) : SafeFileMap * list SearchResult :=
  (SafeGetContents <$> sfm,
   omap (fun p : bytes * SafeFileEntry =>
     let sfe := SafeGetContents p.2 in
     if ContainsKeyword (sfe_name sfe) keywords
     then Some (mkSearchResult (sfe_name sfe) (sfe_metahash sfe) (chunkIndices sfe)
                  (Z.of_nat (length (sfe_metafile sfe) / 32)))
     else None) (map_to_list sfm)).

(** ** SafeFileSet.go *)
Abbreviation SafeFileSet := (gset bytes).
Definition NewSafeFileSet : SafeFileSet := ∅.
Definition AddUnique (sfs : SafeFileSet) (metahash : bytes) : SafeFileSet * bool :=
  if decide (metahash ∈ sfs) then (sfs, false) else ({[metahash]} ∪ sfs, true).
Definition sfs_Delete (sfs : SafeFileSet) (metahash : bytes) : SafeFileSet := sfs ∖ {[metahash]}.

(** ** DLChanMap.go: unbuffered channels, named by numbers. *)
Record DLChanMap := mkDLChanMap { checksumMap : gmap bytes nat; dl_next : nat }.
Definition NewDLChanMap : DLChanMap := mkDLChanMap ∅ 0.
Definition dl_AddListener (dlcm : DLChanMap) (checksum : bytes) : DLChanMap * nat * bool :=
  match checksumMap dlcm !! checksum with
  | Some c => (dlcm, c, false)
  | None =>
      (mkDLChanMap (<[checksum := dl_next dlcm]> (checksumMap dlcm)) (S (dl_next dlcm)),
       dl_next dlcm, true)
  end.
(** The data is sent on the channel, if any, to whoever receives from it. *)
Definition dl_InformListener (dlcm : DLChanMap) (checksum data : bytes)
    : DLChanMap * option (nat * bytes) :=
  match checksumMap dlcm !! checksum with
  | Some c => (mkDLChanMap (delete checksum (checksumMap dlcm)) (dl_next dlcm), Some (c, data))
  | None => (dlcm, None)
  end.

(** ** Reading a regular file *)
(** The results of the reads of a file: full chunks, the rest, then the end of file. *)
Definition file_reads (content : bytes) : list (bytes * option read_err) :=
  ((fun c => (c, None)) <$>
     pieces defaultChunkSize ((length content + defaultChunkSize - 1) / defaultChunkSize) content)
  ++ [([], Some EOF)].

Lemma pieces_concat n k l : (0 < n)%nat -> (length l <= n * k)%nat -> concat (pieces n k l) = l.
Proof.
  intros Hn. revert l. induction k as [|k IH]; intros l Hl; simpl.
  - by destruct l; simpl in *; [| lia].
  - rewrite IH by (rewrite length_drop; lia). apply take_drop.
Qed.

Lemma pieces_lengths n k l :
  (n * k <= length l)%nat -> Forall (fun p => length p = n) (pieces n k l) /\ length (pieces n k l) = k.
Proof.
  revert l. induction k as [|k IH]; intros l Hl; simpl; [by split; constructor |].
  destruct (IH (drop n l)) as [H1 H2]; [rewrite length_drop; lia |].
  split; [| by rewrite H2]. constructor; [rewrite length_take; lia | done].
Qed.

Lemma ReadChunks_loop_spec reads acc size :
  Forall (fun r => r.2 = None) reads ->
  ReadChunks_loop (reads ++ [([], Some EOF)]) acc size =
    Some (Ok (acc ++ filter (fun c => c <> []) reads.*1,
              size + Z.of_nat (length (concat reads.*1)))).
Proof.
  intros H. revert acc size. induction H as [|[c e] reads He _ IH]; intros acc size.
  - simpl. by rewrite app_nil_r, Z.add_0_r.
  - simpl in He. subst e. cbn [app ReadChunks_loop].
    rewrite fmap_cons. cbn [fst concat]. destruct c as [|b c].
    + cbn [length Nat.ltb Nat.leb]. rewrite IH. rewrite filter_cons_False by tauto. done.
    + rewrite (proj2 (Nat.ltb_lt _ _)) by (simpl; lia). rewrite IH.
      rewrite filter_cons_True by done. rewrite <-app_assoc, length_app. do 3 f_equal. lia.
Qed.

Lemma pieces_full n k l :
  (0 < n)%nat -> (n * k < length l + n)%nat -> Forall (fun c => c <> []) (pieces n k l).
Proof.
  intros Hn. revert l. induction k as [|k IH]; intros l Hl; simpl; [constructor |].
  constructor; [| apply IH; rewrite length_drop; lia].
  destruct l as [|b l]; [simpl in Hl; lia |]. destruct n; [lia |]. done.
Qed.

Lemma ReadChunks_file content :
  ReadChunks (Ok (file_reads content)) =
    Some (Ok (pieces defaultChunkSize ((length content + defaultChunkSize - 1) / defaultChunkSize)
                content, Z.of_nat (length content))).
Proof.
  unfold ReadChunks, file_reads. set (n := defaultChunkSize).
  assert (Hn : (0 < n)%nat) by (unfold n, defaultChunkSize; lia). clearbody n.
  set (k := ((length content + n - 1) / n)%nat).
  assert (Hk : (n * k <= length content + n - 1)%nat) by (apply Nat.Div0.mul_div_le).
  assert (Hk2 : (length content <= n * k)%nat).
  { pose proof (Nat.mul_succ_div_gt (length content + n - 1) n ltac:(lia)). fold k in H. lia. }
  rewrite ReadChunks_loop_spec by (apply Forall_fmap, Forall_forall; done).
  assert (E : ((fun c : bytes => (c, None : option read_err)) <$> pieces n k content).*1 = pieces n k content).
  { rewrite <-list_fmap_compose. apply list_fmap_id. }
  rewrite E, pieces_concat by lia. rewrite Z.add_0_l, app_nil_l. do 3 f_equal.
  apply filter_all, pieces_full; lia.
Qed.

Lemma concat_length_fixed n (l : list bytes) :
  Forall (fun x => length x = n) l -> length (concat l) = (n * length l)%nat.
Proof. induction 1 as [|x l Hx _ IH]; simpl; [lia |]. rewrite length_app, IH, Hx. lia. Qed.

Lemma pieces_of_concat n (l : list bytes) :
  Forall (fun x => length x = n) l -> pieces n (length l) (concat l) = l.
Proof.
  induction 1 as [|x l Hx _ IH]; simpl; [done |].
  rewrite take_app_length', drop_app_length' by done. by rewrite IH.
Qed.

Lemma sums_length (chunks : list bytes) : Forall (fun x => length x = 32%nat) (Sum256 <$> chunks).
Proof. apply Forall_fmap, Forall_forall. intros c _. apply Sum256_length. Qed.

Lemma metafile_count (chunks : list bytes) :
  (length (concat (Sum256 <$> chunks)) mod 32 = 0 /\
   length (concat (Sum256 <$> chunks)) / 32 = length chunks)%nat.
Proof.
  rewrite (concat_length_fixed 32) by apply sums_length. rewrite length_fmap, Nat.mul_comm.
  split; [apply Nat.Div0.mod_mul | by apply Nat.div_mul].
Qed.

Lemma ParseMetafile_sums chunks : ParseMetafile (concat (Sum256 <$> chunks)) = Some (Sum256 <$> chunks).
Proof.
  destruct (metafile_count chunks) as [Hm Hd]. unfold ParseMetafile. rewrite Hm, Hd. simpl.
  f_equal. rewrite <-(length_fmap Sum256 chunks). apply pieces_of_concat, sums_length.
Qed.

Lemma CreateChunksMap_lookup chunks c :
  c ∈ chunks -> exists c', (CreateChunksMap chunks).1.1 !! Sum256 c = Some c' /\
    c' ∈ chunks /\ Sum256 c' = Sum256 c.
Proof.
  unfold CreateChunksMap. cbn [fst]. induction chunks as [|d l IH] using rev_ind; [set_solver |].
  intros Hc. rewrite foldl_snoc. destruct (decide (Sum256 d = Sum256 c)) as [E|E].
  - rewrite E, lookup_insert_eq. exists d. split_and!; [done | set_solver | done].
  - rewrite lookup_insert_ne by done. apply elem_of_app in Hc as [Hc|Hc]; [| set_solver].
    destruct (IH Hc) as (c' & ? & ? & ?). exists c'. split_and!; [done | set_solver | done].
Qed.

Lemma mapM_lookup_chunks (m : gmap bytes bytes) (chunks : list bytes) :
  (forall c, c ∈ chunks -> m !! Sum256 c = Some c) ->
  mapM (fun h => m !! h) (Sum256 <$> chunks) = Some chunks.
Proof.
  intros H. apply mapM_Some. induction chunks as [|c l IH]; [constructor |].
  rewrite fmap_cons. constructor; [apply H; set_solver | apply IH; intros; apply H; set_solver].
Qed.

Lemma pieces_sizes n k l : Forall (fun c => (length c <= n)%nat) (pieces n k l).
Proof.
  revert l. induction k; intros l; simpl; constructor; [rewrite length_take; lia | auto].
Qed.

Lemma length_pieces n k l : length (pieces n k l) = k.
Proof. revert l. induction k; intros l; simpl; auto. Qed.

Lemma chunk_sizes content :
  let n := defaultChunkSize in
  let chunks := pieces n ((length content + n - 1) / n) content in
  Forall (fun c => c <> [] /\ Z.of_nat (length c) <= 8192) chunks /\ concat chunks = content /\
  Z.of_nat (length content) <= Z.of_nat (length chunks) * 8192 /\
  Z.of_nat (length chunks) * 8192 < Z.of_nat (length content) + 8192.
Proof.
  intros n. assert (Hn : Z.of_nat n = 8192) by done. clearbody n.
  set (k := ((length content + n - 1) / n)%nat). intros chunks.
  assert (Hk : (n * k <= length content + n - 1)%nat) by (apply Nat.Div0.mul_div_le).
  assert (Hk2 : (length content <= n * k)%nat).
  { pose proof (Nat.mul_succ_div_gt (length content + n - 1) n ltac:(lia)). fold k in H. lia. }
  unfold chunks. split_and!.
  - apply Forall_and. split; [apply pieces_full; lia |].
    eapply Forall_impl; [apply pieces_sizes |]. simpl. lia.
  - apply pieces_concat; lia.
  - rewrite length_pieces. nia.
  - rewrite length_pieces. nia.
Qed.

(** ** Properties *)

(** C14. Sharing and reassembling a file.  The chunks read from a file are non-empty, of at
    most 8 KiB, and concatenate to its content; the metafile parses to the sums of the
    chunks, its own sum is the name of the file, and the estimated size exceeds the size by
    less than a chunk.  If no two different chunks have the same sum, looking up the parsed
    sums in the chunk map gives back the chunks in order. *)
Theorem share_roundtrip content :
  exists chunks, ReadChunks (Ok (file_reads content)) = Some (Ok (chunks, Z.of_nat (length content))) /\
    Forall (fun c => c <> [] /\ Z.of_nat (length c) <= 8192) chunks /\ concat chunks = content /\
    let '(chunkMap, metafile, metahash) := CreateChunksMap chunks in
    metahash = Sum256 metafile /\ ParseMetafile metafile = Some (Sum256 <$> chunks) /\
    Z.of_nat (length content) <= EstimateFileSize metafile < Z.of_nat (length content) + 8192 /\
    ((forall c1 c2, c1 ∈ chunks -> c2 ∈ chunks -> Sum256 c1 = Sum256 c2 -> c1 = c2) ->
       mapM (fun h => chunkMap !! h) (Sum256 <$> chunks) = Some chunks).
Proof.
  eexists. split; [apply ReadChunks_file |]. pose proof (chunk_sizes content) as (Hs & Hc & Hn & Hn2).
  set (chunks := pieces _ _ _) in *. split; [done |]. split; [done |].
  pose proof (CreateChunksMap_lookup chunks) as Hl. unfold CreateChunksMap in *. cbn [fst] in Hl.
  split; [done |]. split; [apply ParseMetafile_sums |]. split.
  - destruct (metafile_count chunks) as [Hm Hd]. unfold EstimateFileSize. rewrite Hm, Hd. simpl.
    change (Z.of_nat defaultChunkSize) with 8192. lia.
  - intros Hinj. apply mapM_lookup_chunks. intros c Hcin.
    destruct (Hl c Hcin) as (c' & -> & Hin & E). f_equal. by apply Hinj.
Qed.
