(* ===== verification/SearchMaps.v ===== *)
(** * Bookkeeping of file searches (package filesearching)

    Which peers own which chunks, which names a metafile hash goes by, and the searches in
    progress with their channels (named by numbers).  [GetMapCopy] copies the map but shares
    its arrays, which only grow; the model copies them.  [sync.Map.Range] and [range] over a
    map visit the entries in an unspecified order; here it is the order of [map_to_list]. *)
From S2P Require Import Prelude Dto Containers FileParsing.

Definition ThresholdTotalMatches : nat := 2.

(** ** FileChunkOwnersMap.go *)
Record ChunkOwnersMap := mkCOM { numChunks : Z; chunkOwners : gmap Z SafeStringArray }.
Definition NewChunkOwnersMap (numChunks : Z) : ChunkOwnersMap := mkCOM numChunks ∅.

(** [len(com.chunkOwners) == int(com.numChunks)]. *)
Definition total_match (com : ChunkOwnersMap) : bool :=
  Z.of_nat (size (chunkOwners com)) =? int64 (numChunks com).
Definition UpdateMap_step (origin : string) (m : gmap Z SafeStringArray) (v : Z)
    : gmap Z SafeStringArray :=
  match m !! v with
  | Some array => <[v := (AppendUniqueToArray array origin).1]> m
  | None => <[v := NewSafeStringArray [origin]]> m
  end.
Definition UpdateMap (com : ChunkOwnersMap) (origin : string) (chunkMap : list Z)
    : ChunkOwnersMap * (bool * bool) :=
  let hadTotalMatch := total_match com in
  let com' := mkCOM (numChunks com) (foldl (UpdateMap_step origin) (chunkOwners com) chunkMap) in
  let hasTotalMatch := total_match com' in
  (com', (negb hadTotalMatch && hasTotalMatch, hasTotalMatch)).
Definition com_GetMapCopy (com : ChunkOwnersMap) : gmap Z SafeStringArray * bool :=
  (chunkOwners com, total_match com).

Abbreviation MetahashToChunkOwnersMap := (gmap bytes ChunkOwnersMap).
Definition NewMetahashToChunkOwnersMap : MetahashToChunkOwnersMap := ∅.
Definition UpdateWithSearchResult (mtcom : MetahashToChunkOwnersMap) (origin : string)
    (sr : SearchResult) : MetahashToChunkOwnersMap * (bool * bool) :=
  match ConvertToHash32 (sres_MetafileHash sr) with
  | Some hash32 =>
      let com := default (NewChunkOwnersMap (sres_ChunkCount sr)) (mtcom !! hash32) in
      let '(com', r) := UpdateMap com origin (sres_ChunkMap sr) in
      (<[hash32 := com']> mtcom, r)
  | None => (mtcom, (false, false))
  end.
(** [None] when the metahash is unknown: a nil map, with both answers [false]. *)
Definition GetMapCopy (mtcom : MetahashToChunkOwnersMap) (metahash : bytes)
    : option (gmap Z SafeStringArray * bool) :=
  com_GetMapCopy <$> (mtcom !! metahash).

(** ** SafeFilenamesMap.go *)
Abbreviation SafeFilenamesMap := (gmap bytes SafeStringArray).
Definition NewSafefileNamesMap : SafeFilenamesMap := ∅.
Definition AddMapping (sfm : SafeFilenamesMap) (metahash : bytes) (filename : string)
    : SafeFilenamesMap * bool :=
  match sfm !! metahash with
  | Some arr => (<[metahash := (AppendUniqueToArray arr filename).1]> sfm, false)
  | None => (<[metahash := NewSafeStringArray [filename]]> sfm, true)
  end.
Definition GetMapping (sfm : SafeFilenamesMap) (metahash : bytes) : option SafeStringArray :=
  sfm !! metahash.
Definition matching_names (keywords : list string) (names : list string) : SafeStringArray :=
  foldl (fun newssa name =>
    if ContainsKeyword name keywords then (AppendUniqueToArray newssa name).1 else newssa)
    (NewSafeStringArray []) names.
Definition fn_GetMatches (sfm : SafeFilenamesMap) (keywords : list string)
    : gmap bytes SafeStringArray :=
  omap (fun ssa =>
    let newssa := matching_names keywords (GetArrayCopy ssa) in
    if (0 <? GetLength newssa)%nat then Some newssa else None) sfm.
Definition GetAllMatches (sfm : SafeFilenamesMap) : gmap bytes (list string) :=
  GetArrayCopy <$> fn_GetMatches sfm [""].

(** ** SafeSearchMap.go *)
Definition comma : Ascii.ascii := Ascii.ascii_of_nat 44.
(** [strings.Join (ss, ",")] and [strings.Split (s, ",")]. *)
Fixpoint keywordsToHashable (ss : list string) : string :=
  match ss with
  | [] => ""
  | [s] => s
  | s :: rest => s +:+ "," +:+ keywordsToHashable rest
  end.
Fixpoint hashableToKeywords (s : string) : list string :=
  match s with
  | EmptyString => [""]
  | String c s' =>
      if Ascii.eqb c comma then "" :: hashableToKeywords s'
      else match hashableToKeywords s' with
           | w :: rest => String c w :: rest
           | [] => [String c ""]
           end
  end.

Record SearchMapEntry := mkSME { Files : gmap bytes SafeStringArray; cFiles : nat }.
Definition NewSearchMapEntry (cRes : nat) : SearchMapEntry := mkSME ∅ cRes.
Definition NewSearchMapEntryWithFiles (cRes : nat) (files : gmap bytes SafeStringArray)
    : SearchMapEntry := mkSME files cRes.
Definition AppendFiles (sme : SearchMapEntry) (filenames : list string) (metahash : bytes)
    : SearchMapEntry * bool :=
  let files := match Files sme !! metahash with
    | Some arr => <[metahash := foldl (fun a name => (AppendUniqueToArray a name).1) arr filenames]> (Files sme)
    | None => <[metahash := NewSafeStringArray []]> (Files sme)
    end in
  (mkSME files (cFiles sme), (ThresholdTotalMatches <=? size files)%nat).
Definition GetChannel (sme : SearchMapEntry) : nat := cFiles sme.

Record SafeSearchMap := mkSSM { searchesMap : gmap string SearchMapEntry; ssm_next : nat }.
Definition NewSafeSearchMap : SafeSearchMap := mkSSM ∅ 0.
Definition AddListenerWithFiles (ssm : SafeSearchMap) (keywords : list string)
    (files : gmap bytes SafeStringArray) : SafeSearchMap * nat * bool :=
  let c := ssm_next ssm in
  let key := keywordsToHashable keywords in
  match searchesMap ssm !! key with
  | Some _ => (mkSSM (searchesMap ssm) (S c), c, false)
  | None => (mkSSM (<[key := NewSearchMapEntryWithFiles c files]> (searchesMap ssm)) (S c), c, true)
  end.
Definition ssm_AddListener (ssm : SafeSearchMap) (keywords : list string) : SafeSearchMap * nat * bool :=
  let c := ssm_next ssm in
  let key := keywordsToHashable keywords in
  match searchesMap ssm !! key with
  | Some _ => (mkSSM (searchesMap ssm) (S c), c, false)
  | None => (mkSSM (<[key := NewSearchMapEntry c]> (searchesMap ssm)) (S c), c, true)
  end.
Definition ssm_RemoveListener (ssm : SafeSearchMap) (keywords : list string) : SafeSearchMap :=
  mkSSM (delete (keywordsToHashable keywords) (searchesMap ssm)) (ssm_next ssm).
Definition CheckIfMatches (ssm : SafeSearchMap) (filenames : list string) (metahash : bytes) : bool :=
  existsb (fun p : string * SearchMapEntry =>
    existsb (fun name => ContainsKeyword name (hashableToKeywords p.1)) filenames)
    (map_to_list (searchesMap ssm)).

(** The names of a total match, for one search: its entry and whether it is informed. *)
Fixpoint append_matches (keywords filenames : list string) (metahash : bytes) (sme : SearchMapEntry)
    : SearchMapEntry * bool :=
  match filenames with
  | [] => (sme, false)
  | name :: rest =>
      if ContainsKeyword name keywords then
        let '(sme', shouldInform) := AppendFiles sme [name] metahash in
        if shouldInform : bool then (sme', true) else append_matches keywords rest metahash sme'
      else append_matches keywords rest metahash sme
  end.
(** The result lists what is sent to which channel. *)
Definition ssm_InformListeners (ssm : SafeSearchMap) (filenames : list string) (metahash : bytes)
    : SafeSearchMap * list (nat * gmap bytes SafeStringArray) :=
  (mkSSM (map_imap (fun key sme =>
     let '(sme', shouldInform) := append_matches (hashableToKeywords key) filenames metahash sme in
     if shouldInform : bool then None else Some sme') (searchesMap ssm)) (ssm_next ssm),
   omap (fun p : string * SearchMapEntry =>
     let '(sme', shouldInform) := append_matches (hashableToKeywords p.1) filenames metahash p.2 in
     if shouldInform : bool then Some (GetChannel sme', Files sme') else None)
     (map_to_list (searchesMap ssm))).

(** ** Lemmas *)
Fixpoint has_comma (s : string) : bool :=
  match s with EmptyString => false | String c s' => Ascii.eqb c comma || has_comma s' end.

Lemma split_no_comma s rest :
  has_comma s = false ->
  hashableToKeywords (s +:+ "," +:+ rest) = s :: hashableToKeywords rest.
Proof.
  induction s as [|c s IH]; simpl; [done |]. intros [Hc Hs]%orb_false_iff. rewrite Hc.
  rewrite IH by done. done.
Qed.
Lemma split_single s : has_comma s = false -> hashableToKeywords s = [s].
Proof.
  induction s as [|c s IH]; simpl; [done |]. intros [Hc Hs]%orb_false_iff. by rewrite Hc, IH.
Qed.

Lemma split_join ss :
  ss <> [] -> Forall (fun s => has_comma s = false) ss ->
  hashableToKeywords (keywordsToHashable ss) = ss.
Proof.
  intros Hne H. induction H as [|s ss Hs Hss IH]; [done |].
  destruct ss as [|s' ss]; [by apply split_single |].
  cbn [keywordsToHashable]. rewrite split_no_comma by done. f_equal. by apply IH.
Qed.

Lemma UpdateMap_fold_lookup origin chunkMap m v :
  is_Some (foldl (UpdateMap_step origin) m chunkMap !! v) <-> is_Some (m !! v) \/ v ∈ chunkMap.
Proof.
  revert m. induction chunkMap as [|x l IH]; intros m; simpl; [set_solver |].
  rewrite IH. assert (E : is_Some (UpdateMap_step origin m x !! v) <-> is_Some (m !! v) \/ v = x).
  { unfold UpdateMap_step. destruct (m !! x) as [a|] eqn:Ex; rewrite lookup_insert_is_Some;
      destruct (decide (x = v)) as [->|]; naive_solver. }
  rewrite E, elem_of_cons. tauto.
Qed.

Lemma split_no_commas s :
  hashableToKeywords s <> [] /\ Forall (fun w => has_comma w = false) (hashableToKeywords s).
Proof.
  induction s as [|c s [IHn IHf]]; simpl; [split; [done | by repeat constructor] |].
  destruct (Ascii.eqb c comma) eqn:Ec; [split; [done | by constructor] |].
  destruct (hashableToKeywords s) as [|w rest]; [done |]. inversion IHf; subst.
  split; [done |]. constructor; [simpl; by rewrite Ec | done].
Qed.

Lemma UpdateMap_fold_owner origin chunkMap m v arr :
  foldl (UpdateMap_step origin) m chunkMap !! v = Some arr -> v ∈ chunkMap ->
  (forall v' arr', m !! v' = Some arr' -> ssa_exists arr' = list_to_set (ssa_array arr')) ->
  origin ∈ ssa_array arr.
Proof.
  revert m. induction chunkMap as [|x l IH] using rev_ind; intros m; [set_solver |].
  rewrite foldl_snoc. intros E Hv Hm.
  assert (Hok : forall v' arr', foldl (UpdateMap_step origin) m l !! v' = Some arr' ->
    ssa_exists arr' = list_to_set (ssa_array arr')).
  { clear -Hm. induction l as [|y l IHl] using rev_ind; [exact Hm |]. rewrite foldl_snoc.
    intros v' arr'. unfold UpdateMap_step at 1. destruct (_ !! y) as [a|] eqn:Ey;
      intros [[<- <-]|[_ Hl]]%lookup_insert_Some; try by eapply IHl.
    - specialize (IHl _ _ Ey). unfold AppendUniqueToArray. destruct (decide _); [done |]. simpl.
      rewrite list_to_set_app_L, IHl. set_solver.
    - simpl. set_solver. }
  unfold UpdateMap_step at 1 in E. destruct (foldl _ m l !! x) as [a|] eqn:Ex;
    apply lookup_insert_Some in E as [[<- <-]|[Hne E]].
  - unfold AppendUniqueToArray. specialize (Hok _ _ Ex). destruct (decide _) as [Hin|Hn]; simpl.
    + rewrite Hok in Hin. by apply elem_of_list_to_set in Hin.
    + set_solver.
  - apply (IH m); [done | set_solver | done].
  - simpl. set_solver.
  - apply (IH m); [done | set_solver | done].
Qed.

(** The chunks of a file are numbered from 1. *)
Definition known_chunks (com : ChunkOwnersMap) : gset Z := dom (chunkOwners com).
Definition all_chunks (n : Z) : gset Z := list_to_set (seqZ 1 n).

Lemma total_match_all com :
  0 <= numChunks com < 2 ^ 63 -> known_chunks com ⊆ all_chunks (numChunks com) ->
  total_match com = true <-> known_chunks com = all_chunks (numChunks com).
Proof.
  intros Hn Hsub. unfold total_match. rewrite int64_small, Z.eqb_eq by lia.
  assert (Hall : size (all_chunks (numChunks com)) = Z.to_nat (numChunks com)).
  { unfold all_chunks. rewrite size_list_to_set by apply NoDup_seqZ. apply length_seqZ. }
  rewrite <-size_dom. fold (known_chunks com). split.
  - intros E. apply set_eq. apply set_subseteq_size_equiv; [done | lia].
  - intros ->. lia.
Qed.

(** ** Properties *)

(** Keys of searches: joining keywords with commas and splitting again gives the
    keywords back exactly when there is at least one and none contains a comma; so two
    different such searches never share an entry. *)
Theorem search_key_roundtrip ss :
  (hashableToKeywords (keywordsToHashable ss) = ss <->
     ss <> [] /\ Forall (fun s => has_comma s = false) ss) /\
  (forall ss', ss <> [] -> ss' <> [] -> Forall (fun s => has_comma s = false) ss ->
     Forall (fun s => has_comma s = false) ss' -> keywordsToHashable ss = keywordsToHashable ss' ->
     ss = ss').
Proof.
  split; [split; [| by intros []; apply split_join] |].
  - intros E. pose proof (split_no_commas (keywordsToHashable ss)) as [Hn Hf].
    rewrite E in Hn, Hf. done.
  - intros ss' H1 H2 F1 F2 E. rewrite <-(split_join ss), <-(split_join ss') by done. by rewrite E.
Qed.

Lemma search_key_roundtrip_witness :
  hashableToKeywords (keywordsToHashable ["foo"; "bar"]) = ["foo"; "bar"] /\
  hashableToKeywords (keywordsToHashable ["a,b"]) = ["a"; "b"].
Proof.
  split; [| reflexivity]. apply (proj2 (proj1 (search_key_roundtrip ["foo"; "bar"]))).
  split; [discriminate | by repeat constructor].
Defined.

(** Total matches.  While all reported chunks are numbered [1..n], a search result
    reports a total match exactly when every chunk then has a known owner, and [made]
    exactly when this was not the case before: the one update that completes the file.
    The sender of the result owns each chunk it listed. *)
Theorem UpdateMap_total com origin chunkMap :
  0 <= numChunks com < 2 ^ 63 -> known_chunks com ⊆ all_chunks (numChunks com) ->
  Forall (fun v => 1 <= v <= numChunks com) chunkMap ->
  (forall v arr, chunkOwners com !! v = Some arr -> ssa_exists arr = list_to_set (ssa_array arr)) ->
  let '(com', (made, has)) := UpdateMap com origin chunkMap in
  numChunks com' = numChunks com /\ known_chunks com' ⊆ all_chunks (numChunks com) /\
  (has = true <-> known_chunks com' = all_chunks (numChunks com)) /\
  (made = true <-> has = true /\ known_chunks com <> all_chunks (numChunks com)) /\
  (forall v, v ∈ chunkMap -> exists arr, chunkOwners com' !! v = Some arr /\ origin ∈ ssa_array arr).
Proof.
  intros Hn Hsub Hcm Harr. unfold UpdateMap.
  set (com' := mkCOM _ _).
  assert (Hk : forall v, v ∈ known_chunks com' <-> v ∈ known_chunks com \/ v ∈ chunkMap).
  { intros v. unfold known_chunks. rewrite !elem_of_dom. apply UpdateMap_fold_lookup. }
  assert (Hsub' : known_chunks com' ⊆ all_chunks (numChunks com)).
  { intros v [?|Hv]%Hk; [by apply Hsub |]. rewrite Forall_forall in Hcm. specialize (Hcm v Hv).
    apply elem_of_list_to_set, elem_of_seqZ. lia. }
  pose proof (total_match_all com Hn Hsub) as H1.
  pose proof (total_match_all com' Hn Hsub') as H2. cbn [numChunks com'] in H2.
  split_and!; [done | done | done | |].
  - rewrite andb_true_iff, negb_true_iff, <-H1, <-not_true_iff_false. tauto.
  - intros v Hv. destruct (proj2 (UpdateMap_fold_lookup origin chunkMap (chunkOwners com) v) (or_intror Hv))
      as [arr Ea]. exists arr. split; [exact Ea |]. by eapply UpdateMap_fold_owner.
Qed.

Lemma UpdateMap_total_witness :
  let com := NewChunkOwnersMap 2 in
  let '(com', (made, has)) := UpdateMap com "A" [1; 2] in
  made = true /\ (has = true <-> known_chunks com' = all_chunks 2).
Proof.
  pose proof (UpdateMap_total (NewChunkOwnersMap 2) "A" [1; 2]) as H.
  assert (E : (UpdateMap (NewChunkOwnersMap 2) "A" [1; 2]).2.1 = true) by (vm_compute; reflexivity).
  cbv zeta. destruct (UpdateMap (NewChunkOwnersMap 2) "A" [1; 2]) as [com' [made has]].
  destruct H as (_ & _ & H & _).
  - simpl. lia.
  - unfold known_chunks. simpl. rewrite dom_empty_L. set_solver.
  - repeat constructor; simpl; lia.
  - intros v arr Hv. simpl in Hv. by rewrite lookup_empty in Hv.
  - exact (conj E H).
Defined.
