(* ===== verification/FileNode.v ===== *)
(** * Sharing, downloading and searching files (gossiper/fileSharing.go, fileSearching.go)

    The handlers of data and search packets, and the goroutines of a download and of a
    search.  What a goroutine waits for (the data of a chunk, the number of time-outs
    before it, random choices) is an argument. *)
From S2P Require Import Prelude Sha2 Dto Containers Gossip FileParsing SearchMaps.

Record FileNode := mkFileNode {
  gossip : Gossiper;
  chunkMap : SafeChunkMap;
  fileMap : SafeFileMap;
  dlFilesSet : SafeFileSet;
  dlChunkListeners : DLChanMap;
  metahashToChunkOwnersMap : MetahashToChunkOwnersMap;
  searchMap : SafeSearchMap;
  filenamesMap : SafeFilenamesMap
}.

Definition fn_set_gossip (n : FileNode) (v : Gossiper) : FileNode :=
  mkFileNode v (chunkMap n) (fileMap n) (dlFilesSet n) (dlChunkListeners n)
    (metahashToChunkOwnersMap n) (searchMap n) (filenamesMap n).
Definition fn_set_chunks (n : FileNode) (v : SafeChunkMap) : FileNode :=
  mkFileNode (gossip n) v (fileMap n) (dlFilesSet n) (dlChunkListeners n)
    (metahashToChunkOwnersMap n) (searchMap n) (filenamesMap n).
Definition fn_set_files (n : FileNode) (v : SafeFileMap) : FileNode :=
  mkFileNode (gossip n) (chunkMap n) v (dlFilesSet n) (dlChunkListeners n)
    (metahashToChunkOwnersMap n) (searchMap n) (filenamesMap n).
Definition fn_set_dlset (n : FileNode) (v : SafeFileSet) : FileNode :=
  mkFileNode (gossip n) (chunkMap n) (fileMap n) v (dlChunkListeners n)
    (metahashToChunkOwnersMap n) (searchMap n) (filenamesMap n).
Definition fn_set_listeners (n : FileNode) (v : DLChanMap) : FileNode :=
  mkFileNode (gossip n) (chunkMap n) (fileMap n) (dlFilesSet n) v
    (metahashToChunkOwnersMap n) (searchMap n) (filenamesMap n).
Definition fn_set_owners (n : FileNode) (v : MetahashToChunkOwnersMap) : FileNode :=
  mkFileNode (gossip n) (chunkMap n) (fileMap n) (dlFilesSet n) (dlChunkListeners n)
    v (searchMap n) (filenamesMap n).
Definition fn_set_search (n : FileNode) (v : SafeSearchMap) : FileNode :=
  mkFileNode (gossip n) (chunkMap n) (fileMap n) (dlFilesSet n) (dlChunkListeners n)
    (metahashToChunkOwnersMap n) v (filenamesMap n).
Definition fn_set_names (n : FileNode) (v : SafeFilenamesMap) : FileNode :=
  mkFileNode (gossip n) (chunkMap n) (fileMap n) (dlFilesSet n) (dlChunkListeners n)
    (metahashToChunkOwnersMap n) (searchMap n) v.
Definition fn_addToPeers (n : FileNode) (addr : string) : FileNode :=
  fn_set_gossip n (addToPeers (gossip n) addr).1.
Definition NewFileNode (g : Gossiper) : FileNode :=
  mkFileNode g NewSafeChunkMap NewSafeFileMap NewSafeFileSet NewDLChanMap
    NewMetahashToChunkOwnersMap NewSafeSearchMap NewSafefileNamesMap.

Definition data_reply_packet (p : DataReply) : GossipPacket := with_DataReply empty_packet p.
Definition data_request_packet (p : DataRequest) : GossipPacket := with_DataRequest empty_packet p.
Definition search_reply_packet (p : SearchReply) : GossipPacket := with_SearchReply empty_packet p.
Definition tx_packet (p : TxPublish) : GossipPacket := with_TxPublish empty_packet p.
Definition search_request_packet (p : SearchRequest) : GossipPacket :=
  mkGossipPacket None None None None None None (Some p) None None None None None None None.

(** ** fileSharing.go *)
Definition makeDataReply (n : FileNode) (destination : string) (data checksum : bytes) : DataReply :=
  mkDataReply (gs_name (gossip n)) destination defaultHopLimit checksum data.
Definition makeDataRequest (n : FileNode) (destination : string) (checksum : bytes) : DataRequest :=
  mkDataRequest (gs_name (gossip n)) destination defaultHopLimit checksum.
Definition answerDataRequest (n : FileNode) (origin : string) (hash : bytes) : option DataReply :=
  hash32 ← ConvertToHash32 hash;
  chunk ← GetChunk (chunkMap n) hash32;
  Some (makeDataReply n origin chunk hash32).

(** [retries] more sends of the same packet, which is decremented each time. *)
Fixpoint forward_retries (g : Gossiper) (retries : nat) (packet : GossipPacket)
    : outcome (list action) :=
  match retries with
  | O => Ok []
  | S k =>
      '(packet', sent) ← forward g packet;
      rest ← forward_retries g k packet';
      Ok (sent ++ rest)
  end.

(** [downloadChunk]: the listener is registered, the request sent, and sent again at each
    time-out until the data arrives on the channel. *)
Definition downloadChunk (n : FileNode) (hash : bytes) (origin : string) (timeouts : nat)
    : outcome (FileNode * nat * list action) :=
  let '(dl, cDataReply, _) := dl_AddListener (dlChunkListeners n) hash in
  let packet := data_request_packet (makeDataRequest n origin hash) in
  actions ← forward_retries (gossip n) (S timeouts) packet;
  Ok (fn_set_listeners n dl, cDataReply, actions).

(** The environment of a download, for its metafile (0) and its chunks (1, 2, ...): the
    number of time-outs, the random number of the choice of an owner, the data received. *)
Record dl_env := mkDlEnv { e_timeouts : nat; e_random : nat; e_data : bytes }.

(** [pickRandom (chunkOwnersMap\[i\].GetArrayCopy ())]. *)
Definition pickOwner (owners : gmap Z SafeStringArray) (i : Z) (r : nat) : outcome string :=
  match owners !! i with
  | None => Panic "nil pointer dereference"
  | Some arr =>
      let choices := GetArrayCopy arr in
      if decide (length choices = 0%nat) then Panic "invalid argument to Intn"
      else deref (pickRandom choices (r mod length choices))
  end.

Definition addChunkIndex (files : SafeFileMap) (metahash : bytes) (i : Z) : outcome SafeFileMap :=
  sfe ← deref (GetEntry files metahash);
  Ok (<[metahash := SafeAddChunkIndex sfe i]> files).

(** The loop over the chunks; [i] is the number of the first one of [hashes].  The data
    answered to the listener of a chunk has been taken out of the listener map. *)
Fixpoint download_chunks (n : FileNode) (metahash : bytes) (owners : option (gmap Z SafeStringArray))
    (origin : string) (env : nat -> dl_env) (i : nat) (hashes : list bytes)
    : outcome (FileNode * list bytes * list action) :=
  match hashes with
  | [] => Ok (n, [], [])
  | hash :: rest =>
      origin ← (if owners is Some o then pickOwner o (Z.of_nat i) (e_random (env i)) else Ok origin);
      '(n, c, sent) ← downloadChunk n hash origin (e_timeouts (env i));
      let data := e_data (env i) in
      let n := fn_set_listeners n (dl_InformListener (dlChunkListeners n) hash data).1 in
      let n := fn_set_chunks n (AddChunk (chunkMap n) hash data).1 in
      files ← addChunkIndex (fileMap n) metahash (Z.of_nat i);
      '(n, datas, sent') ← download_chunks (fn_set_files n files) metahash owners origin env (S i) rest;
      Ok (n, data :: datas, sent ++ sent')
  end.

Definition downloadFile (n : FileNode) (disk : gmap string bytes) (nameToSave : string)
    (metahash : bytes) (origin : string) (env : nat -> dl_env) (create_ok write_ok : bool)
    : outcome (FileNode * gmap string bytes * list action * bool) :=
  let '(set, isNew) := AddUnique (dlFilesSet n) metahash in
  if negb isNew then Ok (n, disk, [], false)
  else
    let n := fn_set_dlset n set in
    let randomOrigins := String.eqb origin "" in
    let '(owners, hasTotalMatch) :=
      default (∅, false) (GetMapCopy (metahashToChunkOwnersMap n) metahash) in
    if randomOrigins && negb hasTotalMatch then Ok (n, disk, [], false)
    else
      origin ← (if randomOrigins then pickOwner owners 1 (e_random (env 0%nat)) else Ok origin);
      '(n, c, sent) ← downloadChunk n metahash origin (e_timeouts (env 0%nat));
      let metafile := e_data (env 0%nat) in
      let n := fn_set_listeners n (dl_InformListener (dlChunkListeners n) metahash metafile).1 in
      match ParseMetafile metafile with
      | None => Ok (fn_set_dlset n (sfs_Delete (dlFilesSet n) metahash), disk, sent, false)
      | Some chunkHashes =>
          let n := fn_set_chunks n (AddChunk (chunkMap n) metahash metafile).1 in
          let estimatedSize := EstimateFileSize metafile in
          let n := fn_set_files n (AddEntry (fileMap n) nameToSave estimatedSize metafile metahash).1 in
          '(n, chunks, sent') ← download_chunks n metahash
             (if randomOrigins then Some owners else None) origin env 1 chunkHashes;
          sfe ← deref (GetEntry (fileMap n) metahash);
          let actualSize := Z.of_nat (length (concat chunks)) in
          let n := fn_set_files n (<[metahash := SafeSetSize sfe actualSize]> (fileMap n)) in
          let '(disk, _) := WriteFileFromChunks disk create_ok write_ok nameToSave chunks randomOrigins in
          Ok (fn_set_dlset n (sfs_Delete (dlFilesSet n) metahash), disk, sent ++ sent', true)
      end.

Definition dataRequestListen (n : FileNode) (pap : PacketAddressPair)
    : outcome (FileNode * list action) :=
  sender ← pap_GetSenderAddress pap;
  let n := fn_addToPeers n sender in
  origin ← pap_GetOrigin pap;
  hash ← pap_GetHashValue pap;
  dest ← pap_GetDestination pap;
  if String.eqb dest (gs_name (gossip n)) then
    match answerDataRequest n origin hash with
    | Some drep => '(_, sent) ← forward (gossip n) (data_reply_packet drep); Ok (n, sent)
    | None => Ok (n, [])
    end
  else '(_, sent) ← forward (gossip n) (pap_Packet pap); Ok (n, sent).

(** The result tells the channel on which data is delivered, if any. *)
Definition dataReplyListen (n : FileNode) (pap : PacketAddressPair)
    : outcome (FileNode * list action * option (nat * bytes)) :=
  sender ← pap_GetSenderAddress pap;
  let n := fn_addToPeers n sender in
  _ ← pap_GetOrigin pap;
  hash ← pap_GetHashValue pap;
  drep ← deref (g_DataReply (pap_Packet pap));
  if negb (VerifyDataHash (drep_HashValue drep) (drep_Data drep)) then Ok (n, [], None)
  else
    dest ← pap_GetDestination pap;
    if String.eqb dest (gs_name (gossip n)) then
      match ConvertToHash32 hash with
      | Some hash32 =>
          data ← pap_GetData pap;
          let '(dl, delivered) := dl_InformListener (dlChunkListeners n) hash32 data in
          Ok (fn_set_listeners n dl, [], delivered)
      | None => Ok (n, [], None)
      end
    else '(_, sent) ← forward (gossip n) (pap_Packet pap); Ok (n, sent, None).

(** A file is shared; the result is the transaction for the block chain, which the
    routine then sends on [cFileNaming]. *)
Definition clientFileShareListen (n : FileNode) (fileName : string)
    (opened : outcome (list (bytes * option read_err))) : option (FileNode * option PacketAddressPair) :=
  match ReadChunks opened with
  | None => None
  | Some (Ok (chunks, size)) =>
      let '(chunksMap, metafile, metahash) := CreateChunksMap chunks in
      let n := fn_set_files n (AddEntry (fileMap n) fileName size metafile metahash).1 in
      let m := (AddChunk (chunkMap n) metahash metafile).1 in
      let m := map_fold (fun checksum chunk m => (AddChunk m checksum chunk).1) m chunksMap in
      let txPub := mkTxPublish (mkFile fileName size metahash) defaultHopLimit in
      Some (fn_set_chunks n m, Some (mkPacketAddressPair (tx_packet txPub) ""))
  | Some _ => Some (n, None)
  end.

(** ** fileSearching.go *)
Definition maximumBudget : Z := 32.
Definition makeSearchRequest (n : FileNode) (budget : Z) (keywords : list string) : SearchRequest :=
  mkSearchRequest (gs_name (gossip n)) budget keywords.
Definition makeSearchReply (n : FileNode) (destination : string) (sress : list SearchResult)
    : SearchReply :=
  mkSearchReply (gs_name (gossip n)) destination defaultHopLimit sress.
Definition answerSearchRequest (n : FileNode) (origin : string) (keywords : list string)
    : FileNode * option SearchReply :=
  let '(files, sress) := GetMatches (fileMap n) keywords in
  let n := fn_set_files n files in
  (n, if (0 <? length sress)%nat then Some (makeSearchReply n origin sress) else None).

(** The budgets given to the peers: [int] division and remainder, truncated like Go's. *)
Fixpoint split_budget (ps : list string) (eqSplit remainder : Z) : list (string * Z) :=
  match ps with
  | [] => []
  | peer :: rest =>
      let '(budget, remainder') :=
        if 0 <? remainder then (eqSplit + 1, remainder - 1) else (eqSplit, remainder) in
      (if 0 <? budget then [(peer, budget)] else []) ++ split_budget rest eqSplit remainder'
  end.
Definition search_targets (n : FileNode) (sreq : SearchRequest) (recentSender : string)
    : list (string * Z) :=
  let ps := stringArrayDifference (GetArrayCopy (peers (gossip n))) [sreq_Origin sreq; recentSender] in
  if decide (length ps = 0%nat) then []
  else let b := int64 (sreq_Budget sreq) in
       split_budget ps (Z.quot b (Z.of_nat (length ps))) (Z.rem b (Z.of_nat (length ps))).
Definition forwardSearchRequest (n : FileNode) (sreq : SearchRequest) (recentSender : string)
    : list action :=
  (fun t : string * Z =>
     Send (search_request_packet (mkSearchRequest (sreq_Origin sreq) (u64 t.2) (sreq_Keywords sreq))) t.1)
  <$> search_targets n sreq recentSender.

(** Recent searches; times are in nanoseconds. *)
Record SearchRequestTimedID := mkSRT { srt_Time : Z; srt_Origin : string; srt_Keywords : list string }.
Definition expired (current : Z) (srt : SearchRequestTimedID) : bool :=
  500000000 <? current - srt_Time srt.
Definition same_search (origin : string) (keywords : list string) (srt : SearchRequestTimedID) : bool :=
  String.eqb (srt_Origin srt) origin &&
  (length (stringArrayDifference (srt_Keywords srt) keywords) =? 0)%nat &&
  (length (stringArrayDifference keywords (srt_Keywords srt)) =? 0)%nat.

Definition searchRequestListen (n : FileNode) (timedIDs : list SearchRequestTimedID) (current : Z)
    (pap : PacketAddressPair) : outcome (FileNode * list SearchRequestTimedID * list action) :=
  sender ← pap_GetSenderAddress pap;
  let n := fn_addToPeers n sender in
  origin ← pap_GetOrigin pap;
  keywords ← pap_GetKeywords pap;
  _ ← pap_GetBudget pap;
  let ignore := existsb (fun srt => negb (expired current srt) && same_search origin keywords srt) timedIDs in
  let timedIDs := filter (fun srt => negb (expired current srt)) timedIDs in
  if ignore then Ok (n, timedIDs, [])
  else
    let timedIDs := timedIDs ++ [mkSRT current origin keywords] in
    let '(n, answer) := answerSearchRequest n origin keywords in
    replied ← (if answer is Some srep
               then '(_, sent) ← forward (gossip n) (search_reply_packet srep); Ok sent else Ok []);
    sreq ← deref (g_SearchRequest (pap_Packet pap));
    let sreq := mkSearchRequest (sreq_Origin sreq) (u64 (sreq_Budget sreq - 1)) (sreq_Keywords sreq) in
    Ok (n, timedIDs, replied ++ forwardSearchRequest n sreq sender).

Definition zero_hash : bytes := replicate 32 0.
(** One search result: what the searches in progress are told. *)
Definition process_result (n : FileNode) (origin : string) (sres : SearchResult)
    : outcome (FileNode * list (nat * gmap bytes SafeStringArray)) :=
  let converted := ConvertToHash32 (sres_MetafileHash sres) in
  let hash32 := default zero_hash converted in
  let n := if converted is Some _
           then fn_set_names n (AddMapping (filenamesMap n) hash32 (sres_FileName sres)).1 else n in
  let '(owners, (madeTotalMatch, hasTotalMatch)) :=
    UpdateWithSearchResult (metahashToChunkOwnersMap n) origin sres in
  let n := fn_set_owners n owners in
  let n := if hasTotalMatch : bool then
             fn_set_gossip n
               (let g := gossip n in
                mkGossiper (gs_address g) (gs_name g) (UseSimple g) (peers g) (seqIDCounter g)
                  (statusChanMap g) (quitChanMap g) (msgMap g) (latestMessages g) (origins g)
                  (routingTable g)
                  (shf_AppendUniqueToArray (matchesGUImap g) hash32 (sres_FileName sres)).1)
           else n in
  arr ← deref (GetMapping (filenamesMap n) hash32);
  if madeTotalMatch : bool then
    let '(s, informed) := ssm_InformListeners (searchMap n) (GetArrayCopy arr) hash32 in
    Ok (fn_set_search n s, informed)
  else
    let madeAnyMatch := CheckIfMatches (searchMap n) (GetArrayCopy arr) hash32 in
    Ok (n, []).
Fixpoint process_results (n : FileNode) (origin : string) (sress : list SearchResult)
    : outcome (FileNode * list (nat * gmap bytes SafeStringArray)) :=
  match sress with
  | [] => Ok (n, [])
  | sres :: rest =>
      '(n, informed) ← process_result n origin sres;
      '(n, informed') ← process_results n origin rest;
      Ok (n, informed ++ informed')
  end.

Definition searchReplyListen (n : FileNode) (pap : PacketAddressPair)
    : outcome (FileNode * list action * list (nat * gmap bytes SafeStringArray)) :=
  sender ← pap_GetSenderAddress pap;
  let n := fn_addToPeers n sender in
  dest ← pap_GetDestination pap;
  _ ← pap_GetHopLimit pap;
  if String.eqb dest (gs_name (gossip n)) then
    sress ← pap_GetSearchResults pap;
    origin ← pap_GetOrigin pap;
    '(n, informed) ← process_results n origin sress;
    Ok (n, [], informed)
  else '(_, sent) ← forward (gossip n) (pap_Packet pap); Ok (n, sent, []).

(** [searchFilesMatching]: its first part, and one tick of its two tickers. *)
Inductive search_status :=
  | SearchDone (files : gmap bytes SafeStringArray) (ok : bool)
  | SearchInProgress                                (* "already in progress" *)
  | Searching (c : nat) (budget : Z) (sreq : SearchRequest).
Definition searchFilesMatching (n : FileNode) (keywords : list string) (initialBudget : Z)
    : FileNode * list action * search_status :=
  let files := map_imap (fun metahash arr =>
    let hasTotalMatch := if GetMapCopy (metahashToChunkOwnersMap n) metahash is Some (_, t) then t else false in
    if hasTotalMatch : bool then Some arr else None) (fn_GetMatches (filenamesMap n) keywords) in
  if (size files <? ThresholdTotalMatches)%nat then
    let '(s, c, isNew) := AddListenerWithFiles (searchMap n) keywords files in
    let n := fn_set_search n s in
    if negb isNew then (n, [], SearchInProgress)
    else
      let budget := if initialBudget =? 0 then 2 else initialBudget in
      let sreq := makeSearchRequest n budget keywords in
      (n, forwardSearchRequest n sreq "", Searching c budget sreq)
  else (n, [], SearchDone files false).
(** The ticker [t1]; the boolean tells whether it goes on. *)
Definition search_tick (n : FileNode) (initialBudget budget : Z) (sreq : SearchRequest)
    : list action * Z * SearchRequest * bool :=
  if (initialBudget =? 0) && (maximumBudget <=? budget) then ([], budget, sreq, false)
  else if initialBudget =? 0 then
    let budget := u64 (budget * 2) in
    let sreq := mkSearchRequest (sreq_Origin sreq) budget (sreq_Keywords sreq) in
    (forwardSearchRequest n sreq "", budget, sreq, true)
  else ([], budget, sreq, true).
Definition search_timeout (n : FileNode) (keywords : list string) : FileNode :=
  fn_set_search n (ssm_RemoveListener (searchMap n) keywords).

(** The loops for the requests of clients start one of these goroutines for each request. *)
Definition clientFileDownloadListen (n : FileNode) (disk : gmap string bytes) (fileToDL : FileToDownload)
    (env : nat -> dl_env) (create_ok write_ok : bool) : outcome (FileNode * gmap string bytes * list action * bool) :=
  downloadFile n disk (ftd_FileName fileToDL) (ftd_Metahash fileToDL) (ftd_Origin fileToDL) env create_ok write_ok.
Definition clientFileSearchListen (n : FileNode) (fileSearch : FileToSearch) : FileNode * list action * search_status :=
  searchFilesMatching n (ftse_Keywords fileSearch) (ftse_Budget fileSearch).

(** ** Lemmas: retransmission *)
(** The hop limits of the packets sent when a packet is forwarded again and again on a
    known route. *)
Fixpoint sent_limits (h : Z) (times : nat) : list Z :=
  match times with
  | O => []
  | S k =>
      let h' := if decide (h = 0) then 2 ^ 32 - 1 else h - 1 in
      (if decide (h = 1) then [] else [h']) ++ sent_limits h' k
  end.

Definition limit_of (a : action) : outcome Z :=
  match a with Send p _ => GetHopLimit p | _ => Panic "not a packet" end.

Lemma forward_retries_total g times p h dest :
  relayed (GetUnderlyingType p) = true -> GetHopLimit p = Ok h -> GetDestination p = Ok dest ->
  in_width 32 h ->
  exists actions, forward_retries g times p = Ok actions /\
    (limit_of <$> actions) = (if getNextHop g dest is Some _ then Ok <$> sent_limits h times else []).
Proof.
  revert p h. induction times as [|k IH]; intros p h Hr Hh Hd Hw; cbn [forward_retries sent_limits].
  { exists []. split; [done |]. by destruct (getNextHop g dest). }
  destruct (forward_total g p h dest Hr Hh Hd Hw) as (p' & Hh' & Hd' & Ht' & Hf).
  set (h' := if decide (h = 0) then 2 ^ 32 - 1 else h - 1) in *.
  destruct (IH p' h') as (rest & Er & El); [by rewrite Ht' | done | done | |].
  { unfold h', in_width in *. destruct (decide (h = 0)); lia. }
  rewrite Hf. cbn [mbind outcome_bind]. rewrite Er. cbn [mbind outcome_bind].
  eexists. split; [done |]. rewrite fmap_app, El.
  destruct (getNextHop g dest) as [nh|]; [| by destruct (decide (h = 1))].
  rewrite fmap_app. destruct (decide (h = 1)); [done |]. simpl. by rewrite Hh'.
Qed.

Lemma request_fields n origin hash :
  let p := data_request_packet (makeDataRequest n origin hash) in
  relayed (GetUnderlyingType p) = true /\ GetHopLimit p = Ok defaultHopLimit /\
  GetDestination p = Ok origin.
Proof. split_and!; reflexivity. Qed.

Lemma downloadChunk_total n hash origin timeouts :
  exists sent, downloadChunk n hash origin timeouts =
    Ok (fn_set_listeners n (dl_AddListener (dlChunkListeners n) hash).1.1,
        (dl_AddListener (dlChunkListeners n) hash).1.2, sent) /\
    (limit_of <$> sent) = (if getNextHop (gossip n) origin is Some _
                           then Ok <$> sent_limits defaultHopLimit (S timeouts) else []).
Proof.
  unfold downloadChunk. destruct (dl_AddListener _ _) as [[dl c] b].
  destruct (request_fields n origin hash) as (Hr & Hh & Hd).
  destruct (forward_retries_total (gossip n) (S timeouts) _ _ _ Hr Hh Hd) as (sent & E & El).
  { unfold in_width, defaultHopLimit. lia. }
  exists sent. cbn [fst snd]. rewrite E. done.
Qed.

(** ** Lemmas: a download from a given origin *)
Definition add_indices (files : SafeFileMap) (metahash : bytes) (l : list Z) : SafeFileMap :=
  foldl (fun files i => match files !! metahash with
    | Some sfe => <[metahash := SafeAddChunkIndex sfe i]> files
    | None => files end) files l.

Lemma add_indices_lookup files metahash l sfe :
  files !! metahash = Some sfe ->
  add_indices files metahash l !! metahash = Some (mkSFE (sfe_name sfe) (sfe_size sfe)
    (sfe_metafile sfe) (sfe_metahash sfe) (chunkIndices sfe ++ l)).
Proof.
  revert files sfe. induction l as [|i l IH]; intros files sfe Hs; simpl.
  - rewrite app_nil_r, Hs. by destruct sfe.
  - rewrite Hs, (IH _ _ (lookup_insert_eq _ _ _)). simpl. by rewrite <-app_assoc.
Qed.

Lemma download_chunks_Ok hashes : forall n metahash origin env i sfe,
  fileMap n !! metahash = Some sfe ->
  exists n' sent, download_chunks n metahash None origin env i hashes =
    Ok (n', (fun k => e_data (env k)) <$> seq i (length hashes), sent) /\
  dlFilesSet n' = dlFilesSet n /\
  fileMap n' !! metahash = Some (mkSFE (sfe_name sfe) (sfe_size sfe) (sfe_metafile sfe)
    (sfe_metahash sfe) (chunkIndices sfe ++ (Z.of_nat <$> seq i (length hashes)))).
Proof.
  induction hashes as [|hash hashes IH]; intros n metahash origin env i sfe Hs.
  { exists n, []. simpl. rewrite app_nil_r, Hs. by destruct sfe. }
  cbn [download_chunks]. cbn [mbind outcome_bind].
  destruct (downloadChunk_total n hash origin (e_timeouts (env i))) as (sent & -> & _).
  cbn [mbind outcome_bind]. unfold addChunkIndex, GetEntry. cbn [fileMap fn_set_chunks fn_set_listeners].
  rewrite Hs. cbn [deref mbind outcome_bind].
  match goal with |- context [download_chunks ?n1 _ _ _ _ _ _] => set (n1' := n1) end.
  destruct (IH n1' metahash origin env (S i) (SafeAddChunkIndex sfe (Z.of_nat i)))
    as (n' & sent' & -> & Ed & Ef); [apply lookup_insert_eq |].
  cbn [mbind outcome_bind]. eexists n', _. split; [done |]. split; [by rewrite Ed |].
  rewrite Ef. simpl. by rewrite <-app_assoc.
Qed.

Lemma AddEntry_lookup files name size metafile metahash :
  exists sfe, (AddEntry files name size metafile metahash).1 !! metahash = Some sfe /\
    (files !! metahash = None -> sfe = NewSafeFileEntry name size metafile metahash).
Proof.
  unfold AddEntry. destruct (files !! metahash) as [sfe|] eqn:E; simpl.
  - exists sfe. by rewrite E.
  - eexists. split; [apply lookup_insert_eq | done].
Qed.

Lemma ParseMetafile_length metafile hashes :
  ParseMetafile metafile = Some hashes -> length hashes = (length metafile / 32)%nat /\
    concat hashes = metafile.
Proof.
  unfold ParseMetafile. destruct (Nat.eqb_spec (length metafile mod 32) 0) as [E|]; [| done].
  intros H. apply (inj Some) in H as <-. split; [apply length_pieces | apply pieces_concat; [lia |]].
  pose proof (Nat.div_mod_eq (length metafile) 32). lia.
Qed.

Lemma ConvertToHash32_Some hash : length hash = 32%nat -> ConvertToHash32 hash = Some hash.
Proof. unfold ConvertToHash32. by intros ->. Qed.

Lemma VerifyDataHash_spec hash data : VerifyDataHash hash data = true <-> Sum256 data = hash.
Proof.
  unfold VerifyDataHash. destruct (Nat.eqb_spec (length hash) 32) as [E|E].
  - rewrite bool_decide_eq_true. split; congruence.
  - split; [done |]. intros <-. by rewrite Sum256_length in E.
Qed.

(** Shares of a budget. *)
Lemma split_budget_spec ps e r :
  0 <= e -> 0 <= r <= Z.of_nat (length ps) ->
  foldr Z.add 0 (split_budget ps e r).*2 = e * Z.of_nat (length ps) + r /\
  (forall p s, (p, s) ∈ split_budget ps e r -> p ∈ ps /\ 1 <= s /\ e <= s <= e + 1).
Proof.
  intros He. revert r. induction ps as [|p ps IH]; intros r Hr; cbn [split_budget length] in *.
  { simpl in *. split; [lia | set_solver]. }
  rewrite Nat2Z.inj_succ in *.
  destruct (Z.ltb_spec 0 r) as [Hpos|Hz].
  - destruct (IH (r - 1)) as [Hs Ha]; [lia |]. rewrite (proj2 (Z.ltb_lt 0 (e + 1))) by lia.
    cbn [app]. rewrite fmap_cons. cbn [foldr snd]. split; [lia |]. intros p' s [[= -> ->]|Hin]%elem_of_cons; [split; [set_solver | lia] |].
    destruct (Ha _ _ Hin). split; [set_solver | done].
  - destruct (IH r) as [Hs Ha]; [lia |]. destruct (Z.ltb_spec 0 e); cbn [app]; rewrite ?fmap_cons; cbn [foldr snd].
    + split; [lia |]. intros p' s [[= -> ->]|Hin]%elem_of_cons; [split; [set_solver | lia] |].
      destruct (Ha _ _ Hin). split; [set_solver | done].
    + split; [lia |]. intros p' s Hin. destruct (Ha _ _ Hin). split; [set_solver | done].
Qed.

Lemma split_budget_negative ps e r : e <= 0 -> r <= 0 -> split_budget ps e r = [].
Proof.
  intros He Hr. induction ps as [|p ps IH]; [done |]. cbn [split_budget].
  rewrite (proj2 (Z.ltb_ge 0 r)), (proj2 (Z.ltb_ge 0 e)) by done. done.
Qed.

Lemma sum_pos (l : list (string * Z)) :
  Forall (fun t => 1 <= t.2) l -> Z.of_nat (length l) <= foldr Z.add 0 l.*2.
Proof. induction 1 as [|t l Ht _ IH]; [done |]. rewrite fmap_cons. cbn [foldr length]. lia. Qed.

Lemma process_result_malformed n origin sres :
  length (sres_MetafileHash sres) <> 32%nat -> GetMapping (filenamesMap n) zero_hash = None ->
  process_result n origin sres = Panic "nil pointer dereference".
Proof.
  intros Hl Hz. unfold process_result, UpdateWithSearchResult, ConvertToHash32.
  rewrite (proj2 (Nat.eqb_neq _ _) Hl). cbn [default fn_set_owners filenamesMap]. rewrite Hz. done.
Qed.

Lemma process_results_app n origin before rest n' informed :
  process_results n origin before = Ok (n', informed) ->
  process_results n origin (before ++ rest) =
    ('(n2, informed') ← process_results n' origin rest; Ok (n2, informed ++ informed')).
Proof.
  revert n informed. induction before as [|r l IH]; intros n informed; cbn [process_results app].
  - intros [= -> <-]. destruct (process_results n' origin rest) as [[]| |]; done.
  - destruct (process_result n origin r) as [[n1 i1]| |]; cbn [mbind outcome_bind]; try done.
    destruct (process_results n1 origin l) as [[n2 i2]| |] eqn:E; cbn [mbind outcome_bind]; try done.
    intros [= -> <-]. rewrite (IH n1 i2 E). destruct (process_results n' origin rest) as [[]| |]; try done.
    cbn [mbind outcome_bind]. by rewrite <-app_assoc.
Qed.

(** Results under other hashes do not make the zero hash known. *)
Lemma process_result_zero n origin r n' informed :
  process_result n origin r = Ok (n', informed) -> sres_MetafileHash r <> zero_hash ->
  GetMapping (filenamesMap n) zero_hash = None -> GetMapping (filenamesMap n') zero_hash = None.
Proof.
  unfold process_result, ConvertToHash32. intros E Hne Hz.
  destruct (Nat.eqb (length (sres_MetafileHash r)) 32); cbn [default] in E;
    destruct (UpdateWithSearchResult _ _ _) as [owners [made has]].
  - assert (Hz' : GetMapping (AddMapping (filenamesMap n) (sres_MetafileHash r) (sres_FileName r)).1 zero_hash = None).
    { unfold GetMapping, AddMapping in *. destruct (filenamesMap n !! sres_MetafileHash r); cbn;
        by rewrite lookup_insert_ne. }
    destruct has, made; apply outcome_bind_Ok in E as (arr & _ & E);
      try (destruct (ssm_InformListeners _ _ _) in E); injection E as <- _; exact Hz'.
  - destruct has, made; apply outcome_bind_Ok in E as (arr & Ea & _); cbn [filenamesMap fn_set_owners fn_set_gossip] in Ea;
      by rewrite Hz in Ea.
Qed.

Lemma process_results_zero before : forall n origin n' informed,
  process_results n origin before = Ok (n', informed) ->
  Forall (fun r => sres_MetafileHash r <> zero_hash) before ->
  GetMapping (filenamesMap n) zero_hash = None -> GetMapping (filenamesMap n') zero_hash = None.
Proof.
  induction before as [|r l IH]; intros n origin n' informed E Hf Hz; cbn [process_results] in E.
  - by injection E as <- _.
  - inversion Hf; subst. destruct (process_result n origin r) as [[n1 i1]| |] eqn:E1; try done.
    cbn [mbind outcome_bind] in E.
    destruct (process_results n1 origin l) as [[n2 i2]| |] eqn:E2; try done. injection E as <- _.
    eapply IH; [exact E2 | done |]. by eapply process_result_zero.
Qed.

Lemma stringArrayDifference_nil l1 l2 :
  (forall k, k ∈ l1 -> k ∈ l2) -> stringArrayDifference l1 l2 = [].
Proof.
  intros H. unfold stringArrayDifference. destruct (filter _ l1) as [|x l] eqn:E; [done |].
  assert (Hx : x ∈ filter (fun key => key ∉ (list_to_set l2 : gset string)) l1) by (rewrite E; set_solver).
  apply list_elem_of_filter in Hx as [Hn Hin]. exfalso. apply Hn, elem_of_list_to_set. by apply H.
Qed.

(** A download from a named origin, whatever data it is given. *)
Lemma downloadFile_named n disk name metahash origin env hashes :
  metahash ∉ dlFilesSet n -> origin <> "" -> ParseMetafile (e_data (env 0%nat)) = Some hashes ->
  let content := concat ((fun k => e_data (env k)) <$> seq 1 (length hashes)) in
  exists n' sent,
    downloadFile n disk name metahash origin env true true =
      Ok (n', <[dlBaseDir +:+ name := content]> disk, sent, true) /\
    dlFilesSet n' = dlFilesSet n /\
    exists sfe, fileMap n' !! metahash = Some sfe /\ sfe_size sfe = Z.of_nat (length content) /\
      (fileMap n !! metahash = None ->
         let l := Z.of_nat <$> seq 1 (length hashes) in chunkIndices sfe = l ++ l).
Proof.
  intros Hnew Ho Hparse content. destruct (ParseMetafile_length _ _ Hparse) as [Hlen _].
  unfold downloadFile, AddUnique. rewrite decide_False by done. cbn [negb].
  rewrite (proj2 (String.eqb_neq _ _) Ho). destruct (default _ _) as [owners total]. cbn [andb].
  cbn [mbind outcome_bind].
  set (n1 := fn_set_dlset n _).
  destruct (downloadChunk_total n1 metahash origin (e_timeouts (env 0%nat))) as (sent & -> & _).
  cbn [mbind outcome_bind]. rewrite Hparse.
  cbn [fileMap fn_set_chunks fn_set_listeners n1 fn_set_dlset].
  destruct (AddEntry_lookup (fileMap n) name (EstimateFileSize (e_data (env 0%nat))) (e_data (env 0%nat)) metahash)
    as (sfe0 & Es0 & Enew).
  match goal with |- context [download_chunks ?m _ _ _ _ _ _] => set (n2 := m) end.
  destruct (download_chunks_Ok hashes n2 metahash origin env 1 sfe0 Es0) as (n3 & sent' & -> & Ed & Ef).
  cbn [mbind outcome_bind]. unfold GetEntry. rewrite Ef. cbn [deref mbind outcome_bind WriteFileFromChunks].
  eexists _, _. split; [reflexivity |]. split.
  - cbn [dlFilesSet fn_set_dlset fn_set_files]. rewrite Ed. unfold sfs_Delete, n2, n1. simpl. set_solver.
  - cbn [fileMap fn_set_dlset fn_set_files]. rewrite lookup_insert_eq. eexists. split; [done |].
    split; [done |]. intros Hn. cbn. rewrite (Enew Hn). cbn. by rewrite Hlen.
Qed.

(** ** Properties *)

(** C9. A download from a named origin.  Provided each piece of data delivered has the
    sum that was asked for, the download always succeeds: the file on disk is the
    concatenation of the chunks, its own metahash is the requested one, and the download is
    no longer registered.  The entry of a new file lists every chunk twice (its
    constructor already lists them all, before any is downloaded). *)
Theorem downloadFile_integrity n disk name metahash origin env hashes :
  metahash ∉ dlFilesSet n -> origin <> "" -> Sum256 (e_data (env 0%nat)) = metahash ->
  ParseMetafile (e_data (env 0%nat)) = Some hashes ->
  (forall i h, hashes !! i = Some h -> Sum256 (e_data (env (S i))) = h) ->
  let chunks := (fun k => e_data (env k)) <$> seq 1 (length hashes) in
  let content := concat chunks in
  exists n' sent,
    downloadFile n disk name metahash origin env true true =
      Ok (n', <[dlBaseDir +:+ name := content]> disk, sent, true) /\
    (CreateChunksMap chunks).2 = metahash /\
    (CreateChunksMap chunks).1.2 = e_data (env 0%nat) /\
    dlFilesSet n' = dlFilesSet n /\
    exists sfe, fileMap n' !! metahash = Some sfe /\ sfe_size sfe = Z.of_nat (length content) /\
      (fileMap n !! metahash = None ->
         let l := Z.of_nat <$> seq 1 (length hashes) in chunkIndices sfe = l ++ l).
Proof.
  intros Hnew Ho Hsum Hparse Hdata chunks content. destruct (ParseMetafile_length _ _ Hparse) as [_ Hcat].
  destruct (downloadFile_named n disk name metahash origin env hashes Hnew Ho Hparse) as (n' & sent & E & Hset & Hfile).
  assert (Hs : Sum256 <$> chunks = hashes).
  { unfold chunks. rewrite <-list_fmap_compose. apply list_eq. intros i.
    rewrite list_lookup_fmap. destruct (hashes !! i) as [h|] eqn:Ei.
    - pose proof (lookup_lt_Some _ _ _ Ei). rewrite lookup_seq_lt by done. simpl. f_equal.
      by apply Hdata.
    - apply lookup_ge_None in Ei. by rewrite lookup_seq_ge. }
  exists n', sent. split; [exact E |]. unfold CreateChunksMap. cbn [fst snd]. by rewrite Hs, Hcat.
Qed.

Definition one_chunk : bytes := [104; 105].
Definition sample_env (i : nat) : dl_env :=
  mkDlEnv 0 0 (match i with O => Sum256 one_chunk | _ => one_chunk end).
Lemma downloadFile_integrity_witness :
  let n := NewFileNode (NewGossiper "a" "A" [] false) in
  exists n' sent,
    downloadFile n ∅ "f" (Sum256 (Sum256 one_chunk)) "B" sample_env true true =
      Ok (n', <[dlBaseDir +:+ "f" := one_chunk]> ∅, sent, true).
Proof.
  intros n.
  destruct (downloadFile_integrity n ∅ "f" (Sum256 (Sum256 one_chunk)) "B" sample_env [Sum256 one_chunk])
    as (n' & sent & E & _).
  - set_solver.
  - discriminate.
  - reflexivity.
  - pose proof (ParseMetafile_sums [one_chunk]) as H. simpl in H. rewrite app_nil_r in H. exact H.
  - intros [|i] h Hi; [| destruct i; discriminate Hi].
    change (Some (Sum256 one_chunk) = Some h) in Hi. apply (inj Some) in Hi as <-. reflexivity.
  - exists n', sent. exact E.
Defined.

(** The request for a chunk is one packet, decremented at every time-out: on a known
    route it leaves with the hop limits 9, 8, ..., 1, is then not sent once, and after ten
    time-outs leaves with the limit [2^32 - 1]. *)
Theorem retry_hop_limits n hash origin nextHop timeouts :
  getNextHop (gossip n) origin = Some nextHop ->
  exists n' c sent, downloadChunk n hash origin timeouts = Ok (n', c, sent) /\
    (limit_of <$> sent) = Ok <$> sent_limits 10 (S timeouts) /\
    ((timeouts <= 8)%nat -> sent_limits 10 (S timeouts) = reverse (seqZ (9 - Z.of_nat timeouts) (Z.of_nat timeouts + 1))) /\
    (timeouts = 9%nat -> sent_limits 10 (S timeouts) = [9; 8; 7; 6; 5; 4; 3; 2; 1]) /\
    (timeouts = 10%nat -> last (sent_limits 10 (S timeouts)) = Some (2 ^ 32 - 1)).
Proof.
  intros Hn. destruct (downloadChunk_total n hash origin timeouts) as (sent & -> & El).
  rewrite Hn in El. eexists _, _, sent. split; [done |]. split; [done |]. split_and!.
  - intros Ht. do 9 (destruct timeouts as [|timeouts]; [reflexivity |]). lia.
  - by intros ->.
  - by intros ->.
Qed.

Lemma retry_hop_limits_witness :
  let g := NewGossiper "a" "A" [] false in
  let n := NewFileNode (set_routes g (origins g) {["B" := mkSRTE 1 "b"]}) in
  exists n' c sent, downloadChunk n one_chunk "B" 10 = Ok (n', c, sent) /\
    last (sent_limits 10 11) = Some (2 ^ 32 - 1).
Proof.
  intros g n. destruct (retry_hop_limits n one_chunk "B" "b" 10) as (n' & c & sent & E & _ & _ & _ & H).
  - reflexivity.
  - exists n', c, sent. split; [exact E | apply H; reflexivity].
Defined.

(** C37. Data replies: data is delivered to a download only if its sum is the hash of the
    reply, on the channel registered for that hash, which is then removed; a reply whose
    data does not match is neither delivered nor forwarded, and one for another gossiper
    is never delivered here. *)
Theorem dataReply_verified n drep sender :
  in_width 32 (drep_HopLimit drep) ->
  exists n' sent delivered,
    dataReplyListen n (mkPacketAddressPair (data_reply_packet drep) sender) = Ok (n', sent, delivered) /\
    (VerifyDataHash (drep_HashValue drep) (drep_Data drep) = true <->
       Sum256 (drep_Data drep) = drep_HashValue drep) /\
    (sent <> [] -> Sum256 (drep_Data drep) = drep_HashValue drep /\
       drep_Destination drep <> gs_name (gossip n)) /\
    (forall c d, delivered = Some (c, d) ->
       drep_Destination drep = gs_name (gossip n) /\ d = drep_Data drep /\
       Sum256 d = drep_HashValue drep /\
       checksumMap (dlChunkListeners n) !! drep_HashValue drep = Some c /\
       checksumMap (dlChunkListeners n') !! drep_HashValue drep = None).
Proof.
  intros Hw. pose proof (VerifyDataHash_spec (drep_HashValue drep) (drep_Data drep)) as Hv.
  set (pap := mkPacketAddressPair (data_reply_packet drep) sender).
  assert (E1 : pap_GetSenderAddress pap = Ok sender) by reflexivity.
  assert (E2 : pap_GetOrigin pap = Ok (drep_Origin drep)) by reflexivity.
  assert (E3 : pap_GetHashValue pap = Ok (drep_HashValue drep)) by reflexivity.
  assert (E4 : pap_GetDestination pap = Ok (drep_Destination drep)) by reflexivity.
  assert (E5 : pap_GetData pap = Ok (drep_Data drep)) by reflexivity.
  unfold dataReplyListen. rewrite E1, E2, E3, E4, E5. cbn [mbind outcome_bind].
  change (g_DataReply (pap_Packet pap)) with (Some drep). cbn [deref mbind outcome_bind].
  destruct (VerifyDataHash _ _) eqn:E; cbn [negb].
  2: { eexists _, _, _. split; [reflexivity |]. split_and!; [done | done | done]. }
  assert (Hsum : Sum256 (drep_Data drep) = drep_HashValue drep) by (by apply Hv).
  destruct (addToPeers_fields (gossip n) sender) as (_ & _ & En & _).
  cbn [fn_addToPeers fn_set_gossip gossip dlChunkListeners].
  rewrite En. destruct (String.eqb_spec (drep_Destination drep) (gs_name (gossip n))) as [Ed|Ed].
  - rewrite ConvertToHash32_Some by (rewrite <-Hsum; apply Sum256_length).
    destruct (dl_InformListener _ _ _) as [dl delivered] eqn:Ei.
    eexists _, _, _. split; [reflexivity |]. split; [done |]. split; [done |].
    intros c d ->. unfold dl_InformListener in Ei.
    destruct (checksumMap (dlChunkListeners n) !! drep_HashValue drep) as [c'|]; [| done].
    injection Ei as <- <- <-. simpl. rewrite lookup_delete_eq. done.
  - change (pap_Packet pap) with (data_reply_packet drep).
    destruct (forward_total (addToPeers (gossip n) sender).1 (data_reply_packet drep)
      (drep_HopLimit drep) (drep_Destination drep)) as (p' & _ & _ & _ & ->); try done.
    cbn [mbind outcome_bind]. eexists _, _, _. split; [reflexivity |]. split_and!; [done | done | done].
Qed.

Definition sample_reply : DataReply := mkDataReply "B" "A" 10 (Sum256 one_chunk) one_chunk.
Lemma dataReply_verified_witness :
  let n := NewFileNode (NewGossiper "a" "A" [] false) in
  exists n' sent delivered,
    dataReplyListen n (mkPacketAddressPair (data_reply_packet sample_reply) "b") =
      Ok (n', sent, delivered).
Proof.
  intros n. destruct (dataReply_verified n sample_reply "b") as (n' & sent & delivered & E & _).
  - unfold in_width. simpl. lia.
  - exists n', sent, delivered. exact E.
Defined.

(** The budget of a search.  A request with budget [b] is passed on with [b - 1] in
    all: the neighbours other than its origin and its sender get equal shares of at least
    one that differ by at most one and add up to [b - 1]; with budget 0 or 1, or no such
    neighbour, nothing is sent (the wrapped budget 0 - 1 is not used). *)
Theorem search_budget_split n origin keywords b sender :
  0 <= b < 2 ^ 63 ->
  let sreq := mkSearchRequest origin (u64 (b - 1)) keywords in
  let ps := stringArrayDifference (GetArrayCopy (peers (gossip n))) [origin; sender] in
  let shares := search_targets n sreq sender in
  foldr Z.add 0 shares.*2 = (if decide (ps = []) then 0 else Z.max 0 (b - 1)) /\
  (forall p s, (p, s) ∈ shares -> p ∈ ps /\ 1 <= s /\
     (b - 1) / Z.of_nat (length ps) <= s <= (b - 1) / Z.of_nat (length ps) + 1) /\
  (b <= 1 -> shares = []) /\
  forwardSearchRequest n sreq sender =
    (fun t : string * Z => Send (search_request_packet (mkSearchRequest origin t.2 keywords)) t.1) <$> shares.
Proof.
  intros Hb sreq ps shares. unfold forwardSearchRequest. fold shares.
  assert (Hs : foldr Z.add 0 shares.*2 = (if decide (ps = []) then 0 else Z.max 0 (b - 1)) /\
    (forall p s, (p, s) ∈ shares -> p ∈ ps /\ 1 <= s < 2 ^ 63 /\
     (b - 1) / Z.of_nat (length ps) <= s <= (b - 1) / Z.of_nat (length ps) + 1)).
  { unfold shares, search_targets. cbn [sreq sreq_Origin sreq_Budget]. fold ps.
    destruct (decide (length ps = 0%nat)) as [El|El].
    { apply nil_length_inv in El. rewrite decide_True by done. split; [done | set_solver]. }
    rewrite decide_False by (intros E; by rewrite E in El).
    destruct (decide (b = 0)) as [->|Hb0].
    - change (int64 (u64 (0 - 1))) with (-1). rewrite split_budget_negative; [split; [done | set_solver] | |].
      + change (-1) with (- (1)). rewrite Z.quot_opp_l by lia.
        pose proof (Z.quot_pos 1 (Z.of_nat (length ps))). lia.
      + change (-1) with (- (1)). rewrite Z.rem_opp_l by lia.
        pose proof (Z.rem_nonneg 1 (Z.of_nat (length ps))). lia.
    - unfold sreq. rewrite wrap_small by (unfold in_width; lia). rewrite int64_small by lia.
      rewrite Z.quot_div_nonneg, Z.rem_mod_nonneg by lia.
      pose proof (Z.mod_pos_bound (b - 1) (Z.of_nat (length ps)) ltac:(lia)) as Hm.
      pose proof (Z.div_pos (b - 1) (Z.of_nat (length ps)) ltac:(lia) ltac:(lia)) as Hd.
      pose proof (Z.div_mod (b - 1) (Z.of_nat (length ps)) ltac:(lia)) as Hdm.
      destruct (split_budget_spec ps ((b - 1) / Z.of_nat (length ps)) ((b - 1) mod Z.of_nat (length ps)))
        as [Hsum Hall]; [lia | lia |].
      split; [rewrite Hsum; lia |]. intros p s Hin. destruct (Hall p s Hin) as (Hp & H1 & H2).
      split; [done |]. split; [| done]. assert ((b - 1) / Z.of_nat (length ps) <= b - 1); [| lia].
      apply Z.div_le_upper_bound; nia. }
  destruct Hs as [Hsum Hall]. split; [done |]. split; [intros p s Hin; destruct (Hall p s Hin); tauto |].
  assert (Hempty : b <= 1 -> shares = []).
  { intros Hle. destruct shares as [|[p s] l]; [done |].
    assert (Hpos : Forall (fun t : string * Z => 1 <= t.2) ((p, s) :: l)).
    { apply Forall_forall. intros [p' s'] Hin. destruct (Hall p' s' Hin) as (_ & ? & _). simpl. lia. }
    pose proof (sum_pos _ Hpos) as Hp. rewrite Hsum in Hp. simpl in Hp. destruct (decide _); lia. }
  split; [done |]. apply list_fmap_ext. intros i [p s] Hi. simpl.
  destruct (Hall p s) as (_ & ? & _); [by eapply list_elem_of_lookup_2 |].
  rewrite wrap_small by (unfold in_width; lia). done.
Qed.

Definition sample_searcher : FileNode := NewFileNode (NewGossiper "a" "A" ["b"; "c"; "d"] false).
Lemma search_budget_split_witness :
  search_targets sample_searcher (mkSearchRequest "X" (u64 (6 - 1)) ["k"]) "b" = [("c", 3); ("d", 2)] /\
  foldr Z.add 0 (search_targets sample_searcher (mkSearchRequest "X" (u64 (6 - 1)) ["k"]) "b").*2 = 5.
Proof.
  split; [vm_compute; reflexivity |].
  destruct (search_budget_split sample_searcher "X" ["k"] 6 "b" ltac:(lia)) as [H _].
  rewrite H. vm_compute. reflexivity.
Defined.

(** A search reply can stop the process: when the metafile hash of one of its results
    does not have 32 bytes (and no file is known under the zero hash), the destination
    dereferences a nil pointer. *)
Theorem malformed_result_panics n srep sres before after sender n' informed :
  GetMapping (filenamesMap n) zero_hash = None ->
  length (sres_MetafileHash sres) <> 32%nat ->
  srep_Destination srep = gs_name (gossip n) -> srep_Results srep = before ++ sres :: after ->
  process_results (fn_addToPeers n sender) (srep_Origin srep) before = Ok (n', informed) ->
  Forall (fun r => sres_MetafileHash r <> zero_hash) before ->
  searchReplyListen n (mkPacketAddressPair (search_reply_packet srep) sender)
    = Panic "nil pointer dereference".
Proof.
  intros Hz Hl Hd Hres Hb Hbf.
  set (pap := mkPacketAddressPair (search_reply_packet srep) sender).
  assert (E1 : pap_GetSenderAddress pap = Ok sender) by reflexivity.
  assert (E2 : pap_GetOrigin pap = Ok (srep_Origin srep)) by reflexivity.
  assert (E3 : pap_GetHopLimit pap = Ok (srep_HopLimit srep)) by reflexivity.
  assert (E4 : pap_GetDestination pap = Ok (srep_Destination srep)) by reflexivity.
  assert (E5 : pap_GetSearchResults pap = Ok (srep_Results srep)) by reflexivity.
  unfold searchReplyListen. rewrite E1, E2, E3, E4, E5. cbn [mbind outcome_bind].
  destruct (addToPeers_fields (gossip n) sender) as (_ & _ & En & _).
  cbn [fn_addToPeers fn_set_gossip gossip]. rewrite En, Hd, String.eqb_refl.
  cbn [mbind outcome_bind]. rewrite Hres.
  rewrite (process_results_app _ _ _ _ _ _ Hb). cbn [process_results].
  rewrite (process_result_malformed n') by (done || by eapply process_results_zero). done.
Qed.

Lemma malformed_result_panics_witness :
  searchReplyListen sample_searcher
    (mkPacketAddressPair (search_reply_packet
       (mkSearchReply "B" "A" 10 [mkSearchResult "f" [] [] 0])) "b") = Panic "nil pointer dereference".
Proof.
  apply (malformed_result_panics sample_searcher (mkSearchReply "B" "A" 10 [mkSearchResult "f" [] [] 0])
    (mkSearchResult "f" [] [] 0) [] [] "b" (fn_addToPeers sample_searcher "b") []);
    [apply lookup_empty | discriminate | reflexivity | reflexivity | reflexivity | constructor].
Defined.

(** A failed download blocks its file: asking to download a file without naming an
    origin, when no total match is known, returns [false] but leaves the file registered
    as being downloaded, so that every later attempt, from any origin, returns [false]
    without sending anything. *)
Theorem download_without_match_blocks n disk name metahash env c w :
  metahash ∉ dlFilesSet n ->
  default false (snd <$> GetMapCopy (metahashToChunkOwnersMap n) metahash) = false ->
  exists n', downloadFile n disk name metahash "" env c w = Ok (n', disk, [], false) /\
    forall disk' name' origin' env' c' w',
      downloadFile n' disk' name' metahash origin' env' c' w' = Ok (n', disk', [], false).
Proof.
  intros Hn Hm. unfold downloadFile at 1, AddUnique. rewrite decide_False by done.
  cbn [negb fn_set_dlset metahashToChunkOwnersMap String.eqb].
  destruct (GetMapCopy _ _) as [[owners total]|]; cbn in Hm |- *; subst;
    (eexists; split; [reflexivity |]); intros; unfold downloadFile, AddUnique;
    cbn [fn_set_dlset dlFilesSet]; rewrite decide_True by set_solver; done.
Qed.

Lemma download_without_match_blocks_witness :
  exists n', downloadFile sample_searcher ∅ "f" one_chunk "" sample_env true true = Ok (n', ∅, [], false) /\
    downloadFile n' ∅ "f" one_chunk "B" sample_env true true = Ok (n', ∅, [], false).
Proof.
  destruct (download_without_match_blocks sample_searcher ∅ "f" one_chunk sample_env true true)
    as (n' & E & H); [set_solver | reflexivity |].
  exists n'. split; [exact E | apply H].
Defined.

(** Two downloads that wait for the same chunk share one channel, and the listener is
    removed with the first data: one of them gets the data, the other one waits until
    its hash is registered again, which no retransmission does. *)
Theorem shared_chunk_starves n hash o1 o2 t1 t2 data :
  checksumMap (dlChunkListeners n) !! hash = None ->
  exists n1 n2 c s1 s2,
    downloadChunk n hash o1 t1 = Ok (n1, c, s1) /\ downloadChunk n1 hash o2 t2 = Ok (n2, c, s2) /\
    exists dl, dl_InformListener (dlChunkListeners n2) hash data = (dl, Some (c, data)) /\
      forall data', dl_InformListener dl hash data' = (dl, None).
Proof.
  intros Hn. destruct (downloadChunk_total n hash o1 t1) as (s1 & E1 & _).
  unfold dl_AddListener in E1. rewrite Hn in E1. cbn [fst snd] in E1.
  set (n1 := fn_set_listeners n _) in E1.
  destruct (downloadChunk_total n1 hash o2 t2) as (s2 & E2 & _).
  assert (Hl : dl_AddListener (dlChunkListeners n1) hash = (dlChunkListeners n1, dl_next (dlChunkListeners n), false)).
  { unfold dl_AddListener, n1. cbn. by rewrite lookup_insert_eq. }
  rewrite Hl in E2. cbn [fst snd] in E2. do 5 eexists. split; [exact E1 |]. split; [exact E2 |].
  unfold dl_InformListener at 1. cbn. rewrite lookup_insert_eq. eexists. split; [reflexivity |].
  intros data'. unfold dl_InformListener. cbn. by rewrite lookup_delete_eq.
Qed.

Lemma shared_chunk_starves_witness :
  exists n1 n2 c s1 s2,
    downloadChunk sample_searcher one_chunk "B" 0 = Ok (n1, c, s1) /\
    downloadChunk n1 one_chunk "C" 0 = Ok (n2, c, s2) /\
    exists dl, dl_InformListener (dlChunkListeners n2) one_chunk [1] = (dl, Some (c, [1])) /\
      forall data', dl_InformListener dl one_chunk data' = (dl, None).
Proof. apply shared_chunk_starves. apply lookup_empty. Defined.

(** A repeated search is answered once: a request with the origin and the keywords (as
    a set) of one received at most half a second before is dropped, and the budget of the
    own searches without budget doubles with every tick from 2 to at most 32. *)
Theorem repeated_search_ignored n timedIDs current t keywords origin b sender budget sreq :
  in_width 64 b -> current - t <= 500000000 -> mkSRT t origin keywords ∈ timedIDs ->
  (forall keywords', (forall k, k ∈ keywords' <-> k ∈ keywords) ->
     searchRequestListen n timedIDs current
       (mkPacketAddressPair (search_request_packet (mkSearchRequest origin b keywords')) sender) =
     Ok (fn_addToPeers n sender, filter (fun srt => negb (expired current srt)) timedIDs, [])) /\
  (0 < budget < 32 -> let '(_, budget', _, goes_on) := search_tick n 0 budget sreq in
     budget' = 2 * budget /\ goes_on = true) /\
  (32 <= budget -> search_tick n 0 budget sreq = ([], budget, sreq, false)).
Proof.
  intros Hb Ht Hin. split_and!.
  - intros keywords' Hk.
    set (pap := mkPacketAddressPair _ sender).
    assert (E1 : pap_GetSenderAddress pap = Ok sender) by reflexivity.
    assert (E2 : pap_GetOrigin pap = Ok origin) by reflexivity.
    assert (E3 : pap_GetKeywords pap = Ok keywords') by reflexivity.
    assert (E4 : pap_GetBudget pap = Ok b) by reflexivity.
    unfold searchRequestListen. rewrite E1, E2, E3, E4. cbn [mbind outcome_bind].
    assert (Ex : existsb (fun srt => negb (expired current srt) && same_search origin keywords' srt) timedIDs
      = true).
    { apply existsb_exists. exists (mkSRT t origin keywords). split; [by apply list_elem_of_In |].
      unfold expired, same_search. cbn [srt_Time srt_Origin srt_Keywords].
      rewrite (proj2 (Z.ltb_ge _ _)) by lia. rewrite String.eqb_refl.
      rewrite (stringArrayDifference_nil keywords keywords') by (intros k; apply Hk).
      by rewrite (stringArrayDifference_nil keywords' keywords) by (intros k; apply Hk). }
    by rewrite Ex.
  - intros Hlt. unfold search_tick. cbn [Z.eqb]. unfold maximumBudget.
    rewrite (proj2 (Z.leb_gt _ _)) by lia. cbn [andb]. rewrite wrap_small by (unfold in_width; lia). lia.
  - intros Hge. unfold search_tick, maximumBudget. cbn [Z.eqb]. by rewrite (proj2 (Z.leb_le _ _)) by lia.
Qed.

Lemma repeated_search_ignored_witness :
  searchRequestListen sample_searcher [mkSRT 1000 "X" ["a"; "b"]] 2000
    (mkPacketAddressPair (search_request_packet (mkSearchRequest "X" 5 ["b"; "a"])) "b") =
  Ok (fn_addToPeers sample_searcher "b",
      filter (fun srt => negb (expired 2000 srt)) [mkSRT 1000 "X" ["a"; "b"]], []).
Proof.
  apply (repeated_search_ignored sample_searcher [mkSRT 1000 "X" ["a"; "b"]] 2000 1000 ["a"; "b"] "X" 5 "b"
    2 (mkSearchRequest "A" 2 [])); [unfold in_width; lia | lia | set_solver | set_solver].
Defined.
