(* ===== verification/Receive.v ===== *)
(** * Receive: what a node does with the packets that reach it

    The receive loop ([Dispatch]) hands a packet to the routine of its type, which calls the
    handler of the message: the routines of the gossip ([Gossip]) and of the files
    ([FileNode]), over the state that they share.  The packets of the hash table, of the
    handshakes and of the crawlers are handed to routines with a state of their own
    ([DhtNode], [Sessions], [CrawlNode]). *)
From S2P Require Import Prelude Dto Containers Gossip Dispatch FileParsing SearchMaps FileNode.
Open Scope Z_scope.










(** ** Properties *)


