(* ===== verification/Lookup.v ===== *)
(** * Iterative lookups (gossiper/dhtAPI.go)

    [LookupNodes] and [LookupValue] query a few nodes at a time.  Each query is a
    goroutine ([lookupSingle], [lookupSingleValue]) that waits for its reply, marks the
    node as having responded and then offers the reply on an unbuffered channel, which
    the main goroutine receives with [reflect.Select].  The model is a transition
    system: an event is the arrival of a reply at a goroutine, the choice of a ready
    channel by the select, or the timer.  Goroutines whose phase is over still mark
    their node when the reply comes, and then wait for ever. *)
From S2P Require Import Prelude DhtId NodeStateArray KBuckets DhtMessage.

(** Which of the two APIs runs: they share the phases and differ in what they do with a
    reply, in their result, and in the timer of the round. *)
Inductive mode := NodeMode | ValueMode.

Inductive result :=
  | RNodes (closest : list NodeState)
  | RFound (data : bytes)
  | RNotFound.

Inductive phase := Round | Final.

(** The main goroutine inside the [for] loop of a phase. *)
Record waiting := mkWaiting {
  w_phase : phase;
  w_tag : nat;                (* which phase of this lookup, counted from 0 *)
  w_total : nat;              (* len(closestNodes), len(unqueried) *)
  w_ready : list Message;     (* replies offered on the channels of this phase *)
  w_answered : nat;
  w_closer : bool
}.

Inductive status :=
  | Waiting (w : waiting)
  | Done (r : result)
  | Crashed (msg : string).

Record lookup := mkLookup {
  l_snsa : SafeNodeStateArray;
  l_inflight : list (nat * NodeState);   (* goroutines waiting for a reply, with their phase *)
  l_next : nat;                          (* tag of the next phase *)
  l_status : status
}.

Inductive event :=
  | EvReply (i : nat) (msg : Message)   (* a reply reaches the i-th waiting goroutine *)
  | EvSelect (i : nat)                  (* the select receives the i-th ready reply *)
  | EvTimeout.                          (* the select receives from the ticker *)

Section lookup.
Context (md : mode) (me : TypeID).

(** The round of [LookupNodes] stops its ticker right after creating it
    ([t.Stop()] where the other three phases have [defer t.Stop()]). *)
Definition timer_runs (ph : phase) : bool :=
  match md, ph with NodeMode, Round => false | _, _ => true end.

Definition setQueriedAll (s : SafeNodeStateArray) (l : list NodeState) : SafeNodeStateArray :=
  foldl SetQueried s l.

(** Starting the goroutines of a phase on the nodes [l]; [r] is returned when [l] is
    empty, since the [for] loop is then not entered. *)
Definition start_phase (ph : phase) (l : list NodeState) (r : result) (lk : lookup) : lookup :=
  mkLookup (setQueriedAll (l_snsa lk) l)
    (l_inflight lk ++ ((fun n => (l_next lk, n)) <$> l))
    (S (l_next lk))
    (match l with
     | [] => Done r
     | _ => Waiting (mkWaiting ph (l_next lk) (length l) [] 0 false)
     end).

Definition no_result : result := match md with NodeMode => RNodes [] | ValueMode => RNotFound end.

Definition lookupRound (lk : lookup) : lookup :=
  start_phase Round (GetAlphaUnqueried (l_snsa lk) 3) no_result lk.

Definition lookupFinalPhase (lk : lookup) : lookup :=
  let '(unq, closest) := GetKClosestUnqueried (l_snsa lk) (Z.of_nat bucketSize) in
  start_phase Final unq (match md with NodeMode => RNodes closest | ValueMode => RNotFound end) lk.

(** The end of a phase: another round when the last processed reply brought a closer
    node, the final phase otherwise. *)
Definition next_phase (closer : bool) (lk : lookup) : lookup :=
  if closer then lookupRound lk else lookupFinalPhase lk.

Definition set_status (lk : lookup) (st : status) : lookup :=
  mkLookup (l_snsa lk) (l_inflight lk) (l_next lk) st.

(** A goroutine receives its reply.  [lookupSingle] reads [v.NodeReply.NodeStates] before
    sending and panics on a message of another kind; [lookupSingleValue] forwards the
    message as it is. *)
Definition reply_step (i : nat) (msg : Message) (lk : lookup) : option lookup :=
  match l_inflight lk !! i with
  | None => None
  | Some (tag, n) =>
      let lk' := mkLookup (SetResponded (l_snsa lk) n) (delete i (l_inflight lk)) (l_next lk)
                   (l_status lk) in
      match md, m_NodeReply msg with
      | NodeMode, None => Some (set_status lk' (Crashed "nil pointer dereference"))
      | _, _ =>
          match l_status lk with
          | Waiting w =>
              if decide (tag = w_tag w)
              then Some (set_status lk' (Waiting (mkWaiting (w_phase w) (w_tag w) (w_total w)
                           (w_ready w ++ [msg]) (w_answered w) (w_closer w))))
              else Some lk'
          | _ => Some lk'
          end
      end
  end.

(** [nodes] reach the array; the phase goes on or ends. *)
Definition absorb (nodes : list NodeState) (w : waiting) (i : nat) (lk : lookup) : lookup :=
  let '(s', closer) := InsertArray (l_snsa lk) nodes me in
  let lk' := mkLookup s' (l_inflight lk) (l_next lk) (l_status lk) in
  if decide (S (w_answered w) = w_total w) then next_phase closer lk'
  else set_status lk' (Waiting (mkWaiting (w_phase w) (w_tag w) (w_total w)
         (delete i (w_ready w)) (S (w_answered w)) closer)).

Definition select_step (i : nat) (lk : lookup) : option lookup :=
  match l_status lk with
  | Waiting w =>
      match w_ready w !! i with
      | None => None
      | Some msg =>
          match md with
          | NodeMode =>
              match m_NodeReply msg with
              | Some r => Some (absorb (nr_NodeStates r) w i lk)
              | None => None
              end
          | ValueMode =>
              match m_ValueReply msg with
              | None => Some (set_status lk (Crashed "nil pointer dereference"))
              | Some r =>
                  match vr_Data r, vr_NodeStates r with
                  | Some data, _ => Some (set_status lk (Done (RFound data)))
                  | None, Some nodes => Some (absorb nodes w i lk)
                  | None, None => Some (set_status lk (Crashed "nil pointer dereference"))
                  end
              end
          end
      end
  | _ => None
  end.

Definition timeout_step (lk : lookup) : option lookup :=
  match l_status lk with
  | Waiting w => if timer_runs (w_phase w) then Some (next_phase (w_closer w) lk) else None
  | _ => None
  end.

(** One step; [None] when the event cannot occur. *)
Definition step (lk : lookup) (e : event) : option lookup :=
  match l_status lk with
  | Crashed _ => None
  | _ =>
      match e with
      | EvReply i msg => reply_step i msg lk
      | EvSelect i => select_step i lk
      | EvTimeout => timeout_step lk
      end
  end.

Fixpoint run (lk : lookup) (es : list event) : option lookup :=
  match es with
  | [] => Some lk
  | e :: rest => match step lk e with Some lk' => run lk' rest | None => None end
  end.

(** The beginning of [LookupNodes] and [LookupValue] (after the local database). *)
Definition lookup_start (bt : bucketTable) (id : TypeID) : lookup :=
  let results := alphaClosest bt id 3 in
  let s := (InsertArray (NewSafeNodeStateArray id) results me).1 in
  lookupRound (mkLookup s [] 0 (Done no_result)).

(** The end of [LookupNodes]: the own node is put in place and the list cut. *)
Definition LookupNodes_finish (id : TypeID) (address : string) (closest : list NodeState)
    : list NodeState :=
  let l := InsertOrdered id closest (mkNodeState me address) in
  if (bucketSize <? length l)%nat then take bucketSize l else l.
End lookup.

(** ** Well-formed lookups

    [U] is the set of identifiers of the network: every node that a table or a reply
    names is one of them. *)
Section invariant.
Context (md : mode) (me : TypeID) (U : list TypeID).

Definition nodes_ok (l : list NodeState) : Prop :=
  Forall wf_node l /\ Forall (fun id => id ∈ U) (ids l).
Definition msg_ok (msg : Message) : Prop :=
  (forall r, m_NodeReply msg = Some r -> nodes_ok (nr_NodeStates r)) /\
  (forall r l, m_ValueReply msg = Some r -> vr_NodeStates r = Some l -> nodes_ok l).
Definition event_ok (e : event) : Prop :=
  match e with EvReply _ msg => msg_ok msg | _ => True end.

Definition pending (tag : nat) (l : list (nat * NodeState)) : nat :=
  length (filter (fun p => p.1 = tag) l).

Record wait_ok (lk : lookup) (w : waiting) : Prop := {
  wo_tag : (w_tag w < l_next lk)%nat;
  wo_count : (pending (w_tag w) (l_inflight lk) + length (w_ready w) + w_answered w = w_total w)%nat;
  wo_open : (w_answered w < w_total w)%nat;
  wo_msgs : Forall msg_ok (w_ready w);
  wo_closer : w_closer w = true -> exists n, n ∈ array (l_snsa lk) /\ unqueried (l_snsa lk) n;
  wo_reply : md = NodeMode -> Forall (fun msg => is_Some (m_NodeReply msg)) (w_ready w)
}.

Record base_ok (lk : lookup) : Prop := {
  bk_snsa : snsa_ok (l_snsa lk);
  bk_ids : Forall (fun id => id ∈ U) (ids (array (l_snsa lk)));
  bk_queried : forall id, flag (Queried (l_snsa lk)) id = true -> id ∈ ids (array (l_snsa lk));
  bk_tags : Forall (fun p => (p.1 < l_next lk)%nat) (l_inflight lk)
}.
Definition lk_ok (lk : lookup) : Prop :=
  base_ok lk /\ match l_status lk with Waiting w => wait_ok lk w | _ => True end.

(** Counting the identifiers of the network that were not queried yet. *)
Definition fresh_count (q : gmap TypeID bool) : nat :=
  length (filter (fun id => flag q id = false) U).
Definition base (lk : lookup) : nat :=
  (3 * fresh_count (Queried (l_snsa lk)) + 2 * length (l_inflight lk))%nat.
Definition measure (lk : lookup) : nat :=
  (base lk + match l_status lk with Waiting w => S (length (w_ready w)) | _ => 0 end)%nat.

Lemma flag_insert_ne q id id' : id <> id' -> flag (<[id := true]> q) id' = flag q id'.
Proof. intros. unfold flag. by rewrite lookup_insert_ne. Qed.

Lemma fresh_count_insert q id :
  id ∈ U -> flag q id = false -> (fresh_count (<[id := true]> q) < fresh_count q)%nat.
Proof.
  intros Hin Hq. unfold fresh_count. induction U as [|x l IH]; [set_solver |].
  rewrite !filter_cons.
  assert (Hle : (length (filter (fun id0 => flag (<[id:=true]> q) id0 = false) l)
    <= length (filter (fun id0 => flag q id0 = false) l))%nat).
  { clear. induction l as [|y l IH]; [done |]. rewrite !filter_cons.
    destruct (decide (id = y)) as [->|Hne].
    - rewrite decide_False by (rewrite (proj2 (flag_insert _ _ _)); auto).
      destruct (decide _); simpl; lia.
    - rewrite flag_insert_ne by done. destruct (decide _); simpl; lia. }
  destruct (decide (id = x)) as [->|Hne].
  - rewrite decide_False by (rewrite (proj2 (flag_insert _ _ _)); auto).
    rewrite decide_True by done. simpl. lia.
  - apply elem_of_cons in Hin as [?|Hin]; [done |]. specialize (IH Hin).
    rewrite flag_insert_ne by done. destruct (decide _); simpl; lia.
Qed.

Lemma setQueriedAll_frame s l :
  array (setQueriedAll s l) = array s /\ Target (setQueriedAll s l) = Target s /\
  Responded (setQueriedAll s l) = Responded s /\ exists_ (setQueriedAll s l) = exists_ s.
Proof. revert s. induction l as [|n l IH]; intros s; [done |]. apply (IH (SetQueried s n)). Qed.

Lemma setQueriedAll_ok s l : snsa_ok s -> snsa_ok (setQueriedAll s l).
Proof. revert s. induction l; intros s Hs; simpl; auto using SetQueried_ok. Qed.

Lemma setQueriedAll_flag s l id :
  flag (Queried (setQueriedAll s l)) id = true -> flag (Queried s) id = true \/ id ∈ ids l.
Proof.
  revert s. induction l as [|n l IH]; intros s; simpl; [by left |].
  intros [Hf|Hin]%IH; [| right; set_solver]. simpl in Hf.
  apply flag_insert in Hf as [->|?]; [right; set_solver | by left].
Qed.

Lemma fresh_count_setQueriedAll s l :
  NoDup (ids l) -> Forall (fun n => unqueried s n) l -> Forall (fun id => id ∈ U) (ids l) ->
  (fresh_count (Queried (setQueriedAll s l)) + length l <= fresh_count (Queried s))%nat.
Proof.
  revert s. induction l as [|n l IH]; intros s Hd Hq Hu; simpl; [lia |].
  unfold ids in *. rewrite fmap_cons, NoDup_cons in Hd. destruct Hd as [Hn Hd].
  inversion Hq as [|?? Hqn Hql]; inversion Hu as [|?? Hun Hul]; subst.
  specialize (IH (SetQueried s n) Hd). unfold unqueried, wasQueried in Hqn.
  pose proof (fresh_count_insert (Queried s) (NodeID n) Hun) as Hlt.
  destruct (flag (Queried s) (NodeID n)) eqn:E; [done |]. specialize (Hlt eq_refl).
  assert (Hrest : Forall (fun m => unqueried (SetQueried s n) m) l).
  { apply Forall_forall. intros m Hm. rewrite Forall_forall in Hql. specialize (Hql m Hm).
    unfold unqueried, wasQueried in *. simpl. rewrite flag_insert_ne; [done |].
    intros Heq. apply Hn. rewrite Heq. by apply list_elem_of_fmap_2. }
  specialize (IH Hrest Hul). simpl in IH. lia.
Qed.

(** ** A phase on a selection of unqueried nodes of the array *)
Definition selection (s : SafeNodeStateArray) (l : list NodeState) : Prop :=
  l `sublist_of` array s /\ Forall (fun n => unqueried s n) l.

Lemma alpha_selection s : selection s (GetAlphaUnqueried s 3).
Proof.
  unfold GetAlphaUnqueried. rewrite GetAlphaUnqueried_loop_spec by lia. split.
  - etrans; [apply sublist_take | apply sublist_filter].
  - apply Forall_take, Forall_forall. by intros n [? _]%list_elem_of_filter.
Qed.

Lemma final_selection s k : 0 < k -> selection s (GetKClosestUnqueried s k).1.
Proof.
  intros Hk. unfold GetKClosestUnqueried. rewrite GetKClosestUnqueried_loop_spec by done. simpl. split.
  - etrans; [apply sublist_filter |]. etrans; [apply sublist_take | apply sublist_filter].
  - apply Forall_forall. intros n [Hr Hn]%list_elem_of_filter.
    assert (Hf : n ∈ filter (fun n => usable s n) (array s))
      by (eapply elem_of_sublist; [exact Hn | apply sublist_take]).
    clear Hn. rename Hf into Hn.
    apply list_elem_of_filter in Hn as [Hu _]. unfold usable in Hu.
    destruct (hasResponded s n), (unqueried s n); done.
Qed.

Lemma pending_app t l1 l2 : pending t (l1 ++ l2) = (pending t l1 + pending t l2)%nat.
Proof. unfold pending. by rewrite filter_app, length_app. Qed.

Lemma pending_fresh t l : Forall (fun p => (p.1 < t)%nat) l -> pending t l = 0%nat.
Proof.
  intros Hl. unfold pending. induction Hl as [|p l Hp _ IH]; [done |].
  rewrite filter_cons_False by lia. exact IH.
Qed.

Lemma pending_new t (l : list NodeState) : pending t ((fun n => (t, n)) <$> l) = length l.
Proof.
  unfold pending. induction l as [|n l IH]; [done |]. rewrite fmap_cons, filter_cons_True by done.
  simpl. by rewrite IH.
Qed.

Lemma start_phase_ok ph l r lk :
  base_ok lk -> selection (l_snsa lk) l ->
  lk_ok (start_phase ph l r lk) /\ (measure (start_phase ph l r lk) <= base lk)%nat.
Proof.
  intros [Hs Hi Hq Ht] [Hsub Hunq]. destruct (setQueriedAll_frame (l_snsa lk) l) as (Ea & _).
  assert (Hids : ids l `sublist_of` ids (array (l_snsa lk))) by (by apply fmap_sublist).
  split.
  - split; [split; simpl |].
    + by apply setQueriedAll_ok.
    + by rewrite Ea.
    + rewrite Ea. intros id [Hf|Hin]%setQueriedAll_flag; [by apply Hq |].
      by eapply elem_of_sublist.
    + apply Forall_app. split; [eapply Forall_impl; [exact Ht |]; simpl; lia |].
      apply Forall_fmap, Forall_forall. simpl. lia.
    + simpl. destruct l as [|n l'] eqn:El; [done |]. rewrite <-El in *.
      split; simpl; [lia | | | constructor | done | constructor].
      * rewrite pending_app, pending_fresh, pending_new by done. simpl. lia.
      * rewrite El. simpl. lia.
  - pose proof (fresh_count_setQueriedAll (l_snsa lk) l) as Hc.
    specialize (Hc ltac:(eapply sublist_NoDup; [apply (ok_nodup _ Hs) | done]) Hunq).
    assert (Forall (fun id => id ∈ U) (ids l)) as Hul.
    { apply Forall_forall. intros id Hid. rewrite Forall_forall in Hi. apply Hi.
      by eapply elem_of_sublist. }
    specialize (Hc Hul). unfold measure, base, start_phase.
    cbn [l_snsa l_inflight l_status]. rewrite length_app, length_fmap.
    destruct l; simpl in *; lia.
Qed.

Lemma lookupRound_ok lk :
  base_ok lk -> lk_ok (lookupRound md lk) /\ (measure (lookupRound md lk) <= base lk)%nat.
Proof. intros. apply start_phase_ok; [done | apply alpha_selection]. Qed.

Lemma lookupFinalPhase_ok lk :
  base_ok lk -> lk_ok (lookupFinalPhase md lk) /\ (measure (lookupFinalPhase md lk) <= base lk)%nat.
Proof.
  intros. unfold lookupFinalPhase.
  pose proof (final_selection (l_snsa lk) (Z.of_nat bucketSize) ltac:(done)) as Hsel.
  destruct (GetKClosestUnqueried _ _) as [unq closest]. by apply start_phase_ok.
Qed.

Lemma next_phase_ok c lk :
  base_ok lk -> lk_ok (next_phase md c lk) /\ (measure (next_phase md c lk) <= base lk)%nat.
Proof. destruct c; [apply lookupRound_ok | apply lookupFinalPhase_ok]. Qed.

(** ** Every step keeps the invariant and makes progress *)
Lemma pending_delete t (l : list (nat * NodeState)) i p :
  l !! i = Some p ->
  pending t l = ((if decide (p.1 = t) then 1 else 0) + pending t (delete i l))%nat.
Proof.
  intros Hi. apply list_elem_of_split_length in Hi as (l1 & l2 & -> & ->).
  rewrite delete_middle, !pending_app. unfold pending at 2. rewrite filter_cons.
  destruct (decide (p.1 = t)); simpl; unfold pending; lia.
Qed.

Lemma reply_step_ok i msg lk lk' :
  lk_ok lk -> msg_ok msg -> reply_step md i msg lk = Some lk' ->
  lk_ok lk' /\ (measure lk' < measure lk)%nat.
Proof.
  intros [[Hs Hi Hq Ht] Hw] Hm. unfold reply_step.
  destruct (l_inflight lk !! i) as [[tag n]|] eqn:Ei; [| done].
  pose proof (length_delete _ i (mk_is_Some _ _ Ei)) as Hlen.
  pose proof (lookup_lt_Some _ _ _ Ei) as Hlt.
  assert (Hb : forall st, base_ok (mkLookup (SetResponded (l_snsa lk) n)
    (delete i (l_inflight lk)) (l_next lk) st)).
  { intros st. split; simpl; [by apply SetResponded_ok | done | done |]. by apply Forall_delete. }
  assert (Hbase : forall st, (base (mkLookup (SetResponded (l_snsa lk) n)
    (delete i (l_inflight lk)) (l_next lk) st) + 2 <= base lk)%nat).
  { intros st. unfold base. simpl. lia. }
  intros Hstep.
  assert (Hcase : lk' = mkLookup (SetResponded (l_snsa lk) n) (delete i (l_inflight lk))
             (l_next lk) (l_status lk') /\
     match l_status lk' with
     | Waiting w' => exists w, l_status lk = Waiting w /\ (md = NodeMode -> is_Some (m_NodeReply msg)) /\
         w' = (if decide (tag = w_tag w) then mkWaiting (w_phase w) (w_tag w) (w_total w)
                  (w_ready w ++ [msg]) (w_answered w) (w_closer w) else w)
     | _ => True end).
  { revert Hstep. unfold set_status. destruct md, (m_NodeReply msg), (l_status lk) as [w| |];
      try (destruct (decide (tag = w_tag w)) as [Et|Et] eqn:Ed); intros [= <-]; simpl;
      (split; [done |]); try done; exists w; rewrite ?Ed; split_and!; try done; eauto. }
  clear Hstep. destruct Hcase as [-> Hst]. simpl.
  destruct (l_status lk') as [w'| |].
  2,3: split; [split; [apply Hb | done] |]; unfold measure; simpl;
    match goal with |- context [base ?x] => pose proof (Hbase (l_status x)); simpl in * end; lia.
  destruct Hst as (w & Ew & Hr & ->). rewrite Ew in Hw. destruct Hw as [W1 W2 W3 W4 W6 W5].
  pose proof (pending_delete (w_tag w) _ _ _ Ei) as Hp. simpl in Hp.
  unfold measure. rewrite Ew. simpl.
  match goal with |- context [base ?x] => pose proof (Hbase (l_status x)); simpl in * end.
  destruct (decide (tag = w_tag w)) as [->|Hne]; simpl; rewrite ?length_app; simpl.
  - split; [| lia]. split; [apply Hb |]. simpl.
    split; simpl; [done | rewrite length_app; simpl; lia | done | | done |].
    + apply Forall_app; split; [done | by constructor].
    + intros E. apply Forall_app; split; [by apply W5 | constructor; [by apply Hr | done]].
  - split; [| lia]. split; [apply Hb |]. simpl. split; simpl; try done; lia.
Qed.

Lemma absorb_closer s nodes :
  Forall wf_node nodes -> snsa_ok s ->
  (forall id, flag (Queried s) id = true -> id ∈ ids (array s)) ->
  let '(s', closer) := InsertArray s nodes me in
  closer = true -> exists n, n ∈ array s' /\ unqueried s' n.
Proof.
  intros Hn Hs Hq. pose proof (InsertArray_closer_new s nodes me Hn Hs) as H.
  pose proof (InsertArray_frame s nodes me) as (_ & Hf & _).
  destruct (InsertArray s nodes me) as [s' c]. simpl in *. intros ->.
  destruct (H eq_refl) as (n & Hin & Hnew). exists n. split; [done |].
  unfold unqueried, wasQueried. rewrite Hf. destruct (flag (Queried s) (NodeID n)) eqn:E; [| done].
  exfalso. by apply Hnew, Hq.
Qed.

Lemma absorb_ok nodes w i lk :
  lk_ok lk -> l_status lk = Waiting w -> nodes_ok nodes -> (i < length (w_ready w))%nat ->
  lk_ok (absorb md me nodes w i lk) /\ (measure (absorb md me nodes w i lk) < measure lk)%nat.
Proof.
  intros [[Hs Hi Hq Ht] Hw] Ew [Hn Hu] Hlt. rewrite Ew in Hw. unfold absorb.
  pose proof (InsertArray_ok _ nodes me Hn Hs) as Hs'.
  pose proof (InsertArray_frame (l_snsa lk) nodes me) as (Hf1 & Hf2 & Hf3).
  assert (Hi' : Forall (fun id => id ∈ U) (ids (array (InsertArray (l_snsa lk) nodes me).1))).
  { apply Forall_forall. intros id Hid. rewrite Forall_forall in Hi, Hu.
    destruct (InsertArray_ids _ _ _ _ Hn Hs Hid); auto. }
  pose proof (fun id => InsertArray_mono (l_snsa lk) nodes me id Hn Hs) as Hmono.
  pose proof (absorb_closer (l_snsa lk) nodes Hn Hs Hq) as Hnew.
  destruct (InsertArray (l_snsa lk) nodes me) as [s' closer]. simpl in *.
  assert (Hb : forall st, base_ok (mkLookup s' (l_inflight lk) (l_next lk) st)).
  { intros st. split; simpl; [done | done | | done]. rewrite Hf2. auto. }
  assert (Eb : forall st, base (mkLookup s' (l_inflight lk) (l_next lk) st) = base lk).
  { intros. unfold base. simpl. congruence. }
  assert (Hm : measure lk = (base lk + S (length (w_ready w)))%nat) by (unfold measure; by rewrite Ew).
  rewrite Hm. destruct Hw as [W1 W2 W3 W4 W6 W5].
  destruct (decide (S (w_answered w) = w_total w)) as [E|E].
  - destruct (next_phase_ok closer _ (Hb (l_status lk))) as [H1 H2]. rewrite Eb in H2.
    split; [done | lia].
  - pose proof (length_delete (w_ready w) i (lookup_lt_is_Some_2 _ _ Hlt)) as Hl.
    split; [split; [apply Hb |] |]; unfold set_status; simpl.
    + split; simpl; [done | lia | lia | by apply Forall_delete | done |].
      intros Em. by apply Forall_delete, W5.
    + unfold measure. simpl. rewrite Eb, Hl. lia.
Qed.

Lemma set_status_end_ok lk st :
  lk_ok lk -> (forall w, st <> Waiting w) -> (0 < measure lk - base lk)%nat ->
  lk_ok (set_status lk st) /\ (measure (set_status lk st) < measure lk)%nat.
Proof.
  intros [[Hs Hi Hq Ht] _] Hst Hm. split.
  - split; [by split |]. simpl. destruct st; [by edestruct Hst | done | done].
  - unfold measure at 1. unfold base at 1. simpl. unfold base in Hm.
    destruct st; [by edestruct Hst | |]; lia.
Qed.

Lemma select_step_ok i lk lk' :
  lk_ok lk -> select_step md me i lk = Some lk' -> lk_ok lk' /\ (measure lk' < measure lk)%nat.
Proof.
  intros Hlk. unfold select_step. destruct (l_status lk) as [w| |] eqn:Ew; try done.
  destruct (w_ready w !! i) as [msg|] eqn:Ei; [| done].
  pose proof (lookup_lt_Some _ _ _ Ei) as Hlt.
  assert (Hm : msg_ok msg).
  { destruct Hlk as [_ Hw]. rewrite Ew in Hw. eapply Forall_lookup_1; [apply (wo_msgs _ _ Hw) | done]. }
  assert (0 < measure lk - base lk)%nat by (unfold measure; rewrite Ew; lia).
  destruct Hm as [Hm1 Hm2]. destruct md eqn:Emd.
  - destruct (m_NodeReply msg) as [r|]; [| done]. intros [= <-].
    rewrite <-Emd. apply absorb_ok; auto.
  - destruct (m_ValueReply msg) as [r|]; [destruct (vr_Data r); [|destruct (vr_NodeStates r) eqn:En] |];
      intros [= <-]; try (by apply set_status_end_ok).
    rewrite <-Emd. apply absorb_ok; eauto.
Qed.

Lemma timeout_step_ok lk lk' :
  lk_ok lk -> timeout_step md lk = Some lk' -> lk_ok lk' /\ (measure lk' < measure lk)%nat.
Proof.
  intros [Hb _]. unfold timeout_step. destruct (l_status lk) as [w| |] eqn:Ew; try done.
  destruct (timer_runs md (w_phase w)); [| done]. intros [= <-].
  destruct (next_phase_ok (w_closer w) lk Hb) as [H1 H2]. split; [done |].
  unfold measure at 2. rewrite Ew. lia.
Qed.

Lemma step_ok lk e lk' :
  lk_ok lk -> event_ok e -> step md me lk e = Some lk' -> lk_ok lk' /\ (measure lk' < measure lk)%nat.
Proof.
  unfold step. intros Hlk He. destruct (l_status lk) eqn:Es; try done;
    destruct e; eauto using reply_step_ok, select_step_ok, timeout_step_ok.
Qed.

Lemma run_ok es lk lk' :
  lk_ok lk -> Forall event_ok es -> run md me lk es = Some lk' ->
  lk_ok lk' /\ (measure lk' + length es <= measure lk)%nat.
Proof.
  revert lk. induction es as [|e es IH]; intros lk Hlk Hes; simpl.
  { intros [= ->]. split; [done | lia]. }
  inversion Hes; subst. destruct (step md me lk e) as [lk1|] eqn:Es; [| done]. intros Hr.
  destruct (step_ok _ _ _ Hlk ltac:(done) Es) as [Hlk1 ?].
  destruct (IH _ Hlk1 ltac:(done) Hr). split; [done | lia].
Qed.

Lemma run_snoc es e lk :
  run md me lk (es ++ [e]) = run md me lk es ≫= fun lk' => step md me lk' e.
Proof.
  revert lk. induction es as [|e' es IH]; intros lk; simpl; [by destruct (step _ _ _ _) |].
  by destruct (step md me lk e') as [lk1|]; simpl.
Qed.

(** ** Where a lookup ends *)
Definition best (s : SafeNodeStateArray) : list NodeState :=
  take bucketSize (filter (fun n => usable s n) (array s)).

Definition final_result (s : SafeNodeStateArray) : result :=
  match md with NodeMode => RNodes (best s) | ValueMode => RNotFound end.

Lemma lookupRound_waits lk r :
  (exists n, n ∈ array (l_snsa lk) /\ unqueried (l_snsa lk) n) ->
  l_status (lookupRound md lk) <> Done r.
Proof.
  intros (n & Hin & Hn). unfold lookupRound, start_phase, GetAlphaUnqueried.
  rewrite GetAlphaUnqueried_loop_spec by lia. simpl.
  assert (Hf : n ∈ filter (fun m => unqueried (l_snsa lk) m) (array (l_snsa lk)))
    by (by apply list_elem_of_filter).
  destruct (filter _ _); [set_solver |]. done.
Qed.

Lemma lookupFinalPhase_done lk r :
  l_status (lookupFinalPhase md lk) = Done r ->
  let s := l_snsa lk in
  l_snsa (lookupFinalPhase md lk) = s /\ Forall (fun n => hasResponded s n) (best s) /\
  r = final_result s.
Proof.
  unfold lookupFinalPhase, GetKClosestUnqueried.
  rewrite GetKClosestUnqueried_loop_spec by done. rewrite Nat2Z.id. cbv zeta. fold (best (l_snsa lk)).
  destruct (filter (fun n => negb _) (best (l_snsa lk))) as [|x l] eqn:El; simpl; [| done].
  intros [= <-]. split; [done |].
  assert (Hall : Forall (fun n => hasResponded (l_snsa lk) n) (best (l_snsa lk))).
  { apply Forall_forall. intros n Hn. destruct (hasResponded (l_snsa lk) n) eqn:E; [done |].
    assert (Hin : n ∈ filter (fun n => negb (hasResponded (l_snsa lk) n)) (best (l_snsa lk)))
      by (apply list_elem_of_filter; split; [by rewrite E | done]).
    rewrite El in Hin. set_solver. }
  split; [done |]. unfold final_result. destruct md; [| done]. f_equal.
  clear El. induction Hall as [|n l Hn Hl IH]; [done |]. rewrite filter_cons_True by done. by rewrite IH.
Qed.

(** A step that ends the lookup without a value ends its final phase. *)
Lemma done_step lk e lk' r w :
  lk_ok lk -> l_status lk = Waiting w -> step md me lk e = Some lk' -> l_status lk' = Done r ->
  (exists data, r = RFound data) \/
  (Forall (fun n => hasResponded (l_snsa lk') n) (best (l_snsa lk')) /\
   r = final_result (l_snsa lk')).
Proof.
  intros [[Hs Hi Hq Ht] Hw] Ew. rewrite Ew in Hw. unfold step. rewrite Ew.
  assert (Hnext : forall c lk1, (c = true -> exists n, n ∈ array (l_snsa lk1) /\ unqueried (l_snsa lk1) n) ->
    l_status (next_phase md c lk1) = Done r ->
    Forall (fun n => hasResponded (l_snsa (next_phase md c lk1)) n)
      (best (l_snsa (next_phase md c lk1))) /\ r = final_result (l_snsa (next_phase md c lk1))).
  { intros [] lk1 Hc; simpl; [by intros ?%lookupRound_waits; auto |].
    intros (-> & ? & ?)%lookupFinalPhase_done. done. }
  assert (Habs : forall nodes i, nodes_ok nodes -> l_status (absorb md me nodes w i lk) = Done r ->
    Forall (fun n => hasResponded (l_snsa (absorb md me nodes w i lk)) n)
      (best (l_snsa (absorb md me nodes w i lk))) /\
    r = final_result (l_snsa (absorb md me nodes w i lk))).
  { intros nodes i [Hn _]. unfold absorb.
    pose proof (absorb_closer (l_snsa lk) nodes Hn Hs Hq) as Hnew.
    destruct (InsertArray (l_snsa lk) nodes me) as [s' closer].
    destruct (decide _); [by apply Hnext | done]. }
  destruct e as [i msg|i|]; simpl.
  - unfold reply_step. destruct (l_inflight lk !! i) as [[tag n]|]; [| done].
    rewrite Ew. destruct md, (m_NodeReply msg); try destruct (decide _); intros [= <-]; simpl;
      congruence.
  - unfold select_step. rewrite Ew. destruct (w_ready w !! i) as [msg|] eqn:Ei; [| done].
    destruct (Forall_lookup_1 _ _ _ _ (wo_msgs _ _ Hw) Ei) as [Hm1 Hm2].
    destruct md eqn:Emd; rewrite <-Emd in *.
    + destruct (m_NodeReply msg) as [nr|] eqn:E; [| done]. intros [= <-] Hd. right. eauto.
    + destruct (m_ValueReply msg) as [vr|]; [| by intros [= <-]].
      destruct (vr_Data vr) as [data|]; [intros [= <-] [= <-]; eauto |].
      destruct (vr_NodeStates vr) eqn:E; [| by intros [= <-]]. intros [= <-] Hd. right. eauto.
  - unfold timeout_step. rewrite Ew. destruct (timer_runs _ _); [| done]. intros [= <-] Hd. right.
    apply Hnext; [| done]. apply (wo_closer _ _ Hw).
Qed.
End invariant.

(** ** The beginning of a lookup *)
Lemma alphaClosest_nodes_ok bt t alpha U :
  table_ok bt -> Forall (fun id => id ∈ U) (ids (all_nodes bt)) ->
  nodes_ok U (alphaClosest bt t alpha).
Proof.
  intros Hok Hu. rewrite alphaClosest_foldl.
  destruct (alphaClosest_fold_inv t alpha (all_nodes bt) []) as [_ Hs]; [simpl; lia |].
  simpl in Hs. apply submseteq_Permutation in Hs as [k Hk]. split.
  - pose proof (all_nodes_wf bt Hok) as Hw. rewrite Hk in Hw. by apply Forall_app in Hw as [? _].
  - unfold ids in *. rewrite Hk, fmap_app in Hu. by apply Forall_app in Hu as [? _].
Qed.

Lemma length_filter_le {A} (P : A -> Prop) `{!forall x, Decision (P x)} (l : list A) :
  (length (filter P l) <= length l)%nat.
Proof. induction l; [done |]. rewrite filter_cons. destruct (decide _); simpl; lia. Qed.

Lemma lookup_start_ok md me U bt id :
  wf_id id -> table_ok bt -> Forall (fun i => i ∈ U) (ids (all_nodes bt)) ->
  lk_ok md U (lookup_start md me bt id) /\
  (measure U (lookup_start md me bt id) <= 3 * length U)%nat.
Proof.
  intros Hid Hbt Hu. unfold lookup_start. destruct (alphaClosest_nodes_ok bt id 3 U Hbt Hu) as [Hw Hin].
  pose proof (InsertArray_ok (NewSafeNodeStateArray id) _ me Hw (NewSafeNodeStateArray_ok id Hid)) as Hs.
  pose proof (InsertArray_frame (NewSafeNodeStateArray id) (alphaClosest bt id 3) me) as (_ & Hq & _).
  pose proof (fun i => InsertArray_ids (NewSafeNodeStateArray id) _ me i Hw (NewSafeNodeStateArray_ok id Hid)) as Hi.
  destruct (InsertArray _ _ _) as [s c]. simpl in *.
  destruct (lookupRound_ok md U (mkLookup s [] 0 (Done (no_result md)))) as [H1 H2].
  - split; simpl; [done | | | constructor].
    + apply Forall_forall. intros i Hx. rewrite Forall_forall in Hin. destruct (Hi i Hx); [set_solver |].
      by apply Hin.
    + intros i Hf. rewrite Hq in Hf. done.
  - split; [done |]. unfold base in H2. simpl in H2. unfold fresh_count in H2.
    pose proof (length_filter_le (fun i => flag (Queried s) i = false) U). lia.
Qed.

(** ** A round of [LookupNodes] with a missing reply *)
Definition in_round (t : nat) (lk : lookup) : Prop :=
  (exists w, l_status lk = Waiting w /\ w_phase w = Round /\ w_tag w = t) \/
  (exists msg, l_status lk = Crashed msg).

(** Later phases use later tags, so the goroutines of a phase only disappear. *)
Lemma pending_map t t' (l : list NodeState) :
  t <> t' -> pending t ((fun n => (t', n)) <$> l) = 0%nat.
Proof.
  intros. unfold pending. induction l as [|n l IH]; [done |].
  rewrite fmap_cons, filter_cons_False by (simpl; congruence). exact IH.
Qed.

Lemma next_phase_tags md c lk t :
  (t < l_next lk)%nat ->
  (l_next lk <= l_next (next_phase md c lk))%nat /\
  pending t (l_inflight (next_phase md c lk)) = pending t (l_inflight lk).
Proof.
  intros Ht. assert (Hs : forall ph l r, (l_next lk <= l_next (start_phase ph l r lk))%nat /\
    pending t (l_inflight (start_phase ph l r lk)) = pending t (l_inflight lk)).
  { intros. simpl. split; [lia |]. rewrite pending_app, pending_map by lia. lia. }
  unfold next_phase, lookupRound, lookupFinalPhase.
  destruct (GetKClosestUnqueried _ _), c; apply Hs.
Qed.

Lemma absorb_tags md me nodes w i lk t :
  (t < l_next lk)%nat ->
  (l_next lk <= l_next (absorb md me nodes w i lk))%nat /\
  pending t (l_inflight (absorb md me nodes w i lk)) = pending t (l_inflight lk).
Proof.
  intros Ht. unfold absorb. destruct (InsertArray _ _ _) as [s c].
  destruct (decide _); [by apply (next_phase_tags md c (mkLookup s _ _ _)) | done].
Qed.

Lemma step_tags md me lk e lk' t :
  step md me lk e = Some lk' -> (t < l_next lk)%nat ->
  (l_next lk <= l_next lk')%nat /\ (pending t (l_inflight lk') <= pending t (l_inflight lk))%nat.
Proof.
  intros Hstep Ht.
  assert (Hsame : forall l, l_next lk = l_next l -> l_inflight lk = l_inflight l ->
    (l_next lk <= l_next l)%nat /\ (pending t (l_inflight l) <= pending t (l_inflight lk))%nat)
    by (intros l -> ->; lia).
  assert (Habs : forall nodes w i, (l_next lk <= l_next (absorb md me nodes w i lk))%nat /\
    (pending t (l_inflight (absorb md me nodes w i lk)) <= pending t (l_inflight lk))%nat)
    by (intros nodes w i; destruct (absorb_tags md me nodes w i lk t Ht); lia).
  assert (Hwork : match e with EvReply i msg => reply_step md i msg lk
    | EvSelect i => select_step md me i lk | EvTimeout => timeout_step md lk end = Some lk')
    by (unfold step in Hstep; destruct (l_status lk); done).
  clear Hstep. destruct e as [i msg|i|].
  - revert Hwork. unfold reply_step. destruct (l_inflight lk !! i) as [[tag n]|] eqn:Ei; [| done].
    pose proof (pending_delete t _ _ _ Ei) as Hd.
    destruct md, (m_NodeReply msg), (l_status lk); try destruct (decide (tag = _)); intros [= <-];
      simpl in *; lia.
  - revert Hwork. unfold select_step. destruct (l_status lk) as [w| |]; try done.
    destruct (w_ready w !! i) as [msg|]; [| done].
    destruct md; [destruct (m_NodeReply msg) | destruct (m_ValueReply msg) as [r|];
      [destruct (vr_Data r); [| destruct (vr_NodeStates r)] |]]; intros [= <-]; auto.
  - revert Hwork. unfold timeout_step. destruct (l_status lk) as [w| |]; try done.
    destruct (timer_runs _ _); [| done]. intros [= <-].
    destruct (next_phase_tags md (w_closer w) lk t Ht). lia.
Qed.

Lemma run_next md me es lk lk' :
  run md me lk es = Some lk' -> forall t, (t < l_next lk)%nat -> (t < l_next lk')%nat.
Proof.
  revert lk. induction es as [|e es IH]; intros lk; simpl; [by intros [= ->] |].
  destruct (step md me lk e) as [lk1|] eqn:E; [| done]. intros Hr t Ht.
  apply (IH lk1 Hr). destruct (step_tags _ _ _ _ _ t E Ht). lia.
Qed.

Lemma round_step me U t lk e lk' :
  lk_ok NodeMode U lk -> in_round t lk -> step NodeMode me lk e = Some lk' ->
  (0 < pending t (l_inflight lk'))%nat ->
  (0 < pending t (l_inflight lk))%nat /\ in_round t lk'.
Proof.
  intros [[_ _ _ Ht] Hw] [(w & Ew & Eph & Et)|[msg Ec]]; [| by unfold step; rewrite Ec].
  rewrite Ew in Hw. unfold step. rewrite Ew. destruct e as [i msg|i|]; simpl.
  - unfold reply_step. destruct (l_inflight lk !! i) as [[tag n]|] eqn:Ei; [| done].
    pose proof (pending_delete t _ _ _ Ei) as Hd. rewrite Ew.
    destruct (m_NodeReply msg); try destruct (decide (tag = w_tag w)); intros [= <-] Hp; simpl in *;
      (split; [lia |]); try (by right; eauto); left; simpl; eauto.
  - unfold select_step. rewrite Ew. destruct (w_ready w !! i) as [msg|] eqn:Ei; [| done].
    destruct (m_NodeReply msg) as [r|]; [| done]. unfold absorb.
    destruct (InsertArray _ _ _) as [s c]. pose proof (wo_count _ _ _ _ Hw) as Hc. rewrite Et in Hc.
    pose proof (lookup_lt_Some _ _ _ Ei).
    destruct (decide (S (w_answered w) = w_total w)); intros [= <-].
    + intros Hp. exfalso.
      assert (Hz : pending t (l_inflight lk) = 0%nat) by lia.
      revert Hp. destruct (next_phase_tags NodeMode c (mkLookup s (l_inflight lk) (l_next lk) (l_status lk)) t) as [_ ->];
        [simpl; rewrite <-Et; apply (wo_tag _ _ _ _ Hw) |]. simpl. lia.
    + simpl. intros Hp. split; [done |]. left. simpl. eauto.
  - unfold timeout_step. rewrite Ew, Eph. done.
Qed.

Lemma round_stays me U w lk es lk' :
  lk_ok NodeMode U lk -> l_status lk = Waiting w -> w_phase w = Round -> Forall (event_ok U) es ->
  run NodeMode me lk es = Some lk' -> (0 < pending (w_tag w) (l_inflight lk'))%nat ->
  in_round (w_tag w) lk'.
Proof.
  intros Hok Ew Eph. revert lk'. induction es as [|e es IH] using rev_ind; intros lk' Hes Hr Hp.
  - injection Hr as <-. left. eauto.
  - apply Forall_app in Hes as [Hes He]. rewrite run_snoc in Hr.
    destruct (run NodeMode me lk es) as [lk1|] eqn:E1; [| done]. simpl in Hr.
    destruct (run_ok NodeMode me U es lk lk1 Hok Hes E1) as [Hok1 _].
    assert (Hin : (0 < pending (w_tag w) (l_inflight lk1))%nat -> in_round (w_tag w) lk1) by auto.
    destruct (decide (0 < pending (w_tag w) (l_inflight lk1))%nat) as [Hp1|Hn].
    + eapply (round_step me U _ lk1 e lk'); eauto.
    + exfalso. apply Hn. destruct Hok as [_ Hw]. rewrite Ew in Hw.
      destruct (step_tags _ _ _ _ _ (w_tag w) Hr); [| lia].
      by eapply run_next, (wo_tag _ _ _ _ Hw).
Qed.

(** ** Properties *)

(** C1. Termination: in a network of the identifiers [U], a lookup takes at most
    [3 * |U|] steps (replies, selections, time-outs), late replies included, for every
    order in which they happen. *)
Theorem lookup_terminates md me U bt id es lk :
  wf_id id -> table_ok bt -> Forall (fun i => i ∈ U) (ids (all_nodes bt)) ->
  Forall (event_ok U) es -> run md me (lookup_start md me bt id) es = Some lk ->
  (length es <= 3 * length U)%nat.
Proof.
  intros Hid Hbt Hu Hes Hr. destruct (lookup_start_ok md me U bt id Hid Hbt Hu) as [Hok Hm].
  destruct (run_ok md me U es _ lk Hok Hes Hr). lia.
Qed.

(** A network of the nodes 2, 3 and 6; node 0 knows 2 and 3, and node 3 answers 6 and 2. *)
Definition sample_bt : bucketTable :=
  updateNodes (fun _ => true) (newBucketTable zero_id) [sample_node 2; sample_node 3].
Definition sample_net : list TypeID := [sample_id 2; sample_id 3; sample_id 6].
Definition sample_start (md : mode) : lookup := lookup_start md zero_id sample_bt (sample_id 2).
Definition no_nodes : Message := newDHTNodeReply zero_id [] 1.
Definition more_nodes : Message := newDHTNodeReply zero_id [sample_node 6; sample_node 2] 1.
Definition first_events : list event := [EvReply 0 more_nodes; EvSelect 0].
Definition later_events : list event := [EvReply 0 no_nodes; EvSelect 0].
Definition sample_events : list event := first_events ++ later_events ++ [EvReply 0 no_nodes].

Lemma sample_bt_ok :
  table_ok sample_bt /\ Forall (fun i => i ∈ sample_net) (ids (all_nodes sample_bt)).
Proof.
  split.
  - apply updateNodes_ok; [repeat constructor; by apply (bool_decide_unpack _) |].
    apply newBucketTable_ok, wf_id_zero.
  - by apply (bool_decide_unpack _).
Qed.
Lemma no_nodes_ok : msg_ok sample_net no_nodes.
Proof. split; [intros r [= <-]; by split; constructor | done]. Qed.
Lemma more_nodes_ok : msg_ok sample_net more_nodes.
Proof.
  split; [| done]. intros r [= <-]. split.
  - repeat constructor; by apply (bool_decide_unpack _).
  - by apply (bool_decide_unpack _).
Qed.
Lemma sample_events_ok : Forall (event_ok sample_net) sample_events.
Proof.
  pose proof no_nodes_ok. pose proof more_nodes_ok. unfold sample_events.
  cbn [first_events later_events app].
  repeat (apply Forall_cons; split; [done |]). constructor.
Qed.
Lemma sample_start_ok md : lk_ok md sample_net (sample_start md).
Proof. destruct sample_bt_ok. apply lookup_start_ok; [by apply (bool_decide_unpack _) | done..]. Qed.

Lemma lookup_terminates_witness :
  exists lk, run NodeMode zero_id (sample_start NodeMode) sample_events = Some lk /\
    (length sample_events <= 3 * length sample_net)%nat.
Proof.
  destruct (run NodeMode zero_id (sample_start NodeMode) sample_events) as [lk|] eqn:E;
    [| vm_compute in E; discriminate].
  exists lk. split; [done |]. destruct sample_bt_ok.
  apply (lookup_terminates NodeMode zero_id sample_net sample_bt (sample_id 2) sample_events lk);
    [by apply (bool_decide_unpack _) | done | done | apply sample_events_ok | exact E].
Defined.

(** C36. Progress: a lookup that still waits can move on.  Either a reply is ready to be
    selected, or a goroutine of the current phase waits for its reply, and any reply that
    reaches it is a step. *)
Theorem lookup_progress md me U bt id es lk w :
  wf_id id -> table_ok bt -> Forall (fun i => i ∈ U) (ids (all_nodes bt)) ->
  Forall (event_ok U) es -> run md me (lookup_start md me bt id) es = Some lk ->
  l_status lk = Waiting w ->
  is_Some (step md me lk (EvSelect 0)) \/
  exists i n, l_inflight lk !! i = Some (w_tag w, n) /\
    forall msg, is_Some (step md me lk (EvReply i msg)).
Proof.
  intros Hid Hbt Hu Hes Hr Ew. destruct (lookup_start_ok md me U bt id Hid Hbt Hu) as [Hok _].
  destruct (run_ok md me U es _ lk Hok Hes Hr) as [[_ Hw] _]. rewrite Ew in Hw.
  destruct (w_ready w) as [|msg ready] eqn:Er.
  - right. pose proof (wo_count _ _ _ _ Hw) as Hc. pose proof (wo_open _ _ _ _ Hw) as Ho.
    rewrite Er in Hc. simpl in Hc.
    assert (Hex : exists i n, l_inflight lk !! i = Some (w_tag w, n)).
    { destruct (filter (fun p => p.1 = w_tag w) (l_inflight lk)) as [|[t n] l] eqn:Ef.
      { unfold pending in Hc. rewrite Ef in Hc. simpl in Hc. lia. }
      assert (Hin : (t, n) ∈ filter (fun p => p.1 = w_tag w) (l_inflight lk))
        by (rewrite Ef; set_solver).
      apply list_elem_of_filter in Hin as [Et Hin]. simpl in Et. subst t.
      apply list_elem_of_lookup in Hin as [i Hi]. eauto. }
    destruct Hex as (i & n & Hi). exists i, n. split; [done |]. intros msg.
    unfold step, reply_step. rewrite Ew, Hi. destruct md, (m_NodeReply msg); try destruct (decide _); eauto.
  - left. unfold step, select_step. rewrite Ew, Er. simpl. destruct md.
    + pose proof (wo_reply _ _ _ _ Hw eq_refl) as Hn. rewrite Er in Hn. inversion Hn as [|?? [r Hnr]].
      rewrite Hnr. eauto.
    + destruct (m_ValueReply msg) as [r|]; [| eauto]. destruct (vr_Data r); [eauto |].
      destruct (vr_NodeStates r); eauto.
Qed.

Lemma lookup_progress_witness :
  exists w, l_status (sample_start ValueMode) = Waiting w /\
    (is_Some (step ValueMode zero_id (sample_start ValueMode) (EvSelect 0)) \/
     exists i n, l_inflight (sample_start ValueMode) !! i = Some (w_tag w, n) /\
       forall msg, is_Some (step ValueMode zero_id (sample_start ValueMode) (EvReply i msg))).
Proof.
  destruct (l_status (sample_start ValueMode)) as [w| |] eqn:E; [| vm_compute in E; discriminate..].
  exists w. split; [done |]. destruct sample_bt_ok.
  apply (lookup_progress ValueMode zero_id sample_net sample_bt (sample_id 2) []);
    [by apply (bool_decide_unpack _) | done | done | constructor | done | exact E].
Defined.

(** The own node is put in place, and the list is cut. *)
Lemma LookupNodes_finish_spec me id address l : wf_id id -> wf_id me -> Forall wf_node l -> StronglySorted (closer_eq id) l ->
  let own := mkNodeState me address in let l' := LookupNodes_finish me id address l in
  length l' = (bucketSize `min` S (length l))%nat /\ StronglySorted (closer_eq id) l' /\
  Forall (fun n => n = own \/ n ∈ l) l' /\
  (forall n, n = own \/ n ∈ l -> n ∈ l' \/ (length l' = bucketSize /\ Forall (fun m => closer_eq id m n) l')).
Proof.
  intros Hid Hme Hl Hs own l'. set (all := InsertOrdered id l own).
  assert (Hall : StronglySorted (closer_eq id) all) by by apply InsertOrdered_sorted.
  assert (El : l' = take bucketSize all).
  { unfold l', LookupNodes_finish. fold own all. destruct (Nat.ltb_spec bucketSize (length all)); [done |]. by rewrite take_ge. }
  rewrite El. split; [by rewrite length_take; unfold all; rewrite length_InsertOrdered |].
  split; [eapply StronglySorted_sublist; [apply sublist_take | exact Hall] |]. split.
  - apply Forall_forall. intros n Hn. apply (elem_of_InsertOrdered id l own). eapply elem_of_sublist; [exact Hn | apply sublist_take].
  - intros n Hn%(elem_of_InsertOrdered id l own). exact (take_or_after _ all bucketSize n Hall Hn).
Qed.

(** C12. The result: a lookup that ends without a value ends when, among the
    [bucketSize] closest nodes it knows that have answered or were never asked, every one
    has answered; [LookupNodes] then returns these nodes, closest first and without
    duplicates.  A known node outside the list was asked and did not answer, or the list
    is full and holds no node further from the target.  [LookupNodes] finally puts its own
    node in place: of the list and the own node, the [bucketSize] closest ones are returned
    in order. *)
Theorem lookup_result md me U lk e lk' r w :
  lk_ok md U lk -> event_ok U e -> l_status lk = Waiting w -> step md me lk e = Some lk' ->
  l_status lk' = Done r -> (forall data, r <> RFound data) ->
  let s := l_snsa lk' in let l := best s in
  r = (match md with NodeMode => RNodes l | ValueMode => RNotFound end) /\
  (length l <= bucketSize)%nat /\ StronglySorted (closer_eq (Target s)) l /\ NoDup (ids l) /\
  Forall (fun n => hasResponded s n) l /\
  (forall n, n ∈ array s -> n ∈ l \/ (wasQueried s n /\ ~ hasResponded s n) \/
     (length l = bucketSize /\ Forall (fun m => closer_eq (Target s) m n) l)) /\
  (forall address, wf_id me -> let own := mkNodeState me address in let l' := LookupNodes_finish me (Target s) address l in
     length l' = (bucketSize `min` S (length l))%nat /\ StronglySorted (closer_eq (Target s)) l' /\
     Forall (fun n => n = own \/ n ∈ l) l' /\
     (forall n, n = own \/ n ∈ l -> n ∈ l' \/ (length l' = bucketSize /\ Forall (fun m => closer_eq (Target s) m n) l'))).
Proof.
  intros Hok He Ew Hstep Hd Hr s l.
  destruct (done_step md me U lk e lk' r w Hok Ew Hstep Hd) as [[data ->]|[Hall ->]];
    [by edestruct Hr |].
  destruct (step_ok md me U lk e lk' Hok He Hstep) as [[[Hs _ _] _] _].
  pose proof (ok_sorted _ Hs) as Hsort. pose proof (ok_nodup _ Hs) as Hnd. fold s in Hs, Hsort, Hnd.
  assert (Hsub : l `sublist_of` array s) by (etrans; [apply sublist_take | apply sublist_filter]).
  split; [done |]. split; [unfold l, best; rewrite length_take; lia |].
  split; [by eapply StronglySorted_sublist |].
  split; [by eapply sublist_NoDup; [exact Hnd | apply fmap_sublist] |]. split; [done |].
  split; [| intros address Hme; apply (LookupNodes_finish_spec me); [apply Hs | done | | by eapply StronglySorted_sublist];
    apply Forall_forall; intros n Hn; pose proof (ok_nodes _ Hs) as Hwf; rewrite Forall_forall in Hwf;
    apply Hwf; by eapply elem_of_sublist].
  intros n Hn. destruct (usable s n) eqn:Eu.
  - destruct (take_or_after (closer_eq (Target s)) (filter (fun m => usable s m) (array s)) bucketSize n) as [?|?];
      [eapply StronglySorted_sublist; [apply sublist_filter | exact Hsort]
      | apply list_elem_of_filter; split; [by rewrite Eu | done] | by left | by right; right].
  - right. left. unfold usable, unqueried in Eu.
    destruct (hasResponded s n), (wasQueried s n); simpl in *; try done. split; [done | by intros ?].
Qed.

Lemma lookup_result_witness :
  exists lk lk' r w,
    run NodeMode zero_id (sample_start NodeMode) sample_events = Some lk /\
    l_status lk = Waiting w /\ step NodeMode zero_id lk (EvSelect 0) = Some lk' /\
    l_status lk' = Done r /\ r = RNodes [sample_node 2; sample_node 3; sample_node 6] /\ r = RNodes (best (l_snsa lk')).
Proof.
  destruct (run NodeMode zero_id (sample_start NodeMode) sample_events) as [lk|] eqn:E;
    [| vm_compute in E; discriminate].
  destruct (run_ok NodeMode zero_id sample_net _ _ _ (sample_start_ok NodeMode) sample_events_ok E)
    as [Hok _].
  assert (H : (step NodeMode zero_id lk (EvSelect 0) ≫= fun lk' => Some (l_status lk, l_status lk'))
    = Some (Waiting (mkWaiting Round 1 2 [no_nodes] 1 false),
            Done (RNodes [sample_node 2; sample_node 3; sample_node 6]))).
  { assert (E' := E). vm_compute in E'. injection E' as <-. vm_compute. reflexivity. }
  destruct (step NodeMode zero_id lk (EvSelect 0)) as [lk'|] eqn:Es; [| done].
  cbn [mbind option_bind] in H.
  injection H as Ew Ed. exists lk, lk', (RNodes [sample_node 2; sample_node 3; sample_node 6]), (mkWaiting Round 1 2 [no_nodes] 1 false).
  assert (Hr : forall data, RNodes [sample_node 2; sample_node 3; sample_node 6] <> RFound data)
    by (intros data; discriminate).
  split; [exact eq_refl |]. split; [exact Ew |]. split; [exact Es |]. split; [exact Ed |].
  split; [exact eq_refl |].
  exact (proj1 (lookup_result NodeMode zero_id sample_net lk (EvSelect 0) lk' _ _ Hok I Ew Es Ed Hr)).
Defined.

(** The timer of a round of [LookupNodes] never fires ([t.Stop()] right after its
    creation): as long as one node queried in the round has not answered, the lookup
    stays in that round (or has crashed), whatever else happens, while a value lookup can
    always leave its phase on the timer. *)
Theorem node_round_waits_for_all me U lk w es lk' :
  lk_ok NodeMode U lk -> l_status lk = Waiting w -> w_phase w = Round -> Forall (event_ok U) es ->
  run NodeMode me lk es = Some lk' -> (0 < pending (w_tag w) (l_inflight lk'))%nat ->
  (exists w', l_status lk' = Waiting w' /\ w_phase w' = Round /\ w_tag w' = w_tag w) \/
  (exists msg, l_status lk' = Crashed msg).
Proof.
  intros Hok Ew Eph Hes Hr Hp. by eapply round_stays.
Qed.

Lemma node_round_waits_for_all_witness :
  exists lk lk', run NodeMode zero_id (sample_start NodeMode) first_events = Some lk /\
    run NodeMode zero_id lk later_events = Some lk' /\
    ((exists w', l_status lk' = Waiting w' /\ w_phase w' = Round /\ w_tag w' = 1%nat) \/
     (exists msg, l_status lk' = Crashed msg)).
Proof.
  destruct (run NodeMode zero_id (sample_start NodeMode) first_events) as [lk|] eqn:E1;
    [| vm_compute in E1; discriminate].
  assert (Hes : Forall (event_ok sample_net) first_events /\ Forall (event_ok sample_net) later_events).
  { pose proof no_nodes_ok. pose proof more_nodes_ok.
    split; repeat (apply Forall_cons; split; [done |]); constructor. }
  destruct (run_ok NodeMode zero_id sample_net _ _ _ (sample_start_ok NodeMode) (proj1 Hes) E1) as [Hok _].
  assert (E2 := E1). vm_compute in E2.
  destruct (run NodeMode zero_id lk later_events) as [lk'|] eqn:E3;
    [| injection E2 as <-; vm_compute in E3; discriminate].
  exists lk, lk'. split; [done |]. split; [done |].
  apply (node_round_waits_for_all zero_id sample_net lk (mkWaiting Round 1 2 [] 0 false) later_events);
    [exact Hok | injection E2 as <-; reflexivity | reflexivity | apply Hes | exact E3 |].
  injection E2 as <-. vm_compute in E3. injection E3 as <-. vm_compute. lia.
Defined.

(** A lookup starts from a single node: of the (up to three) nodes that
    [alphaClosest] returns, [InsertArray] keeps only the first one, since a node that
    enters the empty array is the closest one. *)
Theorem lookup_starts_from_one md me bt id n rest :
  NodeID n <> me -> alphaClosest bt id 3 = n :: rest ->
  array (l_snsa (lookup_start md me bt id)) = [n] /\
  exists w, l_status (lookup_start md me bt id) = Waiting w /\ w_total w = 1%nat /\
    l_inflight (lookup_start md me bt id) = [(0%nat, n)].
Proof.
  intros Hn Ha.
  assert (E : InsertArray (NewSafeNodeStateArray id) (n :: rest) me
    = (mkSNSA id (<[NodeID n := true]> ∅) ∅ ∅ [n], true)).
  { unfold InsertArray. cbn [InsertArray_loop]. rewrite bool_decide_eq_true_2 by done.
    unfold Insert. simpl. unfold flag. rewrite lookup_empty. simpl.
    rewrite bool_decide_eq_true_2 by done. apply InsertArray_loop_closer. }
  unfold lookup_start. rewrite Ha, E. unfold lookupRound, start_phase, GetAlphaUnqueried. simpl.
  unfold wasQueried, flag. simpl. rewrite lookup_empty. simpl.
  split; [done |]. eexists. by split_and!.
Qed.

Lemma lookup_starts_from_one_witness :
  alphaClosest sample_bt (sample_id 2) 3 = [sample_node 3; sample_node 2] /\
  array (l_snsa (sample_start NodeMode)) = [sample_node 3].
Proof.
  assert (E : alphaClosest sample_bt (sample_id 2) 3 = [sample_node 3; sample_node 2])
    by (vm_compute; reflexivity).
  split; [exact E |].
  apply (lookup_starts_from_one NodeMode zero_id sample_bt (sample_id 2) (sample_node 3) [sample_node 2]);
    [vm_compute; discriminate | exact E].
Defined.
