(* ===== verification/Blockchain.v ===== *)
(** * The block chain of file names (gossiper/blockchain.go)

    The ledger holds every known block under its hash; a block records the hashes of its
    forks, that is of the blocks that name it as their parent.  A block whose parent is not
    known (an orphan) hangs below the genesis block, which has no hash of its own and is
    stored under the zero hash.  A pointer to a [blockOfChain] of the ledger is the key that
    holds it.

    Go visits a map in an unspecified order: the order of the forks of a block is given by
    the parameter [range].  Recursion along chains takes fuel, one more than the number of
    blocks; a recursion that exceeds it (which needs a cycle of hashes) is [no_return].
    The lengths of chains are below the number of blocks in memory, so they are unbounded
    integers here. *)
From S2P Require Import Prelude Sha2 Dto Containers Gossip.

Definition bitDifficulty : nat := 16.
Definition hashDisplayBytes : nat := 32.
Definition zero_hash : bytes := replicate 32 0.

Record blockOfChain := mkBC { LengthOfChain : Z; bc_Block : Block; Forks : gset bytes }.

(** The zero value of [dto.Block]. *)
Definition emptyBlock : Block := mkBlock zero_hash zero_hash [].
Definition newGenesisBlock : blockOfChain := mkBC 0 emptyBlock ∅.
Definition newBlockOfChain (block : Block) : blockOfChain := mkBC 0 block ∅.
Definition bc_hash (bc : blockOfChain) : bytes := Block_Hash (bc_Block bc).
Definition bc_PrevHash (bc : blockOfChain) : bytes := b_PrevHash (bc_Block bc).

Definition set_length (n : Z) (bc : blockOfChain) : blockOfChain := mkBC n (bc_Block bc) (Forks bc).
Definition set_forks (s : gset bytes) (bc : blockOfChain) : blockOfChain :=
  mkBC (LengthOfChain bc) (bc_Block bc) s.

(** The new values of the block and of its parent. *)
Definition appendToBlock (bc prevbc : blockOfChain) : blockOfChain * blockOfChain :=
  (set_length (LengthOfChain prevbc + 1) bc, set_forks ({[bc_hash bc]} ∪ Forks prevbc) prevbc).
Definition getForks (bc : blockOfChain) : gset bytes := Forks bc.
Definition removeFork (bc nextbc : blockOfChain) : blockOfChain :=
  set_forks (Forks bc ∖ {[bc_hash nextbc]}) bc.

(** The bits of [x] that [b], shifted right [n - 1] times, selects are zero. *)
Fixpoint check_bits (n : nat) (b x : Z) : bool :=
  match n with
  | O => true
  | S n' => if Z.land b x =? 0 then check_bits n' (Z.shiftr b 1) x else false
  end.
Definition meets_difficulty (hash32 : bytes) : bool :=
  let first := (bitDifficulty / 8)%nat in
  forallb (Z.eqb 0) (take first hash32) &&
  check_bits (bitDifficulty mod 8) 128 (default 0 (hash32 !! first)).
Definition checkValid (bc : Block) : bool := meets_difficulty (Block_Hash bc).

Definition tx_Name (tx : TxPublish) : string := f_Name (tx_File tx).

(** Claim the names of the transactions in turn, up to the first that is taken. *)
Fixpoint claim (claimedNames : SafeStringArray) (txs : list TxPublish) : SafeStringArray * bool :=
  match txs with
  | [] => (claimedNames, true)
  | tx :: rest =>
      let '(claimed, valid) := AppendUniqueToArray claimedNames (tx_Name tx) in
      if valid then claim claimed rest else (claimed, false)
  end.
Definition checkValidTransactions (bc : blockOfChain) (claimedNames : SafeStringArray)
    : SafeStringArray * bool := claim claimedNames (b_Transactions (bc_Block bc)).

Definition no_return {A} : outcome A := Fatal "the recursion does not end".

(** ** The ledger *)
Record BlockchainLedger := mkLedger { longestChain : bytes; chains : gmap bytes blockOfChain }.
Definition NewBlockchainLedger : BlockchainLedger :=
  mkLedger zero_hash {[zero_hash := newGenesisBlock]}.
Definition set_chains (bcl : BlockchainLedger) (m : gmap bytes blockOfChain) : BlockchainLedger :=
  mkLedger (longestChain bcl) m.
Definition getGenesis (bcl : BlockchainLedger) : option blockOfChain := chains bcl !! zero_hash.
Definition isPresent (bcl : BlockchainLedger) (hash : bytes) : bool :=
  bool_decide (is_Some (chains bcl !! hash)).
Definition getHead (bcl : BlockchainLedger) : bytes * option blockOfChain :=
  (longestChain bcl, chains bcl !! longestChain bcl).
Definition fuel_of (bcl : BlockchainLedger) : nat := S (size (chains bcl)).

(** [None]: the nil set of names, with [valid = false]. *)
Fixpoint claim_backwards (fuel : nat) (bcl : BlockchainLedger) (prevHash : bytes)
    (claimedNames : SafeStringArray) : outcome (option SafeStringArray) :=
  match fuel with
  | O => no_return
  | S fuel' =>
      if decide (prevHash = zero_hash) then Ok (Some claimedNames)
      else
        match chains bcl !! prevHash with
        | None => Ok (Some claimedNames)
        | Some prevBc =>
            let '(claimed, valid) := checkValidTransactions prevBc claimedNames in
            if valid then claim_backwards fuel' bcl (bc_PrevHash prevBc) claimed else Ok None
        end
  end.
Definition checkValidTransactionsBackwards (bcl : BlockchainLedger) (bc : blockOfChain)
    : outcome (option SafeStringArray) :=
  let '(claimed, valid) := claim (NewSafeStringArray []) (b_Transactions (bc_Block bc)) in
  if valid then claim_backwards (fuel_of bcl) bcl (bc_PrevHash bc) claimed else Ok None.

(** [for x := range l] with a body that can [return] (flag [true]). *)
Fixpoint range_loop {A X} (body : A -> X -> outcome (A * bool)) (l : list X) (a : A)
    : outcome (A * bool) :=
  match l with
  | [] => Ok (a, false)
  | x :: rest => '(a, stop) ← body a x; if stop : bool then Ok (a, true) else range_loop body rest a
  end.

Section Ledger.
Context (range : gset bytes -> list bytes).

Fixpoint deleteForkFromChain (fuel : nat) (bcl : BlockchainLedger) (bc : bytes)
    : outcome BlockchainLedger :=
  match fuel with
  | O => no_return
  | S fuel' =>
      b ← deref (chains bcl !! bc);
      '(bcl, _) ← range_loop (fun bcl nextHash =>
          bcl ← deleteForkFromChain fuel' bcl nextHash; Ok (bcl, false)) (range (Forks b)) bcl;
      Ok (set_chains bcl (delete (bc_hash b) (chains bcl)))
  end.

(** The set of claimed names is shared by all calls; it can be nil. *)
Fixpoint pruneInvalidForks (fuel : nat) (bcl : BlockchainLedger) (bc : bytes)
    (claimedNames : option SafeStringArray)
    : outcome (BlockchainLedger * option SafeStringArray * bool) :=
  match fuel with
  | O => no_return
  | S fuel' =>
      b ← deref (chains bcl !! bc);
      '(claimedNames, valid) ←
         (match b_Transactions (bc_Block b) with
          | [] => Ok (claimedNames, true)
          | txs => c ← deref claimedNames; let '(c, valid) := claim c txs in Ok (Some c, valid)
          end);
      if negb valid then
        bcl ← deleteForkFromChain fuel' bcl bc; Ok (bcl, claimedNames, false)
      else
        '(bcl, claimedNames, stopped) ← range_loop (fun '(bcl, claimedNames) nextHash =>
            match chains bcl !! nextHash with
            | None => Ok (bcl, claimedNames, true)
            | Some _ =>
                '(bcl, claimedNames, _) ← pruneInvalidForks fuel' bcl nextHash claimedNames;
                Ok (bcl, claimedNames, false)
            end) (range (Forks b)) (bcl, claimedNames);
        Ok (bcl, claimedNames, negb stopped)
  end.

(** The new ledger, the greatest length among the block and its descendants, and a block of
    that length. *)
Fixpoint recursiveUpdateLength (fuel : nat) (bcl : BlockchainLedger) (bc : bytes)
    : outcome (BlockchainLedger * Z * bytes) :=
  match fuel with
  | O => no_return
  | S fuel' =>
      b ← deref (chains bcl !! bc);
      prevBc ← deref (chains bcl !! bc_PrevHash b);
      let len := LengthOfChain prevBc + 1 in
      let bcl := set_chains bcl (<[bc := set_length len b]> (chains bcl)) in
      '(bcl, maxLen, highestBlock, _) ← range_loop (fun '(bcl, maxLen, highestBlock) nextHash =>
          '(bcl, len, highest) ← recursiveUpdateLength fuel' bcl nextHash;
          Ok (if maxLen <? len then (bcl, len, highest) else (bcl, maxLen, highestBlock), false))
        (range (Forks b)) (bcl, len, bc);
      Ok (bcl, maxLen, highestBlock)
  end.

Definition reinsert_orphan (newBlock : bytes)
    (acc : BlockchainLedger * option SafeStringArray * Z * bytes) (orphanHash : bytes)
    : outcome (BlockchainLedger * option SafeStringArray * Z * bytes * bool) :=
  let '(bcl, claimedNames, maxLen, highestBlock) := acc in
  orphanBc ← deref (chains bcl !! orphanHash);
  if decide (bc_PrevHash orphanBc = newBlock) then
    genesis ← deref (getGenesis bcl);
    let bcl := set_chains bcl (<[zero_hash := removeFork genesis orphanBc]> (chains bcl)) in
    '(bcl, claimedNames, stillValid) ← pruneInvalidForks (fuel_of bcl) bcl orphanHash claimedNames;
    if stillValid : bool then
      nb ← deref (chains bcl !! newBlock);
      let '(orphan', nb') := appendToBlock orphanBc nb in
      let bcl := set_chains bcl (<[orphanHash := orphan']> (<[newBlock := nb']> (chains bcl))) in
      '(bcl, len, highest) ← recursiveUpdateLength (fuel_of bcl) bcl orphanHash;
      Ok (if maxLen <? len then (bcl, claimedNames, len, highest)
          else (bcl, claimedNames, maxLen, highestBlock), false)
    else Ok (bcl, claimedNames, maxLen, highestBlock, false)
  else Ok (acc, false).
Definition checkOrphansAndReinsert (bcl : BlockchainLedger) (newBlock : bytes)
    (claimedNames : option SafeStringArray) : outcome (BlockchainLedger * Z * bytes) :=
  genesis ← deref (getGenesis bcl);
  '(bcl, _, maxLen, highestBlock, _) ←
    range_loop (reinsert_orphan newBlock) (range (Forks genesis)) (bcl, claimedNames, 0, zero_hash);
  Ok (bcl, maxLen, highestBlock).

(** Number of blocks from [first] down to the common ancestor (printed only). *)
Fixpoint getDegreeOfForkage (fuel : nat) (bcl : BlockchainLedger) (first second : bytes)
    : outcome Z :=
  match fuel with
  | O => no_return
  | S fuel' =>
      f ← deref (chains bcl !! first);
      s ← deref (chains bcl !! second);
      if negb (isPresent bcl (bc_PrevHash f) && isPresent bcl (bc_PrevHash s)) then Ok 0
      else if (LengthOfChain f =? 0) || (LengthOfChain s =? 0) then Ok 0
      else if decide (first = bc_PrevHash s) then Ok 0
      else
        rewind ← getDegreeOfForkage fuel' bcl (bc_PrevHash f) (bc_PrevHash s);
        Ok (1 + rewind)
  end.

Fixpoint getBlocksInChain (fuel : nat) (bcl : BlockchainLedger) (bc : bytes)
    : outcome (list string) :=
  match fuel with
  | O => no_return
  | S fuel' =>
      b ← deref (chains bcl !! bc);
      let names := tx_Name <$> b_Transactions (bc_Block b) in
      let hashS := (hex (drop (32 - hashDisplayBytes) (bc_hash b)) +:+ ":" +:+
        hex (drop (32 - hashDisplayBytes) (bc_PrevHash b)) +:+ ":" +:+ String.concat "," names)%string in
      if negb (isPresent bcl (bc_PrevHash b)) || bool_decide (bc_PrevHash b = zero_hash)
      then Ok [hashS]
      else block ← getBlocksInChain fuel' bcl (bc_PrevHash b); Ok (hashS :: block)
  end.

Definition getNames (b : Block) : gset string := list_to_set (tx_Name <$> b_Transactions b).
Fixpoint getTakenNames (fuel : nat) (bcl : BlockchainLedger) (headBc : bytes)
    : outcome (gset string) :=
  match fuel with
  | O => no_return
  | S fuel' =>
      b ← deref (chains bcl !! headBc);
      let names := getNames (bc_Block b) in
      if negb (isPresent bcl (bc_PrevHash b)) || bool_decide (bc_PrevHash b = zero_hash)
      then Ok names
      else prevNames ← getTakenNames fuel' bcl (bc_PrevHash b); Ok (names ∪ prevNames)
  end.

(** The chain of [bc], from a zero hash for the genesis block up to [acc]. *)
Fixpoint chain_hashes (fuel : nat) (bcl : BlockchainLedger) (bc : bytes) (acc : list bytes)
    : outcome (list bytes) :=
  match fuel with
  | O => no_return
  | S fuel' =>
      b ← deref (chains bcl !! bc);
      match chains bcl !! bc_PrevHash b with
      | None => Ok (zero_hash :: acc)
      | Some prev =>
          if decide (bc_PrevHash prev = zero_hash) then Ok (zero_hash :: acc)
          else chain_hashes fuel' bcl (bc_PrevHash b) (bc_hash prev :: acc)
      end
  end.
Fixpoint last_common (firstChain secondChain : list bytes) (common : bytes) : outcome bytes :=
  match firstChain, secondChain with
  | [], _ => Ok common
  | _ :: _, [] => Panic "index out of range"
  | x :: first, y :: second => if decide (x = y) then last_common first second x else Ok common
  end.
Definition getFirstCommon (bcl : BlockchainLedger) (first second : bytes) : outcome bytes :=
  f ← deref (chains bcl !! first);
  s ← deref (chains bcl !! second);
  firstChain ← chain_hashes (fuel_of bcl) bcl first [bc_hash f];
  secondChain ← chain_hashes (fuel_of bcl) bcl second [bc_hash s];
  last_common firstChain secondChain zero_hash.

(** The new ledger, and whether the head changed to another branch and whether it grew. *)
Definition headChanges (bcl : BlockchainLedger) (lenOfNewFork : Z) (newForkHead : bytes)
    : outcome (BlockchainLedger * bool * bool) :=
  headLongestChain ← deref (chains bcl !! longestChain bcl);
  if LengthOfChain headLongestChain <? lenOfNewFork then
    new ← deref (chains bcl !! newForkHead);
    changed ←
      (if decide (bc_PrevHash new <> longestChain bcl) then
         _ ← getDegreeOfForkage (fuel_of bcl) bcl (longestChain bcl) newForkHead; Ok true
       else Ok false);
    let bcl := mkLedger (bc_hash new) (chains bcl) in
    _ ← getBlocksInChain (fuel_of bcl) bcl newForkHead;
    Ok (bcl, changed, true)
  else
    _ ← getFirstCommon bcl (longestChain bcl) newForkHead;
    Ok (bcl, false, false).

(** The new ledger and [(valid, headChanged, headGrew)]. *)
Definition insertBlock (bcl : BlockchainLedger) (block : Block)
    : outcome (BlockchainLedger * (bool * bool * bool)) :=
  let hash := Block_Hash block in
  if isPresent bcl hash then Ok (bcl, (false, false, false))
  else
    let notOrphan := isPresent bcl (b_PrevHash block) in
    let parentHash := if notOrphan then b_PrevHash block else zero_hash in
    parent ← deref (chains bcl !! parentHash);
    let '(bc, parent') := appendToBlock (newBlockOfChain block) parent in
    let bcl := set_chains bcl (<[parentHash := parent']> (chains bcl)) in
    claimedNames ← checkValidTransactionsBackwards bcl bc;
    if notOrphan && bool_decide (claimedNames = None) then Ok (bcl, (false, false, false))
    else
      let bcl := set_chains bcl (<[hash := bc]> (chains bcl)) in
      '(bcl, maxLen, highestBlock) ← checkOrphansAndReinsert bcl hash claimedNames;
      bc ← deref (chains bcl !! hash);
      let '(maxLen, highestBlock) :=
        if maxLen <? LengthOfChain bc then (LengthOfChain bc, hash) else (maxLen, highestBlock) in
      '(bcl, changed, grew) ← headChanges bcl maxLen highestBlock;
      Ok (bcl, (true, changed, grew)).

Definition mine (block : Block) : option BlockPublish :=
  if meets_difficulty (Block_Hash block) then Some (mkBlockPublish block defaultHopLimit) else None.

(** [for i := len(nonce) - 1; ...]: the loop runs over the reversed bytes. *)
Fixpoint incrementNonce_loop (rev_nonce : bytes) : bytes :=
  match rev_nonce with
  | [] => []
  | b :: rest => let b' := u8 (b + 1) in
      if b' =? 0 then b' :: incrementNonce_loop rest else b' :: rest
  end.
Definition incrementNonce (nonce : bytes) : bytes := rev (incrementNonce_loop (rev nonce)).

End Ledger.

(** ** Lengths, names and chains *)
Definition block_names (b : Block) : list string := tx_Name <$> b_Transactions b.
Definition chain_names (l : list Block) : list string := l ≫= block_names.
Definition blocks_of (m : gmap bytes blockOfChain) : gmap bytes Block := bc_Block <$> m.

(** [l] is the chain from the block under [h] down to the genesis block. *)
Inductive chain_to (m : gmap bytes Block) : bytes -> list Block -> Prop :=
  | chain_genesis : chain_to m zero_hash []
  | chain_block h b l : h <> zero_hash -> m !! h = Some b -> chain_to m (b_PrevHash b) l ->
      chain_to m h (b :: l).

(** Names that are not in [c], and occur once. *)
Definition fresh (c : gset string) (ns : list string) : Prop :=
  NoDup ns /\ Forall (fun n => n ∉ c) ns.

(** A forest without orphans: every block extends a chain that ends in the genesis block,
    along which no name is claimed twice. *)
Record forest_ok (m : gmap bytes blockOfChain) : Prop := {
  fo_genesis : exists forks : gset bytes, m !! zero_hash = Some (mkBC 0 emptyBlock forks) /\
    forall h, h ∈ forks -> exists bc, m !! h = Some bc /\ bc_PrevHash bc = zero_hash;
  fo_block : forall h bc, h <> zero_hash -> m !! h = Some bc -> bc_hash bc = h /\
    exists l, chain_to (blocks_of m) h l /\ LengthOfChain bc = Z.of_nat (length l) /\
      NoDup (chain_names l)
}.
Record ledger_ok (bcl : BlockchainLedger) : Prop := {
  lo_forest : forest_ok (chains bcl);
  lo_head : exists hb, chains bcl !! longestChain bcl = Some hb /\
    forall h bc, chains bcl !! h = Some bc -> LengthOfChain bc <= LengthOfChain hb
}.

(** ** Chains *)
Lemma chain_det m h l1 : chain_to m h l1 -> forall l2, chain_to m h l2 -> l1 = l2.
Proof.
  induction 1 as [|h b l Hh Hb Hc IH]; intros l2 H2; inversion H2; subst; try done.
  simplify_eq. f_equal. auto.
Qed.
Lemma chain_mono m m' h l : m ⊆ m' -> chain_to m h l -> chain_to m' h l.
Proof. intros Hm. induction 1; econstructor; eauto using lookup_weaken. Qed.

(** The blocks of a chain sit under distinct keys. *)
Lemma chain_keys m h l : chain_to m h l ->
  exists ks, length ks = length l /\ NoDup ks /\
    forall k, k ∈ ks -> is_Some (m !! k) /\ exists l', chain_to m k l' /\ (length l' <= length l)%nat.
Proof.
  induction 1 as [|h b l Hh Hb Hc (ks & Hl & Hnd & Hk)]; [by exists []; split_and!; try constructor; set_solver |].
  exists (h :: ks). split; [simpl; congruence |]. split.
  - constructor; [| done]. intros Hin. apply Hk in Hin as (_ & l' & Hl' & Hle).
    assert (l' = b :: l) as -> by (eapply chain_det; eauto using chain_block). simpl in Hle. lia.
  - intros k [-> | Hin]%elem_of_cons.
    + split; [done |]. exists (b :: l). split; [by constructor | done].
    + apply Hk in Hin as (? & l' & ? & ?). split; [done |]. exists l'. split; [done | simpl; lia].
Qed.
Lemma chain_length m h l : chain_to m h l -> (length l <= size m)%nat.
Proof.
  intros (ks & <- & Hnd & Hk)%chain_keys. rewrite <-size_dom.
  rewrite <-(size_list_to_set (C := gset bytes) ks) by done.
  apply subseteq_size. intros k Hin%elem_of_list_to_set. by apply elem_of_dom, Hk.
Qed.

Lemma blocks_of_lookup m h bc : m !! h = Some bc -> blocks_of m !! h = Some (bc_Block bc).
Proof. unfold blocks_of. rewrite lookup_fmap. by intros ->. Qed.

(** The genesis block is there and every other block is stored under its hash. *)
Record keyed (m : gmap bytes blockOfChain) : Prop := {
  ky_genesis : exists forks, m !! zero_hash = Some (mkBC 0 emptyBlock forks);
  ky_hash : forall h bc, h <> zero_hash -> m !! h = Some bc -> bc_hash bc = h
}.
Lemma forest_keyed m : forest_ok m -> keyed m.
Proof.
  intros [(forks & Hg & _) Hb]. split; [eauto |]. intros h bc Hz Hh. by apply Hb in Hh as [? _].
Qed.
#[export] Hint Resolve forest_keyed : peerster.

(** The chain of a known block, one block at a time. *)
Lemma chain_view m h bc l : keyed m -> m !! h = Some bc -> chain_to (blocks_of m) h l ->
  (h = zero_hash /\ l = [] /\ exists forks, bc = mkBC 0 emptyBlock forks) \/
  (h <> zero_hash /\ bc_hash bc = h /\ exists l' p, l = bc_Block bc :: l' /\
    chain_to (blocks_of m) (bc_PrevHash bc) l' /\ m !! bc_PrevHash bc = Some p).
Proof.
  intros [[forks Hg] Hk] Hh Hl. inversion Hl as [|h' b l' Hz Hb Hl']; subst.
  - left. simplify_eq. eauto.
  - right. split; [done |]. split; [by apply Hk |]. apply blocks_of_lookup in Hh. simplify_eq. exists l'.
    inversion Hl' as [Hz'|h' b' ? Hz' Hb' Hl'' Heq]; subst.
    + unfold bc_PrevHash. rewrite <-Hz'. eauto using chain_genesis.
    + unfold blocks_of in Hb'. rewrite lookup_fmap in Hb'.
      destruct (m !! b_PrevHash (bc_Block bc)) as [p|] eqn:Hp; [| done]. exists p. auto.
Qed.

Lemma forest_chain m h bc : forest_ok m -> m !! h = Some bc ->
  exists l, chain_to (blocks_of m) h l /\ LengthOfChain bc = Z.of_nat (length l) /\
    NoDup (chain_names l) /\ (length l <= size m)%nat.
Proof.
  intros Hm Hh. assert (exists l, chain_to (blocks_of m) h l /\ LengthOfChain bc = Z.of_nat (length l) /\
    NoDup (chain_names l)) as (l & Hl & ? & ?).
  { destruct (decide (h = zero_hash)) as [->|Hz].
    - destruct (ky_genesis _ (forest_keyed _ Hm)) as [forks Hg]. simplify_eq. exists [].
      split_and!; [constructor | done | constructor].
    - by apply (fo_block _ Hm) in Hh as [_ ?]. }
  exists l. split_and!; try done. apply chain_length in Hl. unfold blocks_of in Hl.
  by rewrite map_size_fmap in Hl.
Qed.

(** ** Claiming names *)
Lemma append_unique c n :
  AppendUniqueToArray c n = (c, false) /\ n ∈ ssa_exists c \/
  n ∉ ssa_exists c /\ exists c', AppendUniqueToArray c n = (c', true) /\
    ssa_exists c' = {[n]} ∪ ssa_exists c.
Proof. unfold AppendUniqueToArray. destruct (decide _); [by left | right; split; eauto]. Qed.

#[export] Instance fresh_dec c ns : Decision (fresh c ns).
Proof. unfold fresh. apply _. Defined.
Lemma fresh_app c ns1 ns2 :
  fresh c (ns1 ++ ns2) <-> fresh c ns1 /\ fresh (list_to_set ns1 ∪ c) ns2.
Proof. unfold fresh. rewrite NoDup_app, Forall_app, !Forall_forall. set_solver. Qed.

Lemma claim_spec txs : forall c, let ns := tx_Name <$> txs in
  (claim c txs).2 = bool_decide (fresh (ssa_exists c) ns) /\
  (fresh (ssa_exists c) ns -> ssa_exists (claim c txs).1 = list_to_set ns ∪ ssa_exists c).
Proof.
  induction txs as [|tx txs IH]; intros c; cbn [claim fmap list_fmap].
  - split; [symmetry; apply bool_decide_eq_true; repeat constructor | intros _; set_solver].
  - destruct (append_unique c (tx_Name tx)) as [[-> Hin]|(Hni & c' & -> & Hc')].
    + assert (~ fresh (ssa_exists c) (tx_Name tx :: (tx_Name <$> txs))) as Hf.
      { intros [_ [? _]%Forall_cons]. done. }
      split; [by rewrite bool_decide_eq_false_2 | done].
    + destruct (IH c') as [IH1 IH2]. rewrite Hc' in IH1, IH2.
      assert (fresh (ssa_exists c) (tx_Name tx :: (tx_Name <$> txs)) <->
        fresh ({[tx_Name tx]} ∪ ssa_exists c) (tx_Name <$> txs)) as Hiff.
      { change (tx_Name tx :: (tx_Name <$> txs)) with ([tx_Name tx] ++ (tx_Name <$> txs)).
        rewrite (fresh_app _ [tx_Name tx]).
        replace (list_to_set [tx_Name tx] ∪ ssa_exists c) with ({[tx_Name tx]} ∪ ssa_exists c)
          by set_solver.
        split; [by intros [_ ?] | intros H; split; [| done]].
        split; [apply NoDup_singleton | by apply Forall_singleton]. }
      split.
      * rewrite IH1. by apply bool_decide_ext.
      * intros Hf%Hiff. rewrite IH2 by done. simpl. set_solver.
Qed.

(** What a set of claimed names is after [ns] were claimed on top of [c]. *)
Definition claimed (c : gset string) (ns : list string) (r : option SafeStringArray) : Prop :=
  match r with
  | Some c' => fresh c ns /\ ssa_exists c' = list_to_set ns ∪ c
  | None => ~ fresh c ns
  end.

Lemma blocks_of_inv m h b : blocks_of m !! h = Some b -> exists bc, m !! h = Some bc /\ bc_Block bc = b.
Proof. unfold blocks_of. rewrite lookup_fmap_Some. intros (bc & ? & ?). eauto. Qed.

Lemma claim_backwards_spec bcl h l : chain_to (blocks_of (chains bcl)) h l ->
  forall fuel c, (length l < fuel)%nat ->
  exists r, claim_backwards fuel bcl h c = Ok r /\ claimed (ssa_exists c) (chain_names l) r.
Proof.
  induction 1 as [|h b l Hz Hb Hc IH]; intros fuel c Hf; destruct fuel as [|fuel]; try (simpl in Hf; lia);
    cbn [claim_backwards].
  - exists (Some c). split; [done |]. split; [by split; constructor | set_solver].
  - destruct (decide (h = zero_hash)); [done |].
    apply blocks_of_inv in Hb as (bc & -> & <-).
    unfold checkValidTransactions, bc_PrevHash. destruct (claim_spec (b_Transactions (bc_Block bc)) c) as [H1 H2].
    destruct (claim c _) as [c' v]. simpl in H1, H2. subst v.
    change (chain_names (bc_Block bc :: l)) with (block_names (bc_Block bc) ++ chain_names l).
    fold (block_names (bc_Block bc)) in *. case_bool_decide as Hfr.
    + specialize (H2 Hfr). destruct (IH fuel c' ltac:(simpl in Hf; lia)) as (r & -> & Hr).
      exists r. split; [done |]. rewrite H2 in Hr. destruct r as [c''|]; simpl in *.
      * rewrite fresh_app. destruct Hr as [? ->]. split; [done |]. rewrite list_to_set_app_L. set_solver.
      * rewrite fresh_app. tauto.
    + exists None. split; [done |]. simpl. rewrite fresh_app. tauto.
Qed.

Lemma fresh_empty ns : fresh ∅ ns <-> NoDup ns.
Proof. unfold fresh. split; [by intros [? _] | split; [done | apply Forall_forall; set_solver]]. Qed.

Lemma checkValidTransactionsBackwards_spec bcl bc l :
  chain_to (blocks_of (chains bcl)) (bc_PrevHash bc) l ->
  exists r, checkValidTransactionsBackwards bcl bc = Ok r /\
    claimed ∅ (block_names (bc_Block bc) ++ chain_names l) r.
Proof.
  intros Hl. unfold checkValidTransactionsBackwards, fuel_of.
  destruct (claim_spec (b_Transactions (bc_Block bc)) (NewSafeStringArray [])) as [H1 H2].
  destruct (claim _ _) as [c v]. simpl in H1, H2. subst v. fold (block_names (bc_Block bc)) in *.
  case_bool_decide as Hfr.
  - specialize (H2 Hfr). destruct (claim_backwards_spec _ _ _ Hl (S (size (chains bcl))) c) as (r & -> & Hr).
    { apply chain_length in Hl. unfold blocks_of in Hl. rewrite map_size_fmap in Hl. lia. }
    exists r. split; [done |]. rewrite H2 in Hr. destruct r as [c'|]; simpl in *; rewrite fresh_app.
    + destruct Hr as [? ->]. split; [done |]. rewrite list_to_set_app_L. set_solver.
    + tauto.
  - exists None. split; [done |]. simpl. rewrite fresh_app. tauto.
Qed.

(** ** The recursions along a chain return *)
Section Recursions.
Context (bcl : BlockchainLedger) (Hm : keyed (chains bcl)).

Lemma isPresent_true h : is_Some (chains bcl !! h) -> isPresent bcl h = true.
Proof. apply bool_decide_eq_true_2. Qed.

Lemma getTakenNames_spec h l : is_Some (chains bcl !! h) ->
  chain_to (blocks_of (chains bcl)) h l -> forall fuel, (length l < fuel)%nat ->
  getTakenNames fuel bcl h = Ok (list_to_set (chain_names l)).
Proof using Hm.
  intros Hh Hl. remember (length l) as n eqn:Hn. revert h l Hh Hl Hn.
  induction n as [|n IH]; intros h l [bc Hh] Hl Hn [|fuel] Hf; try lia; cbn [getTakenNames];
    rewrite Hh; cbn [mbind outcome_bind deref].
  all: destruct (chain_view _ _ _ _ Hm Hh Hl) as [(-> & -> & forks & ->)|(Hz & Hk & l' & p & -> & Hl' & Hp)];
    try done.
  - rewrite isPresent_true by done. done.
  - rewrite isPresent_true by eauto. simpl.
    change (chain_names (bc_Block bc :: l')) with (block_names (bc_Block bc) ++ chain_names l').
    rewrite list_to_set_app_L. case_bool_decide as Hz'.
    + rewrite Hz' in Hl'. inversion Hl'; subst; [| done].
      f_equal. unfold getNames, block_names. set_solver.
    + rewrite (IH _ l'); [done | eauto | done | simpl in Hn; lia | lia].
Qed.

Lemma getBlocksInChain_ok h l : is_Some (chains bcl !! h) ->
  chain_to (blocks_of (chains bcl)) h l -> forall fuel, (length l < fuel)%nat ->
  exists s, getBlocksInChain fuel bcl h = Ok s.
Proof using Hm.
  intros Hh Hl. remember (length l) as n eqn:Hn. revert h l Hh Hl Hn.
  induction n as [|n IH]; intros h l [bc Hh] Hl Hn [|fuel] Hf; try lia; cbn [getBlocksInChain];
    rewrite Hh; cbn [mbind outcome_bind deref].
  all: destruct (chain_view _ _ _ _ Hm Hh Hl) as [(-> & -> & forks & ->)|(Hz & Hk & l' & p & -> & Hl' & Hp)];
    try done.
  - rewrite isPresent_true by done. eauto.
  - rewrite isPresent_true by eauto. cbn [negb orb]. case_bool_decide; [eauto |].
    destruct (IH (bc_PrevHash bc) l' ltac:(eauto) Hl' ltac:(simpl in Hn; lia) fuel ltac:(lia)) as [s ->].
    simpl. eauto.
Qed.

Lemma getDegreeOfForkage_ok first l second : is_Some (chains bcl !! first) ->
  chain_to (blocks_of (chains bcl)) first l -> is_Some (chains bcl !! second) ->
  forall fuel, (length l < fuel)%nat -> exists z, getDegreeOfForkage fuel bcl first second = Ok z.
Proof using Hm.
  intros Hh Hl Hs. remember (length l) as n eqn:Hn. revert first l second Hh Hl Hs Hn.
  induction n as [|n IH]; intros h l second [bc Hh] Hl [sb Hs] Hn [|fuel] Hf; try lia;
    cbn [getDegreeOfForkage]; rewrite Hh, Hs; cbn [mbind outcome_bind deref].
  all: destruct (chain_view _ _ _ _ Hm Hh Hl) as [(-> & -> & forks & ->)|(Hz & Hk & l' & p & -> & Hl' & Hp)];
    try done.
  - destruct (negb _); [eauto |]. simpl. eauto.
  - destruct (isPresent bcl (bc_PrevHash sb)) eqn:Hps; [| rewrite andb_false_r; simpl; eauto].
    apply bool_decide_eq_true in Hps. rewrite isPresent_true by eauto. cbn [negb andb].
    destruct (_ || _); [eauto |]. destruct (decide _); [eauto |].
    destruct (IH (bc_PrevHash bc) l' (bc_PrevHash sb) ltac:(eauto) Hl' Hps ltac:(simpl in Hn; lia)
      fuel ltac:(lia)) as [z ->]. simpl. eauto.
Qed.

(** What is put before [acc] are hashes of blocks of the chain, and the zero hash. *)
Lemma chain_hashes_ok h l : is_Some (chains bcl !! h) ->
  chain_to (blocks_of (chains bcl)) h l -> forall fuel acc, (length l < fuel)%nat ->
  exists r, chain_hashes fuel bcl h acc = Ok (r ++ acc) /\
    Forall (fun x => x = zero_hash \/ x ∈ Block_Hash <$> l) r.
Proof using Hm.
  intros Hh Hl. remember (length l) as n eqn:Hn. revert h l Hh Hl Hn.
  destruct (ky_genesis _ Hm) as [forks0 Hg].
  assert (Hzero : forall l : list Block, Forall (fun x => x = zero_hash \/ x ∈ Block_Hash <$> l) [zero_hash])
    by (constructor; auto).
  induction n as [|n IH]; intros h l [bc Hh] Hl Hn [|fuel] acc Hf; try lia;
    cbn [chain_hashes]; rewrite Hh; cbn [mbind outcome_bind deref].
  all: destruct (chain_view _ _ _ _ Hm Hh Hl) as [(-> & -> & forks & ->)|(Hz & Hk & l' & p & -> & Hl' & Hp)];
    try done.
  - unfold bc_PrevHash. cbn [bc_Block b_PrevHash emptyBlock]. rewrite Hg. exists [zero_hash]. auto.
  - rewrite Hp. destruct (decide _) as [|Hpz]; [exists [zero_hash]; auto |].
    destruct (IH (bc_PrevHash bc) l' ltac:(eauto) Hl' ltac:(simpl in Hn; lia) fuel (bc_hash p :: acc)
      ltac:(lia)) as (r & -> & Hr).
    destruct (chain_view _ _ _ _ Hm Hp Hl') as [(Hpz' & _ & ? & ->)|(_ & Hpk & l'' & p' & -> & _)]; [done |].
    exists (r ++ [bc_hash p]). rewrite <-(assoc_L (++)). split; [done |].
    apply Forall_app_2; [eapply Forall_impl; [exact Hr |]; set_solver |].
    constructor; [right; set_solver | constructor].
Qed.

Lemma chain_present h l b : chain_to (blocks_of (chains bcl)) h l -> b ∈ l ->
  is_Some (chains bcl !! Block_Hash b).
Proof using Hm.
  induction 1 as [|h b' l Hz Hb Hl IH]; [set_solver |]. intros [->|?]%elem_of_cons; [| auto].
  apply blocks_of_inv in Hb as (bc & Hbc & <-). fold (bc_hash bc). rewrite (ky_hash _ Hm h bc); eauto.
Qed.
End Recursions.

Lemma last_common_ok x l2 : x ∈ l2 -> forall l1 d, x ∉ l1 -> exists c, last_common l1 l2 d = Ok c.
Proof.
  induction 1 as [x l2|x y l2 Hx IH]; intros [|z l1] d Hni; simpl; eauto.
  - destruct (decide _); [set_solver | eauto].
  - destruct (decide _); [apply IH; set_solver | eauto].
Qed.

Lemma getFirstCommon_ok bcl first l second sb : keyed (chains bcl) ->
  is_Some (chains bcl !! first) -> first <> zero_hash -> chain_to (blocks_of (chains bcl)) first l ->
  chains bcl !! second = Some sb -> bc_hash sb <> zero_hash -> bc_hash sb ∉ Block_Hash <$> l ->
  chains bcl !! bc_PrevHash sb = None \/ (exists l2, chain_to (blocks_of (chains bcl)) second l2) ->
  exists c, getFirstCommon bcl first second = Ok c.
Proof.
  intros Hm [f Hf] Hfz Hl Hs Hsz Hni Hsec. unfold getFirstCommon. rewrite Hf, Hs.
  cbn [mbind outcome_bind deref].
  assert (Hlen : forall h l, chain_to (blocks_of (chains bcl)) h l -> (length l < fuel_of bcl)%nat).
  { intros h l' Hc%chain_length. unfold blocks_of in Hc. rewrite map_size_fmap in Hc. unfold fuel_of. lia. }
  destruct (chain_hashes_ok bcl Hm first l ltac:(eauto) Hl (fuel_of bcl) [bc_hash f] ltac:(eauto))
    as (r & -> & Hr). cbn [mbind outcome_bind].
  assert (exists r2, chain_hashes (fuel_of bcl) bcl second [bc_hash sb] = Ok (r2 ++ [bc_hash sb]))
    as [r2 ->].
  { destruct Hsec as [Hn|[l2 Hl2]].
    - exists [zero_hash]. unfold fuel_of. cbn [chain_hashes]. rewrite Hs. cbn [mbind outcome_bind deref].
      by rewrite Hn.
    - destruct (chain_hashes_ok bcl Hm second l2 ltac:(eauto) Hl2 (fuel_of bcl) [bc_hash sb] ltac:(eauto))
        as (r2 & -> & _). eauto. }
  cbn [mbind outcome_bind]. apply (last_common_ok (bc_hash sb)); [set_solver |].
  intros [Hin|Hin%list_elem_of_singleton]%elem_of_app.
  - rewrite Forall_forall in Hr. apply Hr in Hin as [?|?]; done.
  - destruct (chain_view _ _ _ _ Hm Hf Hl) as [[? _]|(_ & Hk & l' & p & -> & _)]; [done |]. set_solver.
Qed.

(** The head moves exactly to a longer chain. *)
Lemma headChanges_spec bcl len new hb nb l l2 : keyed (chains bcl) ->
  chains bcl !! longestChain bcl = Some hb -> chain_to (blocks_of (chains bcl)) (longestChain bcl) l ->
  LengthOfChain hb = Z.of_nat (length l) ->
  chains bcl !! new = Some nb -> new <> zero_hash -> bc_hash nb = new -> new ∉ Block_Hash <$> l ->
  0 < len -> chain_to (blocks_of (chains bcl)) new l2 ->
  headChanges bcl len new = Ok
    (if LengthOfChain hb <? len then (mkLedger new (chains bcl), bool_decide (bc_PrevHash nb <> longestChain bcl), true)
     else (bcl, false, false)).
Proof.
  intros Hm Hh Hl Hlen Hn Hz Hk Hni Hpos Hl2. unfold headChanges. rewrite Hh, Hn. cbn [mbind outcome_bind deref].
  assert (Hf : forall h l, chain_to (blocks_of (chains bcl)) h l -> (length l < fuel_of bcl)%nat).
  { intros h l' Hc%chain_length. unfold blocks_of in Hc. rewrite map_size_fmap in Hc. unfold fuel_of. lia. }
  destruct (_ <? _) eqn:Hlt.
  - destruct (getBlocksInChain_ok (mkLedger (bc_hash nb) (chains bcl)) Hm new l2 ltac:(eauto) Hl2 (fuel_of bcl)
      ltac:(eauto)) as [s Hs].
    replace (fuel_of (mkLedger (bc_hash nb) (chains bcl))) with (fuel_of bcl) by done.
    destruct (decide _) as [Hd|Hd].
    + destruct (getDegreeOfForkage_ok bcl Hm (longestChain bcl) l new ltac:(eauto) Hl ltac:(eauto)
        (fuel_of bcl) ltac:(eauto)) as [z ->]. cbn [mbind outcome_bind]. rewrite Hs. cbn [mbind outcome_bind].
      by rewrite bool_decide_eq_true_2, Hk.
    + cbn [mbind outcome_bind]. rewrite Hs. cbn [mbind outcome_bind].
      by rewrite bool_decide_eq_false_2, Hk.
  - destruct (getFirstCommon_ok bcl (longestChain bcl) l new nb) as [c ->]; try done; eauto; [| by rewrite Hk..].
    intros Heq. rewrite Heq in Hl. inversion Hl; subst; [| done]. simpl in Hlen. lia.
Qed.

(** ** Inserting a block whose parent is known *)
Lemma range_loop_id {A X} (body : A -> X -> outcome (A * bool)) l a :
  (forall x, x ∈ l -> body a x = Ok (a, false)) -> range_loop body l a = Ok (a, false).
Proof.
  induction l as [|x l IH]; intros H; cbn [range_loop]; [done |].
  rewrite H by set_solver. simpl. apply IH. set_solver.
Qed.

Lemma range_loop_one {A X} (body : A -> X -> outcome (A * bool)) l a a' x0 :
  NoDup l -> x0 ∈ l -> body a x0 = Ok (a', false) ->
  (forall x, x ∈ l -> x <> x0 -> body a x = Ok (a, false) /\ body a' x = Ok (a', false)) ->
  range_loop body l a = Ok (a', false).
Proof.
  induction 1 as [|x l Hx Hnd IH]; [set_solver |]. intros [->|Hin]%elem_of_cons Hb Hother; cbn [range_loop].
  - rewrite Hb. cbn [mbind outcome_bind]. apply range_loop_id. intros y Hy. apply Hother; [set_solver | congruence].
  - destruct (Hother x ltac:(set_solver) ltac:(congruence)) as [-> _]. cbn [mbind outcome_bind].
    apply IH; [done | done |]. intros y ??. apply Hother; set_solver.
Qed.

Lemma blocks_of_insert m h bc : blocks_of (<[h := bc]> m) = <[h := bc_Block bc]> (blocks_of m).
Proof. apply fmap_insert. Qed.
Lemma blocks_of_set_forks m h s p : m !! h = Some p -> blocks_of (<[h := set_forks s p]> m) = blocks_of m.
Proof. intros Hh. rewrite blocks_of_insert. simpl. by apply insert_id, blocks_of_lookup. Qed.

Lemma forest_add_fork m ph p h :
  forest_ok m -> m !! ph = Some p -> ph <> zero_hash ->
  forest_ok (<[ph := set_forks ({[h]} ∪ Forks p) p]> m).
Proof.
  intros [(forks & Hg & Hforks) Hb] Hp Hz. split.
  - exists forks. rewrite lookup_insert_ne by done. split; [done |].
    intros h' (bc & Hbc & Hbz)%Hforks. destruct (decide (h' = ph)) as [->|].
    + simplify_eq. eexists. by rewrite lookup_insert_eq.
    + exists bc. by rewrite lookup_insert_ne.
  - intros h' bc Hz'. rewrite blocks_of_set_forks by done.
    intros [[<- <-]|[_ Hbc]]%lookup_insert_Some; [| by apply Hb]. by apply Hb in Hp.
Qed.

Lemma forest_insert m b p l :
  let h := Block_Hash b in
  let m1 := <[b_PrevHash b := set_forks ({[h]} ∪ Forks p) p]> m in
  forest_ok m -> m !! b_PrevHash b = Some p -> m !! h = None -> 
  chain_to (blocks_of m) (b_PrevHash b) l -> NoDup (block_names b ++ chain_names l) ->
  forest_ok (<[h := mkBC (LengthOfChain p + 1) b ∅]> m1).
Proof.
  intros h m1 Hm Hp Hh Hl Hnd. pose proof Hm as [(forks & Hg & Hforks) Hb].
  assert (h <> zero_hash) as Hhz by congruence. assert (b_PrevHash b <> h) by congruence.
  assert (Hblk : blocks_of (<[h := mkBC (LengthOfChain p + 1) b ∅]> m1) = <[h := b]> (blocks_of m)).
  { rewrite blocks_of_insert. unfold m1. by rewrite blocks_of_set_forks. }
  assert (Hmono : blocks_of m ⊆ <[h := b]> (blocks_of m)).
  { apply insert_subseteq. unfold blocks_of. by rewrite lookup_fmap, Hh. }
  split.
  - destruct (decide (b_PrevHash b = zero_hash)) as [Hz|Hz].
    + exists ({[h]} ∪ forks). assert (p = mkBC 0 emptyBlock forks) as -> by congruence.
      rewrite lookup_insert_ne by done. unfold m1. rewrite Hz, lookup_insert_eq. split; [done |].
      intros h' [->%elem_of_singleton|Hin]%elem_of_union; [rewrite lookup_insert_eq; eauto |].
      apply Hforks in Hin as (bc & Hbc & Hbz). rewrite lookup_insert_ne by congruence.
      destruct (decide (h' = zero_hash)) as [->|]; [rewrite lookup_insert_eq; eauto |].
      rewrite lookup_insert_ne by done. eauto.
    + exists forks. unfold m1. rewrite !lookup_insert_ne by done. split; [done |].
      intros h' Hin. destruct (Hforks _ Hin) as (bc & Hbc & Hbz).
      rewrite lookup_insert_ne by congruence. destruct (decide (h' = b_PrevHash b)) as [->|].
      * simplify_eq. rewrite lookup_insert_eq. eexists. split; [done |]. done.
      * rewrite lookup_insert_ne by done. eauto.
  - intros h' bc Hz'. rewrite Hblk. intros [[<- <-]|[Hne Hbc]]%lookup_insert_Some.
    + split; [done |]. exists (b :: l). split; [| split; [| done]].
      * constructor; [done | by rewrite lookup_insert_eq | eauto using chain_mono].
      * destruct (forest_chain _ _ _ Hm Hp) as (l' & Hl' & -> & _).
        rewrite (chain_det _ _ _ Hl' _ Hl). simpl. lia.
    + unfold m1 in Hbc. apply lookup_insert_Some in Hbc as [[<- <-]|[_ Hbc]].
      * apply Hb in Hp as (? & l' & ? & ? & ?); [| done]. split; [done |].
        exists l'. eauto using chain_mono.
      * apply Hb in Hbc as (? & l' & ? & ? & ?); [| done]. split; [done |]. exists l'. eauto using chain_mono.
Qed.

Section InOrder.
Context (range : gset bytes -> list bytes) (range_perm : forall s, range s ≡ₚ elements s).

(** A new block that no fork of the genesis block names as its parent reinserts nothing. *)
Lemma no_children L h claimedNames G : chains L !! zero_hash = Some G ->
  (forall x, x ∈ Forks G -> exists bc, chains L !! x = Some bc /\ bc_PrevHash bc <> h) ->
  checkOrphansAndReinsert range L h claimedNames = Ok (L, 0, zero_hash).
Proof using range_perm.
  intros Hg Hforks. unfold checkOrphansAndReinsert, getGenesis. rewrite Hg.
  cbn [mbind outcome_bind deref Forks]. rewrite range_loop_id; [done |].
  intros x Hx. rewrite range_perm, elem_of_elements in Hx. apply Hforks in Hx as (bc & Hbc & Hz).
  unfold reinsert_orphan. rewrite Hbc. cbn [mbind outcome_bind deref]. by rewrite decide_False.
Qed.
Lemma no_orphans bcl h claimedNames : forest_ok (chains bcl) -> h <> zero_hash ->
  checkOrphansAndReinsert range bcl h claimedNames = Ok (bcl, 0, zero_hash).
Proof using range_perm.
  intros [(forks & Hg & Hforks) _] Hh. eapply no_children; [exact Hg |].
  intros x (bc & Hbc & Hz)%Hforks. exists bc. split; [done | congruence].
Qed.

Lemma insertBlock_repeat bcl b : is_Some (chains bcl !! Block_Hash b) ->
  insertBlock range bcl b = Ok (bcl, (false, false, false)).
Proof. intros H. unfold insertBlock. by rewrite isPresent_true. Qed.

(** The ledger with the hash of [b] among the forks of its parent [p]. *)
Definition with_fork (bcl : BlockchainLedger) (b : Block) (p : blockOfChain) : BlockchainLedger :=
  set_chains bcl (<[b_PrevHash b := set_forks ({[Block_Hash b]} ∪ Forks p) p]> (chains bcl)).
Definition with_block (bcl : BlockchainLedger) (b : Block) (p : blockOfChain) : BlockchainLedger :=
  set_chains (with_fork bcl b p) (<[Block_Hash b := mkBC (LengthOfChain p + 1) b ∅]> (chains (with_fork bcl b p))).

Lemma insertBlock_invalid bcl b p l : chains bcl !! Block_Hash b = None ->
  chains bcl !! b_PrevHash b = Some p -> chain_to (blocks_of (chains bcl)) (b_PrevHash b) l ->
  ~ NoDup (block_names b ++ chain_names l) ->
  insertBlock range bcl b = Ok (with_fork bcl b p, (false, false, false)).
Proof.
  intros Hh Hp Hl Hnd. unfold insertBlock, isPresent.
  rewrite bool_decide_eq_false_2 by (rewrite Hh; by intros []).
  rewrite bool_decide_eq_true_2 by (rewrite Hp; eauto). rewrite Hp. cbn [mbind outcome_bind deref appendToBlock].
  destruct (checkValidTransactionsBackwards_spec (with_fork bcl b p)
    (set_length (LengthOfChain p + 1) (newBlockOfChain b)) l) as (r & Hr & Hcl).
  { unfold with_fork. cbn [chains set_chains]. by rewrite blocks_of_set_forks. }
  unfold with_fork in Hr at 1. unfold bc_hash. cbn [bc_Block newBlockOfChain]. rewrite Hr.
  destruct r as [c|]; cbn [claimed bc_Block set_length newBlockOfChain] in Hcl.
  { rewrite fresh_empty in Hcl. tauto. }
  done.
Qed.

Lemma with_block_blocks bcl b p : chains bcl !! b_PrevHash b = Some p ->
  blocks_of (chains (with_block bcl b p)) = <[Block_Hash b := b]> (blocks_of (chains bcl)).
Proof.
  intros Hp. unfold with_block, with_fork. cbn [chains set_chains].
  by rewrite blocks_of_insert, blocks_of_set_forks.
Qed.

Lemma with_block_head bcl b p h hb : chains bcl !! Block_Hash b = None ->
  chains bcl !! b_PrevHash b = Some p -> chains bcl !! h = Some hb ->
  exists hb', chains (with_block bcl b p) !! h = Some hb' /\ LengthOfChain hb' = LengthOfChain hb.
Proof.
  intros Hh Hp Hhb. unfold with_block, with_fork. cbn [chains set_chains].
  rewrite lookup_insert_ne by congruence. destruct (decide (h = b_PrevHash b)) as [->|].
  - rewrite lookup_insert_eq. eexists. split; [done |]. simplify_eq/=. congruence.
  - rewrite lookup_insert_ne by done. eauto.
Qed.

Lemma insertBlock_valid bcl b p l : ledger_ok bcl -> chains bcl !! Block_Hash b = None ->
  chains bcl !! b_PrevHash b = Some p -> chain_to (blocks_of (chains bcl)) (b_PrevHash b) l ->
  NoDup (block_names b ++ chain_names l) ->
  exists hb, chains bcl !! longestChain bcl = Some hb /\
  insertBlock range bcl b = Ok
    (if LengthOfChain hb <? LengthOfChain p + 1
     then (mkLedger (Block_Hash b) (chains (with_block bcl b p)),
           (true, bool_decide (b_PrevHash b <> longestChain bcl), true))
     else (with_block bcl b p, (true, false, false))).
Proof using range_perm.
  intros [Hm (hb & Hhb & _)] Hh Hp Hl Hnd. exists hb. split; [done |].
  assert (Hm2 : forest_ok (chains (with_block bcl b p))) by (eapply forest_insert; eauto).
  assert (Hhz : Block_Hash b <> zero_hash).
  { destruct (ky_genesis _ (forest_keyed _ Hm)) as [? ?]. congruence. }
  unfold insertBlock, isPresent.
  rewrite bool_decide_eq_false_2 by (rewrite Hh; by intros []).
  rewrite (bool_decide_eq_true_2 (is_Some (_ !! b_PrevHash b))) by (rewrite Hp; eauto).
  rewrite Hp. cbn [mbind outcome_bind deref appendToBlock].
  destruct (checkValidTransactionsBackwards_spec (with_fork bcl b p)
    (set_length (LengthOfChain p + 1) (newBlockOfChain b)) l) as (r & Hr & Hcl).
  { unfold with_fork. cbn [chains set_chains]. by rewrite blocks_of_set_forks. }
  unfold with_fork in Hr at 1. unfold bc_hash. cbn [bc_Block newBlockOfChain]. rewrite Hr.
  destruct r as [c|]; cbn [claimed bc_Block set_length newBlockOfChain] in Hcl;
    [| by rewrite fresh_empty in Hcl].
  cbn [mbind outcome_bind]. rewrite (bool_decide_eq_false_2 (Some c = None)) by done. cbn [andb].
  change (set_chains (set_chains bcl _) _) with (with_block bcl b p).
  rewrite no_orphans by done. cbn [mbind outcome_bind].
  assert (Hnb : chains (with_block bcl b p) !! Block_Hash b = Some (mkBC (LengthOfChain p + 1) b ∅))
    by apply lookup_insert_eq.
  rewrite Hnb. cbn [mbind outcome_bind deref LengthOfChain].
  destruct (forest_chain _ _ _ Hm Hp) as (l' & Hl' & Hlen & _).
  rewrite (proj2 (Z.ltb_lt 0 _)) by lia.
  destruct (forest_chain _ _ _ Hm Hhb) as (lh & Hlh & Hhlen & _).
  assert (Hmono : blocks_of (chains bcl) ⊆ blocks_of (chains (with_block bcl b p))).
  { rewrite with_block_blocks by done. apply insert_subseteq. unfold blocks_of. by rewrite lookup_fmap, Hh. }
  destruct (forest_chain _ _ _ Hm2 Hnb) as (l2 & Hl2 & _).
  destruct (with_block_head bcl b p (longestChain bcl) hb) as (hb' & Hhb' & Hlen'); try done.
  rewrite (headChanges_spec (with_block bcl b p) _ _ hb' (mkBC (LengthOfChain p + 1) b ∅) lh l2); try done.
  - rewrite Hlen'. by destruct (_ <? _).
  - by apply forest_keyed.
  - by eapply chain_mono.
  - congruence.
  - intros (b' & Heq & Hin)%list_elem_of_fmap. destruct (chain_present bcl (forest_keyed _ Hm) _ _ _ Hlh Hin).
    congruence.
  - lia.
Qed.

Lemma with_block_ok bcl b p l : ledger_ok bcl -> chains bcl !! Block_Hash b = None ->
  chains bcl !! b_PrevHash b = Some p -> chain_to (blocks_of (chains bcl)) (b_PrevHash b) l ->
  NoDup (block_names b ++ chain_names l) ->
  forall hb, chains bcl !! longestChain bcl = Some hb ->
  let m := chains (with_block bcl b p) in
  blocks_of m = <[Block_Hash b := b]> (blocks_of (chains bcl)) /\
  ledger_ok (if LengthOfChain hb <? LengthOfChain p + 1 then mkLedger (Block_Hash b) m
             else with_block bcl b p).
Proof.
  intros [Hm (hb0 & Hhb0 & Hmax)] Hh Hp Hl Hnd hb Hhb m. assert (hb0 = hb) as -> by congruence.
  assert (Hblk : blocks_of m = <[Block_Hash b := b]> (blocks_of (chains bcl))).
  { by apply with_block_blocks. }
  split; [done |].
  assert (Hall : forall h bc, m !! h = Some bc ->
    LengthOfChain bc = LengthOfChain p + 1 \/ exists bc', chains bcl !! h = Some bc' /\
      LengthOfChain bc = LengthOfChain bc').
  { unfold m, with_block, with_fork. cbn [chains set_chains].
    intros h bc [[<- <-]|[_ [[<- <-]|[_ ?]]%lookup_insert_Some]]%lookup_insert_Some; [by left | right; eauto..]. }
  assert (Hself : m !! Block_Hash b = Some (mkBC (LengthOfChain p + 1) b ∅)) by apply lookup_insert_eq.
  assert (Hm2 : forest_ok m) by (eapply forest_insert; eauto).
  destruct (Z.ltb_spec (LengthOfChain hb) (LengthOfChain p + 1)); (split; [exact Hm2 |]).
  - exists (mkBC (LengthOfChain p + 1) b ∅). split; [exact Hself |]. cbn [chains LengthOfChain].
    intros h bc [?|(bc' & ?%Hmax & ?)]%Hall; lia.
  - destruct (with_block_head bcl b p (longestChain bcl) hb) as (hb' & Hhb' & Hlen'); try done.
    exists hb'. split; [done |]. intros h bc [?|(bc' & ?%Hmax & ?)]%Hall; lia.
Qed.

End InOrder.

(** ** Theorems about the ledger *)
Lemma NewBlockchainLedger_ok : ledger_ok NewBlockchainLedger.
Proof.
  assert (Hl : forall h bc, chains NewBlockchainLedger !! h = Some bc -> h = zero_hash /\ bc = newGenesisBlock).
  { intros h bc. unfold NewBlockchainLedger. cbn [chains]. by intros [<- <-]%lookup_singleton_Some. }
  assert (Hg : chains NewBlockchainLedger !! zero_hash = Some newGenesisBlock) by apply lookup_singleton_eq.
  split; [split |].
  - exists ∅. split; [exact Hg | set_solver].
  - by intros h bc Hz [-> _]%Hl.
  - exists newGenesisBlock. split; [exact Hg |]. by intros h bc [_ ->]%Hl.
Qed.

(** C15. The ledger of blocks that arrive after their parents.  A new ledger is well formed, and
    inserting a block whose parent is known keeps it so: every block is stored under its
    hash and extends a chain down to the genesis block, along which no name is claimed
    twice and whose length it records, and the head is a block of greatest length.  The
    block is added exactly if it is new and its names are free along its chain; it becomes
    the head exactly if it is longer, and the head has then changed branch unless the block
    extends it.  (For a child of the genesis block the names of the block itself have to be
    distinct; see [invalid_genesis_child_panics].) *)
Theorem insertBlock_in_order range bcl b p :
  (forall s, range s ≡ₚ elements s) -> ledger_ok bcl -> chains bcl !! b_PrevHash b = Some p ->
  (b_PrevHash b = zero_hash -> NoDup (block_names b)) ->
  ledger_ok NewBlockchainLedger /\
  exists l hd bcl' res, chain_to (blocks_of (chains bcl)) (b_PrevHash b) l /\
    chains bcl !! longestChain bcl = Some hd /\
    insertBlock range bcl b = Ok (bcl', res) /\ ledger_ok bcl' /\
    let h := Block_Hash b in
    let grew := LengthOfChain hd <? LengthOfChain p + 1 in
    if decide (chains bcl !! h = None /\ NoDup (block_names b ++ chain_names l)) then
      blocks_of (chains bcl') = <[h := b]> (blocks_of (chains bcl)) /\
      longestChain bcl' = (if grew then h else longestChain bcl) /\
      res = (true, grew && bool_decide (b_PrevHash b <> longestChain bcl), grew)
    else
      blocks_of (chains bcl') = blocks_of (chains bcl) /\ longestChain bcl' = longestChain bcl /\
      res = (false, false, false).
Proof.
  intros Hr Hok Hp Hz. split; [apply NewBlockchainLedger_ok |].
  pose proof Hok as [Hm (hd & Hhd & Hmax)]. destruct (forest_chain _ _ _ Hm Hp) as (l & Hl & _).
  exists l, hd. cbv zeta. destruct (decide _) as [[Hnew Hnd]|Hno].
  - destruct (insertBlock_valid range Hr bcl b p l Hok Hnew Hp Hl Hnd) as (hd' & Hhd' & ->).
    assert (hd' = hd) as -> by congruence.
    destruct (with_block_ok bcl b p l Hok Hnew Hp Hl Hnd hd Hhd) as [Hblk Hok'].
    destruct (_ <? _); eexists _, _;
      (split_and!; [exact Hl | exact Hhd | reflexivity | exact Hok' | exact Hblk | done | done]).
  - destruct (chains bcl !! Block_Hash b) as [x|] eqn:Hnew.
    + exists bcl, (false, false, false). split_and!; try done. apply insertBlock_repeat. eauto.
    + assert (~ NoDup (block_names b ++ chain_names l)) as Hnd by tauto.
      exists (with_fork bcl b p), (false, false, false).
      assert (b_PrevHash b <> zero_hash) as Hpz.
      { intros Heq. rewrite Heq in Hl. inversion Hl; subst; [| done]. apply Hnd.
        cbn [chain_names mbind list_bind]. rewrite app_nil_r. auto. }
      split_and!; [exact Hl | exact Hhd | by apply (insertBlock_invalid range bcl b p l) | | | done | done].
      * split; [by apply forest_add_fork |]. unfold with_fork. cbn [chains set_chains longestChain].
        assert (Hlen : forall h bc, <[b_PrevHash b := set_forks ({[Block_Hash b]} ∪ Forks p) p]> (chains bcl) !! h = Some bc ->
          exists bc', chains bcl !! h = Some bc' /\ LengthOfChain bc' = LengthOfChain bc).
        { intros h bc [[<- <-]|[_ ?]]%lookup_insert_Some; eauto. }
        destruct (decide (longestChain bcl = b_PrevHash b)) as [Heq|].
        -- exists (set_forks ({[Block_Hash b]} ∪ Forks p) p). rewrite Heq, lookup_insert_eq.
           split; [done |]. intros h bc (bc' & ?%Hmax & <-)%Hlen. rewrite Heq in Hhd. by simplify_eq.
        -- exists hd. rewrite lookup_insert_ne by done. split; [done |].
           intros h bc (bc' & ?%Hmax & <-)%Hlen. done.
      * unfold with_fork. cbn [chains set_chains]. by apply blocks_of_set_forks.
Qed.


(** ** An invalid child of the genesis block *)
Lemma range_loop_panic {A X} (body : A -> X -> outcome (A * bool)) l a x0 msg :
  x0 ∈ l -> body a x0 = Panic msg ->
  (forall x, x ∈ l -> x <> x0 -> body a x = Ok (a, false)) -> EqDecision X ->
  range_loop body l a = Panic msg.
Proof.
  intros Hin Hb Hother HE. induction l as [|x l IH]; [set_solver |]. cbn [range_loop].
  destruct (decide (x = x0)) as [->|Hne]; [by rewrite Hb |].
  rewrite Hother by set_solver. cbn [mbind outcome_bind]. apply IH; [set_solver |].
  intros y ??. apply Hother; set_solver.
Qed.

(** A fork of the genesis block that is not in the ledger makes the next insertion panic. *)
Lemma checkOrphans_dangling range L b p c G d :
  (forall s, range s ≡ₚ elements s) -> chains L !! zero_hash = Some G -> d ∈ Forks G ->
  chains L !! b_PrevHash b = Some p -> chains L !! d = None -> Block_Hash b <> d ->
  chains L !! Block_Hash b = None -> 
  (forall y, y ∈ Forks G -> y <> d -> exists blk, blocks_of (chains L) !! y = Some blk /\
     b_PrevHash blk = zero_hash) ->
  checkOrphansAndReinsert range (with_block L b p) (Block_Hash b) c = Panic "nil pointer dereference".
Proof.
  intros Hr HG Hd Hp Hdn Hbd Hbn Hforks.
  destruct (with_block_head L b p zero_hash G Hbn Hp HG) as (G' & HG' & _).
  assert (HGf : Forks G' = if decide (b_PrevHash b = zero_hash) then {[Block_Hash b]} ∪ Forks G else Forks G).
  { unfold with_block, with_fork in HG'. cbn [chains set_chains] in HG'. rewrite lookup_insert_ne in HG' by congruence.
    case_decide as Hz.
    - rewrite Hz, lookup_insert_eq in HG'. apply (inj Some) in HG' as <-. cbn [Forks set_forks]. congruence.
    - rewrite lookup_insert_ne in HG' by done. congruence. }
  unfold checkOrphansAndReinsert, getGenesis. rewrite HG'. cbn [mbind outcome_bind deref].
  erewrite (range_loop_panic _ _ _ d); [done | | | | apply _].
  - rewrite Hr. apply elem_of_elements. rewrite HGf. case_decide; set_solver.
  - unfold reinsert_orphan, with_block, with_fork. cbn [chains set_chains].
    rewrite !lookup_insert_ne, Hdn by congruence. done.
  - intros y Hy Hne. rewrite Hr, elem_of_elements, HGf in Hy.
    assert (exists blk, blocks_of (chains (with_block L b p)) !! y = Some blk /\ b_PrevHash blk = zero_hash)
      as (blk & (bc & Hbc & <-)%blocks_of_inv & Hz).
    { rewrite with_block_blocks by done. destruct (decide (y = Block_Hash b)) as [->|Hyb].
      - exists b. rewrite lookup_insert_eq. split; [done |]. case_decide as Hpz; [done |].
        destruct (Hforks _ Hy Hne) as (blk & (bc & ? & _)%blocks_of_inv & _). congruence.
      - rewrite lookup_insert_ne by done. apply Hforks; [| done]. case_decide; set_solver. }
    unfold reinsert_orphan. rewrite Hbc. cbn [mbind outcome_bind deref]. rewrite decide_False; [done |].
    unfold bc_PrevHash. rewrite Hz. congruence.
Qed.

(** One invalid block ends the process of every peer.  A child of the genesis block that
    claims a name twice is not stored, but its hash stays among the forks of the genesis
    block; the next valid block makes [checkOrphansAndReinsert] dereference the block that
    is not there. *)
Theorem invalid_genesis_child_panics range bcl x b p l :
  (forall s, range s ≡ₚ elements s) -> ledger_ok bcl ->
  b_PrevHash x = zero_hash -> ~ NoDup (block_names x) -> chains bcl !! Block_Hash x = None ->
  chains bcl !! Block_Hash b = None -> Block_Hash b <> Block_Hash x ->
  chains bcl !! b_PrevHash b = Some p -> chain_to (blocks_of (chains bcl)) (b_PrevHash b) l ->
  NoDup (block_names b ++ chain_names l) ->
  exists bcl', insertBlock range bcl x = Ok (bcl', (false, false, false)) /\
    insertBlock range bcl' b = Panic "nil pointer dereference".
Proof.
  intros Hr [Hm _] Hxz Hxd Hxn Hbn Hbx Hp Hl Hnd.
  destruct (fo_genesis _ Hm) as (forks & Hg & Hforks).
  assert (Hbz : Block_Hash b <> zero_hash) by congruence.
  exists (with_fork bcl x (mkBC 0 emptyBlock forks)). split.
  { apply (insertBlock_invalid range bcl x _ []); rewrite ?Hxz; [done | done | constructor |].
    cbn [chain_names mbind list_bind]. by rewrite app_nil_r. }
  assert (Hblk : blocks_of (chains (with_fork bcl x (mkBC 0 emptyBlock forks))) = blocks_of (chains bcl)).
  { unfold with_fork. cbn [chains set_chains]. apply blocks_of_set_forks. by rewrite Hxz. }
  set (L := with_fork bcl x (mkBC 0 emptyBlock forks)) in *.
  assert (HLg : chains L !! zero_hash = Some (mkBC 0 emptyBlock ({[Block_Hash x]} ∪ forks))).
  { unfold L, with_fork. cbn [chains set_chains]. by rewrite Hxz, lookup_insert_eq. }
  assert (HLn : forall h, h <> zero_hash -> chains L !! h = chains bcl !! h).
  { intros h Hh. unfold L, with_fork. cbn [chains set_chains]. rewrite Hxz. by rewrite lookup_insert_ne. }
  clearbody L.
  assert (exists p', chains L !! b_PrevHash b = Some p') as [p' Hp'].
  { destruct (decide (b_PrevHash b = zero_hash)) as [->|]; [eauto |]. rewrite HLn by done. eauto. }
  unfold insertBlock, isPresent. rewrite bool_decide_eq_false_2 by (rewrite HLn, Hbn by done; by intros []).
  rewrite (bool_decide_eq_true_2 (is_Some (_ !! b_PrevHash b))) by (rewrite Hp'; eauto).
  rewrite Hp'. cbn [mbind outcome_bind deref appendToBlock].
  destruct (checkValidTransactionsBackwards_spec (with_fork L b p')
    (set_length (LengthOfChain p' + 1) (newBlockOfChain b)) l) as (r & Hc & Hcl).
  { unfold with_fork. cbn [chains set_chains]. rewrite blocks_of_set_forks by done. by rewrite Hblk. }
  unfold with_fork in Hc at 1. unfold bc_hash. cbn [bc_Block newBlockOfChain]. rewrite Hc.
  destruct r as [c|]; cbn [claimed bc_Block set_length newBlockOfChain] in Hcl;
    [| by rewrite fresh_empty in Hcl].
  cbn [mbind outcome_bind]. rewrite (bool_decide_eq_false_2 (Some c = None)) by done. cbn [andb].
  change (set_chains (set_chains L _) _) with (with_block L b p').
  rewrite (checkOrphans_dangling range L b p' (Some c) _ (Block_Hash x) Hr HLg);
    [done | cbn [Forks]; set_solver | exact Hp' | rewrite HLn; congruence | done | by rewrite HLn |].
  cbn [Forks]. intros y Hy Hne. assert (y ∈ forks) as Hyf by set_solver.
  destruct (Hforks _ Hyf) as (bc & Hbc%blocks_of_lookup & Hz). rewrite <-Hblk in Hbc. eauto.
Qed.

(** ** A ledger with one block, whose hash meets the difficulty *)
Definition sample_tx (name : string) : TxPublish := mkTxPublish (mkFile name 5 [1; 2]) 10.
Definition sample_nonce (n : Z) : bytes := replicate 28 0 ++ be_split 4 n.
Definition sample_block (prev : bytes) (n : Z) (names : list string) : Block :=
  mkBlock prev (sample_nonce n) (sample_tx <$> names).
Definition block_f : Block := sample_block zero_hash 11537 ["f"%string].
Definition hash_f : bytes := Eval vm_compute in Block_Hash block_f.
Definition sample_ledger : BlockchainLedger :=
  mkLedger hash_f (<[hash_f := mkBC 1 block_f ∅]>
    {[zero_hash := mkBC 0 emptyBlock {[hash_f]}]}).

Example block_f_valid : checkValid block_f = true.
Proof. vm_compute. reflexivity. Qed.
Lemma hash_f_eq : Block_Hash block_f = hash_f.
Proof. vm_compute. reflexivity. Qed.
(** Distinct hashes, decided by their numbers. *)
Lemma be_ne l1 l2 : (be l1 =? be l2) = false -> l1 <> l2.
Proof. intros H ->. by rewrite Z.eqb_refl in H. Qed.
Ltac hashes_differ := apply be_ne; vm_compute; reflexivity.
Lemma hash_f_zero : hash_f <> zero_hash.
Proof. hashes_differ. Qed.

Lemma sample_ledger_ok : ledger_ok sample_ledger.
Proof.
  assert (Hg : chains NewBlockchainLedger !! zero_hash = Some newGenesisBlock) by apply lookup_singleton_eq.
  assert (Hn : chains NewBlockchainLedger !! Block_Hash block_f = None).
  { rewrite hash_f_eq. unfold NewBlockchainLedger. cbn [chains]. rewrite lookup_singleton_ne; [done |].
    intros Heq. symmetry in Heq. by apply hash_f_zero. }
  destruct (with_block_ok NewBlockchainLedger block_f newGenesisBlock [] NewBlockchainLedger_ok Hn Hg
    (chain_genesis _) ltac:(apply NoDup_singleton) newGenesisBlock Hg) as [_ Hok].
  change (LengthOfChain newGenesisBlock <? LengthOfChain newGenesisBlock + 1) with true in Hok.
  cbv iota in Hok. unfold with_block, with_fork in Hok. cbn [chains set_chains NewBlockchainLedger] in Hok.
  rewrite hash_f_eq in Hok. change (b_PrevHash block_f) with zero_hash in Hok.
  rewrite insert_singleton_eq in Hok. unfold set_forks, newGenesisBlock in Hok.
  cbn [LengthOfChain bc_Block Forks] in Hok. rewrite (right_id_L ∅ (∪)) in Hok. exact Hok.
Qed.
Lemma sample_chain : chain_to (blocks_of (chains sample_ledger)) hash_f [block_f].
Proof.
  constructor; [apply hash_f_zero | | constructor]. unfold sample_ledger. cbn [chains].
  by rewrite blocks_of_insert, lookup_insert_eq.
Qed.

Lemma range_elements (s : gset bytes) : elements s ≡ₚ elements s.
Proof. done. Qed.
Lemma insertBlock_in_order_witness :
  exists bcl', insertBlock elements NewBlockchainLedger block_f = Ok (bcl', (true, false, true)) /\ ledger_ok bcl'.
Proof.
  destruct (insertBlock_in_order elements NewBlockchainLedger block_f newGenesisBlock range_elements
    NewBlockchainLedger_ok (lookup_singleton_eq _ _) ltac:(intros _; apply NoDup_singleton))
    as (_ & l & hd & bcl' & res & Hl & Hhd & Hi & Hok & Hres).
  assert (l = []) as -> by exact (chain_det _ _ _ Hl _ (chain_genesis _)).
  assert (Hd : hd = newGenesisBlock).
  { vm_compute in Hhd. injection Hhd as <-. reflexivity. }
  subst hd. rewrite decide_True in Hres.
  - exists bcl'. destruct Hres as (_ & _ & ->). split; [| exact Hok]. rewrite Hi. reflexivity.
  - split; [| apply NoDup_singleton]. rewrite hash_f_eq. apply lookup_singleton_ne.
    intros Heq. symmetry in Heq. by apply hash_f_zero.
Defined.

Definition block_ff : Block := sample_block zero_hash 1 ["f"%string; "f"%string].
Lemma invalid_genesis_child_panics_witness :
  exists bcl', insertBlock elements NewBlockchainLedger block_ff = Ok (bcl', (false, false, false)) /\
    insertBlock elements bcl' block_f = Panic "nil pointer dereference".
Proof.
  assert (Hnot : forall h : bytes, h <> zero_hash -> chains NewBlockchainLedger !! h = None).
  { intros h Hh. by apply lookup_singleton_ne. }
  apply (invalid_genesis_child_panics elements NewBlockchainLedger block_ff block_f newGenesisBlock []).
  - apply range_elements.
  - apply NewBlockchainLedger_ok.
  - reflexivity.
  - intros H%NoDup_cons. apply (proj1 H). constructor.
  - apply Hnot. hashes_differ.
  - apply Hnot. hashes_differ.
  - hashes_differ.
  - apply lookup_singleton_eq.
  - constructor.
  - apply NoDup_singleton.
Defined.
