(* ===== verification/Orphans.v ===== *)
(** * Blocks that arrive before their parents (gossiper/blockchain.go)

    [insertBlock] keeps a block whose parent is not known below the genesis block, and
    [checkOrphansAndReinsert] moves it to its parent once that arrives.  The definitions are
    in [Blockchain]; this file compares the two orders of arrival. *)
From S2P Require Import Prelude Sha2 Dto Containers Gossip Blockchain.

Section Orphan.
Context (range : gset bytes -> list bytes) (range_perm : forall s, range s ≡ₚ elements s).

(** ** An orphan, and then its parent *)
Context (bcl : BlockchainLedger) (o b : Block) (p : blockOfChain) (l : list Block).
Abbreviation hash_o := (Block_Hash o).
Abbreviation hash_b := (Block_Hash b).
Context (Hok : ledger_ok bcl) (Hp : chains bcl !! b_PrevHash b = Some p)
  (Hl : chain_to (blocks_of (chains bcl)) (b_PrevHash b) l)
  (Hnob : chains bcl !! hash_b = None) (Hnoo : chains bcl !! hash_o = None)
  (Hlink : b_PrevHash o = hash_b) (Hne : hash_o <> hash_b)
  (Hnames : NoDup (block_names o ++ block_names b ++ chain_names l)).

Definition with_orphan : BlockchainLedger :=
  let genesis := default newGenesisBlock (getGenesis bcl) in
  set_chains bcl (<[hash_o := mkBC 1 o ∅]> (<[zero_hash := set_forks ({[hash_o]} ∪ Forks genesis) genesis]> (chains bcl))).

Lemma ho_zero : hash_o <> zero_hash.
Proof using Hok Hnoo. clear Hnob. destruct (ky_genesis _ (forest_keyed _ (lo_forest _ Hok))) as [? ?]. congruence. Qed.
Lemma hb_zero : hash_b <> zero_hash.
Proof using Hok Hnob. clear Hnoo. destruct (ky_genesis _ (forest_keyed _ (lo_forest _ Hok))) as [? ?]. congruence. Qed.

Lemma orphan_blocks : blocks_of (chains with_orphan) = <[hash_o := o]> (blocks_of (chains bcl)).
Proof using Hok.
  destruct (ky_genesis _ (forest_keyed _ (lo_forest _ Hok))) as [forks Hg].
  unfold with_orphan, getGenesis. cbn [chains set_chains]. rewrite Hg. cbn [default].
  rewrite blocks_of_insert, blocks_of_set_forks; [done | exact Hg].
Qed.

Lemma orphan_mono : blocks_of (chains bcl) ⊆ blocks_of (chains with_orphan).
Proof using Hok Hnoo.
  rewrite orphan_blocks. apply insert_subseteq. unfold blocks_of. by rewrite lookup_fmap, Hnoo.
Qed.

Lemma orphan_keyed : keyed (chains with_orphan).
Proof using Hok Hnoo.
  destruct (forest_keyed _ (lo_forest _ Hok)) as [[forks Hg] Hk].
  unfold with_orphan, getGenesis. cbn [chains set_chains]. rewrite Hg. cbn [default]. split.
  - exists ({[hash_o]} ∪ forks). rewrite lookup_insert_ne by apply ho_zero. by rewrite lookup_insert_eq.
  - intros h bc Hz [[<- <-]|[_ [[<- <-]|[_ ?]]%lookup_insert_Some]]%lookup_insert_Some;
      [reflexivity | by destruct Hz | auto].
Qed.

(** The forks of the genesis block other than the orphan are its children. *)
Lemma orphan_forks h : h <> hash_o -> (exists G, chains with_orphan !! zero_hash = Some G /\ h ∈ Forks G) ->
  exists bc, chains with_orphan !! h = Some bc /\ bc_PrevHash bc = zero_hash.
Proof using All.
  destruct (fo_genesis _ (lo_forest _ Hok)) as (forks & Hg & Hf). intros Hh (G & HG & Hin).
  unfold with_orphan, getGenesis in *. cbn [chains set_chains] in *. rewrite Hg in *. cbn [default] in *.
  rewrite lookup_insert_ne, lookup_insert_eq in HG by apply ho_zero. simplify_eq. cbn [Forks set_forks] in Hin.
  rewrite lookup_insert_ne by done. destruct (Hf h ltac:(set_solver)) as (bc & Hbc & Hz).
  destruct (decide (h = zero_hash)) as [->|]; [rewrite lookup_insert_eq; eauto |].
  rewrite lookup_insert_ne by done. eauto.
Qed.

Lemma insert_orphan : (exists hd, chains bcl !! longestChain bcl = Some hd /\ 1 <= LengthOfChain hd) ->
  insertBlock range bcl o = Ok (with_orphan, (true, false, false)).
Proof using All.
  intros (hd & Hhd & Hhlen).
  destruct (ky_genesis _ (forest_keyed _ (lo_forest _ Hok))) as [forks Hg].
  unfold insertBlock, isPresent. rewrite Hlink.
  rewrite !bool_decide_eq_false_2 by (rewrite ?Hnoo, ?Hnob; by intros []).
  rewrite Hg. cbn [mbind outcome_bind deref appendToBlock].
  unfold checkValidTransactionsBackwards, bc_PrevHash.
  cbn [bc_Block set_length newBlockOfChain].
  destruct (claim_spec (b_Transactions o) (NewSafeStringArray [])) as [H1 H2].
  destruct (claim _ _) as [c v]. cbn [fst snd ssa_exists NewSafeStringArray foldl] in H1, H2. subst v.
  rewrite bool_decide_eq_true_2 by (rewrite fresh_empty; by apply NoDup_app in Hnames as [? _]).
  unfold fuel_of. cbn [claim_backwards chains set_chains].
  rewrite Hlink, decide_False by apply hb_zero.
  rewrite lookup_insert_ne by (intros Heq; by apply hb_zero). rewrite Hnob.
  cbn [mbind outcome_bind andb].
  assert (Hwo : with_orphan = set_chains bcl (<[hash_o := mkBC 1 o ∅]>
    (<[zero_hash := mkBC 0 emptyBlock ({[hash_o]} ∪ forks)]> (chains bcl)))).
  { unfold with_orphan, getGenesis. by rewrite Hg. }
  match goal with |- context [checkOrphansAndReinsert _ ?L _ _] => replace L with with_orphan by done end.
  assert (Ho : chains with_orphan !! hash_o = Some (mkBC 1 o ∅)) by apply lookup_insert_eq.
  destruct (ky_genesis _ orphan_keyed) as [forks' HG].
  rewrite (no_children range range_perm with_orphan _ _ _ HG).
  2:{ intros x Hx. destruct (decide (x = hash_o)) as [->|Hxo].
      - exists (mkBC 1 o ∅). split; [done |]. unfold bc_PrevHash. cbn [bc_Block]. congruence.
      - destruct (orphan_forks x Hxo) as (bc & Hbc & Hz); [eauto |]. exists bc. split; [done |].
        rewrite Hz. intros Heq. by apply ho_zero. }
  cbn [mbind outcome_bind]. rewrite Ho. cbn [mbind outcome_bind deref LengthOfChain].
  change (0 <? 1) with true. cbn [mbind outcome_bind].
  assert (Hhd' : exists hd', chains with_orphan !! longestChain bcl = Some hd' /\
    LengthOfChain hd' = LengthOfChain hd).
  { rewrite Hwo. cbn [chains set_chains]. rewrite lookup_insert_ne by congruence.
    rewrite lookup_insert_ne; [eauto |]. intros Heq. rewrite <-Heq, Hg in Hhd. by simplify_eq/=. }
  destruct Hhd' as (hd' & Hhd' & Hlen').
  unfold headChanges. change (longestChain with_orphan) with (longestChain bcl). rewrite Hhd'.
  cbn [mbind outcome_bind deref]. rewrite (proj2 (Z.ltb_ge _ _)) by lia.
  destruct (forest_chain _ _ _ (lo_forest _ Hok) Hhd) as (lh & Hlh & _).
  destruct (getFirstCommon_ok with_orphan (longestChain bcl) lh hash_o (mkBC 1 o ∅)) as [cm ->];
    [apply orphan_keyed | eauto | | | done | apply ho_zero | | | done].
  - intros Heq. rewrite Heq, Hg in Hhd. by simplify_eq/=.
  - eapply chain_mono; [apply orphan_mono | done].
  - intros (b' & Heq & Hin)%list_elem_of_fmap.
    destruct (chain_present bcl (forest_keyed _ (lo_forest _ Hok)) _ _ _ Hlh Hin) as [x Hx].
    unfold bc_hash in Heq. cbn [bc_Block] in Heq. congruence.
  - left. unfold bc_PrevHash. cbn [bc_Block]. rewrite Hlink, Hwo. cbn [chains set_chains].
    rewrite lookup_insert_ne by done. rewrite lookup_insert_ne; [done |]. intros Heq. by apply hb_zero.
Qed.

Lemma orphan_parent : exists p2, chains with_orphan !! b_PrevHash b = Some p2 /\
  LengthOfChain p2 = LengthOfChain p.
Proof using All.
  destruct (ky_genesis _ (forest_keyed _ (lo_forest _ Hok))) as [forks Hg].
  unfold with_orphan, getGenesis. cbn [chains set_chains]. rewrite Hg. cbn [default].
  rewrite lookup_insert_ne by congruence. destruct (decide (b_PrevHash b = zero_hash)) as [Hz|].
  - rewrite Hz, lookup_insert_eq. eexists. split; [done |]. rewrite Hz, Hg in Hp. by simplify_eq.
  - rewrite lookup_insert_ne by done. eauto.
Qed.

(** The ledger of both blocks, inserted in order. *)
Definition both_blocks : gmap bytes blockOfChain :=
  chains (with_block (with_block bcl b p) o (mkBC (LengthOfChain p + 1) b ∅)).

(** Reinserting the orphan gives the same blocks. *)
Lemma reinserted p2 G4 : chains with_orphan !! b_PrevHash b = Some p2 ->
  let L4 := with_block with_orphan b p2 in
  chains L4 !! zero_hash = Some G4 ->
  <[hash_o := mkBC (LengthOfChain p + 1 + 1) o ∅]>
    (<[hash_b := mkBC (LengthOfChain p + 1) b {[hash_o]}]>
      (<[zero_hash := removeFork G4 (mkBC 1 o ∅)]> (chains L4))) = both_blocks.
Proof using All.
  intros Hp2 L4 HG4. destruct (fo_genesis _ (lo_forest _ Hok)) as (forks & Hg & Hforks).
  assert (Hfo : hash_o ∉ forks) by (intros (? & ? & _)%Hforks; congruence).
  pose proof ho_zero as Hoz. pose proof hb_zero as Hbz.
  assert (Hpo : b_PrevHash b <> hash_o) by congruence.
  assert (Hpb : b_PrevHash b <> hash_b) by congruence.
  unfold L4, both_blocks, with_block, with_fork, with_orphan, getGenesis in *. cbn [chains set_chains] in *.
  rewrite Hg in *. cbn [default] in *. rewrite Hlink.
  apply map_eq. intros k.
  destruct (decide (k = hash_o)) as [->|Hko]; [by rewrite !lookup_insert_eq |].
  rewrite !(lookup_insert_ne _ hash_o) by done.
  destruct (decide (k = hash_b)) as [->|Hkb]; [rewrite !lookup_insert_eq |].
  { f_equal. unfold set_forks. cbn [LengthOfChain bc_Block Forks]. f_equal. set_solver. }
  rewrite !(lookup_insert_ne _ hash_b) by done.
  destruct (decide (k = zero_hash)) as [->|Hkz]; [rewrite lookup_insert_eq |].
  - rewrite lookup_insert_ne in HG4 by done.
    destruct (decide (b_PrevHash b = zero_hash)) as [Hz|Hz].
    + rewrite Hz, lookup_insert_eq in HG4 |- *. rewrite Hz, Hg in Hp.
      rewrite Hz, lookup_insert_ne, lookup_insert_eq in Hp2 by done. simplify_eq.
      f_equal. unfold removeFork, set_forks, bc_hash. cbn [LengthOfChain bc_Block Forks]. f_equal. set_solver.
    + rewrite lookup_insert_ne in HG4 |- * by done. rewrite lookup_insert_ne, lookup_insert_eq in HG4 by done.
      rewrite Hg. simplify_eq. f_equal. unfold removeFork, set_forks, bc_hash.
      cbn [LengthOfChain bc_Block Forks]. f_equal. set_solver.
  - rewrite !(lookup_insert_ne _ zero_hash) by done.
    destruct (decide (k = b_PrevHash b)) as [->|Hkp]; [rewrite !lookup_insert_eq |].
    + rewrite lookup_insert_ne, lookup_insert_ne in Hp2 by done.
      assert (p2 = p) as -> by congruence. by rewrite lookup_insert_ne, lookup_insert_eq.
    + by rewrite ?lookup_insert_ne by done.
Qed.

Lemma range_empty : range ∅ = [].
Proof using range_perm. apply Permutation_nil_r. by rewrite range_perm, elements_empty. Qed.

(** Pruning a block without forks whose names are free keeps it. *)
Lemma prune_leaf L h bc c : chains L !! h = Some bc -> Forks bc = ∅ ->
  fresh (ssa_exists c) (block_names (bc_Block bc)) ->
  exists c', pruneInvalidForks range (fuel_of L) L h (Some c) = Ok (L, c', true).
Proof using range_perm.
  intros Hh Hf Hfr. unfold fuel_of. cbn [pruneInvalidForks]. rewrite Hh. cbn [mbind outcome_bind deref].
  rewrite Hf, range_empty.
  destruct (claim_spec (b_Transactions (bc_Block bc)) c) as [H1 _].
  rewrite bool_decide_eq_true_2 in H1 by done.
  destruct (b_Transactions (bc_Block bc)) as [|tx txs]; [eauto |].
  cbn [mbind outcome_bind deref]. destruct (claim c _) as [c' v]. simpl in H1. subst v.
  cbn. eauto.
Qed.

Lemma update_leaf L h bc pb : chains L !! h = Some bc -> Forks bc = ∅ ->
  chains L !! bc_PrevHash bc = Some pb ->
  recursiveUpdateLength range (fuel_of L) L h =
    Ok (set_chains L (<[h := set_length (LengthOfChain pb + 1) bc]> (chains L)), LengthOfChain pb + 1, h).
Proof using range_perm.
  intros Hh Hf Hpb. unfold fuel_of. cbn [recursiveUpdateLength]. rewrite Hh. cbn [mbind outcome_bind deref].
  rewrite Hpb. cbn [mbind outcome_bind deref]. by rewrite Hf, range_empty.
Qed.

Lemma reinsert_step p2 c : chains with_orphan !! b_PrevHash b = Some p2 ->
  ssa_exists c = list_to_set (block_names b ++ chain_names l) ->
  exists c', reinsert_orphan range hash_b (with_block with_orphan b p2, Some c, 0, zero_hash) hash_o =
    Ok (set_chains bcl both_blocks, c', LengthOfChain p + 1 + 1, hash_o, false).
Proof using All.
  intros Hp2 Hc. pose proof ho_zero as Hoz. pose proof hb_zero as Hbz.
  assert (Hlen2 : LengthOfChain p2 = LengthOfChain p).
  { destruct orphan_parent as (p2' & ? & ?). congruence. }
  destruct (with_block_head with_orphan b p2 zero_hash) with (hb := default newGenesisBlock (chains with_orphan !! zero_hash))
    as (G4 & HG4 & _); [| done | |].
  { unfold with_orphan. cbn [chains set_chains]. by rewrite !lookup_insert_ne by done. }
  { destruct (ky_genesis _ orphan_keyed) as [? ->]. done. }
  pose proof (reinserted p2 G4 Hp2 HG4) as Hre. cbv zeta in Hre.
  set (L4 := with_block with_orphan b p2) in *.
  assert (Ho4 : chains L4 !! hash_o = Some (mkBC 1 o ∅)).
  { unfold L4, with_block, with_fork, with_orphan. cbn [chains set_chains].
    rewrite lookup_insert_ne, lookup_insert_ne by congruence. by rewrite lookup_insert_eq. }
  assert (Hb4 : chains L4 !! hash_b = Some (mkBC (LengthOfChain p + 1) b ∅)).
  { unfold L4, with_block. cbn [chains set_chains]. by rewrite lookup_insert_eq, Hlen2. }
  unfold reinsert_orphan. rewrite Ho4. cbn [mbind outcome_bind deref].
  rewrite decide_True by exact Hlink. unfold getGenesis. rewrite HG4. cbn [mbind outcome_bind deref].
  destruct (prune_leaf (set_chains L4 (<[zero_hash := removeFork G4 (mkBC 1 o ∅)]> (chains L4))) hash_o
    (mkBC 1 o ∅) c) as (c' & Hpr).
  { cbn [chains set_chains]. by rewrite lookup_insert_ne. }
  { done. }
  { rewrite Hc. cbn [bc_Block]. apply NoDup_app in Hnames as (H1 & H2 & _). split; [done |].
    apply Forall_forall. intros x Hx. rewrite elem_of_list_to_set. auto. }
  rewrite Hpr. cbn [mbind outcome_bind chains set_chains].
  rewrite lookup_insert_ne, Hb4 by done. cbn [mbind outcome_bind deref appendToBlock].
  erewrite update_leaf; cycle 1.
  { cbn [chains set_chains]. by rewrite lookup_insert_eq. }
  { done. }
  { cbn [chains set_chains]. unfold bc_PrevHash. cbn [bc_Block set_length]. rewrite Hlink.
    rewrite lookup_insert_ne by done. by rewrite lookup_insert_eq. }
  cbn [mbind outcome_bind chains set_chains set_forks LengthOfChain set_length bc_Block Forks].
  destruct (forest_chain _ _ _ (lo_forest _ Hok) Hp) as (? & _ & Hpl & _).
  rewrite (proj2 (Z.ltb_lt 0 _)) by lia. exists c'. do 4 f_equal.
  unfold set_chains at 1. f_equal. rewrite <-Hre, insert_insert_eq. f_equal. f_equal.
  unfold bc_hash, set_forks. cbn [LengthOfChain bc_Block]. by rewrite (right_id_L ∅ (∪)).
Qed.

(** *** The ledger with both blocks, by inserting the parent first *)
Lemma first_forest : forest_ok (chains (with_block bcl b p)).
Proof using All.
  apply NoDup_app in Hnames as (_ & _ & ?). eapply forest_insert; eauto using lo_forest.
Qed.
Lemma first_blocks : blocks_of (chains (with_block bcl b p)) = <[hash_b := b]> (blocks_of (chains bcl)).
Proof using Hp. by apply with_block_blocks. Qed.
Lemma first_parent : chains (with_block bcl b p) !! b_PrevHash o = Some (mkBC (LengthOfChain p + 1) b ∅).
Proof using Hlink. rewrite Hlink. apply lookup_insert_eq. Qed.
Lemma first_no_orphan : chains (with_block bcl b p) !! hash_o = None.
Proof using All.
  unfold with_block, with_fork. cbn [chains set_chains].
  rewrite !lookup_insert_ne; [done | congruence..].
Qed.
Lemma first_chain : chain_to (blocks_of (chains (with_block bcl b p))) (b_PrevHash o) (b :: l).
Proof using All.
  rewrite first_blocks, Hlink. constructor; [apply hb_zero | by rewrite lookup_insert_eq |].
  eapply chain_mono; [| exact Hl]. apply insert_subseteq. unfold blocks_of. by rewrite lookup_fmap, Hnob.
Qed.
Lemma both_forest : forest_ok both_blocks.
Proof using All.
  eapply forest_insert; [apply first_forest | apply first_parent | apply first_no_orphan |
    apply first_chain |]. exact Hnames.
Qed.
Lemma both_blocks_eq : blocks_of both_blocks = <[hash_o := o]> (<[hash_b := b]> (blocks_of (chains bcl))).
Proof using All.
  unfold both_blocks. rewrite with_block_blocks by apply first_parent. by rewrite first_blocks.
Qed.
Lemma both_head h hd : chains bcl !! h = Some hd ->
  exists hd', both_blocks !! h = Some hd' /\ LengthOfChain hd' = LengthOfChain hd.
Proof using All.
  intros Hhd. destruct (with_block_head bcl b p h hd Hnob Hp Hhd) as (hd1 & Hhd1 & <-).
  exact (with_block_head _ o _ h hd1 first_no_orphan first_parent Hhd1).
Qed.

(** The genesis block of the ledger with the orphan and its parent. *)
Lemma second_genesis p2 G4 : chains with_orphan !! b_PrevHash b = Some p2 ->
  chains (with_block with_orphan b p2) !! zero_hash = Some G4 ->
  exists G, chains with_orphan !! zero_hash = Some G /\ hash_o ∈ Forks G /\ Forks G ⊆ Forks G4 /\
    forall x, x ∈ Forks G4 -> x ∈ Forks G \/ x = hash_b /\ b_PrevHash b = zero_hash.
Proof using All.
  intros Hp2 HG4. destruct (ky_genesis _ (forest_keyed _ (lo_forest _ Hok))) as [F0 HF0].
  exists (mkBC 0 emptyBlock ({[hash_o]} ∪ F0)).
  assert (HG : chains with_orphan !! zero_hash = Some (mkBC 0 emptyBlock ({[hash_o]} ∪ F0))).
  { unfold with_orphan, getGenesis. cbn [chains set_chains]. rewrite HF0.
    rewrite lookup_insert_ne, lookup_insert_eq by apply ho_zero. done. }
  split; [exact HG |]. unfold with_block, with_fork in HG4. cbn [chains set_chains] in HG4.
  rewrite lookup_insert_ne in HG4 by apply hb_zero. cbn [Forks]. split; [set_solver |].
  destruct (decide (b_PrevHash b = zero_hash)) as [Hz|Hz].
  - rewrite Hz in Hp2, HG4. rewrite lookup_insert_eq in HG4. rewrite HG in Hp2.
    apply (inj Some) in Hp2 as <-. apply (inj Some) in HG4 as <-. cbn [Forks set_forks]. set_solver.
  - rewrite lookup_insert_ne in HG4 by done. rewrite HG in HG4. apply (inj Some) in HG4 as <-.
    cbn [Forks]. set_solver.
Qed.

(** Its other forks are children of the genesis block, before and after. *)
Lemma other_fork p2 G4 x : chains with_orphan !! b_PrevHash b = Some p2 ->
  chains (with_block with_orphan b p2) !! zero_hash = Some G4 -> x ∈ Forks G4 -> x <> hash_o ->
  (exists bc, chains (with_block with_orphan b p2) !! x = Some bc /\ bc_PrevHash bc <> hash_b) /\
  (exists bc, both_blocks !! x = Some bc /\ bc_PrevHash bc <> hash_b).
Proof using All.
  intros Hp2 HG4 Hx Hxo. pose proof hb_zero as Hbz.
  assert (Hblk : blocks_of (chains (with_block with_orphan b p2)) = blocks_of both_blocks).
  { rewrite both_blocks_eq, with_block_blocks, orphan_blocks by done. by rewrite insert_insert_ne by done. }
  assert (exists blk, blocks_of both_blocks !! x = Some blk /\ b_PrevHash blk = zero_hash) as (blk & Hb & Hz).
  { destruct (second_genesis p2 G4 Hp2 HG4) as (G & HG & _ & _ & Hcase). rewrite both_blocks_eq.
    rewrite lookup_insert_ne by done. destruct (decide (x = hash_b)) as [->|Hxb].
    - exists b. rewrite lookup_insert_eq. split; [done |].
      destruct (Hcase _ Hx) as [Hin|[_ ?]]; [| done].
      destruct (orphan_forks hash_b Hxo) as (bc & Hbc & _); [eauto |].
      unfold with_orphan in Hbc. cbn [chains set_chains] in Hbc.
      rewrite !lookup_insert_ne in Hbc by done. congruence.
    - rewrite lookup_insert_ne by done. destruct (Hcase _ Hx) as [Hin|[? _]]; [| done].
      destruct (orphan_forks x Hxo) as (bc & Hbc%blocks_of_lookup & Hz); [eauto |].
      rewrite orphan_blocks, lookup_insert_ne in Hbc by done. exists (bc_Block bc). done. }
  assert (Hrest : forall m, blocks_of m !! x = Some blk -> exists bc, m !! x = Some bc /\ bc_PrevHash bc <> hash_b).
  { intros m (bc & ? & <-)%blocks_of_inv. exists bc. split; [done |]. unfold bc_PrevHash. congruence. }
  split; apply Hrest; [by rewrite Hblk | done].
Qed.

Lemma reinsert_loop p2 c : chains with_orphan !! b_PrevHash b = Some p2 ->
  ssa_exists c = list_to_set (block_names b ++ chain_names l) ->
  checkOrphansAndReinsert range (with_block with_orphan b p2) hash_b (Some c) =
    Ok (set_chains bcl both_blocks, LengthOfChain p + 1 + 1, hash_o).
Proof using All.
  intros Hp2 Hc. destruct (reinsert_step p2 c Hp2 Hc) as (c' & Hstep).
  assert (exists G4, chains (with_block with_orphan b p2) !! zero_hash = Some G4) as [G4 HG4].
  { destruct (ky_genesis _ orphan_keyed) as [F HF]. unfold with_block, with_fork. cbn [chains set_chains].
    rewrite lookup_insert_ne by apply hb_zero.
    destruct (decide (b_PrevHash b = zero_hash)) as [->|]; [rewrite lookup_insert_eq; eauto |].
    rewrite lookup_insert_ne by done. eauto. }
  destruct (second_genesis p2 G4 Hp2 HG4) as (G & _ & Ho & Hsub & _).
  unfold checkOrphansAndReinsert, getGenesis. rewrite HG4. cbn [mbind outcome_bind deref].
  rewrite (range_loop_one _ _ _ (set_chains bcl both_blocks, c', LengthOfChain p + 1 + 1, hash_o) hash_o);
    [reflexivity | | | exact Hstep |].
  - rewrite range_perm. apply NoDup_elements.
  - rewrite range_perm. apply elem_of_elements, Hsub, Ho.
  - intros x Hx Hxo. rewrite range_perm, elem_of_elements in Hx.
    destruct (other_fork p2 G4 x Hp2 HG4 Hx Hxo) as ((bc & Hbc & Hz) & (bc' & Hbc' & Hz')).
    unfold reinsert_orphan. change (chains (set_chains bcl both_blocks)) with both_blocks.
    rewrite Hbc, Hbc'. cbn [mbind outcome_bind deref]. by rewrite !decide_False.
Qed.

(** The head once the orphan is part of the chain of its parent. *)
Lemma new_head hd : chains bcl !! longestChain bcl = Some hd -> 1 <= LengthOfChain hd ->
  headChanges (set_chains bcl both_blocks) (LengthOfChain p + 1 + 1) hash_o = Ok
    (if LengthOfChain hd <? LengthOfChain p + 1 + 1
     then (mkLedger hash_o both_blocks, bool_decide (hash_b <> longestChain bcl), true)
     else (set_chains bcl both_blocks, false, false)).
Proof using All.
  intros Hhd Hhlen. pose proof both_forest as Hbf. destruct (both_head _ _ Hhd) as (hd' & Hhd' & <-).
  destruct (forest_chain _ _ _ (lo_forest _ Hok) Hhd) as (lh & Hlh & Hhl & _).
  destruct (forest_chain _ _ _ (lo_forest _ Hok) Hp) as (? & _ & Hpl & _).
  assert (HO : both_blocks !! hash_o = Some (mkBC (LengthOfChain p + 1 + 1) o ∅)) by apply lookup_insert_eq.
  assert (Hlh' : chain_to (blocks_of both_blocks) (longestChain bcl) lh).
  { eapply chain_mono; [| exact Hlh]. rewrite both_blocks_eq.
    transitivity (<[hash_b := b]> (blocks_of (chains bcl))); apply insert_subseteq.
    - unfold blocks_of. by rewrite lookup_fmap, Hnob.
    - rewrite lookup_insert_ne by done. unfold blocks_of. by rewrite lookup_fmap, Hnoo. }
  destruct (forest_chain _ _ _ Hbf HO) as (l2 & Hl2 & _).
  rewrite (headChanges_spec (set_chains bcl both_blocks) _ _ hd' (mkBC (LengthOfChain p + 1 + 1) o ∅) lh l2);
    try done; [| by apply forest_keyed | | apply ho_zero | | lia].
  - unfold bc_PrevHash. cbn [bc_Block]. rewrite Hlink. done.
  - destruct (forest_chain _ _ _ Hbf Hhd') as (lh' & Hc & -> & _). by rewrite (chain_det _ _ _ Hc _ Hlh').
  - intros (b' & Heq & Hin)%list_elem_of_fmap.
    destruct (chain_present bcl (forest_keyed _ (lo_forest _ Hok)) _ _ _ Hlh Hin). congruence.
Qed.

(** The parent reinserts the orphan and both become part of the longest chain, if it is longer. *)
Lemma insert_parent hd : chains bcl !! longestChain bcl = Some hd -> 1 <= LengthOfChain hd ->
  exists changed, let grew := LengthOfChain hd <? LengthOfChain p + 1 + 1 in
  insertBlock range with_orphan b = Ok
    (mkLedger (if grew then hash_o else longestChain bcl) both_blocks, (true, changed, grew)).
Proof using All.
  intros Hhd Hhlen. destruct orphan_parent as (p2 & Hp2 & Hlen2).
  pose proof ho_zero as Hoz. pose proof hb_zero as Hbz. pose proof both_forest as Hbf.
  assert (Hnob2 : chains with_orphan !! hash_b = None).
  { unfold with_orphan. cbn [chains set_chains]. by rewrite !lookup_insert_ne. }
  unfold insertBlock, isPresent. rewrite bool_decide_eq_false_2 by (rewrite Hnob2; by intros []).
  rewrite (bool_decide_eq_true_2 (is_Some (_ !! b_PrevHash b))) by (rewrite Hp2; eauto).
  rewrite Hp2. cbn [mbind outcome_bind deref appendToBlock].
  destruct (checkValidTransactionsBackwards_spec (with_fork with_orphan b p2)
    (set_length (LengthOfChain p2 + 1) (newBlockOfChain b)) l) as (r & Hr & Hcl).
  { unfold with_fork. cbn [chains set_chains]. rewrite blocks_of_set_forks by done.
    eapply chain_mono; [apply orphan_mono | exact Hl]. }
  unfold with_fork in Hr at 1. unfold bc_hash. cbn [bc_Block newBlockOfChain]. rewrite Hr.
  destruct r as [c|]; cbn [claimed bc_Block set_length newBlockOfChain] in Hcl;
    [| rewrite fresh_empty in Hcl; apply NoDup_app in Hnames as (_ & _ & ?); done].
  cbn [mbind outcome_bind]. rewrite (bool_decide_eq_false_2 (Some c = None)) by done. cbn [andb].
  change (set_chains (set_chains with_orphan _) _) with (with_block with_orphan b p2).
  rewrite (reinsert_loop p2 c Hp2).
  2:{ destruct Hcl as [_ ->]. by rewrite (right_id_L ∅ (∪)). }
  cbn [mbind outcome_bind].
  assert (Hnb : exists B', both_blocks !! hash_b = Some B' /\ LengthOfChain B' = LengthOfChain p + 1).
  { destruct (with_block_head (with_block bcl b p) o _ hash_b (mkBC (LengthOfChain p + 1) b ∅)
      first_no_orphan first_parent) as (B' & ? & ?); [apply lookup_insert_eq | eauto]. }
  destruct Hnb as (B' & HB' & HlenB). change (chains (set_chains bcl both_blocks)) with both_blocks.
  rewrite HB'. cbn [mbind outcome_bind deref]. rewrite HlenB, (proj2 (Z.ltb_ge _ _)) by lia.
  rewrite new_head with (hd := hd) by done. destruct (_ <? _); eexists; done.
Qed.

(** Inserting the orphan last into any ledger with the blocks of [with_block bcl b p]. *)
Lemma insert_last L hd : ledger_ok L -> chains L = chains (with_block bcl b p) ->
  chains L !! longestChain L = Some hd ->
  let L' := mkLedger (if LengthOfChain hd <? LengthOfChain p + 1 + 1 then hash_o else longestChain L)
              both_blocks in
  exists r, insertBlock range L o = Ok (L', r) /\ ledger_ok L'.
Proof using All.
  intros HokL HcL HhdL. cbv zeta.
  pose proof first_parent as Hp1. pose proof first_no_orphan as Hn1. pose proof first_chain as Hc1.
  rewrite <-HcL in Hp1, Hn1, Hc1.
  destruct (insertBlock_valid range range_perm L o _ _ HokL Hn1 Hp1 Hc1 Hnames) as (hd3 & Hhd3 & ->).
  destruct (with_block_ok L o _ _ HokL Hn1 Hp1 Hc1 Hnames hd3 Hhd3) as [_ Hok2].
  assert (hd3 = hd) as -> by congruence. cbn [LengthOfChain] in *.
  assert (Hboth : chains (with_block L o (mkBC (LengthOfChain p + 1) b ∅)) = both_blocks).
  { unfold both_blocks, with_block, with_fork. cbn [chains set_chains]. by rewrite HcL. }
  assert (Hwb : with_block L o (mkBC (LengthOfChain p + 1) b ∅) = mkLedger (longestChain L) both_blocks)
    by (rewrite <-Hboth; reflexivity).
  rewrite Hboth in *. rewrite Hwb in *. destruct (_ <? _); eauto.
Qed.
End Orphan.

(** C16. A block that arrives before its parent is not lost: once the head is above the genesis
    block, inserting an orphan and then its parent leaves the same ledger as inserting the
    parent first, for every order in which the forks are visited. *)
Theorem orphan_then_parent range bcl o b p l :
  (forall s, range s ≡ₚ elements s) -> ledger_ok bcl ->
  (exists hd, chains bcl !! longestChain bcl = Some hd /\ 1 <= LengthOfChain hd) ->
  chains bcl !! b_PrevHash b = Some p -> chain_to (blocks_of (chains bcl)) (b_PrevHash b) l ->
  chains bcl !! Block_Hash b = None -> chains bcl !! Block_Hash o = None ->
  b_PrevHash o = Block_Hash b -> Block_Hash o <> Block_Hash b ->
  NoDup (block_names o ++ block_names b ++ chain_names l) ->
  exists bcl_o bcl_b r1 r2 r3 r4 bcl',
    insertBlock range bcl o = Ok (bcl_o, r1) /\ insertBlock range bcl_o b = Ok (bcl', r2) /\
    insertBlock range bcl b = Ok (bcl_b, r3) /\ insertBlock range bcl_b o = Ok (bcl', r4) /\
    ledger_ok bcl'.
Proof.
  intros Hr Hok (hd & Hhd & Hlen) Hp Hl Hnob Hnoo Hlink Hne Hnd.
  destruct (insert_parent range Hr bcl o b p l Hok Hp Hl Hnob Hnoo Hlink Hne Hnd hd Hhd Hlen)
    as (ch & Hpar). cbv zeta in Hpar.
  pose proof (insert_orphan range Hr bcl o b p l Hok Hp Hl Hnob Hnoo Hlink Hne Hnd ltac:(eauto)) as Ho.
  assert (Hnd' : NoDup (block_names b ++ chain_names l)) by (by apply NoDup_app in Hnd as (_ & _ & ?)).
  destruct (insertBlock_valid range Hr bcl b p l Hok Hnob Hp Hl Hnd') as (hd' & Hhd' & Hb).
  assert (hd' = hd) as -> by congruence.
  destruct (with_block_ok bcl b p l Hok Hnob Hp Hl Hnd' hd Hhd) as [_ Hok'].
  destruct (with_block_head bcl b p _ hd Hnob Hp Hhd) as (hd2 & Hhd2 & Hhl2).
  pose proof (insert_last range Hr bcl o b p l Hok Hp Hl Hnob Hnoo Hlink Hne Hnd) as Hlast. cbv zeta in Hlast.
  destruct (Z.ltb_spec (LengthOfChain hd) (LengthOfChain p + 1)) as [Hlt|Hge].
  - destruct (Hlast _ (mkBC (LengthOfChain p + 1) b ∅) Hok' eq_refl (lookup_insert_eq _ _ _)) as (r4 & H4 & Hok2).
    cbn [LengthOfChain] in H4, Hok2. rewrite (proj2 (Z.ltb_lt _ _)) in H4, Hok2 by lia.
    rewrite (proj2 (Z.ltb_lt _ _)) in Hpar by lia.
    by eexists _, _, _, _, _, _, _.
  - destruct (Hlast _ hd2 Hok' eq_refl Hhd2) as (r4 & H4 & Hok2). rewrite Hhl2 in H4, Hok2.
    by eexists _, _, _, _, _, _, _.
Qed.

Definition block_g : Block := sample_block hash_f 10400 ["g"%string].
Definition block_h : Block := sample_block (Block_Hash block_g) 7 ["h"%string].
Lemma orphan_then_parent_witness :
  exists bcl_o bcl_b r1 r2 r3 r4 bcl',
    insertBlock elements sample_ledger block_h = Ok (bcl_o, r1) /\
    insertBlock elements bcl_o block_g = Ok (bcl', r2) /\
    insertBlock elements sample_ledger block_g = Ok (bcl_b, r3) /\
    insertBlock elements bcl_b block_h = Ok (bcl', r4) /\ ledger_ok bcl'.
Proof.
  assert (Hnot : forall h, h <> hash_f -> h <> zero_hash -> chains sample_ledger !! h = None).
  { intros h H1 H2. unfold sample_ledger. cbn [chains].
    rewrite lookup_insert_ne by congruence. apply lookup_singleton_ne. congruence. }
  apply (orphan_then_parent elements sample_ledger block_h block_g (mkBC 1 block_f ∅) [block_f]).
  - apply range_elements.
  - apply sample_ledger_ok.
  - exists (mkBC 1 block_f ∅). split; [apply lookup_insert_eq | cbn [LengthOfChain]; lia].
  - apply lookup_insert_eq.
  - apply sample_chain.
  - apply Hnot; hashes_differ.
  - apply Hnot; hashes_differ.
  - reflexivity.
  - hashes_differ.
  - apply (bool_decide_unpack _). vm_compute. exact I.
Defined.
