(* ===== verification/Mining.v ===== *)
(** * Mining (gossiper/blockchain.go)

    [blockchainMiningRoutine] is a loop around a [select]: a transaction, a block, or
    nothing arrives, and in the last case one nonce is tried.  A step of the loop is a
    function from its variables and the case to their new values and the effects.  The
    goroutine [forwardOwnBlock], which sleeps before it announces a mined block, is the
    event [OwnBlock]. *)
From S2P Require Import Prelude Sha2 Dto Containers Gossip Blockchain.

Section Miner.
Context (range : gset bytes -> list bytes).

Definition mapDifference (first : gmap string TxPublish) (second : gset string)
    : gmap string TxPublish := filter (fun kv => kv.1 ∉ second) first.
Definition createBlock (prevHash nonce : bytes) (txMap : gmap string TxPublish) : Block :=
  mkBlock prevHash nonce (snd <$> map_to_list txMap).

(** Decrements the hop limit in place and sends the packet on to all peers but the sender. *)
Definition forwardBlockOrTx (g : Gossiper) (packet : GossipPacket) (sender : string)
    : outcome (GossipPacket * list action) :=
  '(packet', shouldSend) ← DecrementHopCount packet;
  Ok (packet', if shouldSend : bool
               then Send packet' <$> stringArrayDifference (GetArrayCopy (peers g)) [sender] else []).

(** The variables of [blockchainMiningRoutine]; times are nanoseconds. *)
Record miner := mkMiner {
  mi_ledger : BlockchainLedger;
  everyTxEver : gmap string TxPublish;
  pendingNames : gmap string TxPublish;
  headhash : bytes;
  takenNames : gset string;
  mi_nonce : bytes;
  lastTimeMined : Z;
  firstBlock : bool;
  canMine : bool
}.
Definition set_ledger (m : miner) (bcl : BlockchainLedger) (pending : gmap string TxPublish)
    (head : bytes) (t : Z) : miner :=
  mkMiner bcl (everyTxEver m) pending head (takenNames m) (mi_nonce m) t (firstBlock m) (canMine m).

(** A case of the [select], with the time and the random nonce it uses; [OwnBlock] is the
    end of the goroutine [forwardOwnBlock]. *)
Inductive mining_event :=
  | FileNaming (txPubPap : PacketAddressPair) (now : Z)
  | Blocks (blockPubPap : PacketAddressPair) (now : Z)
  | Mine (now : Z) (fresh_nonce : bytes)
  | OwnBlock (packet : GossipPacket).
Inductive mining_effect :=
  | Act (a : action)
  | GoForwardOwnBlock (packet : GossipPacket) (delay : Z).

(** [insert_missing m k v] is [if !present { m[k] = v }]. *)
Definition insert_missing (m : gmap string TxPublish) (k : string) (v : TxPublish)
    : gmap string TxPublish := if m !! k is Some _ then m else <[k := v]> m.

Definition mine_filenaming (g : Gossiper) (m : miner) (pap : PacketAddressPair) (now : Z)
    : outcome (miner * list action) :=
  txPub ← deref (g_TxPublish (pap_Packet pap));
  let name := tx_Name txPub in
  let isNew := bool_decide (pendingNames m !! name = None) && bool_decide (name ∉ takenNames m) in
  sender ← pap_GetSenderAddress pap;
  '(packet', sent) ← forwardBlockOrTx g (pap_Packet pap) sender;
  (* the maps hold the transaction whose hop limit [forwardBlockOrTx] decrements *)
  tx ← deref (g_TxPublish packet');
  Ok (mkMiner (mi_ledger m) (insert_missing (everyTxEver m) name tx)
        (if isNew then <[name := tx]> (pendingNames m) else pendingNames m) (headhash m)
        (takenNames m) (mi_nonce m) (if isNew then now else lastTimeMined m) (firstBlock m) (canMine m),
      sent).

(** [takenNames := ...] declares a new variable: the one of the routine keeps its value. *)
Definition mine_block (g : Gossiper) (m : miner) (pap : PacketAddressPair) (now : Z)
    : outcome (miner * list action) :=
  block ← bp_Block <$> deref (g_BlockPublish (pap_Packet pap));
  if negb (checkValid block) then Ok (m, [])
  else if isPresent (mi_ledger m) (Block_Hash block) then Ok (m, [])
  else
    '(bcl, (_, headChanged, headGrew)) ← insertBlock range (mi_ledger m) block;
    m ←
      (if headChanged : bool then
         let headhash' := longestChain bcl in
         taken ← getTakenNames (fuel_of bcl) bcl headhash';
         Ok (set_ledger m bcl (mapDifference (everyTxEver m) taken) headhash' now)
       else if headGrew : bool then
         Ok (set_ledger m bcl (mapDifference (pendingNames m) (getNames block)) (longestChain bcl) now)
       else Ok (set_ledger m bcl (pendingNames m) (headhash m) now));
    sender ← pap_GetSenderAddress pap;
    '(_, sent) ← forwardBlockOrTx g (pap_Packet pap) sender;
    Ok (m, sent).

Definition block_packet (b : BlockPublish) : GossipPacket :=
  mkGossipPacket None None None None None None None None None (Some b) None None None None.

Definition mine_default (m : miner) (now : Z) (fresh_nonce : bytes)
    : outcome (miner * list mining_effect) :=
  if canMine m then
    let blockToMine := createBlock (headhash m) (mi_nonce m) (pendingNames m) in
    match mine blockToMine with
    | Some blockPub =>
        '(bcl, _) ← insertBlock range (mi_ledger m) blockToMine;
        let delay := if firstBlock m then 5 * 10 ^ 9 else int64 (now - lastTimeMined m) in
        Ok (mkMiner bcl (everyTxEver m) ∅ (longestChain bcl) (takenNames m) fresh_nonce now false false,
            [GoForwardOwnBlock (block_packet blockPub) (int64 (2 * delay))])
    | None =>
        Ok (mkMiner (mi_ledger m) (everyTxEver m) (pendingNames m) (headhash m) (takenNames m)
              fresh_nonce (lastTimeMined m) (firstBlock m) true, [])
    end
  else
    Ok (mkMiner (mi_ledger m) (everyTxEver m) (pendingNames m) (headhash m) (takenNames m)
          (mi_nonce m) now (firstBlock m) false, []).

Definition forwardOwnBlock (g : Gossiper) (m : miner) (packet : GossipPacket)
    : outcome (miner * list action) :=
  '(packet', shouldSend) ← DecrementHopCount packet;
  Ok (mkMiner (mi_ledger m) (everyTxEver m) (pendingNames m) (headhash m) (takenNames m)
        (mi_nonce m) (lastTimeMined m) (firstBlock m) true,
      if shouldSend : bool
      then Send packet' <$> stringArrayDifference (GetArrayCopy (peers g)) [] else []).

Definition mining_step (g : Gossiper) (m : miner) (ev : mining_event)
    : outcome (miner * list mining_effect) :=
  let acts (r : outcome (miner * list action)) : outcome (miner * list mining_effect) :=
    '(m, sent) ← r; Ok (m, map Act sent) in
  match ev with
  | FileNaming pap now => acts (mine_filenaming g m pap now)
  | Blocks pap now => acts (mine_block g m pap now)
  | Mine now nonce => mine_default m now nonce
  | OwnBlock packet => acts (forwardOwnBlock g m packet)
  end.

Definition mining_start (bcl : BlockchainLedger) (nonce : bytes) (now : Z) : outcome miner :=
  taken ← getTakenNames (fuel_of bcl) bcl (longestChain bcl);
  Ok (mkMiner bcl ∅ ∅ (longestChain bcl) taken nonce now true true).
End Miner.

(** ** Transactions and their names *)
Definition names_keyed (m : gmap string TxPublish) : Prop := forall k tx, m !! k = Some tx -> tx_Name tx = k.

Lemma createBlock_names prev nonce m : names_keyed m ->
  block_names (createBlock prev nonce m) ≡ₚ elements (dom m) /\ NoDup (block_names (createBlock prev nonce m)).
Proof.
  intros Hk. unfold block_names, createBlock. cbn [b_Transactions].
  assert (Heq : tx_Name <$> (snd <$> map_to_list m) = (map_to_list m).*1).
  { rewrite <-list_fmap_compose. apply list_fmap_ext. intros i [k tx] Hi.
    apply Hk, elem_of_map_to_list. by eapply list_elem_of_lookup_2. }
  rewrite Heq. pose proof (NoDup_fst_map_to_list m) as Hnd. split; [| exact Hnd].
  apply NoDup_Permutation; [exact Hnd | apply NoDup_elements |].
  intros k. rewrite elem_of_elements, elem_of_dom, list_elem_of_fmap. split.
  - intros ([k' tx] & -> & Hin%elem_of_map_to_list). cbn [fst]. eauto.
  - intros [tx Htx]. exists (k, tx). split; [done | by apply elem_of_map_to_list].
Qed.

Lemma names_keyed_filter m P `{!forall kv, Decision (P kv)} : names_keyed m -> names_keyed (filter P m).
Proof. intros Hk k tx [? _]%map_lookup_filter_Some. auto. Qed.
Lemma names_keyed_insert m k tx : names_keyed m -> tx_Name tx = k -> names_keyed (<[k := tx]> m).
Proof. intros Hk Htx k' tx' [[<- <-]|[_ ?]]%lookup_insert_Some; auto. Qed.

(** Decrementing the hop limit of a packet does not change the file of its transaction. *)
Lemma decrement_tx g g' s t : DecrementHopCount g = Ok (g', s) -> g_TxPublish g = Some t ->
  exists t', g_TxPublish g' = Some t' /\ tx_File t' = tx_File t.
Proof.
  unfold DecrementHopCount.
  packet_cases g ltac:(cbn; intros H Ht; try discriminate H; simplify_eq/=; eauto).
Qed.

(** ** What the mining routine keeps *)
Record miner_ok (m : miner) : Prop := {
  mo_pending : names_keyed (pendingNames m);
  mo_every : names_keyed (everyTxEver m);
  mo_known : dom (pendingNames m) ⊆ dom (everyTxEver m)
}.

Definition miner_steps (range : gset bytes -> list bytes) (g : Gossiper) : relation miner :=
  fun m m' => exists ev effects, mining_step range g m ev = Ok (m', effects).

Lemma dom_mapDifference m s : dom (mapDifference m s) ⊆ dom m.
Proof. apply dom_filter_subseteq. Qed.

Lemma mine_filenaming_ok g m pap now m' sent :
  mine_filenaming g m pap now = Ok (m', sent) -> miner_ok m -> miner_ok m' /\ takenNames m' = takenNames m.
Proof.
  unfold mine_filenaming, forwardBlockOrTx. intros H [Hp He Hk].
  apply outcome_bind_Ok in H as (tx & Htx & H). cbv zeta in H.
  apply outcome_bind_Ok in H as (sender & _ & H).
  apply outcome_bind_Ok in H as ([p' acts] & H1 & H).
  apply outcome_bind_Ok in H1 as ([p'' send] & Hdec & H1). apply Ok_inj in H1. injection H1 as -> _.
  apply outcome_bind_Ok in H as (tx' & Htx' & H). apply Ok_inj in H. injection H as <- _.
  destruct (g_TxPublish (pap_Packet pap)) as [t|] eqn:Ht; [| discriminate Htx].
  apply Ok_inj in Htx as ->. destruct (decrement_tx _ _ _ _ Hdec Ht) as (t' & Ht' & Hf).
  rewrite Ht' in Htx'. apply Ok_inj in Htx' as ->.
  assert (Hn : tx_Name tx' = tx_Name tx) by (unfold tx_Name; by rewrite Hf).
  split; [| done]. split; cbn [pendingNames everyTxEver].
  - destruct (_ && _); [by apply names_keyed_insert | done].
  - unfold insert_missing. destruct (everyTxEver m !! tx_Name tx); [done | by apply names_keyed_insert].
  - unfold insert_missing. destruct (everyTxEver m !! tx_Name tx) eqn:Hev, (_ && _); rewrite ?dom_insert_L.
    + apply elem_of_dom_2 in Hev. set_solver.
    + done.
    + set_solver.
    + set_solver.
Qed.

Lemma mine_block_ok range g m pap now m' sent :
  mine_block range g m pap now = Ok (m', sent) -> miner_ok m -> miner_ok m' /\ takenNames m' = takenNames m.
Proof.
  unfold mine_block. intros H Hok. apply outcome_bind_Ok in H as (block & _ & H).
  destruct (negb _); [apply Ok_inj in H; by injection H as <- _ |].
  destruct (isPresent _ _); [apply Ok_inj in H; by injection H as <- _ |].
  apply outcome_bind_Ok in H as ([bcl [[v hc] hg]] & _ & H).
  apply outcome_bind_Ok in H as (m1 & H1 & H).
  apply outcome_bind_Ok in H as (sender & _ & H). apply outcome_bind_Ok in H as ([p' acts] & _ & H).
  apply Ok_inj in H. injection H as <- _. destruct Hok as [Hp He Hk].
  assert (Hset : forall b pend h t, names_keyed pend -> dom pend ⊆ dom (everyTxEver m) ->
    miner_ok (set_ledger m b pend h t) /\ takenNames (set_ledger m b pend h t) = takenNames m).
  { intros. split; [| done]. by split. }
  destruct hc; [| destruct hg].
  - apply outcome_bind_Ok in H1 as (taken & _ & H1). apply Ok_inj in H1 as <-.
    apply Hset; [by apply names_keyed_filter | apply dom_mapDifference].
  - apply Ok_inj in H1 as <-. apply Hset; [by apply names_keyed_filter |].
    etransitivity; [apply dom_mapDifference | done].
  - apply Ok_inj in H1 as <-. by apply Hset.
Qed.

Lemma mine_default_ok range m now nonce m' effs :
  mine_default range m now nonce = Ok (m', effs) -> miner_ok m ->
  miner_ok m' /\ takenNames m' = takenNames m.
Proof.
  unfold mine_default. intros H [Hp He Hk]. destruct (canMine m).
  - destruct (mine _).
    + apply outcome_bind_Ok in H as ([bcl r] & _ & H). apply Ok_inj in H. injection H as <- _.
      split; [| done]. split; cbn [pendingNames everyTxEver]; [by intros ?? ? | done | set_solver].
    + apply Ok_inj in H. injection H as <- _. by split.
  - apply Ok_inj in H. injection H as <- _. by split.
Qed.

(** The names in use by the mining routine.  Whatever arrives, the pending and the known
    transactions are stored under the names of their files, and nothing is pending that was
    not announced, so every block that is mined claims each of its names once.  But the
    set of taken names is the one computed at the start: it never changes. *)
Theorem mining_invariant range g bcl nonce now m0 m :
  mining_start bcl nonce now = Ok m0 -> rtc (miner_steps range g) m0 m ->
  miner_ok m /\ takenNames m = takenNames m0 /\
  NoDup (block_names (createBlock (headhash m) (mi_nonce m) (pendingNames m))).
Proof.
  intros H0 Hs. assert (Hok0 : miner_ok m0).
  { apply outcome_bind_Ok in H0 as (taken & _ & H0). apply Ok_inj in H0 as <-.
    split; cbn [pendingNames everyTxEver]; [by intros ?? ? | by intros ?? ? | done]. }
  assert (Hm : miner_ok m /\ takenNames m = takenNames m0).
  { clear H0. induction Hs as [m|m1 m2 m (ev & effs & Hst) Hs IH]; [done |].
    assert (miner_ok m2 /\ takenNames m2 = takenNames m1) as [Hok2 <-]; [| auto].
    destruct ev as [pap t|pap t|t n|packet]; cbn [mining_step] in Hst.
    - apply outcome_bind_Ok in Hst as ([m2' sent] & Hst & H). apply Ok_inj in H. injection H as <- _.
      eauto using mine_filenaming_ok.
    - apply outcome_bind_Ok in Hst as ([m2' sent] & Hst & H). apply Ok_inj in H. injection H as <- _.
      eauto using mine_block_ok.
    - eauto using mine_default_ok.
    - apply outcome_bind_Ok in Hst as ([m2' sent] & Hst & H). apply Ok_inj in H. injection H as <- _.
      apply outcome_bind_Ok in Hst as ([p' s] & _ & Hst). apply Ok_inj in Hst. injection Hst as <- _.
      destruct Hok0. by repeat split. }
  destruct Hm as [Hok Ht]. split_and!; [done.. |]. by apply createBlock_names, Hok.
Qed.

(** ** A block is found *)
Definition mined_block (m : miner) : Block := createBlock (headhash m) (mi_nonce m) (pendingNames m).

(** C17. Mining a block.  When the hash of the block made of the pending transactions meets the
    difficulty, it becomes the head of the ledger (which stays well formed) provided that
    none of its names is used along the longest chain; the next block will extend it, the
    pending transactions are dropped, mining pauses, and the block is announced with the
    default hop limit. *)
Theorem mined_block_extends range m now nonce l :
  (forall s, range s ≡ₚ elements s) -> ledger_ok (mi_ledger m) -> miner_ok m -> canMine m = true ->
  headhash m = longestChain (mi_ledger m) ->
  chain_to (blocks_of (chains (mi_ledger m))) (headhash m) l ->
  (forall n, n ∈ dom (pendingNames m) -> n ∉ chain_names l) ->
  checkValid (mined_block m) = true ->
  chains (mi_ledger m) !! Block_Hash (mined_block m) = None ->
  exists m' delay,
    mine_default range m now nonce =
      Ok (m', [GoForwardOwnBlock (block_packet (mkBlockPublish (mined_block m) defaultHopLimit)) delay]) /\
    ledger_ok (mi_ledger m') /\
    blocks_of (chains (mi_ledger m')) =
      <[Block_Hash (mined_block m) := mined_block m]> (blocks_of (chains (mi_ledger m))) /\
    longestChain (mi_ledger m') = Block_Hash (mined_block m) /\
    headhash m' = Block_Hash (mined_block m) /\ pendingNames m' = ∅ /\ canMine m' = false.
Proof.
  intros Hr Hok Hmok Hcan Hhead Hl Hfree Hpow Hnew.
  pose proof Hok as [Hm (hd & Hhd & _)]. rewrite <-Hhead in Hhd.
  destruct (createBlock_names (headhash m) (mi_nonce m) (pendingNames m) (mo_pending _ Hmok)) as [Hperm Hnd].
  assert (Hnames : NoDup (block_names (mined_block m) ++ chain_names l)).
  { apply NoDup_app. split; [exact Hnd |]. split.
    - intros n Hn. rewrite Hperm, elem_of_elements in Hn. auto.
    - destruct (forest_chain _ _ _ Hm Hhd) as (l' & Hl' & _ & ? & _). by rewrite (chain_det _ _ _ Hl _ Hl'). }
  destruct (insertBlock_valid range Hr (mi_ledger m) (mined_block m) hd l Hok Hnew Hhd Hl Hnames)
    as (hd' & Hhd' & Hins).
  rewrite Hhead in Hhd. assert (hd' = hd) as -> by congruence. rewrite <-Hhead in Hhd.
  destruct (with_block_ok _ _ _ l Hok Hnew Hhd Hl Hnames hd Hhd') as [Hblk Hok'].
  rewrite (proj2 (Z.ltb_lt _ _)) in Hins, Hok' by lia.
  unfold mine_default. rewrite Hcan. fold (mined_block m). unfold mine.
  change (meets_difficulty _) with (checkValid (mined_block m)). rewrite Hpow, Hins.
  cbn [mbind outcome_bind]. eexists _, _. split; [reflexivity |]. by split_and!.
Qed.

Definition tx_packet (tx : TxPublish) : GossipPacket :=
  mkGossipPacket None None None None None None None None (Some tx) None None None None None.

(** A name that is already on the chain is mined again.  After a block was mined, the set
    of taken names does not know its names; a transaction with such a name becomes pending,
    and the block mined with it is announced to all peers although the own ledger refuses
    it. *)
Theorem taken_name_mined_again range g m tx sender now now' nonce' l :
  let tx' := mkTxPublish (tx_File tx) (decrement_hop (tx_HopLimit tx)) in
  let block := createBlock (headhash m) (mi_nonce m) {[tx_Name tx := tx']} in
  (forall s, range s ≡ₚ elements s) -> ledger_ok (mi_ledger m) ->
  headhash m = longestChain (mi_ledger m) ->
  chain_to (blocks_of (chains (mi_ledger m))) (headhash m) l ->
  pendingNames m = ∅ -> canMine m = true ->
  tx_Name tx ∈ chain_names l -> tx_Name tx ∉ takenNames m ->
  checkValid block = true -> chains (mi_ledger m) !! Block_Hash block = None ->
  exists m1 sent m2 delay,
    mining_step range g m (FileNaming (mkPacketAddressPair (tx_packet tx) sender) now) = Ok (m1, sent) /\
    mining_step range g m1 (Mine now' nonce') =
      Ok (m2, [GoForwardOwnBlock (block_packet (mkBlockPublish block defaultHopLimit)) delay]) /\
    blocks_of (chains (mi_ledger m2)) = blocks_of (chains (mi_ledger m)) /\ pendingNames m2 = ∅.
Proof.
  intros tx' block Hr Hok Hhead Hl Hpend Hcan Hname Htaken Hpow Hnew.
  pose proof Hok as [Hm (hd & Hhd & _)].
  rewrite <-Hhead in Hhd.
  assert (Hins : insertBlock range (mi_ledger m) block =
    Ok (with_fork (mi_ledger m) block hd, (false, false, false))).
  { apply (insertBlock_invalid range _ _ _ l); [exact Hnew | exact Hhd | exact Hl |].
    assert (Hbn : block_names block = [tx_Name tx]).
    { unfold block_names, block, createBlock. cbn [b_Transactions]. by rewrite map_to_list_singleton. }
    rewrite Hbn. intros [Hni _]%NoDup_cons. by apply Hni. }
  cbn [mining_step]. unfold mine_filenaming, forwardBlockOrTx.
  cbn [pap_Packet g_TxPublish tx_packet deref mbind outcome_bind]. rewrite Hpend, lookup_empty.
  rewrite (bool_decide_eq_true_2 (_ ∉ _)), bool_decide_eq_true_2 by done. cbn [andb].
  change (DecrementHopCount (tx_packet tx)) with
    (Ok (tx_packet tx', 0 <? decrement_hop (tx_HopLimit tx))).
  change (pap_GetSenderAddress _) with (Ok sender).
  cbn [mbind outcome_bind g_TxPublish tx_packet deref].
  eexists _, _, _, _. split; [reflexivity |]. unfold mine_default.
  cbn [canMine headhash mi_nonce pendingNames mi_ledger]. rewrite Hcan.
  change (<[tx_Name tx:=tx']> (∅ : gmap string TxPublish)) with ({[tx_Name tx := tx']} : gmap string TxPublish).
  fold block. unfold mine. change (meets_difficulty _) with (checkValid block). rewrite Hpow, Hins.
  cbn [mbind outcome_bind]. split; [reflexivity |]. split; [| done].
  unfold with_fork. cbn [mi_ledger chains set_chains]. apply blocks_of_set_forks. exact Hhd.
Qed.

(** C18. A block arrives.  If it meets the difficulty, extends a known block and claims free
    names, the ledger stays well formed and gets the block; if the longest chain changes
    branch, the pending transactions become the known ones whose names are not on the new
    longest chain, if it is extended the names of the block are removed from the pending
    ones, and otherwise they stay.  The block is passed on to all peers but the sender
    while its hop limit lasts. *)
Theorem block_event range g m b h sender now p l hd :
  (forall s, range s ≡ₚ elements s) -> ledger_ok (mi_ledger m) ->
  headhash m = longestChain (mi_ledger m) ->
  chains (mi_ledger m) !! headhash m = Some hd ->
  chains (mi_ledger m) !! b_PrevHash b = Some p ->
  chain_to (blocks_of (chains (mi_ledger m))) (b_PrevHash b) l ->
  NoDup (block_names b ++ chain_names l) -> checkValid b = true ->
  chains (mi_ledger m) !! Block_Hash b = None ->
  let longer := LengthOfChain hd < LengthOfChain p + 1 in
  exists m', mine_block range g m (mkPacketAddressPair (block_packet (mkBlockPublish b h)) sender) now =
      Ok (m', if 0 <? decrement_hop h
              then Send (block_packet (mkBlockPublish b (decrement_hop h))) <$>
                     stringArrayDifference (GetArrayCopy (peers g)) [sender]
              else []) /\
    ledger_ok (mi_ledger m') /\
    blocks_of (chains (mi_ledger m')) = <[Block_Hash b := b]> (blocks_of (chains (mi_ledger m))) /\
    headhash m' = longestChain (mi_ledger m') /\
    headhash m' = (if decide longer then Block_Hash b else headhash m) /\
    everyTxEver m' = everyTxEver m /\
    pendingNames m' =
      (if decide longer then
         if decide (b_PrevHash b = headhash m)
         then filter (fun kv => kv.1 ∉ block_names b) (pendingNames m)
         else filter (fun kv => kv.1 ∉ block_names b ++ chain_names l) (everyTxEver m)
       else pendingNames m).
Proof.
  intros Hr Hok Hhead Hhd Hp Hl Hnd Hpow Hnew longer.
  destruct (insertBlock_valid range Hr _ b p l Hok Hnew Hp Hl Hnd) as (hd' & Hhd' & Hins).
  rewrite <-Hhead in Hhd', Hins. assert (hd' = hd) as -> by congruence. rewrite Hhead in Hhd.
  destruct (with_block_ok _ b p l Hok Hnew Hp Hl Hnd hd Hhd) as [Hblk Hok'].
  assert (Hflt : forall (m : gmap string TxPublish) (ns : list string),
    filter (fun kv => kv.1 ∉ (list_to_set ns : gset string)) m = filter (fun kv => kv.1 ∉ ns) m).
  { intros m0 ns. apply map_filter_ext. intros k v _. cbn [fst]. by rewrite elem_of_list_to_set. }
  unfold mine_block.
  change (deref (g_BlockPublish (pap_Packet _))) with (Ok (mkBlockPublish b h)).
  change (bp_Block <$> Ok (mkBlockPublish b h)) with (Ok b). cbn [mbind outcome_bind].
  rewrite Hpow. unfold isPresent. rewrite bool_decide_eq_false_2 by (rewrite Hnew; by intros []).
  cbn [negb]. rewrite Hins. change (pap_GetSenderAddress _) with (Ok sender).
  unfold forwardBlockOrTx. change (DecrementHopCount _) with
    (Ok (block_packet (mkBlockPublish b (decrement_hop h)), 0 <? decrement_hop h)).
  unfold longer. destruct (Z.ltb_spec (LengthOfChain hd) (LengthOfChain p + 1)) as [Hlt|Hge];
    cbn [mbind outcome_bind].
  - rewrite !(decide_True (P := LengthOfChain hd < _)) by done.
    destruct (decide (b_PrevHash b = headhash m)) as [Hx|Hx].
    + rewrite bool_decide_eq_false_2 by tauto. cbn [mbind outcome_bind].
      eexists. split; [reflexivity |]. split_and!; [exact Hok' | exact Hblk | done.. |]. apply Hflt.
    + rewrite bool_decide_eq_true_2 by done. cbn [mbind outcome_bind longestChain].
      destruct (forest_chain _ (Block_Hash b) _ (lo_forest _ Hok') (lookup_insert_eq _ _ _)) as (lb & Hlb & _ & _ & Hsz).
      cbn [chains] in Hlb, Hsz.
      assert (lb = b :: l) as ->.
      { eapply chain_det; [exact Hlb |]. rewrite Hblk. constructor.
        - destruct (ky_genesis _ (forest_keyed _ (lo_forest _ Hok))). congruence.
        - by rewrite lookup_insert_eq.
        - eapply chain_mono; [| exact Hl]. apply insert_subseteq. unfold blocks_of.
          by rewrite lookup_fmap, Hnew. }
      rewrite (getTakenNames_spec _ (forest_keyed _ (lo_forest _ Hok')) (Block_Hash b) (b :: l));
        [| eexists; apply lookup_insert_eq | exact Hlb | unfold fuel_of; cbn [chains]; lia].
      cbn [mbind outcome_bind]. eexists. split; [reflexivity |].
      split_and!; [exact Hok' | exact Hblk | done.. |]. apply Hflt.
  - rewrite !(decide_False (P := LengthOfChain hd < _)) by lia.
    eexists. split; [reflexivity |]. by split_and!.
Qed.

(** ** Nonces *)
Lemma incrementNonce_snoc l b : incrementNonce (l ++ [b]) =
  if u8 (b + 1) =? 0 then incrementNonce l ++ [0] else l ++ [u8 (b + 1)].
Proof.
  unfold incrementNonce. rewrite rev_app_distr. cbn [rev app incrementNonce_loop].
  destruct (u8 (b + 1) =? 0) eqn:Hz; cbn [rev]; [| by rewrite rev_involutive].
  by apply Z.eqb_eq in Hz as ->.
Qed.
Lemma be_snoc l b : be (l ++ [b]) = be l * 256 + b.
Proof.
  induction l as [|a l IH]; cbn [be app]; [cbn; lia |]. rewrite IH, length_app, Nat2Z.inj_add.
  cbn [length]. replace (8 * (Z.of_nat (length l) + Z.of_nat 1)) with (8 * Z.of_nat (length l) + 8) by lia.
  rewrite Z.pow_add_r by lia. change (2 ^ 8) with 256. ring.
Qed.

(** [incrementNonce] adds one to the number that the bytes denote, modulo its range. *)
Theorem incrementNonce_spec nonce : wf_bytes nonce ->
  wf_bytes (incrementNonce nonce) /\ length (incrementNonce nonce) = length nonce /\
  be (incrementNonce nonce) = (be nonce + 1) mod 2 ^ (8 * Z.of_nat (length nonce)).
Proof.
  induction nonce as [|b l IH] using rev_ind; intros Hw; [cbn; done |].
  apply Forall_app in Hw as [Hl Hb]. rewrite Forall_singleton in Hb. specialize (IH Hl) as (IHw & IHl & IHb).
  rewrite incrementNonce_snoc, be_snoc, length_app, Nat2Z.inj_add. cbn [length].
  replace (8 * (Z.of_nat (length l) + Z.of_nat 1)) with (8 * Z.of_nat (length l) + 8) by lia.
  rewrite Z.pow_add_r by lia. change (2 ^ 8) with 256.
  pose proof (be_range l Hl) as Hr. unfold in_width in Hb. change (2 ^ 8) with 256 in Hb.
  destruct (Z.eqb_spec (u8 (b + 1)) 0) as [Hz|Hz].
  - assert (b = 255) as ->.
    { destruct (decide (b = 255)); [done |]. rewrite wrap_small in Hz; unfold in_width; change (2 ^ 8) with 256; lia. }
    split_and!.
    + apply Forall_app_2; [done |]. apply Forall_singleton. unfold in_width. change (2 ^ 8) with 256. lia.
    + rewrite !length_app, IHl. done.
    + rewrite be_snoc, IHb. replace (be l * 256 + 255 + 1) with ((be l + 1) * 256) by lia.
      rewrite Z.mul_mod_distr_r by lia. lia.
  - assert (b < 255) as Hlt.
    { destruct (decide (b = 255)) as [->|]; [by destruct Hz | lia]. }
    rewrite wrap_small by (unfold in_width; change (2 ^ 8) with 256; lia). split_and!.
    + apply Forall_app_2; [done |]. apply Forall_singleton. unfold in_width. change (2 ^ 8) with 256. lia.
    + rewrite !length_app. done.
    + rewrite be_snoc, Z.mod_small; [lia |]. nia.
Qed.

(** ** Witnesses *)
Definition sample_gossiper : Gossiper := NewGossiper "127.0.0.1:5000" "A" ["127.0.0.1:5001"] false.
Definition sample_miner (n : Z) (pending : gmap string TxPublish) : miner :=
  mkMiner sample_ledger pending pending hash_f ∅ (sample_nonce n) 0 true true.

(** The routine at its start, and after it received one transaction. *)
Definition start_miner (pending : gmap string TxPublish) (t : Z) : miner :=
  mkMiner NewBlockchainLedger pending pending zero_hash ∅ (sample_nonce 0) t true true.
Definition seen_tx (name : string) : TxPublish := mkTxPublish (mkFile name 5 [1; 2]) 9.
Lemma mining_invariant_witness :
  let m := start_miner {["g"%string := seen_tx "g"]} 1 in
  miner_steps elements sample_gossiper (start_miner ∅ 0) m /\ miner_ok m.
Proof.
  set (m := start_miner _ 1).
  assert (Hs : miner_steps elements sample_gossiper (start_miner ∅ 0) m).
  { exists (FileNaming (mkPacketAddressPair (tx_packet (sample_tx "g")) "") 1). eexists. vm_compute. reflexivity. }
  split; [exact Hs |].
  destruct (mining_invariant elements sample_gossiper NewBlockchainLedger (sample_nonce 0) 0
    (start_miner ∅ 0) m ltac:(vm_compute; reflexivity) (rtc_once _ _ Hs)) as (Hok & _). exact Hok.
Defined.

Lemma not_in_sample h : h <> hash_f -> h <> zero_hash -> chains sample_ledger !! h = None.
Proof.
  intros H1 H2. unfold sample_ledger. cbn [chains].
  rewrite lookup_insert_ne by congruence. apply lookup_singleton_ne. congruence.
Qed.

Lemma mined_block_extends_witness : exists m' delay,
  let m := sample_miner 10400 {["g"%string := sample_tx "g"]} in
  mine_default elements m 1 (sample_nonce 0) =
    Ok (m', [GoForwardOwnBlock (block_packet (mkBlockPublish (mined_block m) defaultHopLimit)) delay]) /\
  ledger_ok (mi_ledger m').
Proof.
  assert (Hk : names_keyed {["g"%string := sample_tx "g"]}).
  { intros k tx [<- <-]%lookup_singleton_Some. reflexivity. }
  destruct (mined_block_extends elements (sample_miner 10400 {["g"%string := sample_tx "g"]}) 1
    (sample_nonce 0) [block_f]) as (m' & delay & H1 & H2 & _); [| | | | | | | | | exists m', delay; exact (conj H1 H2)].
  - apply range_elements.
  - apply sample_ledger_ok.
  - by split.
  - reflexivity.
  - reflexivity.
  - apply sample_chain.
  - intros n Hn. unfold sample_miner in Hn. cbn [pendingNames] in Hn.
    rewrite dom_singleton_L, elem_of_singleton in Hn. subst n.
    apply (bool_decide_unpack _). vm_compute. exact I.
  - vm_compute. reflexivity.
  - apply not_in_sample; hashes_differ.
Defined.

Lemma taken_name_mined_again_witness : exists m1 sent m2 delay,
  mining_step elements sample_gossiper (sample_miner 47945 ∅)
    (FileNaming (mkPacketAddressPair (tx_packet (sample_tx "f")) "") 1) = Ok (m1, sent) /\
  mining_step elements sample_gossiper m1 (Mine 2 (sample_nonce 0)) =
    Ok (m2, [GoForwardOwnBlock (block_packet (mkBlockPublish (createBlock hash_f (sample_nonce 47945)
      {["f"%string := mkTxPublish (mkFile "f" 5 [1; 2]) 9]}) defaultHopLimit)) delay]) /\
  pendingNames m2 = ∅.
Proof.
  destruct (taken_name_mined_again elements sample_gossiper (sample_miner 47945 ∅) (sample_tx "f") "" 1 2
    (sample_nonce 0) [block_f]) as (m1 & sent & m2 & delay & H1 & H2 & _ & H4);
    [| | | | | | | | | | exists m1, sent, m2, delay; exact (conj H1 (conj H2 H4))].
  - apply range_elements.
  - apply sample_ledger_ok.
  - reflexivity.
  - apply sample_chain.
  - reflexivity.
  - reflexivity.
  - apply (bool_decide_unpack _). vm_compute. exact I.
  - apply (bool_decide_unpack _). vm_compute. exact I.
  - vm_compute. reflexivity.
  - apply not_in_sample; hashes_differ.
Defined.

Lemma incrementNonce_spec_witness : be (incrementNonce [1; 255; 255]) = 131072.
Proof.
  destruct (incrementNonce_spec [1; 255; 255]) as (_ & _ & ->).
  - repeat constructor; unfold in_width; lia.
  - vm_compute. reflexivity.
Defined.

Lemma block_event_witness : exists m',
  mine_block elements sample_gossiper (sample_miner 0 {["g"%string := sample_tx "g"]})
    (mkPacketAddressPair (block_packet (mkBlockPublish (sample_block hash_f 10400 ["g"%string]) 10)) "") 1 =
    Ok (m', [Send (block_packet (mkBlockPublish (sample_block hash_f 10400 ["g"%string]) 9)) "127.0.0.1:5001"]) /\
  pendingNames m' = ∅.
Proof.
  destruct (block_event elements sample_gossiper (sample_miner 0 {["g"%string := sample_tx "g"]})
    (sample_block hash_f 10400 ["g"%string]) 10 "" 1 (mkBC 1 block_f ∅) [block_f] (mkBC 1 block_f ∅))
    as (m' & H1 & _ & _ & _ & _ & _ & H2).
  - apply range_elements.
  - apply sample_ledger_ok.
  - reflexivity.
  - apply lookup_insert_eq.
  - apply lookup_insert_eq.
  - apply sample_chain.
  - apply (bool_decide_unpack _). vm_compute. exact I.
  - vm_compute. reflexivity.
  - apply not_in_sample; hashes_differ.
  - exists m'. split; [rewrite H1; reflexivity |]. rewrite H2. vm_compute. reflexivity.
Defined.
