(* ===== verification/Storage.v ===== *)
(** * The database of a node (dht/storage.go)

    The node keeps its part of the DHT, and the state of its crawler, in a bbolt database.
    bbolt and protobuf are third-party code: the classes [Bolt] and [Protobuf] state what the
    code relies on, and the operations are written against them.  A transaction is atomic.
    The keys are SHA-512 hashes, 64 bytes, for which bbolt's [Put] does not fail. *)
From S2P Require Import Prelude Sha2 DhtId CrawlerPacket.

(** ** The database *)
Class Bolt (db : Type) := {
  bolt_get : db -> string -> bytes -> option bytes;     (* nil if the key is absent *)
  bolt_put : db -> string -> bytes -> bytes -> db;
  bolt_delete : db -> string -> bytes -> db;
  bolt_sequence : db -> string -> Z;                    (* the last sequence number of a bucket *)
  bolt_next_sequence : db -> string -> db;
  bolt_get_put d b k v b' k' : bolt_get (bolt_put d b k v) b' k' =
    if decide (b = b' /\ k = k') then Some v else bolt_get d b' k';
  bolt_get_delete d b k b' k' : bolt_get (bolt_delete d b k) b' k' =
    if decide (b = b' /\ k = k') then None else bolt_get d b' k';
  bolt_get_next d b b' k' : bolt_get (bolt_next_sequence d b) b' k' = bolt_get d b' k';
  bolt_sequence_put d b k v b' : bolt_sequence (bolt_put d b k v) b' = bolt_sequence d b';
  bolt_sequence_delete d b k b' : bolt_sequence (bolt_delete d b k) b' = bolt_sequence d b';
  bolt_sequence_next d b b' : bolt_sequence (bolt_next_sequence d b) b' =
    if decide (b = b') then bolt_sequence d b + 1 else bolt_sequence d b'
}.

(** ** Encodings: decoding gives back the [ok] values that were encoded *)
Class Protobuf (A : Type) (ok : A -> Prop) := {
  pb_encode : A -> bytes;
  pb_decode : bytes -> option A;
  pb_roundtrip a : ok a -> pb_decode (pb_encode a) = Some a
}.

Definition queueCountID : string := "queCount".
Definition pastMapID : string := "pastMap".
Definition KeywordsBucket : string := "keywords".
Definition LinksBucket : string := "links".
Definition CitationsBucket : string := "citations".
Definition PageHashBucket : string := "pageHash".
Definition PageRankBucket : string := "pageRank".
Definition CrawlQueueBucket : string := "crawlQueue".
Definition QueueIndexBucket : string := "queueIndex".
Definition PastMapBucket : string := "pastMap".

Definition buckets : list string := [KeywordsBucket; LinksBucket; PageHashBucket; CrawlQueueBucket;
  QueueIndexBucket; CitationsBucket; PageRankBucket; PastMapBucket].

(** The links of a keyword in the order of [sort.Slice], which is some order by decreasing
    frequency. *)
Definition by_frequency (x y : string * Z) : Prop := y.2 <= x.2.
Record frequency_order := mkFrequencyOrder {
  fo_links :> gmap string Z -> list (string * Z);
  fo_perm m : fo_links m ≡ₚ map_to_list m;
  fo_sorted m : StronglySorted by_frequency (fo_links m)
}.

(** A keyword with no links would be decoded to a nil map. *)
Definition has_links (km : KeywordToURLMap) : Prop := km_LinkData km <> ∅.

Section Storage.
Context {db : Type} `{HB : Bolt db} `{HP : Protobuf KeywordToURLMap has_links}.

Definition Storage_Put (d : db) (key : TypeID) (data : bytes) (bucket : string) : db :=
  bolt_put d bucket key data.
Definition Storage_Delete (d : db) (key : TypeID) (bucket : string) : db := bolt_delete d bucket key.

Definition maxSize : Z := 7500.
(** The loop over the links, with the map that was encoded last as [data]. *)
Fixpoint cap_loop (newMap : KeywordToURLMap) (data : bytes) (keywordData : list (string * Z)) : bytes :=
  match keywordData with
  | [] => data
  | (url, f) :: rest =>
      if maxSize <? Z.of_nat (length data) + Z.of_nat (String.length url) + 100 then data
      else
        let newMap := mkKeywordToURLMap (km_Keyword newMap) (<[url := f]> (km_LinkData newMap)) in
        cap_loop newMap (pb_encode newMap) rest
  end.
(** [data, ok]: [ok] is false if the key is absent.  [tx.Bucket] is nil for a name that is not
    one of the buckets. *)
Definition Retrieve (order : frequency_order) (d : db) (key : TypeID) (bucket : string)
    : outcome (option bytes) :=
  if negb (bool_decide (bucket ∈ buckets)) then Panic "nil pointer dereference"
  else match bolt_get d bucket key with
  | None => Ok None
  | Some data =>
      if String.eqb bucket KeywordsBucket && (maxSize <? Z.of_nat (length data)) then
        match pb_decode data with
        | None => Panic "protobuf"
        | Some keywordMap =>
            Ok (Some (cap_loop (mkKeywordToURLMap (km_Keyword keywordMap) ∅) []
                        (order (km_LinkData keywordMap))))
        end
      else Ok (Some data)
  end.

(** The map to store for one item of the batch.  A map without entries is decoded to nil. *)
Definition merge_keyword (data : option bytes) (newKeywordToUrlMap : KeywordToURLMap)
    : outcome KeywordToURLMap :=
  match data with
  | None => Ok newKeywordToUrlMap
  | Some data =>
      match pb_decode data with
      | None => Panic "protobuf"
      | Some km =>
          if decide (km_LinkData km = ∅ /\ km_LinkData newKeywordToUrlMap <> ∅)
          then Panic "assignment to entry in nil map"
          else Ok (mkKeywordToURLMap (km_Keyword km) (km_LinkData newKeywordToUrlMap ∪ km_LinkData km))
      end
  end.
Definition add_links (d : db) (newKeywordToUrlMap : KeywordToURLMap) : outcome db :=
  let id := GenerateKeyHash (km_Keyword newKeywordToUrlMap) in
  keywordMap ← merge_keyword (bolt_get d KeywordsBucket id) newKeywordToUrlMap;
  Ok (bolt_put d KeywordsBucket id (pb_encode keywordMap)).
Fixpoint BulkAddLinksForKeyword (d : db) (urlMaps : list KeywordToURLMap) : outcome db :=
  match urlMaps with
  | [] => Ok d
  | km :: rest => d ← add_links d km; BulkAddLinksForKeyword d rest
  end.

(** ** The queue of the crawler: numbered entries, and the number of the next one *)
Definition entry_key (i : Z) : TypeID := Sum512 (Itob i).
(** [Retrieve] on the buckets other than that of the keywords ([Retrieve_other] below). *)
Definition retrieve_raw (d : db) (key : TypeID) (bucket : string) : option bytes :=
  bolt_get d bucket key.

(** [binary.BigEndian.Uint64]. *)
Definition Uint64 (val : bytes) : outcome Z :=
  if (length val <? 8)%nat then Panic "index out of range" else Ok (be (take 8 val)).

Definition NewStorage (d : db) : db :=
  let keyHash := GenerateKeyHash queueCountID in
  match retrieve_raw d keyHash QueueIndexBucket with
  | Some _ => d
  | None => bolt_put d QueueIndexBucket keyHash (Itob 0)
  end.

Definition UpdateCrawlQueue (d : db) (data : bytes) : db :=
  let d := bolt_next_sequence d CrawlQueueBucket in
  let id := bolt_sequence d CrawlQueueBucket in
  bolt_put d CrawlQueueBucket (entry_key (int64 id - 1)) data.

Definition CrawlQueueHeadPointer (d : db) : outcome Z :=
  match retrieve_raw d (GenerateKeyHash queueCountID) QueueIndexBucket with
  | None => Fatal "Error, sequence number not found."
  | Some val => Uint64 val
  end.

(** [None]: the error "crawl queue head not found". *)
Definition CrawlQueueHead (d : db) : outcome (db * option bytes) :=
  match retrieve_raw d (GenerateKeyHash queueCountID) QueueIndexBucket with
  | None => Fatal "Error, queue head sequence number not found"
  | Some val =>
      headSequenceNumber ← Uint64 val;
      match retrieve_raw d (entry_key (int64 headSequenceNumber)) CrawlQueueBucket with
      | None => Ok (d, None)
      | Some head =>
          Ok (Storage_Put d (GenerateKeyHash queueCountID) (Itob (int64 headSequenceNumber + 1))
                QueueIndexBucket, Some head)
      end
  end.

Definition DeleteCrawlQueueHead (d : db) : outcome db :=
  index ← CrawlQueueHeadPointer d;
  Ok (Storage_Delete d (entry_key (int64 index - 1)) CrawlQueueBucket).

Definition SavePast (d : db) (past : bytes) : db :=
  Storage_Put d (GenerateKeyHash pastMapID) past pastMapID.
Definition GetPast (decode : bytes -> option (gset string)) (d : db) : outcome (gset string) :=
  match decode (default [] (retrieve_raw d (GenerateKeyHash pastMapID) pastMapID)) with
  | Some m => Ok m
  | None => Panic "gob"
  end.
End Storage.

(** ** Properties *)
Section Properties.
Context {db : Type} `{HB : Bolt db} `{HP : Protobuf KeywordToURLMap has_links}.
Implicit Types (d : db).

Lemma Retrieve_other order d key bucket : bucket <> KeywordsBucket -> bucket ∈ buckets ->
  Retrieve order d key bucket = Ok (retrieve_raw d key bucket).
Proof.
  intros Hb Hin. unfold Retrieve, retrieve_raw. rewrite bool_decide_eq_true_2 by done.
  apply String.eqb_neq in Hb as ->. cbn [negb].
  by destruct (bolt_get d bucket key).
Qed.

Lemma get_put_eq d b k v : bolt_get (bolt_put d b k v) b k = Some v.
Proof. by rewrite bolt_get_put, decide_True. Qed.
Lemma get_put_ne d b k v b' k' : b <> b' \/ k <> k' -> bolt_get (bolt_put d b k v) b' k' = bolt_get d b' k'.
Proof. intros H. rewrite bolt_get_put, decide_False; [done |]. intros [-> ->]. by destruct H. Qed.
Lemma get_delete_ne d b k b' k' : b <> b' \/ k <> k' -> bolt_get (bolt_delete d b k) b' k' = bolt_get d b' k'.
Proof. intros H. rewrite bolt_get_delete, decide_False; [done |]. intros [-> ->]. by destruct H. Qed.

Lemma Uint64_Itob z : 0 <= z < 2 ^ 64 -> Uint64 (Itob z) = Ok z.
Proof.
  intros Hz. unfold Uint64, Itob. rewrite be_split_length. cbn [Nat.ltb Nat.leb].
  rewrite take_ge by (by rewrite be_split_length). rewrite be_be_split.
  change (8 * Z.of_nat 8) with 64. rewrite (wrap_small 64 z) by exact Hz. by rewrite Z.mod_small.
Qed.

(** *** The queue *)

(** The database holds the queue whose entries so far are [log], of which the first [head]
    were handed out, and has room for entries up to number [n]. *)
Record queue_ok (n : nat) (d : db) (log : list bytes) (head : nat) : Prop := {
  qo_head : bolt_get d QueueIndexBucket (GenerateKeyHash queueCountID) = Some (Itob (Z.of_nat head));
  qo_sequence : bolt_sequence d CrawlQueueBucket = Z.of_nat (length log);
  qo_pending i : (head <= i <= n)%nat ->
    bolt_get d CrawlQueueBucket (entry_key (Z.of_nat i)) = log !! i;
  qo_bound : (head <= length log <= n)%nat
}.
(** The entries up to number [n], and the one before the first, have different keys: SHA-512
    has no collision among them. *)
Definition distinct_keys (n : nat) : Prop :=
  Z.of_nat n < 2 ^ 62 /\
  forall i j, -1 <= i <= Z.of_nat n -> -1 <= j <= Z.of_nat n -> entry_key i = entry_key j -> i = j.

Lemma queue_push n d log head data : distinct_keys n -> queue_ok n d log head -> (length log < n)%nat ->
  queue_ok n (UpdateCrawlQueue d data) (log ++ [data]) head.
Proof.
  intros [Hn Hk] [Hh Hs Hp Hb] Hl. unfold UpdateCrawlQueue.
  rewrite bolt_sequence_next, decide_True, Hs by done.
  replace (int64 (Z.of_nat (length log) + 1) - 1) with (Z.of_nat (length log))
    by (rewrite int64_small; lia).
  split.
  - rewrite get_put_ne by (left; discriminate). by rewrite bolt_get_next.
  - rewrite bolt_sequence_put, bolt_sequence_next, decide_True, Hs, length_app by done. cbn [length]. lia.
  - intros i Hi. destruct (decide (i = length log)) as [->|Hne].
    + by rewrite get_put_eq, list_lookup_middle.
    + rewrite get_put_ne by (right; intros Heq%Hk; lia).
      rewrite bolt_get_next, Hp by done.
      destruct (decide (i < length log)%nat); [by rewrite lookup_app_l |].
      rewrite !lookup_ge_None_2; [done | rewrite length_app; cbn [length]; lia | lia].
  - rewrite length_app. cbn [length]. lia.
Qed.

Lemma queue_pop n d log head : distinct_keys n -> queue_ok n d log head ->
  exists d', CrawlQueueHead d = Ok (d', log !! head) /\
    queue_ok n d' log (if log !! head is Some _ then S head else head).
Proof.
  intros [Hn Hk] Hq. pose proof Hq as [Hh Hs Hp Hb]. unfold CrawlQueueHead, retrieve_raw. rewrite Hh.
  rewrite Uint64_Itob by lia. cbn [mbind outcome_bind]. rewrite int64_small by lia.
  rewrite Hp by lia. destruct (log !! head) as [x|] eqn:Hx; [| by exists d].
  eexists. split; [reflexivity |]. apply lookup_lt_Some in Hx. unfold Storage_Put. split.
  - rewrite get_put_eq. do 2 f_equal. lia.
  - by rewrite bolt_sequence_put.
  - intros i Hi. rewrite get_put_ne by (left; discriminate). apply Hp. lia.
  - lia.
Qed.

Lemma queue_delete n d log head : distinct_keys n -> queue_ok n d log head ->
  exists d', DeleteCrawlQueueHead d = Ok d' /\ queue_ok n d' log head /\
    bolt_get d' CrawlQueueBucket (entry_key (Z.of_nat head - 1)) = None.
Proof.
  intros [Hn Hk] [Hh Hs Hp Hb]. unfold DeleteCrawlQueueHead, CrawlQueueHeadPointer, retrieve_raw.
  rewrite Hh, Uint64_Itob by lia. cbn [mbind outcome_bind]. rewrite int64_small by lia.
  eexists. split; [reflexivity |]. unfold Storage_Delete. split; [split |].
  - by rewrite get_delete_ne by (left; discriminate).
  - by rewrite bolt_sequence_delete.
  - intros i Hi. rewrite get_delete_ne; [by apply Hp |]. right. intros Heq%Hk; lia.
  - done.
  - by rewrite bolt_get_delete, decide_True.
Qed.

Lemma queue_open n d log head : queue_ok n d log head -> NewStorage d = d.
Proof. intros [Hh _ _ _]. unfold NewStorage, retrieve_raw. by rewrite Hh. Qed.

(** What the crawler does with the queue, and the queue it stands for: the entries pushed so
    far and the number of entries handed out.  [Restart] opens the database again. *)
Inductive queue_op := Push (data : bytes) | Pop | DeleteHead | Restart.
Fixpoint crawl_run d (ops : list queue_op) : outcome (db * list (option bytes)) :=
  match ops with
  | [] => Ok (d, [])
  | Push data :: rest => crawl_run (UpdateCrawlQueue d data) rest
  | Pop :: rest =>
      '(d, head) ← CrawlQueueHead d; '(d, heads) ← crawl_run d rest; Ok (d, head :: heads)
  | DeleteHead :: rest => d ← DeleteCrawlQueueHead d; crawl_run d rest
  | Restart :: rest => crawl_run (NewStorage d) rest
  end.
Fixpoint queue_run (log : list bytes) (head : nat) (ops : list queue_op) : list (option bytes) :=
  match ops with
  | [] => []
  | Push data :: rest => queue_run (log ++ [data]) head rest
  | Pop :: rest =>
      log !! head :: queue_run log (if log !! head is Some _ then S head else head) rest
  | _ :: rest => queue_run log head rest
  end.
Fixpoint pushes (ops : list queue_op) : nat :=
  match ops with
  | [] => 0
  | Push _ :: rest => S (pushes rest)
  | _ :: rest => pushes rest
  end.

Lemma crawl_run_queue n ops : forall d log head, distinct_keys n -> queue_ok n d log head ->
  (length log + pushes ops <= n)%nat ->
  exists d', crawl_run d ops = Ok (d', queue_run log head ops).
Proof.
  induction ops as [|[data| | |] ops IH]; intros d log head Hn Hq Hp; cbn [crawl_run queue_run]; [eauto |..];
    cbn [pushes] in Hp.
  - apply IH; [done | apply queue_push; [done | done | lia] |]. rewrite length_app. cbn [length]. lia.
  - destruct (queue_pop _ _ _ _ Hn Hq) as (d1 & -> & Hq1). cbn [mbind outcome_bind].
    destruct (IH d1 _ _ Hn Hq1) as (d2 & ->); [exact Hp |]. cbn [mbind outcome_bind]. eauto.
  - destruct (queue_delete _ _ _ _ Hn Hq) as (d1 & -> & Hq1 & _). cbn [mbind outcome_bind]. by apply IH.
  - rewrite (queue_open _ _ _ _ Hq). by apply IH.
Qed.

(** C34. The queue of the crawler in the database is a first-in first-out queue that survives
    restarts: for every sequence of insertions, removals, deletions of removed entries and
    restarts, starting from an empty database, the removals return the entries in the order
    of their insertion, each once, and report that there is none exactly when all were
    removed.  (So the page that was being crawled when the node stopped is not crawled
    again.) *)
Theorem crawl_queue_fifo n d ops :
  distinct_keys n -> (pushes ops <= n)%nat ->
  bolt_get d QueueIndexBucket (GenerateKeyHash queueCountID) = None ->
  bolt_sequence d CrawlQueueBucket = 0 -> (forall k, bolt_get d CrawlQueueBucket k = None) ->
  exists d', crawl_run (NewStorage d) ops = Ok (d', queue_run [] 0 ops).
Proof.
  intros Hn Hp Hi Hs He. apply (crawl_run_queue n); [done | | exact Hp].
  unfold NewStorage, retrieve_raw. rewrite Hi. split.
  - by rewrite get_put_eq.
  - by rewrite bolt_sequence_put.
  - intros i _. rewrite get_put_ne by (left; discriminate). by rewrite He, lookup_nil.
  - cbn [length]. lia.
Qed.

(** *** The index of keywords *)

(** The links stored for the keywords of [K]. *)
Definition index_ok (K : gset string) d (idx : gmap string (gmap string Z)) : Prop :=
  forall k, k ∈ K -> match idx !! k with
    | None => bolt_get d KeywordsBucket (GenerateKeyHash k) = None
    | Some m => m <> ∅ /\
        bolt_get d KeywordsBucket (GenerateKeyHash k) = Some (pb_encode (mkKeywordToURLMap k m))
    end.
Definition merge_links (idx : gmap string (gmap string Z)) (km : KeywordToURLMap) :=
  <[km_Keyword km := km_LinkData km ∪ default ∅ (idx !! km_Keyword km)]> idx.
Definition hashes_distinct (K : gset string) : Prop :=
  forall k k', k ∈ K -> k' ∈ K -> GenerateKeyHash k = GenerateKeyHash k' -> k = k'.

Lemma union_has_links (m1 m2 : gmap string Z) : m1 <> ∅ -> m1 ∪ m2 <> ∅.
Proof. intros H1 H. apply map_positive_l in H. done. Qed.

Lemma add_links_ok K d idx km : hashes_distinct K -> index_ok K d idx -> km_Keyword km ∈ K -> has_links km ->
  exists d', add_links d km = Ok d' /\ index_ok K d' (merge_links idx km) /\
    forall b k, b <> KeywordsBucket -> bolt_get d' b k = bolt_get d b k.
Proof.
  intros HK Hi Hk Hl. unfold add_links. destruct km as [k m]. cbn [km_Keyword km_LinkData] in *.
  assert (merge_keyword (bolt_get d KeywordsBucket (GenerateKeyHash k)) (mkKeywordToURLMap k m) =
    Ok (mkKeywordToURLMap k (m ∪ default ∅ (idx !! k)))) as ->.
  { specialize (Hi k Hk). destruct (idx !! k) as [m0|].
    - destruct Hi as [Hne ->]. cbn [merge_keyword]. rewrite pb_roundtrip by exact Hne.
      rewrite decide_False by (intros [? _]; done). done.
    - rewrite Hi. cbn [merge_keyword default]. by rewrite (right_id_L ∅ (∪)). }
  cbn [mbind outcome_bind]. eexists. split; [reflexivity |]. split.
  - intros k' Hk'. unfold merge_links. cbn [km_Keyword km_LinkData]. destruct (decide (k = k')) as [<-|Hne].
    + rewrite lookup_insert_eq, get_put_eq. split; [by apply union_has_links | done].
    + rewrite lookup_insert_ne, get_put_ne by (try right; auto). by apply Hi.
  - intros b k' Hb. rewrite get_put_ne; [done | left; congruence].
Qed.

Lemma add_links_all K d idx batch :
  hashes_distinct K -> index_ok K d idx ->
  Forall (fun km => km_Keyword km ∈ K /\ has_links km) batch ->
  exists d', BulkAddLinksForKeyword d batch = Ok d' /\ index_ok K d' (foldl merge_links idx batch) /\
    forall b k, b <> KeywordsBucket -> bolt_get d' b k = bolt_get d b k.
Proof.
  intros HK Hi Hb. revert d idx Hi. induction Hb as [|km batch [Hk Hl] _ IH]; intros d idx Hi; cbn; [eauto |].
  destruct (add_links_ok K d idx km HK Hi Hk Hl) as (d1 & -> & Hi1 & Ho1). cbn [mbind outcome_bind].
  destruct (IH d1 _ Hi1) as (d2 & -> & Hi2 & Ho2). exists d2. split; [done |]. split; [done |].
  intros b k Hne. rewrite Ho2 by done. auto.
Qed.

(** The index of keywords.  Storing a batch of keywords, each with links, adds the links of
    each keyword to those stored for it, the new number of occurrences replacing the old one
    of the same link, and changes nothing else in the database. *)
Theorem bulk_add_links K d idx batch :
  hashes_distinct K -> index_ok K d idx ->
  Forall (fun km => km_Keyword km ∈ K /\ has_links km) batch ->
  exists d', BulkAddLinksForKeyword d batch = Ok d' /\ index_ok K d' (foldl merge_links idx batch) /\
    forall b k, b <> KeywordsBucket -> bolt_get d' b k = bolt_get d b k.
Proof. apply add_links_all. Qed.

(** *** Results that fit into a packet *)
Lemma list_to_map_snoc (l : list (string * Z)) x :
  x.1 ∉ l.*1 -> list_to_map (l ++ [x]) = <[x.1 := x.2]> (list_to_map l : gmap string Z).
Proof.
  induction l as [|y l IH]; cbn; intros Hx; [by destruct x |].
  apply not_elem_of_cons in Hx as [Hne Hx]. rewrite IH by done. by rewrite insert_insert_ne by congruence.
Qed.

(** How much an entry adds to an encoded map. *)
Definition entry_size (w : string) : Prop := forall (m : gmap string Z) url f, m !! url = None ->
  Z.of_nat (length (pb_encode (mkKeywordToURLMap w (<[url := f]> m)))) <=
    (if decide (m = ∅) then Z.of_nat (String.length w) else Z.of_nat (length (pb_encode (mkKeywordToURLMap w m)))) +
    Z.of_nat (String.length url) + 100.
Definition encoded (w : string) (kept : list (string * Z)) : bytes :=
  match kept with [] => [] | _ => pb_encode (mkKeywordToURLMap w (list_to_map kept)) end.

Lemma cap_loop_spec w : entry_size w -> forall rest kept, NoDup (kept ++ rest).*1 ->
  Z.of_nat (length (encoded w kept)) <= maxSize + Z.of_nat (String.length w) ->
  exists more omitted, rest = more ++ omitted /\
    cap_loop (mkKeywordToURLMap w (list_to_map kept)) (encoded w kept) rest = encoded w (kept ++ more) /\
    Z.of_nat (length (encoded w (kept ++ more))) <= maxSize + Z.of_nat (String.length w).
Proof.
  intros Hsz. induction rest as [|[url f] rest IH]; intros kept Hnd Hlen; cbn [cap_loop].
  - exists [], []. rewrite ?app_nil_r. split_and!; [done | done | exact Hlen].
  - destruct (Z.ltb_spec maxSize (Z.of_nat (length (encoded w kept)) + Z.of_nat (String.length url) + 100)).
    + exists [], ((url, f) :: rest). rewrite ?app_nil_r. split_and!; [done | done | exact Hlen].
    + cbn [km_Keyword km_LinkData].
      assert (Hni : url ∉ kept.*1).
      { rewrite fmap_app in Hnd. apply NoDup_app in Hnd as (_ & Hd & _). intros Hin. apply (Hd _ Hin). left. }
      rewrite <-(list_to_map_snoc kept (url, f) Hni : _ = <[url := f]> (list_to_map kept)).
      assert (He : pb_encode (mkKeywordToURLMap w (list_to_map (kept ++ [(url, f)]))) =
        encoded w (kept ++ [(url, f)])) by (by destruct kept).
      rewrite He. destruct (IH (kept ++ [(url, f)])) as (more & omitted & -> & Heq & Hle).
      * by rewrite <-(assoc_L (++)).
      * rewrite <-He, (list_to_map_snoc kept (url, f) Hni : _ = <[url := f]> (list_to_map kept)).
        etransitivity; [apply Hsz, not_elem_of_list_to_map_1, Hni |].
        destruct kept as [|y kept]; [rewrite decide_True by done; unfold maxSize in *; cbn in *; lia |].
        rewrite decide_False; [cbn [encoded] in *; lia |]. cbn. apply insert_non_empty.
      * exists ((url, f) :: more), omitted. split; [done |].
        rewrite <-(assoc_L (++)) in Heq, Hle. by split.
Qed.

(** Looking up a keyword whose links do not fit into a packet returns a map of the links
    that occur most often: as many, in the order by decreasing number of occurrences, as the
    size allows; the answer exceeds the limit by the length of the keyword at most.  A map
    that fits is returned as it is. *)
Theorem Retrieve_keyword order d key w m :
  m <> ∅ -> entry_size w ->
  bolt_get d KeywordsBucket key = Some (pb_encode (mkKeywordToURLMap w m)) ->
  exists data, Retrieve order d key KeywordsBucket = Ok (Some data) /\
    if decide (Z.of_nat (length (pb_encode (mkKeywordToURLMap w m))) <= maxSize)
    then data = pb_encode (mkKeywordToURLMap w m)
    else Z.of_nat (length data) <= maxSize + Z.of_nat (String.length w) /\
      exists kept omitted, order m = kept ++ omitted /\ data = encoded w kept /\
        Forall (fun x => Forall (fun y => y.2 <= x.2) omitted) kept.
Proof.
  intros Hm Hsz Hg. unfold Retrieve. rewrite Hg, bool_decide_eq_true_2 by apply list_elem_of_here. cbn [negb].
  change (String.eqb KeywordsBucket KeywordsBucket) with true. cbn [andb].
  case_decide as Hle; [rewrite (proj2 (Z.ltb_ge _ _)) by lia; eauto |].
  rewrite (proj2 (Z.ltb_lt _ _)), pb_roundtrip by (try exact Hm; lia). cbn [km_Keyword km_LinkData].
  assert (Hnd : NoDup ([] ++ order m).*1).
  { cbn [app]. rewrite (fo_perm order m). apply NoDup_fst_map_to_list. }
  destruct (cap_loop_spec w Hsz (order m) [] Hnd) as (kept & omitted & Heq & Hc & Hlen).
  { cbn. unfold maxSize. lia. }
  eexists. split; [reflexivity |]. cbn [app] in Hc, Hlen.
  change (cap_loop (mkKeywordToURLMap w ∅) [] (order m)) with
    (cap_loop (mkKeywordToURLMap w (list_to_map [])) (encoded w []) (order m)).
  rewrite Hc. split; [exact Hlen |]. exists kept, omitted. split; [exact Heq |]. split; [done |].
  pose proof (fo_sorted order m) as Hs. rewrite Heq in Hs. apply StronglySorted_app in Hs as (Hr & _ & _).
  apply Forall_forall. intros x Hx. apply Forall_forall. intros y Hy. by apply Hr.
Qed.
End Properties.

(** ** Concrete instances *)
(** A database as two maps. *)
Definition map_db : Type := gmap (string * bytes) bytes * gmap string Z.
#[export] Program Instance map_bolt : Bolt map_db := {|
  bolt_get d b k := d.1 !! (b, k);
  bolt_put d b k v := (<[(b, k) := v]> d.1, d.2);
  bolt_delete d b k := (delete (b, k) d.1, d.2);
  bolt_sequence d b := default 0 (d.2 !! b);
  bolt_next_sequence d b := (d.1, <[b := default 0 (d.2 !! b) + 1]> d.2)
|}.
Next Obligation.
  intros d b k v b' k'. cbn. destruct (decide (b = b' /\ k = k')) as [[<- <-]|H]; [apply lookup_insert_eq |].
  apply lookup_insert_ne. intros [= -> ->]. tauto.
Qed.
Next Obligation.
  intros d b k b' k'. cbn. destruct (decide (b = b' /\ k = k')) as [[<- <-]|H]; [apply lookup_delete_eq |].
  apply lookup_delete_ne. intros [= -> ->]. tauto.
Qed.
Next Obligation. done. Qed.
Next Obligation. done. Qed.
Next Obligation. done. Qed.
Next Obligation.
  intros d b b'. cbn. destruct (decide (b = b')) as [<-|H]; [by rewrite lookup_insert_eq |].
  by rewrite lookup_insert_ne.
Qed.

(** An encoding by one number. *)
Definition to_number (km : KeywordToURLMap) : bytes := [Z.pos (encode (km_Keyword km, km_LinkData km))].
Definition of_number (l : bytes) : option KeywordToURLMap :=
  match l with
  | [Z.pos p] =>
      (fun x => mkKeywordToURLMap x.1 x.2) <$> (decode p : option (string * gmap string Z))
  | _ => None
  end.
#[export] Instance number_code : Protobuf KeywordToURLMap has_links.
Proof.
  refine {| pb_encode := to_number; pb_decode := of_number |}.
  intros [w m] _. unfold of_number, to_number. by rewrite decode_encode.
Defined.

#[export] Instance by_frequency_dec : RelDecision by_frequency.
Proof. intros x y. unfold by_frequency. apply _. Defined.
#[export] Instance by_frequency_total : Total by_frequency.
Proof. intros x y. unfold by_frequency. lia. Qed.
#[export] Instance by_frequency_trans : Transitive by_frequency.
Proof. intros x y z. unfold by_frequency. lia. Qed.
Definition sorted_links : frequency_order.
Proof.
  refine (mkFrequencyOrder (fun m => merge_sort by_frequency (map_to_list m)) _ _).
  - intros m. apply merge_sort_Permutation.
  - intros m. apply StronglySorted_merge_sort; apply _.
Defined.

Definition empty_db : map_db := (∅, ∅).
Lemma keys_distinct_2 : distinct_keys 2.
Proof.
  split; [lia |]. intros i j Hi Hj H. change (Z.of_nat 2) with 2 in *.
  apply (NoDup_fmap_elem (fun i => be (entry_key i)) [-1; 0; 1; 2]).
  - apply (bool_decide_unpack _). vm_compute. exact I.
  - set_unfold. lia.
  - set_unfold. lia.
  - exact (f_equal be H).
Qed.

Lemma crawl_queue_fifo_witness : exists d',
  crawl_run (NewStorage empty_db) [Push [1]; Pop; Push [2]; Restart; DeleteHead; Pop; Pop] =
    Ok (d', [Some [1]; Some [2]; None]).
Proof.
  exact (crawl_queue_fifo 2 empty_db [Push [1]; Pop; Push [2]; Restart; DeleteHead; Pop; Pop] keys_distinct_2
    ltac:(cbn; lia) eq_refl eq_refl (fun k => eq_refl)).
Defined.

Definition sample_links : gmap string Z := {["/wiki/Go" := 2; "/wiki/Rocq" := 5]}.
Definition sample_index : gmap string (gmap string Z) := {["proof"%string := sample_links]}.
Lemma bulk_add_links_witness : exists d',
  BulkAddLinksForKeyword empty_db [mkKeywordToURLMap "proof" {["/wiki/Go"%string := 1]};
    mkKeywordToURLMap "proof" sample_links] = Ok d' /\
  bolt_get d' KeywordsBucket (GenerateKeyHash "proof") = Some (pb_encode (mkKeywordToURLMap "proof" sample_links)).
Proof.
  destruct (bulk_add_links {["proof"%string]} empty_db ∅
    [mkKeywordToURLMap "proof" {["/wiki/Go"%string := 1]}; mkKeywordToURLMap "proof" sample_links])
    as (d' & H1 & H2 & _).
  - by intros k k' ->%elem_of_singleton ->%elem_of_singleton.
  - intros k _. reflexivity.
  - repeat constructor; cbn [km_Keyword]; try set_solver; apply (bool_decide_unpack _); vm_compute; exact I.
  - exists d'. split; [exact H1 |]. specialize (H2 "proof"%string ltac:(set_solver)).
    assert (Hl : foldl merge_links ∅ [mkKeywordToURLMap "proof" {["/wiki/Go"%string := 1]};
      mkKeywordToURLMap "proof" sample_links] !! "proof"%string = Some sample_links) by (vm_compute; reflexivity).
    rewrite Hl in H2. apply H2.
Defined.

Lemma Retrieve_keyword_witness : exists data,
  Retrieve sorted_links ({[(KeywordsBucket, GenerateKeyHash "proof") :=
      pb_encode (mkKeywordToURLMap "proof" sample_links)]}, ∅) (GenerateKeyHash "proof") KeywordsBucket =
    Ok (Some data) /\ pb_decode data = Some (mkKeywordToURLMap "proof" sample_links).
Proof.
  destruct (Retrieve_keyword sorted_links ({[(KeywordsBucket, GenerateKeyHash "proof") :=
      pb_encode (mkKeywordToURLMap "proof" sample_links)]}, ∅) (GenerateKeyHash "proof") "proof" sample_links)
    as (data & H1 & H2).
  - apply (bool_decide_unpack _); vm_compute; exact I.
  - intros m url f _. cbn. destruct (decide _); lia.
  - apply lookup_singleton_eq.
  - exists data. split; [exact H1 |]. rewrite decide_True in H2 by (cbn; unfold maxSize; lia).
    rewrite H2. apply pb_roundtrip. apply (bool_decide_unpack _); vm_compute; exact I.
Defined.
