(* ===== verification/Crypto.v ===== *)
(** * Key exchange and encryption (diffie_hellman/)

    Diffie-Hellman over the integers modulo [p] is executable.  AES-GCM is used through the
    class [AEAD], which states the contract of Go's [cipher.AEAD]: opening what was sealed
    with the same key and nonce gives back the plain text.  The random secret and nonce are
    arguments. *)
From Stdlib Require Import Zpow_facts.
From S2P Require Import Prelude Sha2.

(** ** math/big *)
(** [new(big.Int).Exp(x, y, m)]: [x**y mod |m|], where the modulus is ignored when it is zero
    (for [y >= 0], as in all uses). *)
Fixpoint pow_mod_pos (x : Z) (y : positive) (m : Z) : Z :=
  match y with
  | xH => x mod m
  | xO y' => let r := pow_mod_pos x y' m in (r * r) mod m
  | xI y' => let r := pow_mod_pos x y' m in (r * r * x) mod m
  end.
Definition Exp (x y m : Z) : Z :=
  if m =? 0 then x ^ y
  else match y with Z.pos p => pow_mod_pos x p (Z.abs m) | _ => 1 mod Z.abs m end.

(** [Bytes]: big endian, without leading zeros. *)
Fixpoint to_bytes_pos (fuel : nat) (z : Z) (acc : bytes) : bytes :=
  match fuel with
  | O => acc
  | S fuel' => if z =? 0 then acc else to_bytes_pos fuel' (z / 256) (z mod 256 :: acc)
  end.
Definition Bytes (z : Z) : bytes := to_bytes_pos (Z.to_nat (Z.log2 z) + 1) z [].
Definition SetBytes (b : bytes) : Z := be b.

(** ** diffiehellman.go *)
Record DHParty := mkParty { dh_g : Z; dh_p : Z; dh_secret : Z }.
(** [secret()] is the number of 256 random bytes. *)
Definition DH_New (group p : Z) (random : bytes) : DHParty :=
  mkParty group p (SetBytes random).
Definition Group : Z := 2.
Definition hex_value (a : Ascii.ascii) : Z :=
  let n := Z.of_N (Ascii.N_of_ascii a) in
  if n <? 58 then n - 48 else if n <? 71 then n - 55 else n - 87.
Definition of_hex (s : string) : Z :=
  fold_left (fun z a => z * 16 + hex_value a) (String.list_ascii_of_string s) 0.
Definition P : Z := Eval vm_compute in of_hex
  ("FFFFFFFFFFFFFFFFC90FDAA22168C234C4C6628B80DC1CD1" ++
   "29024E088A67CC74020BBEA63B139B22514A08798E3404DD" ++
   "EF9519B3CD3A431B302B0A6DF25F14374FE1356D6D51C245" ++
   "E485B576625E7EC6F44C42E9A637ED6B0BFF5CB6F406B7ED" ++
   "EE386BFB5A899FA5AE9F24117C4B1FE649286651ECE45B3D" ++
   "C2007CB8A163BF0598DA48361C55D39A69163FA8FD24CF5F" ++
   "83655D23DCA3AD961C62F356208552BB9ED529077096966D" ++
   "670C354E4ABC9804F1746C08CA18217C32905E462E36CE3B" ++
   "E39E772C180E86039B2783A2EC07A28FB5C55DF06F4C52C9" ++
   "DE2BCBF6955817183995497CEA956AE515D2261898FA0510" ++
   "15728E5A8AACAA68FFFFFFFFFFFFFFFF")%string.

Definition GeneratePublicKey (dh : DHParty) : bytes :=
  Bytes (Exp (dh_g dh) (dh_secret dh) (dh_p dh)).
Definition GenerateSymmetricKey (dh : DHParty) (publicKey : bytes) : bytes :=
  let pk := SetBytes publicKey in
  let sharedSecret := Exp pk (dh_secret dh) (dh_p dh) in
  Sum256 (Bytes sharedSecret).

(** ** aesencrypter.go *)
Class AEAD := {
  aead_seal : bytes -> bytes -> bytes -> bytes;           (* key, nonce, plain text *)
  aead_open : bytes -> bytes -> bytes -> option bytes;    (* key, nonce, cipher text *)
  aead_open_seal key nonce plain : length key = 32%nat -> length nonce = 12%nat ->
    aead_open key nonce (aead_seal key nonce plain) = Some plain
}.
Definition nonceSize : nat := 12.

Section AES.
Context `{AEAD}.
(** [New] stops the process unless the key has 16, 24 or 32 bytes. *)
Definition aes_New (key : bytes) : outcome bytes :=
  if bool_decide (length key ∈ [16; 24; 32]%nat) then Ok key else Fatal "crypto/aes: invalid key size".
Definition Encrypt (key nonce plaintext : bytes) : bytes := nonce ++ aead_seal key nonce plaintext.
(** [ciphertext[:12]] panics when it is shorter; [None] is the error of [Open]. *)
Definition Decrypt (key ciphertext : bytes) : outcome (option bytes) :=
  if (length ciphertext <? nonceSize)%nat then Panic "slice bounds out of range"
  else Ok (aead_open key (take nonceSize ciphertext) (drop nonceSize ciphertext)).
End AES.

(** ** Correctness *)
Lemma pow_mod_pos_spec x y m : m <> 0 -> pow_mod_pos x y m = x ^ Z.pos y mod m.
Proof.
  intros Hm. induction y as [y IH|y IH|]; cbn [pow_mod_pos].
  - rewrite IH, Pos2Z.inj_xI, Z.pow_add_r, Z.pow_1_r, Z.pow_twice_r by lia.
    rewrite <-(Z.mul_mod_idemp_l (_ * _)), <-Z.mul_mod, Z.mul_mod_idemp_l by done. done.
  - rewrite IH, Pos2Z.inj_xO, Z.pow_twice_r, <-Z.mul_mod by done. done.
  - by rewrite Z.pow_1_r.
Qed.
Lemma Exp_spec x y m : m <> 0 -> 0 <= y -> Exp x y m = x ^ y mod Z.abs m.
Proof.
  intros Hm Hy. unfold Exp. rewrite (proj2 (Z.eqb_neq _ _)) by done.
  destruct y; [done | apply pow_mod_pos_spec; lia | lia].
Qed.
Lemma Exp_range x y m : m <> 0 -> 0 <= y -> 0 <= Exp x y m.
Proof. intros. rewrite Exp_spec by done. apply Z.mod_pos_bound. lia. Qed.
Lemma Exp_comm g a b m : m <> 0 -> 0 <= a -> 0 <= b -> Exp (Exp g b m) a m = Exp (Exp g a m) b m.
Proof.
  intros Hm Ha Hb. rewrite !Exp_spec by done.
  rewrite <-!Zpow_facts.Zpower_mod by lia. rewrite <-!Z.pow_mul_r by done. by rewrite (Z.mul_comm a).
Qed.

Lemma be_app l1 l2 : be (l1 ++ l2) = be l1 * 2 ^ (8 * Z.of_nat (length l2)) + be l2.
Proof.
  induction l1 as [|b l1 IH]; cbn [be app]; [lia |]. rewrite IH, length_app, Nat2Z.inj_add.
  rewrite Z.mul_add_distr_l, Z.pow_add_r by lia. ring.
Qed.
Lemma to_bytes_pos_spec fuel : forall z acc, 0 <= z < 256 ^ Z.of_nat fuel ->
  be (to_bytes_pos fuel z acc) = z * 2 ^ (8 * Z.of_nat (length acc)) + be acc.
Proof.
  induction fuel as [|fuel IH]; intros z acc Hz; cbn [to_bytes_pos].
  - cbn in Hz. replace z with 0 by lia. lia.
  - rewrite Nat2Z.inj_succ, Z.pow_succ_r in Hz by lia.
    destruct (Z.eqb_spec z 0) as [->|]; [lia |].
    rewrite IH by (split; [apply Z.div_pos; lia | apply Z.div_lt_upper_bound; lia]).
    cbn [length be]. rewrite Nat2Z.inj_succ, Z.mul_succ_r, Z.pow_add_r by lia.
    change (2 ^ 8) with 256. rewrite (Z.div_mod z 256) at 3 by lia. ring.
Qed.
Lemma SetBytes_Bytes z : 0 <= z -> SetBytes (Bytes z) = z.
Proof.
  intros Hz. unfold SetBytes, Bytes. rewrite to_bytes_pos_spec; [cbn [be length]; change (2 ^ _) with 1; lia |].
  split; [done |]. rewrite Nat2Z.inj_add, Z2Nat.id by apply Z.log2_nonneg.
  destruct (decide (z = 0)) as [->|]; [done |].
  eapply Z.lt_le_trans; [apply Z.log2_spec; lia |].
  change (Z.of_nat 1) with 1. rewrite <-Z.add_1_r. apply Z.pow_le_mono_l. pose proof (Z.log2_nonneg z). lia.
Qed.

Lemma shared_key g p a b :
  p <> 0 -> wf_bytes a -> wf_bytes b ->
  GenerateSymmetricKey (DH_New g p a) (GeneratePublicKey (DH_New g p b)) =
  GenerateSymmetricKey (DH_New g p b) (GeneratePublicKey (DH_New g p a)).
Proof.
  intros Hp Ha Hb. unfold GenerateSymmetricKey, GeneratePublicKey, DH_New. cbn [dh_g dh_p dh_secret].
  pose proof (be_range a Ha). pose proof (be_range b Hb). unfold SetBytes at 2 4.
  rewrite !SetBytes_Bytes by (apply Exp_range; [done | unfold SetBytes; lia]).
  rewrite Exp_comm; [done | done | unfold SetBytes; lia..].
Qed.

Lemma GenerateSymmetricKey_length dh pk : length (GenerateSymmetricKey dh pk) = 32%nat.
Proof. apply Sum256_length. Qed.

(** Key agreement.  Two parties that use the same group and modulus, which is not zero,
    and exchange their public keys derive the same symmetric key, of 32 bytes, whatever
    their random secrets are. *)
Theorem key_agreement g p a b :
  p <> 0 -> wf_bytes a -> wf_bytes b ->
  let alice := DH_New g p a in
  let bob := DH_New g p b in
  GenerateSymmetricKey alice (GeneratePublicKey bob) = GenerateSymmetricKey bob (GeneratePublicKey alice) /\
  length (GenerateSymmetricKey alice (GeneratePublicKey bob)) = 32%nat.
Proof.
  intros Hp Ha Hb. cbv zeta. split; [by apply shared_key | apply Sum256_length].
Qed.

Lemma key_agreement_witness :
  GenerateSymmetricKey (DH_New Group 23 [6]) (GeneratePublicKey (DH_New Group 23 [15])) =
  GenerateSymmetricKey (DH_New Group 23 [15]) (GeneratePublicKey (DH_New Group 23 [6])).
Proof.
  apply (key_agreement Group 23 [6] [15]); [lia | repeat constructor; unfold in_width; lia..].
Defined.

Lemma aes_New_32 key : length key = 32%nat -> aes_New key = Ok key.
Proof. intros Hk. unfold aes_New. by rewrite Hk. Qed.

(** Decrypting with the key of the sender gives back the message, for every nonce of twelve
    bytes; and a cipher text of less than twelve bytes ends the process of the receiver. *)
Theorem encrypt_decrypt `{AEAD} key nonce plain short :
  length key = 32%nat -> length nonce = 12%nat -> (length short < 12)%nat ->
  Decrypt key (Encrypt key nonce plain) = Ok (Some plain) /\
  Decrypt key short = Panic "slice bounds out of range".
Proof.
  intros Hk Hn Hs. unfold Decrypt, Encrypt, nonceSize. split.
  - rewrite length_app, Hn. rewrite (proj2 (Nat.ltb_ge _ _)) by lia.
    rewrite take_app_length', drop_app_length' by done. by rewrite aead_open_seal.
  - by rewrite (proj2 (Nat.ltb_lt _ _)).
Qed.

(** A toy cipher: the plain text, tagged with the key. *)
Definition tag_cipher : AEAD.
Proof.
  refine {| aead_seal key nonce plain := key ++ plain;
            aead_open key nonce c := if decide (take (length key) c = key) then Some (drop (length key) c) else None |}.
  intros key nonce plain _ _. by rewrite take_app_length, decide_True, drop_app_length by done.
Defined.
Lemma encrypt_decrypt_witness :
  @Decrypt tag_cipher (replicate 32 7) (@Encrypt tag_cipher (replicate 32 7) (replicate 12 1) [104; 105]) =
    Ok (Some [104; 105]).
Proof. apply (@encrypt_decrypt tag_cipher (replicate 32 7) (replicate 12 1) [104; 105] []); cbn; lia. Defined.
