(* ===== verification/Sessions.v ===== *)
(** * Diffie-Hellman sessions (gossiper/diffiehellman.go, getKey of gossiper/webcrawler.go)

    A node negotiates a symmetric key with another one by four messages: the public key of
    the initiator, that of the responder, and an acknowledgement of each.  Messages are
    signed with the key whose public part is the identifier of the node.  A goroutine that
    waits for a message is split at that point; what it receives, the time, random values and
    the result of the lookup that [verifyPublicKey] makes are arguments.

    ECDSA signatures and the protobuf encoding of a packet are used through the class
    [Signatures].  Times are nanoseconds; a channel is named by a number. *)
From S2P Require Import Prelude Sha2 DhtId Crypto Dto.

Definition second : Z := 10 ^ 9.

(** ** Sessions *)
Record DiffieHellmanNegotiationSession := mkNegotiation { ns_ch : nat; ns_ID : TypeID }.
Record DiffieHellmanSession := mkSession { s_Key : bytes; s_LastTimeUsed : Z; s_ExpirationDate : Z }.
(** [LastTimeUsed] is the zero time, long before the Unix epoch. *)
Definition zero_time : Z := -62135596800 * second.
Definition NewDiffieHellmanSession (key : bytes) (ExpirationDate : Z) : DiffieHellmanSession :=
  mkSession key zero_time ExpirationDate.
Definition expired (now : Z) (ds : DiffieHellmanSession) : bool := s_ExpirationDate ds <? now.

Record dh_state := mkDHState {
  diffieHellmanMap : gmap TypeID (list DiffieHellmanNegotiationSession);
  activeOutgoingDiffieHellmans : gmap TypeID (list DiffieHellmanSession);
  activeIngoingDiffieHellmans : gmap TypeID (list DiffieHellmanSession);
  negotiationMap : gset TypeID
}.
Definition sessions_of {A} (m : gmap TypeID (list A)) (id : TypeID) : list A := default [] (m !! id).
Definition append_to {A} (m : gmap TypeID (list A)) (id : TypeID) (x : A) : gmap TypeID (list A) :=
  <[id := sessions_of m id ++ [x]]> m.
Definition set_negotiations (st : dh_state) m := mkDHState m (activeOutgoingDiffieHellmans st)
  (activeIngoingDiffieHellmans st) (negotiationMap st).
Definition set_outgoing (st : dh_state) m := mkDHState (diffieHellmanMap st) m
  (activeIngoingDiffieHellmans st) (negotiationMap st).
Definition set_ingoing (st : dh_state) m := mkDHState (diffieHellmanMap st)
  (activeOutgoingDiffieHellmans st) m (negotiationMap st).
Definition set_negotiating (st : dh_state) s := mkDHState (diffieHellmanMap st)
  (activeOutgoingDiffieHellmans st) (activeIngoingDiffieHellmans st) s.

(** [CleanOldDiffieHellmanSessionsRoutine], at a tick. *)
Definition keep_session (now : Z) (s : DiffieHellmanSession) : bool :=
  negb (expired now s && (s_LastTimeUsed s + 30 * second <? now)).
Definition clean_tick (st : dh_state) (now : Z) : dh_state :=
  let clean m := filter (fun s => keep_session now s = true) <$> m in
  mkDHState (diffieHellmanMap st) (clean (activeOutgoingDiffieHellmans st))
    (clean (activeIngoingDiffieHellmans st)) (negotiationMap st).

Fixpoint getSession (sessions : list DiffieHellmanNegotiationSession) (id : TypeID)
    : option DiffieHellmanNegotiationSession :=
  match sessions with
  | [] => None
  | s :: rest => if decide (ns_ID s = id) then Some s else getSession rest id
  end.

(** ** Identities and signatures *)
(** The identifier of a node is made of the coordinates of its public key:
    [X.Bytes()] followed by [Y.Bytes()], cut or padded with zeros to 64 bytes. *)
Definition node_identity (x y : Z) : TypeID :=
  let k := Bytes x ++ Bytes y in take 64 (k ++ replicate 64 0).
Definition extractEcdsaPublicKeyComponents (id : TypeID) : Z * Z :=
  (SetBytes (take 32 id), SetBytes (drop 32 id)).

(** A key pair is named by its public coordinates; [sig_sign] is deterministic here: the
    randomness of ECDSA is part of the choice of the instance. *)
Class Signatures := {
  sig_sign : Z * Z -> bytes -> bytes * bytes;
  sig_verify : Z * Z -> bytes -> bytes -> bytes -> bool;
  sig_correct key h : let '(r, s) := sig_sign key h in sig_verify key h r s = true;
  pb_packet : DiffieHellman -> bytes
}.

Definition with_signature (p : DiffieHellman) (r s : bytes) : DiffieHellman :=
  mkDiffieHellman (dh_Origin p) (dh_Destination p) (dh_HopLimit p) (dh_P p) (dh_G p)
    (dh_DiffiePublicKey p) r s (dh_ExpirationDate p) (dh_NodeID p) (dh_Init p) (dh_ID p).

(** (not in the source: what somebody between two nodes can do to a packet) *)
Definition with_public_key (p : DiffieHellman) (key : bytes) : DiffieHellman :=
  mkDiffieHellman (dh_Origin p) (dh_Destination p) (dh_HopLimit p) (dh_P p) (dh_G p)
    key (dh_R p) (dh_S p) (dh_ExpirationDate p) (dh_NodeID p) (dh_Init p) (dh_ID p).

(** [fmt.Sprintf("%x", z)] and [SetString(s, 16)] of a big integer. *)
Fixpoint hex_digits (fuel : nat) (z : Z) (acc : list Z) : list Z :=
  match fuel with
  | O => acc
  | S fuel' => if z <? 16 then z :: acc else hex_digits fuel' (z / 16) (z mod 16 :: acc)
  end.
Definition Sprintf_x (z : Z) : string :=
  let digits := String.string_of_list_ascii (hex_digit <$> hex_digits (Z.to_nat (Z.log2 (Z.abs z)) + 1) (Z.abs z) []) in
  if z <? 0 then ("-" ++ digits)%string else digits.
Definition digit_value (a : Ascii.ascii) : option Z :=
  let n := Z.of_N (Ascii.N_of_ascii a) in
  if (48 <=? n) && (n <=? 57) then Some (n - 48)
  else if (97 <=? n) && (n <=? 102) then Some (n - 87)
  else if (65 <=? n) && (n <=? 70) then Some (n - 55) else None.
Fixpoint parse_digits (l : list Ascii.ascii) (z : Z) : option Z :=
  match l with
  | [] => Some z
  | a :: rest => d ← digit_value a; parse_digits rest (z * 16 + d)
  end.
Definition parse_unsigned (l : list Ascii.ascii) : option Z :=
  match l with [] => None | _ => parse_digits l 0 end.
Definition SetString (s : string) : option Z :=
  match String.list_ascii_of_string s with
  | Ascii.Ascii true false true true false true false false :: l => Z.opp <$> parse_unsigned l   (* '-' *)
  | Ascii.Ascii true true false true false true false false :: l => parse_unsigned l             (* '+' *)
  | l => parse_unsigned l
  end.

(** ** Negotiation *)
Inductive dh_effect :=
  | SendDH (packet : DiffieHellman) (dest : string)
  | GoNegotiate (dest : string) (nodeID : TypeID) (packet : DiffieHellman)
  | Deliver (ch : nat) (packet : DiffieHellman).

Section Negotiation.
Context `{Signatures}.

Definition signPacket (priv : Z * Z) (packet : DiffieHellman) : DiffieHellman :=
  let '(r, s) := sig_sign priv (Sum256 (pb_packet packet)) in with_signature packet r s.
(** The signature is removed from the packet, which is then encoded and hashed. *)
Definition verifySignature (packet : DiffieHellman) : bool :=
  let bare := with_signature packet [] [] in
  sig_verify (extractEcdsaPublicKeyComponents (dh_NodeID packet)) (Sum256 (pb_packet bare))
    (dh_R packet) (dh_S packet).
(** [closest] is the result of [LookupNodes] for the key. *)
Definition verifyPublicKey (closest : list NodeState) (key : TypeID) (sender : string) : bool :=
  match closest with
  | [] => false
  | n :: _ => bool_decide (NodeID n = key) && String.eqb (Address n) sender
  end.
Definition authentic (closest : list NodeState) (dest : string) (packet : DiffieHellman) : bool :=
  verifyPublicKey closest (dh_NodeID packet) dest && verifySignature packet.

(** The new value of [g.diffieHellmanMap[nodeID]]. *)
Definition register (st : dh_state) (nodeID : TypeID) (ch : nat) (token : TypeID) : dh_state :=
  set_negotiations st (append_to (diffieHellmanMap st) nodeID (mkNegotiation ch token)).

Definition diffieAcklowledge (priv : Z * Z) (me : TypeID) (id : TypeID) (now : Z) : DiffieHellman :=
  signPacket priv (mkDiffieHellman "" "" 0 "" "" [] [] [] (now + 60 * second) me false id).

(** [negotiateDiffieHellmanInitiator] up to its first wait. *)
Definition initiator_start (st : dh_state) (priv : Z * Z) (me : TypeID) (name dest : string)
    (nodeID token : TypeID) (ch : nat) (random : bytes) : dh_state * DHParty * DiffieHellman :=
  let st := register st nodeID ch token in
  let diffieHellman := DH_New Group P random in
  let diffiePacket := mkDiffieHellman name dest 0 (Sprintf_x P) (Sprintf_x Group)
    (GeneratePublicKey diffieHellman) [] [] zero_time me true token in
  (st, diffieHellman, signPacket priv diffiePacket).
(** From the reply to the acknowledgement; [None]: a timeout-free failure, the result is nil. *)
Definition initiator_reply (priv : Z * Z) (me : TypeID) (dest : string) (token : TypeID)
    (closest : list NodeState) (reply : DiffieHellman) (now : Z) : option DiffieHellman :=
  if authentic closest dest reply then Some (diffieAcklowledge priv me token now) else None.
Definition initiator_ack (st : dh_state) (dest : string) (nodeID : TypeID) (diffieHellman : DHParty)
    (closest : list NodeState) (reply ack res : DiffieHellman) : dh_state * option bytes :=
  if authentic closest dest res then
    let symmetricKey := GenerateSymmetricKey diffieHellman (dh_DiffiePublicKey reply) in
    (set_outgoing st (append_to (activeOutgoingDiffieHellmans st) nodeID
       (NewDiffieHellmanSession symmetricKey (dh_ExpirationDate ack))), Some symmetricKey)
  else (st, None).

(** [negotiateDiffieHellman] up to its wait: the symmetric key and the reply. *)
Definition responder_start (st : dh_state) (priv : Z * Z) (me : TypeID) (name dest : string)
    (nodeID : TypeID) (packet : DiffieHellman) (ch : nat) (random : bytes)
    : outcome (dh_state * bytes * DiffieHellman) :=
  match SetString (dh_G packet), SetString (dh_P packet) with
  | None, _ => Fatal "Could not find group."
  | _, None => Fatal "Could not find p."
  | Some group, Some p =>
      let diffieHellman := DH_New group p random in
      let symmetricKey := GenerateSymmetricKey diffieHellman (dh_DiffiePublicKey packet) in
      let diffiePublicKey := GeneratePublicKey diffieHellman in
      let st := register st nodeID ch (dh_ID packet) in
      Ok (st, symmetricKey, signPacket priv
        (mkDiffieHellman name dest 10 (dh_P packet) (dh_G packet) diffiePublicKey [] [] zero_time me false (dh_ID packet)))
  end.
Definition responder_ack (st : dh_state) (priv : Z * Z) (me : TypeID) (dest : string) (nodeID : TypeID)
    (packet : DiffieHellman) (symmetricKey : bytes) (closest : list NodeState) (ack : DiffieHellman)
    (now : Z) : dh_state * option DiffieHellman :=
  if authentic closest dest ack then
    (set_ingoing st (append_to (activeIngoingDiffieHellmans st) nodeID
       (NewDiffieHellmanSession symmetricKey (dh_ExpirationDate ack))),
     Some (diffieAcklowledge priv me (dh_ID packet) now))
  else (st, None).

(** [diffieListenRoutine], after [addToPeers]. *)
Definition diffieListen (st : dh_state) (sender : string) (packet : DiffieHellman) : list dh_effect :=
  if dh_Init packet then [GoNegotiate sender (dh_NodeID packet) packet]
  else
    match diffieHellmanMap st !! dh_NodeID packet with
    | Some ((_ :: _) as d) =>
        match getSession d (dh_ID packet) with
        | Some session => [Deliver (ns_ch session) packet]
        | None => []
        end
    | _ => []
    end.
End Negotiation.

(** ** Choosing a key (getKey) *)
Inductive key_choice :=
  | UseKey (key : bytes)
  | Negotiate          (* start a negotiation *)
  | Subscribe.         (* wait for the one that is running *)

(** [now1] and [now2] are the times of the two calls of [expired] for each session. *)
Definition scan_step (acc : bool * option nat) (x : nat * (DiffieHellmanSession * (Z * Z))) : bool * option nat :=
  let '(index, (session, (now1, now2))) := x in
  (expired now1 session, if expired now2 session then acc.2 else Some index).
Definition getKey (st : dh_state) (nodeID : TypeID) (clock : nat -> Z * Z) : outcome (dh_state * key_choice) :=
  let diffieSessions := sessions_of (activeOutgoingDiffieHellmans st) nodeID in
  let '(allSessionsExpired, indexNonExpired) :=
    foldl scan_step (true, None) (imap (fun i s => (i, (s, clock i))) diffieSessions) in
  if (0 <? length diffieSessions)%nat && negb allSessionsExpired then
    match indexNonExpired with
    | Some i => s ← deref (diffieSessions !! i); Ok (st, UseKey (s_Key s))
    | None => Panic "index out of range [-1]"
    end
  else if decide (nodeID ∈ negotiationMap st) then Ok (st, Subscribe)
  else Ok (set_negotiating st ({[nodeID]} ∪ negotiationMap st), Negotiate).

(** What becomes of a negotiation that [getKey] started.  The caller receives once, unless
    its own time-out of five seconds is over ([caller_waits] is false); a send that nobody
    receives blocks the goroutine.  A key is sent once, and then the negotiation is removed;
    nil is sent twice before the removal; at the time-out of 30 seconds ([None]) the removal
    comes first.  Nothing is ever sent to the subscribers, which time out. *)
Definition negotiation_done (st : dh_state) (nodeID : TypeID) (result : option (option bytes))
    (caller_waits : bool) : dh_state * option bytes :=
  let finished := set_negotiating st (negotiationMap st ∖ {[nodeID]}) in
  match result with
  | Some (Some k) => if caller_waits then (finished, Some k) else (st, None)
  | Some None => (st, None)
  | None => (finished, None)
  end.

(** ** Lemmas *)
Lemma sessions_of_append {A} (m : gmap TypeID (list A)) id x :
  sessions_of (append_to m id x) id = sessions_of m id ++ [x].
Proof. unfold sessions_of at 1, append_to. by rewrite lookup_insert_eq. Qed.
Lemma append_to_other {A} (m : gmap TypeID (list A)) id id' x :
  id <> id' -> append_to m id x !! id' = m !! id'.
Proof. apply lookup_insert_ne. Qed.

Definition unused (st : dh_state) (nodeID token : TypeID) : Prop :=
  token ∉ ns_ID <$> sessions_of (diffieHellmanMap st) nodeID.
Lemma getSession_fresh l id ch :
  id ∉ ns_ID <$> l -> getSession (l ++ [mkNegotiation ch id]) id = Some (mkNegotiation ch id).
Proof.
  induction l as [|s l IH]; rewrite ?fmap_cons; cbn [getSession app ns_ID].
  - intros _. by rewrite decide_True.
  - intros [Hne Hl]%not_elem_of_cons. rewrite decide_False by congruence. by apply IH.
Qed.
(** A packet that carries a registered fresh token reaches the goroutine that registered it. *)
Lemma deliver_registered st nodeID ch sender packet :
  unused st nodeID (dh_ID packet) -> dh_NodeID packet = nodeID -> dh_Init packet = false ->
  diffieListen (register st nodeID ch (dh_ID packet)) sender packet = [Deliver ch packet].
Proof.
  intros Hu <- Hi. unfold diffieListen, register. rewrite Hi. cbn [diffieHellmanMap set_negotiations].
  unfold append_to. rewrite lookup_insert_eq.
  destruct (sessions_of (diffieHellmanMap st) (dh_NodeID packet)) as [|s l] eqn:E.
  - cbn [app getSession ns_ID]. by rewrite decide_True.
  - cbn [app]. rewrite app_comm_cons, getSession_fresh; [done |]. by rewrite <-E.
Qed.

Lemma SetString_P : SetString (Sprintf_x P) = Some P.
Proof. vm_compute. reflexivity. Qed.
Lemma SetString_G : SetString (Sprintf_x Group) = Some Group.
Proof. vm_compute. reflexivity. Qed.

(** The packets a node signs with the key of its identifier are authentic for a peer whose
    lookup finds the node at the address they come from. *)
Definition owns (priv : Z * Z) (id : TypeID) : Prop := extractEcdsaPublicKeyComponents id = priv.
Definition located (closest : list NodeState) (id : TypeID) (addr : string) : Prop :=
  exists n rest, closest = n :: rest /\ NodeID n = id /\ Address n = addr.

Section Signed.
Context `{Signatures}.

Lemma verify_signed priv packet :
  owns priv (dh_NodeID packet) -> dh_R packet = [] -> dh_S packet = [] ->
  verifySignature (signPacket priv packet) = true.
Proof.
  intros Ho HR HS. unfold signPacket.
  pose proof (sig_correct priv (Sum256 (pb_packet packet))) as Hc.
  destruct (sig_sign priv _) as [r s] eqn:E. unfold verifySignature, with_signature. cbn.
  rewrite Ho. destruct packet; cbn in *; subst. exact Hc.
Qed.
Lemma signed_authentic priv packet closest dest :
  owns priv (dh_NodeID packet) -> located closest (dh_NodeID packet) dest ->
  dh_R packet = [] -> dh_S packet = [] ->
  authentic closest dest (signPacket priv packet) = true.
Proof.
  intros Ho (n & rest & -> & Hn & Ha) HR HS. unfold authentic. rewrite verify_signed by done.
  unfold verifyPublicKey. rewrite andb_true_r.
  assert (dh_NodeID (signPacket priv packet) = dh_NodeID packet) as ->.
  { unfold signPacket. by destruct (sig_sign _ _). }
  by rewrite Hn, Ha, bool_decide_eq_true_2, String.eqb_refl.
Qed.
Lemma signPacket_fields priv packet :
  let s := signPacket priv packet in
  dh_NodeID s = dh_NodeID packet /\ dh_Init s = dh_Init packet /\ dh_ID s = dh_ID packet /\
  dh_G s = dh_G packet /\ dh_P s = dh_P packet /\ dh_DiffiePublicKey s = dh_DiffiePublicKey packet /\
  dh_ExpirationDate s = dh_ExpirationDate packet.
Proof. unfold signPacket. destruct (sig_sign priv _). by split_and!. Qed.

Lemma deliver_signed st nodeID ch token sender priv packet :
  unused st nodeID token -> dh_NodeID packet = nodeID -> dh_ID packet = token -> dh_Init packet = false ->
  diffieListen (register st nodeID ch token) sender (signPacket priv packet) =
    [Deliver ch (signPacket priv packet)].
Proof.
  intros Hu Hn Hid Hi. destruct (signPacket_fields priv packet) as (E1 & E2 & E3 & _).
  rewrite <-Hid, <-E3. apply deliver_registered; [by rewrite E3, Hid | by rewrite E1 | by rewrite E2].
Qed.
(** The answer of the responder does not depend on who wrote the first packet. *)
Lemma responder_start_ok st priv me name dest nodeID packet ch random :
  dh_G packet = Sprintf_x Group -> dh_P packet = Sprintf_x P ->
  let dh := DH_New Group P random in
  responder_start st priv me name dest nodeID packet ch random =
    Ok (register st nodeID ch (dh_ID packet), GenerateSymmetricKey dh (dh_DiffiePublicKey packet),
        signPacket priv (mkDiffieHellman name dest 10 (dh_P packet) (dh_G packet) (GeneratePublicKey dh)
          [] [] zero_time me false (dh_ID packet))).
Proof.
  intros HG HP. unfold responder_start. rewrite HG, HP, SetString_G, SetString_P. reflexivity.
Qed.
End Signed.

#[local] Opaque owns located unused signPacket authentic GenerateSymmetricKey GeneratePublicKey Sprintf_x P.

(** The side conditions of the lemmas above, an hypothesis for each of the first ones and
    fields of packets for the others ([done] would evaluate the keys). *)
Ltac signed_by Ho Hl := apply signed_authentic; [exact Ho | exact Hl | reflexivity..].
Ltac delivered Hu := apply deliver_signed; [exact Hu | reflexivity..].

(** A whole negotiation that starts with the packet [first], in the name of A: the key of the
    responder depends on the public key in [first], that of the initiator does not. *)
Section Handshake.
Context `{Signatures} (stA stB : dh_state) (privA privB : Z * Z) (idA idB token : TypeID)
  (nameB addrA addrB : string) (chA chB : nat) (ra rb : bytes)
  (closestA closestB : list NodeState) (now1 now2 : Z).
Hypotheses (HoA : owns privA idA) (HoB : owns privB idB)
  (HlA : located closestA idB addrB) (HlB : located closestB idA addrA)
  (HuA : unused stA idB token) (HuB : unused stB idA token).

Definition negotiated (first : DiffieHellman) (keyA keyB : bytes) (stA2 stB2 : dh_state)
    (reply : DiffieHellman) : Prop :=
  let stA1 := register stA idB chA token in
  exists stB1 ack ack',
    diffieListen stB addrA first = [GoNegotiate addrA idA first] /\
    responder_start stB privB idB nameB addrA idA first chB rb = Ok (stB1, keyB, reply) /\
    diffieListen stA1 addrB reply = [Deliver chA reply] /\
    initiator_reply privA idA addrB token closestA reply now1 = Some ack /\
    diffieListen stB1 addrA ack = [Deliver chB ack] /\
    responder_ack stB1 privB idB addrA idA first keyB closestB ack now2 = (stB2, Some ack') /\
    diffieListen stA1 addrB ack' = [Deliver chA ack'] /\
    initiator_ack stA1 addrB idB (DH_New Group P ra) closestA reply ack ack' = (stA2, Some keyA) /\
    activeOutgoingDiffieHellmans stA2 = append_to (activeOutgoingDiffieHellmans stA) idB
      (mkSession keyA zero_time (now1 + 60 * second)) /\
    activeIngoingDiffieHellmans stB2 = append_to (activeIngoingDiffieHellmans stB) idA
      (mkSession keyB zero_time (now1 + 60 * second)).

Lemma negotiation_runs first :
  dh_NodeID first = idA -> dh_Init first = true -> dh_ID first = token ->
  dh_G first = Sprintf_x Group -> dh_P first = Sprintf_x P ->
  exists stA2 stB2 reply,
    dh_DiffiePublicKey reply = GeneratePublicKey (DH_New Group P rb) /\
    negotiated first (GenerateSymmetricKey (DH_New Group P ra) (GeneratePublicKey (DH_New Group P rb)))
      (GenerateSymmetricKey (DH_New Group P rb) (dh_DiffiePublicKey first)) stA2 stB2 reply.
Proof using All.
  intros Hn Hinit Hid HG HP.
  pose proof (responder_start_ok stB privB idB nameB addrA idA first chB rb HG HP) as Hstart.
  cbv zeta in Hstart. revert Hstart.
  set (answer := mkDiffieHellman nameB addrA 10 _ _ _ _ _ _ _ _ _). rewrite Hid. intros Hstart.
  destruct (signPacket_fields privB answer) as (_ & _ & _ & _ & _ & Hpk & _).
  set (ack := diffieAcklowledge privA idA token now1). set (ack' := diffieAcklowledge privB idB token now2).
  assert (Hans : authentic closestA addrB (signPacket privB answer) = true) by signed_by HoB HlA.
  assert (Hack : authentic closestB addrA ack = true) by signed_by HoA HlB.
  assert (Hack' : authentic closestA addrB ack' = true) by signed_by HoB HlA.
  assert (Hexp : dh_ExpirationDate ack = now1 + 60 * second) by apply signPacket_fields.
  eexists _, _, (signPacket privB answer). split; [exact Hpk |].
  eexists _, ack, ack'. split_and!.
  - unfold diffieListen. rewrite Hinit, Hn. reflexivity.
  - exact Hstart.
  - apply deliver_signed; [exact HuA | reflexivity | exact Hid | reflexivity].
  - unfold initiator_reply. rewrite Hans. reflexivity.
  - delivered HuB.
  - unfold responder_ack. rewrite Hack, Hexp, Hid. reflexivity.
  - delivered HuA.
  - unfold initiator_ack. rewrite Hack', Hexp, Hpk. reflexivity.
  - reflexivity.
  - reflexivity.
Qed.
End Handshake.

(** C19. Agreement on a session.  Node A starts a negotiation with node B; both own the key of
    their identifier, both find each other at the right address, and the token is fresh for
    both.  Then every packet is delivered to the goroutine that waits for it and accepted,
    and both nodes append a session with the same key of 32 bytes and the same expiration
    date, one minute after A acknowledged: A to its outgoing sessions with B, B to its ingoing
    sessions with A. *)
Theorem handshake_agreement `{Signatures} stA stB privA privB idA idB nameA nameB addrA addrB
    token chA chB ra rb closestA closestB now1 now2 :
  wf_bytes ra -> wf_bytes rb -> owns privA idA -> owns privB idB ->
  located closestA idB addrB -> located closestB idA addrA ->
  unused stA idB token -> unused stB idA token ->
  let '(stA1, dhA, first) := initiator_start stA privA idA nameA addrB idB token chA ra in
  exists key stA2 stB2 reply, length key = 32%nat /\
    negotiated stA stB privA privB idA idB token nameB addrA addrB chA chB ra rb closestA closestB
      now1 now2 first key key stA2 stB2 reply.
Proof.
  intros Hra Hrb HoA HoB HlA HlB HuA HuB. unfold initiator_start.
  set (packet := mkDiffieHellman nameA addrB _ _ _ _ _ _ _ _ _ _).
  destruct (signPacket_fields privA packet) as (Hn & Hinit & Hid & HG & HP & Hpk & _).
  destruct (negotiation_runs stA stB privA privB idA idB token nameB addrA addrB chA chB ra rb closestA
    closestB now1 now2 HoA HoB HlA HlB HuA HuB (signPacket privA packet) Hn Hinit Hid HG HP)
    as (stA2 & stB2 & reply & _ & Hrun).
  rewrite Hpk in Hrun. cbn [packet dh_DiffiePublicKey] in Hrun.
  rewrite (shared_key Group P ra rb) in Hrun by done.
  eexists _, stA2, stB2, reply. split; [apply GenerateSymmetricKey_length | exact Hrun].
Qed.

(** The first packet is signed but nobody verifies it, and the acknowledgements do not
    depend on the keys.  If somebody replaces the public key in the first packet by its own
    (with secret [m]), the negotiation of A and B still succeeds, and B uses for messages of A
    a key that the third party computes from its secret and the reply, which is not encrypted. *)
Theorem first_packet_unverified `{Signatures} stA stB privA privB idA idB nameA nameB addrA addrB
    token chA chB ra rb m closestA closestB now1 now2 :
  wf_bytes rb -> wf_bytes m -> owns privA idA -> owns privB idB ->
  located closestA idB addrB -> located closestB idA addrA ->
  unused stA idB token -> unused stB idA token ->
  let '(stA1, dhA, first) := initiator_start stA privA idA nameA addrB idB token chA ra in
  let thief := DH_New Group P m in
  exists keyA stA2 stB2 reply,
    negotiated stA stB privA privB idA idB token nameB addrA addrB chA chB ra rb closestA closestB
      now1 now2 (with_public_key first (GeneratePublicKey thief)) keyA
      (GenerateSymmetricKey thief (dh_DiffiePublicKey reply)) stA2 stB2 reply.
Proof.
  intros Hrb Hm HoA HoB HlA HlB HuA HuB. unfold initiator_start.
  set (packet := mkDiffieHellman nameA addrB _ _ _ _ _ _ _ _ _ _).
  destruct (signPacket_fields privA packet) as (Hn & Hinit & Hid & HG & HP & _ & _).
  set (first := with_public_key _ _).
  destruct (negotiation_runs stA stB privA privB idA idB token nameB addrA addrB chA chB ra rb closestA
    closestB now1 now2 HoA HoB HlA HlB HuA HuB first Hn Hinit Hid HG HP)
    as (stA2 & stB2 & reply & Hpk & Hrun).
  cbv zeta. eexists _, stA2, stB2, reply. rewrite Hpk.
  rewrite (shared_key Group P m rb) by done. exact Hrun.
Qed.

#[local] Transparent owns located unused.

(** A toy signature: the public key and the hash. *)
Definition toy_signatures : Signatures.
Proof.
  refine {| sig_sign key h := (key.1 :: key.2 :: h, []);
            sig_verify key h r s := bool_decide (r = key.1 :: key.2 :: h);
            pb_packet p := dh_ID p |}.
  intros key h. by apply bool_decide_eq_true_2.
Defined.
Definition toy_id (x y : Z) : TypeID := (replicate 31 0 ++ [x]) ++ replicate 31 0 ++ [y].
Definition no_sessions : dh_state := mkDHState ∅ ∅ ∅ ∅.

Lemma toy_owns x y : owns (x, y) (toy_id x y).
Proof.
  unfold owns, extractEcdsaPublicKeyComponents, toy_id.
  rewrite take_app_length', drop_app_length' by done. unfold SetBytes.
  f_equal; cbn -[Z.mul Z.pow]; lia.
Qed.
Lemma toy_located x y addr : located [mkNodeState (toy_id x y) addr] (toy_id x y) addr.
Proof. by eexists _, []. Qed.
Lemma toy_unused id token : unused no_sessions id token.
Proof. unfold unused, no_sessions, sessions_of. cbn [diffieHellmanMap]. rewrite lookup_empty. apply not_elem_of_nil. Qed.

Lemma handshake_agreement_witness :
  exists first key stA2 stB2 reply, length key = 32%nat /\
    @negotiated toy_signatures no_sessions no_sessions (5, 7) (2, 3) (toy_id 5 7) (toy_id 2 3) [1] "B"
      "1.1.1.1:1" "2.2.2.2:2" 10 11 [6] [15] [mkNodeState (toy_id 2 3) "2.2.2.2:2"]
      [mkNodeState (toy_id 5 7) "1.1.1.1:1"] 100 200 first key key stA2 stB2 reply.
Proof.
  eexists. apply (@handshake_agreement toy_signatures no_sessions no_sessions (5, 7) (2, 3) (toy_id 5 7)
    (toy_id 2 3) "A" "B" "1.1.1.1:1" "2.2.2.2:2" [1] 10 11 [6] [15]
    [mkNodeState (toy_id 2 3) "2.2.2.2:2"] [mkNodeState (toy_id 5 7) "1.1.1.1:1"] 100 200).
  - repeat constructor; unfold in_width; lia.
  - repeat constructor; unfold in_width; lia.
  - apply toy_owns.
  - apply toy_owns.
  - apply toy_located.
  - apply toy_located.
  - apply toy_unused.
  - apply toy_unused.
Defined.

Lemma first_packet_unverified_witness :
  exists first keyA stA2 stB2 reply,
    @negotiated toy_signatures no_sessions no_sessions (5, 7) (2, 3) (toy_id 5 7) (toy_id 2 3) [1] "B"
      "1.1.1.1:1" "2.2.2.2:2" 10 11 [6] [15] [mkNodeState (toy_id 2 3) "2.2.2.2:2"]
      [mkNodeState (toy_id 5 7) "1.1.1.1:1"] 100 200 first keyA
      (GenerateSymmetricKey (DH_New Group P [42]) (dh_DiffiePublicKey reply)) stA2 stB2 reply.
Proof.
  eexists. apply (@first_packet_unverified toy_signatures no_sessions no_sessions (5, 7) (2, 3) (toy_id 5 7)
    (toy_id 2 3) "A" "B" "1.1.1.1:1" "2.2.2.2:2" [1] 10 11 [6] [15] [42]
    [mkNodeState (toy_id 2 3) "2.2.2.2:2"] [mkNodeState (toy_id 5 7) "1.1.1.1:1"] 100 200).
  - repeat constructor; unfold in_width; lia.
  - repeat constructor; unfold in_width; lia.
  - apply toy_owns.
  - apply toy_owns.
  - apply toy_located.
  - apply toy_located.
  - apply toy_unused.
  - apply toy_unused.
Defined.

(** ** Identities *)
Lemma Bytes_wf z : 0 <= z -> wf_bytes (Bytes z).
Proof.
  intros _. unfold Bytes. generalize (Z.to_nat (Z.log2 z) + 1)%nat as fuel, (@nil Z) as acc, (Forall_nil_2 (in_width 8)).
  intros fuel. revert z. induction fuel as [|fuel IH]; intros z acc Hacc; cbn [to_bytes_pos]; [done |].
  case_match; [done |]. apply IH. constructor; [| done]. apply Z.mod_pos_bound. lia.
Qed.

(** The identifier of a node determines its public key when both coordinates have 32 bytes.
    When the first one has only 31, as [Bytes] drops leading zeros, the coordinate that is
    read back from the identifier is a different number, so no signature of the node is
    checked against its own key. *)
Theorem identity_names_key x y :
  0 <= x -> 0 <= y -> length (Bytes y) = 32%nat ->
  (length (Bytes x) = 32%nat -> extractEcdsaPublicKeyComponents (node_identity x y) = (x, y)) /\
  (length (Bytes x) = 31%nat -> (extractEcdsaPublicKeyComponents (node_identity x y)).1 <> x).
Proof.
  intros Hx Hy Ly. unfold extractEcdsaPublicKeyComponents, node_identity. split; intros Lx.
  - rewrite take_app_length' by (rewrite length_app; lia).
    rewrite take_app_length', drop_app_length' by done. by rewrite !SetBytes_Bytes.
  - cbn [fst]. rewrite take_take, <-app_assoc, take_app_ge by lia. rewrite Lx.
    pose proof (Bytes_wf y Hy) as Hw. destruct (Bytes y) as [|b l]; [done |]. inversion Hw as [|?? Hb]; subst.
    change (take (32 `min` 64 - 31) ((b :: l) ++ replicate 64 0)) with [b].
    unfold SetBytes. rewrite be_app. change (be (Bytes x)) with (SetBytes (Bytes x)).
    rewrite SetBytes_Bytes by done. cbn [be length]. change (2 ^ (8 * Z.of_nat 1)) with 256.
    change (2 ^ (8 * Z.of_nat 0)) with 1. unfold in_width in Hb.
    assert (x <> 0) by (intros ->; done). lia.
Qed.
Lemma identity_names_key_witness :
  (extractEcdsaPublicKeyComponents (node_identity (2 ^ 247) (2 ^ 255))).1 <> 2 ^ 247.
Proof. apply (identity_names_key (2 ^ 247) (2 ^ 255)); [done | done | vm_compute; reflexivity | vm_compute; reflexivity]. Defined.

(** ** Choice of a key *)
Lemma scan_last now l :
  foldl scan_step (true, None) (imap (fun i s => (i, (s, (now, now)))) l) =
  match last l with
  | Some s => if expired now s then (true, (foldl scan_step (true, None) (imap (fun i s => (i, (s, (now, now)))) l)).2)
              else (false, Some (pred (length l)))
  | None => (true, None)
  end.
Proof.
  destruct l as [|s l _] using rev_ind; [done |].
  rewrite last_snoc, imap_app, foldl_app, length_app. cbn. rewrite Nat.add_0_r, Nat.add_1_r.
  by destruct (expired now s).
Qed.
Definition ask_for_negotiation (st : dh_state) (nodeID : TypeID) : dh_state * key_choice :=
  if decide (nodeID ∈ negotiationMap st) then (st, Subscribe)
  else (set_negotiating st ({[nodeID]} ∪ negotiationMap st), Negotiate).

(** [getKey] uses the newest session with the node while it has not expired, and asks for a
    negotiation otherwise, even if an older session is still alive.  When the newest session
    expires between the two readings of the clock and no older one is alive, the process ends
    with an index out of range. *)
Theorem getKey_choice st nodeID :
  let sessions := sessions_of (activeOutgoingDiffieHellmans st) nodeID in
  (forall now, getKey st nodeID (fun _ => (now, now)) =
    match last sessions with
    | Some s => if expired now s then Ok (ask_for_negotiation st nodeID) else Ok (st, UseKey (s_Key s))
    | None => Ok (ask_for_negotiation st nodeID)
    end) /\
  (forall now1 now2 older s, sessions = older ++ [s] ->
    Forall (fun s => expired now2 s = true) sessions -> expired now1 s = false ->
    getKey st nodeID (fun _ => (now1, now2)) = Panic "index out of range [-1]").
Proof.
  cbv zeta. unfold getKey, ask_for_negotiation.
  set (l := sessions_of _ _). split.
  - intros now. rewrite scan_last. destruct l as [|s l _] using rev_ind; [by case_decide |].
    rewrite last_snoc. destruct (expired now s); [rewrite andb_false_r; by case_decide |].
    rewrite length_app. cbn [length]. rewrite (proj2 (Nat.ltb_lt _ _)) by lia. cbn [andb negb].
    rewrite Nat.add_1_r, lookup_app_r by (cbn; lia). cbn [pred]. by rewrite Nat.sub_diag.
  - intros now1 now2 older s -> Hall Hs.
    assert (Hscan : forall l k b, Forall (fun s => expired now2 s = true) l ->
      (foldl scan_step (b, None) (imap (fun i s => ((k + i)%nat, (s, (now1, now2)))) l)).2 = None).
    { clear. induction l as [|s l IH]; intros k b; [done |]. intros [Hs Hl]%Forall_cons.
      cbn [imap foldl scan_step]. rewrite Hs. cbn [snd].
      erewrite imap_ext; [exact (IH (S k) (expired now1 s) Hl) |].
      intros i x _. cbn. f_equal. lia. }
    apply Forall_app in Hall as [Hold [Hs2 _]%Forall_cons].
    rewrite imap_app, foldl_app. specialize (Hscan older O true Hold). cbn [Nat.add] in Hscan.
    destruct (foldl scan_step _ (imap _ older)) as [b o]. cbn in Hscan. subst o.
    cbn. rewrite Hs, Hs2, length_app. cbn. by rewrite Nat.add_1_r.
Qed.
Definition one_session : dh_state := mkDHState ∅ {[ [1] := [mkSession [7] 0 100] ]} ∅ ∅.
Lemma getKey_choice_witness :
  getKey one_session [1] (fun _ => (100, 101)) = Panic "index out of range [-1]".
Proof.
  apply (proj2 (getKey_choice one_session [1]) 100 101 [] (mkSession [7] 0 100));
    [reflexivity | repeat constructor | reflexivity].
Defined.

Definition no_live_session (st : dh_state) (nodeID : TypeID) (t : Z) : Prop :=
  Forall (fun s => expired t s = true) (sessions_of (activeOutgoingDiffieHellmans st) nodeID).

(** What a node does to the sessions with another node over time: a goroutine asks for a key,
    or the old sessions are removed. *)
Inductive key_event := Ask (clock : Z) | Clean (clock : Z).
Definition key_event_time (e : key_event) : Z := match e with Ask t => t | Clean t => t end.
Definition key_step (nodeID : TypeID) (acc : dh_state * list (outcome key_choice)) (e : key_event) :=
  match e with
  | Ask t =>
      match getKey acc.1 nodeID (fun _ => (t, t)) with
      | Ok (st, c) => (st, acc.2 ++ [Ok c])
      | Fatal m => (acc.1, acc.2 ++ [Fatal m])
      | Panic m => (acc.1, acc.2 ++ [Panic m])
      end
  | Clean t => (clean_tick acc.1 t, acc.2)
  end.

Lemma sessions_of_clean st nodeID t :
  sessions_of (activeOutgoingDiffieHellmans (clean_tick st t)) nodeID =
  filter (fun s => keep_session t s = true) (sessions_of (activeOutgoingDiffieHellmans st) nodeID).
Proof. unfold sessions_of. cbn. rewrite lookup_fmap. by destruct (_ !! _). Qed.
Lemma expired_later t t' s : t <= t' -> expired t s = true -> expired t' s = true.
Proof. unfold expired. rewrite !Z.ltb_lt. lia. Qed.
Lemma getKey_no_session st nodeID t :
  no_live_session st nodeID t -> getKey st nodeID (fun _ => (t, t)) = Ok (ask_for_negotiation st nodeID).
Proof.
  intros Hs. unfold getKey, ask_for_negotiation. rewrite scan_last.
  destruct (last _) as [s|] eqn:E; [| rewrite andb_false_r; by case_decide].
  apply last_Some_elem_of in E. unfold no_live_session in Hs. rewrite Forall_forall in Hs.
  rewrite (Hs _ E), andb_false_r. by case_decide.
Qed.
Lemma subscribe_forever nodeID t0 events :
  Forall (fun e => t0 <= key_event_time e) events -> forall st rs,
  nodeID ∈ negotiationMap st -> no_live_session st nodeID t0 -> Forall (eq (Ok Subscribe)) rs ->
  Forall (eq (Ok Subscribe)) (foldl (key_step nodeID) (st, rs) events).2.
Proof.
  induction 1 as [|e events He _ IH]; intros st rs Hn Hs Hrs; [done |].
  destruct e as [t|t]; cbn [foldl key_step fst snd].
  - assert (Ht : no_live_session st nodeID t).
    { eapply Forall_impl; [exact Hs |]. intros s. by apply expired_later. }
    rewrite getKey_no_session by done. unfold ask_for_negotiation. rewrite decide_True by done.
    apply IH; [done.. |]. apply Forall_app. by repeat constructor.
  - apply IH; [done | | done]. unfold no_live_session. rewrite sessions_of_clean.
    apply Forall_forall. intros s [_ Hin]%list_elem_of_filter. unfold no_live_session in Hs.
    rewrite Forall_forall in Hs. by apply Hs.
Qed.

(** A negotiation that fails, or that succeeds after the caller stopped waiting, is never
    removed from the map of negotiations: while no session that was negotiated otherwise
    exists, every later request for a key of this node, whatever time passes, subscribes to
    it and gets nothing.  A success in time, and the time-out of 30 seconds, remove it, and
    the next request negotiates again. *)
Theorem failed_negotiation_stays st nodeID t0 st1 result caller_waits events :
  getKey st nodeID (fun _ => (t0, t0)) = Ok (st1, Negotiate) ->
  no_live_session st nodeID t0 -> Forall (fun e => t0 <= key_event_time e) events ->
  let st2 := (negotiation_done st1 nodeID result caller_waits).1 in
  (result = Some None \/ (exists k, result = Some (Some k) /\ caller_waits = false) ->
     Forall (eq (Ok Subscribe)) (foldl (key_step nodeID) (st2, []) events).2) /\
  (result = None \/ (exists k, result = Some (Some k) /\ caller_waits = true) ->
     (getKey st2 nodeID (fun _ => (t0, t0))) = Ok (st1, Negotiate)).
Proof.
  intros Hk Hs Ht. rewrite getKey_no_session in Hk by done. unfold ask_for_negotiation in Hk.
  case_decide as Hn; simplify_eq. cbv zeta. split.
  - intros Hr. apply subscribe_forever with (t0 := t0); [done | | | done].
    + destruct Hr as [->|(k & -> & ->)]; cbn; set_solver.
    + by destruct Hr as [->|(k & -> & ->)].
  - intros Hr. rewrite getKey_no_session by (by destruct Hr as [->|(k & -> & ->)]).
    assert ((negotiation_done (set_negotiating st ({[nodeID]} ∪ negotiationMap st)) nodeID result caller_waits).1 = st) as ->.
    { destruct st as [m o i n]. cbn in Hn.
      assert (({[nodeID]} ∪ n) ∖ {[nodeID]} = n) as E by set_solver.
      destruct Hr as [->|(k & -> & ->)]; unfold negotiation_done, set_negotiating; cbn; by rewrite E. }
    unfold ask_for_negotiation. by rewrite decide_False.
Qed.
Lemma failed_negotiation_stays_witness :
  Forall (eq (Ok Subscribe)) (foldl (key_step [1])
    ((negotiation_done (set_negotiating no_sessions {[ [1] ]}) [1] (Some None) true).1, [])
    [Ask 10; Clean 20; Ask (10 ^ 18)]).2.
Proof.
  apply (failed_negotiation_stays no_sessions [1] 0 (set_negotiating no_sessions {[ [1] ]}) (Some None) true
    [Ask 10; Clean 20; Ask (10 ^ 18)]).
  - vm_compute. reflexivity.
  - constructor.
  - repeat constructor; cbn; lia.
  - by left.
Defined.

(** The packets of the first message are parsed before anything is verified: a modulus or a
    generator that is not a hexadecimal number ends the process of the receiver, whoever sent
    the packet. *)
Theorem malformed_group_stops `{Signatures} st priv me name dest packet ch random :
  dh_Init packet = true -> SetString (dh_G packet) = None \/ SetString (dh_P packet) = None ->
  diffieListen st dest packet = [GoNegotiate dest (dh_NodeID packet) packet] /\
  (exists m, responder_start st priv me name dest (dh_NodeID packet) packet ch random = Fatal m).
Proof.
  intros Hi Hg. split; [unfold diffieListen; by rewrite Hi |].
  unfold responder_start. destruct (SetString (dh_G packet)), (SetString (dh_P packet)); eauto.
  by destruct Hg.
Qed.
Lemma malformed_group_stops_witness :
  exists m, @responder_start toy_signatures no_sessions (5, 7) (toy_id 5 7) "B" "2.2.2.2:2" []
    (mkDiffieHellman "" "" 0 "17" "" [] [] [] 0 [] true []) 3 [1] = Fatal m.
Proof.
  apply (@malformed_group_stops toy_signatures no_sessions (5, 7) (toy_id 5 7) "B" "2.2.2.2:2"
    (mkDiffieHellman "" "" 0 "17" "" [] [] [] 0 [] true []) 3 [1]); [reflexivity | left; reflexivity].
Defined.
