(* ===== verification/Float64.v ===== *)
(** * float64

    Binary floating-point numbers of 64 bits, as the functions of [SpecFloat] with 53 bits of
    precision.  A constant of the program is a quotient of integers: Go computes constants
    exactly and rounds once, as the division here does. *)
From Stdlib Require Import SpecFloat.
From S2P Require Import Prelude.

Abbreviation float64 := spec_float.
Definition fadd : float64 -> float64 -> float64 := SFadd 53 1024.
Definition fsub : float64 -> float64 -> float64 := SFsub 53 1024.
Definition fmul : float64 -> float64 -> float64 := SFmul 53 1024.
Definition fdiv : float64 -> float64 -> float64 := SFdiv 53 1024.
Definition fsqrt : float64 -> float64 := SFsqrt 53 1024.
Definition fabs : float64 -> float64 := SFabs.
Definition flt : float64 -> float64 -> bool := SFltb.
(** [float64(n)], rounded to the nearest number. *)
Definition of_int (n : Z) : float64 := binary_normalize 53 1024 n 0 false.
Definition constant (n d : Z) : float64 := fdiv (of_int n) (of_int d).
Definition zero64 : float64 := of_int 0.
Definition fneq (x y : float64) : bool := negb (SFeqb x y).
Definition is_NaN (x : float64) : bool := match x with S754_nan => true | _ => false end.

#[export] Instance float64_eq_dec : EqDecision float64.
Proof. solve_decision. Defined.

#[export] Instance float64_countable : Countable float64.
Proof.
  refine (inj_countable' (fun f => match f with
    | S754_zero s => inl (inl s) | S754_infinity s => inl (inr s) | S754_nan => inr (inl ())
    | S754_finite s m e => inr (inr (s, m, e)) end)
    (fun x => match x with
    | inl (inl s) => S754_zero s | inl (inr s) => S754_infinity s | inr (inl _) => S754_nan
    | inr (inr (s, m, e)) => S754_finite s m e end) _). by intros [].
Defined.

(** Rounding is as specified by IEEE 754: the nearest numbers to 0.85 and 0.15. *)
Example constant_085 : constant 85 100 = S754_finite false 7656119366529843 (-53).
Proof. vm_compute. reflexivity. Qed.
Example constant_015 : constant 15 100 = S754_finite false 5404319552844595 (-55).
Proof. vm_compute. reflexivity. Qed.

(** ** The order of numbers: [flt] compares triples lexicographically. *)
Definition order_key (x : float64) : Z * Z * Z :=
  match x with
  | S754_nan => (0, 0, 0)
  | S754_infinity true => (-2, 0, 0)
  | S754_finite true m e => (-1, - e, - Z.pos m)
  | S754_zero _ => (0, 0, 0)
  | S754_finite false m e => (1, e, Z.pos m)
  | S754_infinity false => (2, 0, 0)
  end.
Definition key_lt (a b : Z * Z * Z) : Prop :=
  a.1.1 < b.1.1 \/ (a.1.1 = b.1.1 /\ (a.1.2 < b.1.2 \/ (a.1.2 = b.1.2 /\ a.2 < b.2))).
#[export] Instance key_lt_dec a b : Decision (key_lt a b).
Proof. unfold key_lt. apply _. Defined.

Lemma flt_key x y : is_NaN x = false -> is_NaN y = false ->
  flt x y = bool_decide (key_lt (order_key x) (order_key y)).
Proof.
  intros Hx Hy. symmetry. unfold flt, SFltb.
  destruct x as [?|[]| |[] m e], y as [?|[]| |[] m' e']; try discriminate Hx; try discriminate Hy;
    cbn [SFcompare order_key];
    try (apply bool_decide_eq_true_2; unfold key_lt; cbn; lia);
    try (apply bool_decide_eq_false_2; unfold key_lt; cbn; lia).
  - change (Pos.compare_cont Eq m m') with (Pos.compare m m').
    destruct (Z.compare_spec e e'); [destruct (Pos.compare_spec m m') | ..]; cbn;
      first [apply bool_decide_eq_true_2 | apply bool_decide_eq_false_2]; unfold key_lt; cbn; lia.
  - change (Pos.compare_cont Eq m m') with (Pos.compare m m').
    destruct (Z.compare_spec e e'); [destruct (Pos.compare_spec m m') | ..]; cbn;
      first [apply bool_decide_eq_true_2; unfold key_lt; cbn; lia | apply bool_decide_eq_false_2; unfold key_lt; cbn; lia].
Qed.
(** Without NaN, "not less" is a total preorder. *)
Definition fge (x y : float64) : Prop := flt x y = false.
Lemma fge_total x y : is_NaN x = false -> is_NaN y = false -> fge x y \/ fge y x.
Proof.
  intros Hx Hy. unfold fge. rewrite !flt_key by done. rewrite !bool_decide_eq_false. unfold key_lt. lia.
Qed.
Lemma fge_trans x y z : is_NaN x = false -> is_NaN y = false -> is_NaN z = false -> fge x y -> fge y z -> fge x z.
Proof.
  intros Hx Hy Hz. unfold fge. rewrite !flt_key by done. rewrite !bool_decide_eq_false. unfold key_lt. lia.
Qed.
