(* ===== verification/Batches.v ===== *)
(** * Batches of items for UDP packets (gossiper/webcrawler.go)

    What the crawler finds on a page is sent to the nodes responsible for it, in several
    packets when it is too large for one.  The length of an item ([len] of a string, the length
    of the encoding of a struct) and the results of the lookups are parameters. *)
From S2P Require Import Prelude DhtId.

Definition udpMaxSize : Z := 7500.

Section Batches.
Context {A : Type} (itemLength : A -> Z).

(** The item that does not fit any more closes the batch and is put nowhere. *)
Fixpoint batches_loop (packet : list A) (packetSize : Z) (batches : list (list A)) (items : list A)
    : list (list A) :=
  match items with
  | [] => match packet with [] => batches | _ => batches ++ [packet] end
  | item :: rest =>
      if packetSize + itemLength item <? udpMaxSize
      then batches_loop (packet ++ [item]) (packetSize + itemLength item) batches rest
      else batches_loop [] 0 (batches ++ [packet]) rest
  end.
Definition createUDPBatches (items : list A) : list (list A) := batches_loop [] 0 [] items.

End Batches.

(** ** Owners

    A node as a key of a Go map.  [destinations] appends each item to the list of the closest
    node to the hash of its url; it stops at the first item for which no node is found, and
    returns whether that happened. *)
Definition owner : Type := TypeID * string.
Definition owner_of (n : NodeState) : owner := (NodeID n, Address n).
Definition node_of (o : owner) : NodeState := mkNodeState o.1 o.2.

Section Owners.
Context (LookupNodes : TypeID -> list NodeState) {A : Type} (url : A -> string).

Fixpoint destinations (items : list A) (m : gmap owner (list A)) : gmap owner (list A) * bool :=
  match items with
  | [] => (m, false)
  | item :: rest =>
      match LookupNodes (GenerateKeyHash (url item)) with
      | [] => (m, true)
      | closest :: _ =>
          let val := default [] (m !! owner_of closest) in
          destinations rest (<[owner_of closest := val ++ [item]]> m)
      end
  end.

(** ** Properties *)
Definition first_owner (item : A) : option owner :=
  owner_of <$> head (LookupNodes (GenerateKeyHash (url item))).
(** The items up to the first one without an owner. *)
Fixpoint placed (items : list A) : list A :=
  match items with
  | [] => []
  | item :: rest => match first_owner item with None => [] | Some _ => item :: placed rest end
  end.

Lemma destinations_spec items : forall m o,
  default [] ((destinations items m).1 !! o) =
    default [] (m !! o) ++ filter (fun x => first_owner x = Some o) (placed items).
Proof.
  unfold first_owner. induction items as [|x items IH]; intros m o; cbn [destinations placed].
  - by rewrite app_nil_r.
  - unfold first_owner. destruct (LookupNodes _) as [|n ns] eqn:E; cbn [head fmap option_fmap option_map].
    + by rewrite app_nil_r.
    + rewrite IH. destruct (decide (o = owner_of n)) as [->|Hne].
      * rewrite lookup_insert_eq, filter_cons_True by (by rewrite E).
        change (default [] (Some ?l)) with l. by rewrite <-app_assoc.
      * rewrite lookup_insert_ne, filter_cons_False by (rewrite ?E; cbn; congruence). done.
Qed.
Lemma destinations_broken items : forall m,
  (destinations items m).2 = bool_decide (length (placed items) <> length items).
Proof.
  induction items as [|x items IH]; intros m; cbn [destinations placed]; [done |].
  unfold first_owner. destruct (LookupNodes _) as [|n ns]; cbn.
  - symmetry. by apply bool_decide_eq_true_2.
  - rewrite IH. apply bool_decide_ext. lia.
Qed.
Lemma destinations_nonempty items : forall m,
  map_Forall (fun _ l => l <> []) m -> map_Forall (fun _ l => l <> []) (destinations items m).1.
Proof.
  induction items as [|x items IH]; intros m Hm; cbn [destinations]; [done |].
  destruct (LookupNodes _) as [|n ns]; [done |]. apply IH. apply map_Forall_insert_2; [| done].
  by intros [_ ?]%app_eq_nil.
Qed.
Lemma placed_incl items x : x ∈ placed items -> x ∈ items.
Proof. induction items as [|y items IH]; cbn [placed]; [done |]. destruct (first_owner y); set_solver. Qed.
Lemma destinations_owner items o l : (destinations items ∅).1 !! o = Some l ->
  exists x, x ∈ items /\ first_owner x = Some o.
Proof.
  intros Hl. pose proof (destinations_nonempty items ∅ (map_Forall_empty _) o l Hl) as Hne.
  pose proof (destinations_spec items ∅ o) as E. rewrite Hl, lookup_empty in E. cbn in E.
  destruct l as [|x l]; [done |].
  assert (x ∈ x :: l) as Hx by set_solver. rewrite E in Hx.
  apply list_elem_of_filter in Hx as [Hx Hin]. exists x. split; [by apply placed_incl | done].
Qed.
Lemma destinations_members items o l x : (destinations items ∅).1 !! o = Some l -> x ∈ l -> first_owner x = Some o.
Proof.
  intros Hl Hx. pose proof (destinations_spec items ∅ o) as E. rewrite Hl, lookup_empty in E. cbn in E. subst l.
  by apply list_elem_of_filter in Hx as [? _].
Qed.
(** What the map holds for an owner, and for which owners. *)
Lemma destinations_lookup items o l : (destinations items ∅).1 !! o = Some l ->
  l = filter (fun x => first_owner x = Some o) (placed items).
Proof. intros Hl. pose proof (destinations_spec items ∅ o) as E. by rewrite Hl, lookup_empty in E. Qed.
Lemma destinations_dom items o : is_Some ((destinations items ∅).1 !! o) <->
  exists x, x ∈ placed items /\ first_owner x = Some o.
Proof.
  pose proof (destinations_spec items ∅ o) as E. rewrite lookup_empty in E. cbn [default app] in E. split.
  - intros [l Hl]. pose proof (destinations_nonempty items ∅ (map_Forall_empty _) o l Hl) as Hne.
    apply destinations_lookup in Hl. destruct l as [|x l]; [done |]. exists x.
    assert (Hx : x ∈ filter (fun x => first_owner x = Some o) (placed items)) by (rewrite <-Hl; left).
    by apply list_elem_of_filter in Hx as [? ?].
  - intros (x & Hx & Ho). destruct ((destinations items ∅).1 !! o) as [l|]; [by eexists |]. exfalso.
    assert (Hin : x ∈ filter (fun x => first_owner x = Some o) (placed items)) by by apply list_elem_of_filter.
    rewrite <-E in Hin. by apply not_elem_of_nil in Hin.
Qed.
Lemma destinations_one items o : items <> [] -> Forall (fun x => first_owner x = Some o) items ->
  (destinations items ∅).1 = {[o := items]}.
Proof.
  intros Hne Ho.
  assert (Hacc : forall l, Forall (fun x => first_owner x = Some o) l -> forall seen,
    (destinations l {[o := seen]}).1 = {[o := seen ++ l]}).
  { clear. unfold first_owner. induction 1 as [|x l Hx _ IH]; intros seen; cbn [destinations]; [by rewrite app_nil_r |].
    destruct (LookupNodes _) as [|n ns]; cbn in Hx; [done |]. injection Hx as ->.
    rewrite lookup_singleton_eq, insert_singleton_eq. cbn [default]. rewrite IH, <-app_assoc. done. }
  destruct items as [|x items]; [done |]. apply Forall_cons in Ho as [Hx Ho]. cbn [destinations].
  unfold first_owner in Hx. destruct (LookupNodes _) as [|n ns]; cbn in Hx; [done |]. injection Hx as ->.
  rewrite lookup_empty. cbn [default app]. by apply (Hacc items Ho [x]).
Qed.
Lemma destinations_perm_acc items : forall m,
  (map_to_list (destinations items m).1 ≫= snd) ≡ₚ (map_to_list m ≫= snd) ++ placed items.
Proof.
  induction items as [|x items IH]; intros m; cbn [destinations placed]; [by rewrite app_nil_r |].
  unfold first_owner. destruct (LookupNodes _) as [|n ns]; cbn [head fmap option_fmap option_map];
    [by rewrite app_nil_r |].
  rewrite IH. change (x :: placed items) with ([x] ++ placed items). rewrite app_assoc. f_equiv.
  destruct (m !! owner_of n) as [l|] eqn:Em.
  - rewrite <-(insert_delete_id m (owner_of n) l Em) at 2.
    rewrite <-(insert_delete_eq m (owner_of n) (default [] (Some l) ++ [x])).
    rewrite !map_to_list_insert by apply lookup_delete_eq. cbn. rewrite <-!app_assoc.
    f_equiv. apply Permutation_app_comm.
  - rewrite map_to_list_insert by done. cbn. apply Permutation_cons_append.
Qed.
Lemma destinations_perm items : (map_to_list (destinations items ∅).1 ≫= snd) ≡ₚ placed items.
Proof. rewrite destinations_perm_acc, map_to_list_empty. done. Qed.
End Owners.

Section Batch_properties.
Context {A : Type} (itemLength : A -> Z).
Definition total (l : list A) : Z := foldr (fun x s => itemLength x + s) 0 l.
Lemma total_app l1 l2 : total (l1 ++ l2) = total l1 + total l2.
Proof. induction l1 as [|x l IH]; cbn; [done |]. fold (total (l ++ l2)) (total l). lia. Qed.

(** ** What batches are
    [cut items bs missing]: the items are the batches [bs] one after the other, with an item of
    [missing] after each batch that was closed because this item did not fit into it. *)
Definition fits (b : list A) : Prop := forall p, p `prefix_of` b -> total p < udpMaxSize.
Inductive cut : list A -> list (list A) -> list A -> Prop :=
  | cut_end : cut [] [] []
  | cut_last b : b <> [] -> fits b -> cut b [b] []
  | cut_close b x items bs missing : fits b -> udpMaxSize <= total b + itemLength x ->
      cut items bs missing -> cut (b ++ x :: items) (b :: bs) (x :: missing).

Lemma fits_snoc b x : fits b -> total b + itemLength x < udpMaxSize -> fits (b ++ [x]).
Proof.
  intros Hb Hx p [k E].
  destruct k as [|y k _] using rev_ind.
  - rewrite app_nil_r in E. subst p. rewrite total_app. cbn. lia.
  - rewrite app_assoc in E. apply app_inj_tail in E as [-> _]. apply Hb. by exists k.
Qed.
Lemma fits_nil : fits [].
Proof. intros p [k E]. symmetry in E. apply app_eq_nil in E as [-> _]. done. Qed.

Lemma batches_cut items : forall packet batches, fits packet ->
  exists bs missing, batches_loop itemLength packet (total packet) batches items = batches ++ bs /\
    cut (packet ++ items) bs missing.
Proof.
  induction items as [|item rest IH]; intros packet batches Hp; cbn [batches_loop].
  - rewrite app_nil_r. destruct packet as [|x p].
    + exists [], []. rewrite app_nil_r. split; [done | constructor].
    + exists [x :: p], []. split; [done | by apply cut_last].
  - destruct (Z.ltb_spec (total packet + itemLength item) udpMaxSize) as [Hlt|Hge].
    + destruct (IH (packet ++ [item]) batches (fits_snoc _ _ Hp Hlt)) as (bs & missing & E & Hc).
      rewrite total_app in E. cbn [total foldr] in E. rewrite Z.add_0_r in E. rewrite E.
      exists bs, missing. by rewrite <-app_assoc in Hc.
    + destruct (IH [] (batches ++ [packet]) fits_nil) as (bs & missing & E & Hc). cbn [total foldr] in E. rewrite E.
      exists (packet :: bs), (item :: missing). rewrite <-app_assoc. split; [done | by apply cut_close].
Qed.
(** The items of a batch are put into the open one. *)
Lemma batches_fill b : forall packet batches rest, fits (packet ++ b) ->
  batches_loop itemLength packet (total packet) batches (b ++ rest) =
    batches_loop itemLength (packet ++ b) (total (packet ++ b)) batches rest.
Proof.
  induction b as [|x b IH]; intros packet batches rest Hf; [by rewrite app_nil_r |]. cbn [app batches_loop].
  assert (Hx : total packet + itemLength x < udpMaxSize).
  { specialize (Hf (packet ++ [x])). rewrite total_app in Hf. cbn in Hf. rewrite Z.add_0_r in Hf. apply Hf.
    exists b. by rewrite <-app_assoc. }
  rewrite (proj2 (Z.ltb_lt _ _) Hx).
  replace (packet ++ x :: b) with ((packet ++ [x]) ++ b) in * by (by rewrite <-app_assoc).
  rewrite <-IH by done. rewrite total_app. cbn [total foldr]. by rewrite Z.add_0_r.
Qed.
Lemma cut_batches items bs missing : cut items bs missing -> forall batches,
  batches_loop itemLength [] 0 batches items = batches ++ bs.
Proof.
  induction 1 as [|b Hne Hf|b x items bs missing Hf Hx _ IH]; intros batches.
  - by rewrite app_nil_r.
  - pose proof (batches_fill b [] batches [] Hf) as E. cbn [total foldr app] in E. rewrite app_nil_r in E.
    rewrite E. cbn [batches_loop]. by destruct b.
  - pose proof (batches_fill b [] batches (x :: items) Hf) as E. cbn [total foldr app] in E. rewrite E. cbn [batches_loop].
    fold (total b).
    rewrite (proj2 (Z.ltb_ge _ _) Hx), IH, <-app_assoc. done.
Qed.
Lemma createUDPBatches_cut items : exists missing, cut items (createUDPBatches itemLength items) missing.
Proof. destruct (batches_cut items [] [] fits_nil) as (bs & missing & E & Hc). exists missing. unfold createUDPBatches. cbn in E. by rewrite E. Qed.
Lemma cut_unique items bs missing : cut items bs missing -> bs = createUDPBatches itemLength items.
Proof. intros Hc. symmetry. exact (cut_batches items bs missing Hc []). Qed.
Lemma cut_items items bs missing : cut items bs missing ->
  concat bs ++ missing ≡ₚ items /\ concat bs `sublist_of` items /\ Forall fits bs /\
  (length missing <= length bs <= S (length missing))%nat.
Proof.
  induction 1 as [|b Hne Hf|b x items bs missing Hf Hx _ (IH1 & IH2 & IH3 & IH4)]; cbn [concat length].
  - split_and!; [done.. | lia | lia].
  - rewrite !app_nil_r. split_and!; [done | done | by constructor | lia | lia].
  - split_and!; [| | by constructor | lia | lia].
    + rewrite <-IH1, <-app_assoc. apply Permutation_app_head. symmetry. apply Permutation_middle.
    + apply sublist_app; [done |]. by apply sublist_cons.
Qed.
Lemma batches_sublist items :
  concat (createUDPBatches itemLength items) `sublist_of` items /\
  Forall (fun b => total b < udpMaxSize) (createUDPBatches itemLength items).
Proof.
  destruct (createUDPBatches_cut items) as [missing Hc]. destruct (cut_items _ _ _ Hc) as (_ & Hs & Hf & _).
  split; [done |]. eapply Forall_impl; [exact Hf |]. intros b Hb. apply Hb. exists []. by rewrite app_nil_r.
Qed.
Lemma batches_single items : items <> [] -> Forall (fun x => 0 <= itemLength x) items ->
  total items < udpMaxSize -> createUDPBatches itemLength items = [items].
Proof.
  intros Hne Hpos Htot.
  assert (Hfit : forall rest packet, Forall (fun x => 0 <= itemLength x) rest ->
    total (packet ++ rest) < udpMaxSize -> packet ++ rest <> [] ->
    batches_loop itemLength packet (total packet) [] rest = [packet ++ rest]).
  { clear. induction rest as [|x rest IH]; intros packet Hpos Ht Hn; cbn [batches_loop].
    - rewrite app_nil_r in *. by destruct packet.
    - apply Forall_cons in Hpos as [Hx Hr].
      replace (packet ++ x :: rest) with ((packet ++ [x]) ++ rest) in * by (by rewrite <-app_assoc).
      assert (0 <= total rest).
      { clear -Hr. induction Hr; cbn; [lia |]. unfold total in *. lia. }
      rewrite !total_app in Ht. cbn in Ht.
      assert (total packet + itemLength x = total (packet ++ [x])) as E.
      { rewrite total_app. cbn. lia. }
      rewrite (proj2 (Z.ltb_lt _ _)) by lia. rewrite E. apply IH; [done | | done].
      rewrite !total_app. cbn. lia. }
  by apply (Hfit items []).
Qed.
End Batch_properties.

(** C33. Batches.  [createUDPBatches] computes exactly the batches that [cut] describes: they
    stay below the size of a packet and hold the items in their order; a batch is closed
    when the next item does not fit into it, exactly this item is lost, and the next batch
    starts with the item after it.  So every item is in a batch or lost, and items that fit
    into one packet together are in one batch. *)
Theorem batches_bounded {A} (itemLength : A -> Z) items :
  let bs := createUDPBatches itemLength items in
  (forall bs' missing, cut itemLength items bs' missing -> bs' = bs) /\
  (exists missing, cut itemLength items bs missing /\ concat bs ++ missing ≡ₚ items /\
     (length missing <= length bs <= S (length missing))%nat) /\
  Forall (fun b => total itemLength b < udpMaxSize) bs /\ concat bs `sublist_of` items /\
  (items <> [] -> Forall (fun x => 0 <= itemLength x) items -> total itemLength items < udpMaxSize ->
     bs = [items]).
Proof.
  cbv zeta. destruct (createUDPBatches_cut itemLength items) as [missing Hc].
  destruct (cut_items _ _ _ _ Hc) as (H1 & _ & _ & H2). destruct (batches_sublist itemLength items) as [H3 H4].
  split_and!; [intros bs' missing'; apply cut_unique | by exists missing | done | done | apply batches_single].
Qed.

Lemma batches_bounded_witness :
  (exists missing, cut (fun z => z) [4000; 3000; 2000; 1000] [[4000; 3000]; [1000]] missing) /\
  createUDPBatches (fun z => z) [4000; 3000] = [[4000; 3000]].
Proof.
  split.
  - destruct (batches_bounded (fun z => z) [4000; 3000; 2000; 1000]) as (_ & (missing & H & _) & _). by exists missing.
  - apply (batches_bounded (fun z => z) [4000; 3000]).
    + done.
    + repeat constructor; lia.
    + reflexivity.
Defined.
