(* ===== verification/PageRank.v ===== *)
(** * Page rank (gossiper/pageRank.go)

    Each node keeps the ranks of the pages whose identifiers are closest to it; a change of a
    rank is sent to the nodes that keep the pages linked from it.  The cache of ranks (gcache)
    and the estimate of the number of documents (hyperloglog) are third-party; so are the
    database and the encoding.  The results of lookups in the DHT are functions of the key.

    A rank that is passed by pointer is a value here: the code changes one only right before
    it stores it in the cache under the same url, so no reader sees a difference. *)
From S2P Require Import Prelude DhtId CrawlerPacket Dto Storage Float64 Batches.

Definition cacheSize : Z := 5000000.
Definition prEpsilon : float64 := constant 3 100.
Definition dampingFactor : float64 := constant 85 100.
Definition InitialRank : float64 := constant 15 100.   (* the constant 1 - 0.85 *)

Record RankInfo := mkRankInfo { ri_Url : string; ri_Rank : float64; ri_NumberOfOutboundLinks : Z }.
(** The pointer in an update that was received may be nil. *)
Record RankUpdate := mkRankUpdate { ru_OutboundLink : string; ru_RankInfo : option RankInfo }.
Record BatchMessage := mkBatchMessage {
  bm_UrlMapList : list KeywordToURLMap;
  bm_OutBoundLinksPackages : list OutBoundLinksPackage;
  bm_Citations : list Citations;
  bm_PageRankUpdates : list RankUpdate
}.

(** ** The cache: what was set is found under its key until it is evicted.  A value is a
    [*RankInfo], a [[]byte] or nil. *)
Inductive cache_value := CRank (r : RankInfo) | CBytes (b : bytes) | CNil.
Class Cache (C : Type) := {
  cache_get : C -> TypeID -> option cache_value;
  cache_set : C -> TypeID -> cache_value -> C;
  cache_get_set c k v : cache_get (cache_set c k v) k = Some v;
  cache_get_set_ne c k k' v : k <> k' ->
    cache_get (cache_set c k v) k' = cache_get c k' \/ cache_get (cache_set c k v) k' = None
}.
Class Sketch (H : Type) := {
  hll_Insert : H -> bytes -> H;
  hll_Estimate : H -> Z
}.

(** A message for another node: [sendStore] of [packetBytes]. *)
Record store_request := mkStoreRequest {
  sr_node : NodeState; sr_key : TypeID; sr_data : bytes; sr_type : string; sr_encrypted : bool
}.
Definition zero_key : TypeID := replicate 64 0.

Section PageRank.
Context {db : Type} `{HB : Bolt db} {C : Type} `{HC : Cache C} {H : Type} `{HS : Sketch H}.
Context {rank_ok : RankInfo -> Prop} `{HPR : Protobuf RankInfo rank_ok}.
Context {links_ok : OutBoundLinksPackage -> Prop} `{HPL : Protobuf OutBoundLinksPackage links_ok}.
Context {citations_ok : Citations -> Prop} `{HPC : Protobuf Citations citations_ok}.
Context {batch_ok : BatchMessage -> Prop} `{HPB : Protobuf BatchMessage batch_ok}.
(** The length of the encoding of an update. *)
Context (update_length : RankUpdate -> Z).
(** What a failing decoder has filled in: the error is ignored for ranks. *)
Context (partial_rank : bytes -> RankInfo).
Context (LookupNodes : TypeID -> list NodeState) (LookupValue : TypeID -> string -> option bytes).
(** The address of this node, and the order in which Go visits a map of destinations. *)
Context (address : string) (range : gmap owner (list string) -> list (owner * list string)).

Record ranker := mkRanker {
  rk_db : db;
  rk_cache : C;
  rk_hits : Z;
  rk_totalAccesses : Z;
  rk_hll : H;
  rk_sent : list store_request
}.
Definition rk_set_db (g : ranker) d := mkRanker d (rk_cache g) (rk_hits g) (rk_totalAccesses g) (rk_hll g) (rk_sent g).
Definition cacheSet (g : ranker) (key : TypeID) (v : cache_value) :=
  mkRanker (rk_db g) (cache_set (rk_cache g) key v) (rk_hits g) (rk_totalAccesses g) (rk_hll g) (rk_sent g).
Definition count_access (g : ranker) :=
  mkRanker (rk_db g) (rk_cache g) (rk_hits g) (rk_totalAccesses g + 1) (rk_hll g) (rk_sent g).
Definition count_hit (g : ranker) :=
  mkRanker (rk_db g) (rk_cache g) (rk_hits g + 1) (rk_totalAccesses g) (rk_hll g) (rk_sent g).
Definition hll_seen (g : ranker) (url : string) :=
  mkRanker (rk_db g) (rk_cache g) (rk_hits g) (rk_totalAccesses g) (hll_Insert (rk_hll g) (bytes_of_string url)) (rk_sent g).
Definition rk_send (g : ranker) (l : list store_request) :=
  mkRanker (rk_db g) (rk_cache g) (rk_hits g) (rk_totalAccesses g) (rk_hll g) (rk_sent g ++ l).

(** A new ranker, with an empty cache and an empty sketch. *)
Definition newRanker (d : db) (cache_new : C) (hll_new : H) : ranker := mkRanker d cache_new 0 0 hll_new [].
Definition PageRankCacheHitRate (g : ranker) : float64 := fdiv (of_int (rk_hits g)) (of_int (rk_totalAccesses g)).

(** [keyN]: the number of keys of a bucket, from its statistics. *)
Definition GetDocumentEstimate (keyN : db -> string -> Z) (g : ranker) : Z :=
  let numberOfDocuments := keyN (rk_db g) PageHashBucket in
  let ranks := keyN (rk_db g) PageRankBucket in
  let numberOfDocuments := if numberOfDocuments <? ranks then ranks else numberOfDocuments in
  let hllEstimate := hll_Estimate (rk_hll g) in
  if numberOfDocuments <? hllEstimate then hllEstimate else numberOfDocuments.

(** ** Ranks and links *)
Definition getOutboundLinksFromDb (g : ranker) (id : TypeID) : outcome OutBoundLinksPackage :=
  match bolt_get (rk_db g) LinksBucket id with
  | None => Ok (mkOutBoundLinksPackage "" [])
  | Some data =>
      match pb_decode data with Some p => Ok p | None => Panic "protobuf" end
  end.
Definition getRankFromDatabase (g : ranker) (id : TypeID) : option RankInfo :=
  match bolt_get (rk_db g) PageRankBucket id with
  | None => None
  | Some rankData =>
      Some (match pb_decode rankData with Some r => r | None => partial_rank rankData end)
  end.
Definition getRankLocally (g : ranker) (id : TypeID) : outcome (ranker * option RankInfo * bool) :=
  let g := count_access g in
  match cache_get (rk_cache g) id with
  | Some CNil => Ok (g, None, true)
  | Some (CRank rank) => Ok (count_hit g, Some rank, true)
  | Some (CBytes _) => Panic "interface conversion: interface {} is []uint8, not *gossiper.RankInfo"
  | None =>
      let rank := getRankFromDatabase g id in
      Ok (g, rank, if rank is Some _ then true else false)
  end.
Definition getRank (g : ranker) (id : TypeID) : outcome (ranker * option RankInfo) :=
  '(g, rank, exists_) ← getRankLocally g id;
  if exists_ : bool then Ok (g, rank)
  else
    match LookupValue id PageRankBucket with
    | Some data =>
        match pb_decode data with
        | None => Panic "protobuf"
        | Some rank => Ok (cacheSet g id (CRank rank), Some rank)
        end
    | None => Ok (cacheSet g id CNil, None)
    end.

Definition getCitations (g : ranker) (id : TypeID) : outcome Citations :=
  match bolt_get (rk_db g) CitationsBucket id with
  | None => Ok (mkCitations "" [])
  | Some data => match pb_decode data with Some c => Ok c | None => Panic "protobuf" end
  end.

(** The sum over the citing pages whose rank is known. *)
Fixpoint inlink_sum (g : ranker) (newInfo : option RankInfo) (citedBy : list string) (inlinkSum : float64)
    : outcome (ranker * float64) :=
  match citedBy with
  | [] => Ok (g, inlinkSum)
  | citation :: rest =>
      '(g, rankInfo) ←
        (match newInfo with
         | Some n => if String.eqb citation (ri_Url n) then Ok (g, Some n) else getRank g (GenerateKeyHash citation)
         | None => getRank g (GenerateKeyHash citation)
         end);
      inlink_sum g newInfo rest
        (match rankInfo with
         | Some r => fadd inlinkSum (fdiv (ri_Rank r) (of_int (int64 (ri_NumberOfOutboundLinks r + 1))))
         | None => inlinkSum
         end)
  end.
(** The page with its new rank, and the relative change. *)
Definition updatePageRankWithInfo (g : ranker) (page : RankInfo) (newInfo : option RankInfo)
    : outcome (ranker * RankInfo * float64) :=
  citations ← getCitations g (GenerateKeyHash (ri_Url page));
  match ci_CitedBy citations with
  | [] => Ok (g, page, zero64)
  | citedBy =>
      '(g, inlinkSum) ← inlink_sum g newInfo citedBy zero64;
      let newRank := fadd InitialRank (fmul dampingFactor inlinkSum) in
      let oldRank := ri_Rank page in
      Ok (g, mkRankInfo (ri_Url page) newRank (ri_NumberOfOutboundLinks page),
          fdiv (fabs (fsub oldRank newRank)) oldRank)
  end.
Definition updatePageRank (g : ranker) (page : RankInfo) := updatePageRankWithInfo g page None.

(** The cache gets the encoding of the rank, not the rank. *)
Definition storeRankLocally (g : ranker) (pageInfo : RankInfo) : ranker :=
  let id := GenerateKeyHash (ri_Url pageInfo) in
  let data := pb_encode pageInfo in
  let g := cacheSet g id (CBytes data) in
  rk_set_db g (bolt_put (rk_db g) PageRankBucket id data).

(** ** Spreading a change *)
Section Spread.
(** [receiveRankUpdate(update, true, false)], called from below. *)
Context (receive : ranker -> RankUpdate -> outcome ranker).

Fixpoint receive_all (g : ranker) (updates : list RankUpdate) : outcome ranker :=
  match updates with
  | [] => Ok g
  | u :: rest => g ← receive g u; receive_all g rest
  end.

Definition rank_packets (dest : NodeState) (batch : list RankUpdate) : list store_request :=
  (fun tmp => mkStoreRequest dest zero_key (pb_encode (mkBatchMessage [] [] [] tmp)) PageRankBucket false)
    <$> createUDPBatches update_length batch.
Fixpoint send_ranks (g : ranker) (dests : list (owner * list RankUpdate)) : outcome ranker :=
  match dests with
  | [] => Ok g
  | (o, batch) :: rest =>
      let dest := node_of o in
      g ← (if String.eqb (Address dest) address then receive_all g batch else Ok g);
      send_ranks (rk_send g (rank_packets dest batch)) rest
  end.
(** All destinations get pointers to the one update [pageUpdate], whose link is overwritten
    for each link: in the end it is the last one that was placed. *)
Definition batchRankUpdates (g : ranker) (urlInfo : OutBoundLinksPackage) (pageInfo : RankInfo)
    : outcome ranker :=
  let links := ob_OutBoundLinks urlInfo in
  let '(dests, _) := destinations LookupNodes id links ∅ in
  let pageUpdate := mkRankUpdate (default "" (last (placed LookupNodes id links))) (Some pageInfo) in
  send_ranks g ((fun d : owner * list string => (d.1, (fun _ => pageUpdate) <$> d.2)) <$> range dests).

Fixpoint spread_links (g : ranker) (info : RankInfo) (id : TypeID) (links : list string) : outcome ranker :=
  match links with
  | [] => Ok g
  | link :: rest =>
      g ← (match getRankFromDatabase g (GenerateKeyHash link) with
           | None => Ok g
           | Some linkInfo =>
               '(g, linkInfo, relerr) ← updatePageRankWithInfo g linkInfo (Some info);
               if flt prEpsilon relerr then
                 linkOutbounds ← getOutboundLinksFromDb g id;
                 batchRankUpdates (storeRankLocally g linkInfo) linkOutbounds linkInfo
               else Ok g
           end);
      spread_links g info id rest
  end.

(** Also returns the rank of the page, which is shared with the caller. *)
Definition processRankUpdates (g : ranker) (update : RankUpdate) (isLocal isNew : bool)
    : outcome (ranker * RankInfo) :=
  info ← deref (ru_RankInfo update);
  let urlId := GenerateKeyHash (ri_Url info) in
  '(g, info) ← (if isNew then '(g, info, _) ← updatePageRank g info; Ok (g, info) else Ok (g, info));
  let g := if isLocal then rk_set_db g (bolt_put (rk_db g) PageRankBucket urlId (pb_encode info)) else g in
  let g := cacheSet g urlId (CRank info) in
  let id := GenerateKeyHash (ru_OutboundLink update) in
  outboundLinksPackage ← getOutboundLinksFromDb g id;
  g ← spread_links g info id (ob_OutBoundLinks outboundLinksPackage);
  Ok (g, info).
Definition receive_step (g : ranker) (update : RankUpdate) (isLocal isNew : bool)
    : outcome (ranker * RankInfo) :=
  info ← deref (ru_RankInfo update);
  processRankUpdates (hll_seen g (ri_Url info)) update isLocal isNew.
End Spread.

(** The recursion goes on as long as ranks change by more than [prEpsilon]; [depth] is the
    number of nested calls that fit on the stack. *)
Fixpoint receiveRankUpdate (depth : nat) (g : ranker) (update : RankUpdate) (isLocal isNew : bool)
    : outcome (ranker * RankInfo) :=
  match depth with
  | O => Fatal "stack overflow"
  | S depth' =>
      receive_step (fun g u => fst <$> receiveRankUpdate depth' g u true false) g update isLocal isNew
  end.
End PageRank.

(** ** Properties *)
Section Properties.
Context {db : Type} `{HB : Bolt db} {C : Type} `{HC : Cache C} {H : Type} `{HS : Sketch H}.
Context {rank_ok : RankInfo -> Prop} `{HPR : Protobuf RankInfo rank_ok}.
Context {links_ok : OutBoundLinksPackage -> Prop} `{HPL : Protobuf OutBoundLinksPackage links_ok}.
Context {citations_ok : Citations -> Prop} `{HPC : Protobuf Citations citations_ok}.
Context {batch_ok : BatchMessage -> Prop} `{HPB : Protobuf BatchMessage batch_ok}.
Context (update_length : RankUpdate -> Z) (partial_rank : bytes -> RankInfo).
Context (LookupNodes : TypeID -> list NodeState) (LookupValue : TypeID -> string -> option bytes).
Context (address : string).
Abbreviation node := (@ranker db C H).
Implicit Types (g : node).

(** What the database, or else the network, says about the rank of a page. *)
Definition source g (id : TypeID) : option RankInfo :=
  match getRankFromDatabase partial_rank g id with
  | Some r => Some r
  | None => LookupValue id PageRankBucket ≫= pb_decode
  end.
Definition cached (r : option RankInfo) : cache_value := match r with Some r => CRank r | None => CNil end.
Definition cache_consistent g : Prop :=
  forall id v, cache_get (rk_cache g) id = Some v -> v = cached (source g id).
Definition network_ok : Prop :=
  forall id data, LookupValue id PageRankBucket = Some data -> exists r : RankInfo, pb_decode data = Some r.
(** Only the cache and its counters differ. *)
Definition same_data g g' : Prop :=
  rk_db g' = rk_db g /\ rk_hll g' = rk_hll g /\ rk_sent g' = rk_sent g.

Lemma source_same g g' id : same_data g g' -> source g' id = source g id.
Proof using Type. intros (E & _ & _). unfold source, getRankFromDatabase. by rewrite E. Qed.
Lemma consistent_set g id : cache_consistent g -> cache_consistent (cacheSet g id (cached (source g id))).
Proof using Type.
  intros Hc id' v. cbn [rk_cache cacheSet]. rewrite (source_same g (cacheSet _ _ _)) by done.
  destruct (decide (id = id')) as [<-|Hne]; [rewrite cache_get_set; congruence |].
  destruct (cache_get_set_ne (rk_cache g) id id' (cached (source g id)) Hne) as [->| ->]; [apply Hc | done].
Qed.
Lemma consistent_same g g' :
  same_data g g' -> rk_cache g' = rk_cache g -> cache_consistent g -> cache_consistent g'.
Proof using Type. intros Hs Hk Hc id v. rewrite Hk, (source_same g) by done. apply Hc. Qed.

Lemma getRank_consistent g id : network_ok -> cache_consistent g ->
  exists g', getRank partial_rank LookupValue g id = Ok (g', source g id) /\ same_data g g' /\ cache_consistent g'.
Proof using Type.
  intros Hn Hc. unfold getRank, getRankLocally. cbn [count_access rk_cache].
  destruct (cache_get (rk_cache g) id) as [v|] eqn:Ev.
  - rewrite (Hc _ _ Ev). destruct (source g id) as [r|]; cbn; eexists; (split; [reflexivity |]);
      (split; [done | by apply (consistent_same g)]).
  - assert (source (count_access g) id = source g id) as Es by done. unfold source.
    change (getRankFromDatabase partial_rank (count_access g) id) with (getRankFromDatabase partial_rank g id).
    destruct (getRankFromDatabase partial_rank g id) as [r|] eqn:Er; cbn [mbind outcome_bind].
    + eexists. split; [reflexivity |]. split; [done | by apply (consistent_same g)].
    + pose proof (consistent_set (count_access g) id) as Hset. rewrite Es in Hset. unfold source in Hset.
      rewrite Er in Hset. destruct (LookupValue id PageRankBucket) as [data|] eqn:Ed; cbn [mbind option_bind] in *.
      * destruct (Hn _ _ Ed) as [r Hr]. rewrite Hr in *. eexists. split; [reflexivity |].
        split; [done | apply Hset; by apply (consistent_same g)].
      * eexists. split; [reflexivity |]. split; [done | apply Hset; by apply (consistent_same g)].
Qed.

(** The sum of the ranks of the citing pages that are known, each divided by its number of
    outbound links plus one (the comment of the code names the number of links). *)
Definition weight (r : option RankInfo) (s : float64) : float64 :=
  match r with
  | Some r => fadd s (fdiv (ri_Rank r) (of_int (int64 (ri_NumberOfOutboundLinks r + 1))))
  | None => s
  end.
Definition rank_used (source : TypeID -> option RankInfo) (newInfo : option RankInfo) (citation : string) :=
  match newInfo with
  | Some n => if String.eqb citation (ri_Url n) then Some n else source (GenerateKeyHash citation)
  | None => source (GenerateKeyHash citation)
  end.
Definition new_rank (source : TypeID -> option RankInfo) newInfo (citedBy : list string) : float64 :=
  fadd (constant 15 100) (fmul (constant 85 100)
    (foldl (fun s c => weight (rank_used source newInfo c) s) zero64 citedBy)).

Lemma inlink_sum_consistent newInfo citedBy : forall g s, network_ok -> cache_consistent g ->
  exists g', inlink_sum partial_rank LookupValue g newInfo citedBy s =
      Ok (g', foldl (fun s c => weight (rank_used (source g) newInfo c) s) s citedBy) /\
    same_data g g' /\ cache_consistent g'.
Proof using Type.
  induction citedBy as [|c rest IH]; intros g s Hn Hc; cbn [inlink_sum foldl]; [by eexists |].
  assert (exists g1, (match newInfo with
      | Some n => if String.eqb c (ri_Url n) then Ok (g, Some n) else getRank partial_rank LookupValue g (GenerateKeyHash c)
      | None => getRank partial_rank LookupValue g (GenerateKeyHash c) end) = Ok (g1, rank_used (source g) newInfo c) /\
    same_data g g1 /\ cache_consistent g1) as (g1 & -> & Hs1 & Hc1).
  { unfold rank_used. destruct newInfo as [n|]; [destruct (String.eqb c (ri_Url n)); [by eexists |] |];
      by apply getRank_consistent. }
  cbn [mbind outcome_bind]. change (match rank_used (source g) newInfo c with
    | Some r => fadd s (fdiv (ri_Rank r) (of_int (int64 (ri_NumberOfOutboundLinks r + 1)))) | None => s end)
    with (weight (rank_used (source g) newInfo c) s).
  destruct (IH g1 (weight (rank_used (source g) newInfo c) s) Hn Hc1) as (g2 & -> & Hs2 & Hc2).
  exists g2. split_and!; [| destruct Hs1 as (?&?&?), Hs2 as (?&?&?); split_and!; congruence | done].
  f_equal. f_equal. generalize (weight (rank_used (source g) newInfo c) s) as s'. clear -Hs1.
  induction rest as [|c' rest IH]; intros s'; cbn [foldl]; [done |].
  assert (rank_used (source g1) newInfo c' = rank_used (source g) newInfo c') as ->; [| apply IH].
  unfold rank_used. by rewrite !(source_same g g1).
Qed.

Lemma page_rank_formula_lemma g page newInfo citations :
  network_ok -> cache_consistent g ->
  getCitations g (GenerateKeyHash (ri_Url page)) = Ok citations ->
  exists g' page' relerr,
    updatePageRankWithInfo partial_rank LookupValue g page newInfo = Ok (g', page', relerr) /\
    same_data g g' /\ cache_consistent g' /\
    ri_Url page' = ri_Url page /\ ri_NumberOfOutboundLinks page' = ri_NumberOfOutboundLinks page /\
    match ci_CitedBy citations with
    | [] => ri_Rank page' = ri_Rank page /\ relerr = zero64
    | citedBy =>
        ri_Rank page' = new_rank (source g) newInfo citedBy /\
        relerr = fdiv (fabs (fsub (ri_Rank page) (ri_Rank page'))) (ri_Rank page)
    end.
Proof using Type.
  intros Hn Hc Hcit. unfold updatePageRankWithInfo. rewrite Hcit. cbn [mbind outcome_bind].
  destruct (ci_CitedBy citations) as [|c cs] eqn:E; [by eexists _, _, _ |].
  destruct (inlink_sum_consistent newInfo (c :: cs) g zero64 Hn Hc) as (g' & -> & Hs & Hc').
  cbn [mbind outcome_bind]. eexists _, _, _. by split_and!.
Qed.

(** C31. The rank of a page.  While the cache agrees with the database and the network, a page
    that is cited gets the rank 0.15 + 0.85 * (the sum, over the citing pages whose rank is
    known, of the rank divided by the number of links plus one - not by the number of links,
    as the comment of the code has it), where the rank that was just received replaces the
    stored one; the result is the change relative to the old rank.  A
    page that nobody cites keeps its rank.  Only the cache and its counters change, and the
    cache still agrees. *)
Theorem page_rank_formula g page newInfo citations :
  network_ok -> cache_consistent g ->
  getCitations g (GenerateKeyHash (ri_Url page)) = Ok citations ->
  exists g' page' relerr,
    updatePageRankWithInfo partial_rank LookupValue g page newInfo = Ok (g', page', relerr) /\
    same_data g g' /\ cache_consistent g' /\
    ri_Url page' = ri_Url page /\ ri_NumberOfOutboundLinks page' = ri_NumberOfOutboundLinks page /\
    match ci_CitedBy citations with
    | [] => ri_Rank page' = ri_Rank page /\ relerr = zero64
    | citedBy =>
        ri_Rank page' = new_rank (source g) newInfo citedBy /\
        relerr = fdiv (fabs (fsub (ri_Rank page) (ri_Rank page'))) (ri_Rank page)
    end.
Proof using Type. apply page_rank_formula_lemma. Qed.

(** Destinations on other nodes: the updates are sent and nothing else happens. *)
Definition elsewhere (links : list string) : Prop :=
  forall link, link ∈ links -> match LookupNodes (GenerateKeyHash link) with
    | [] => True | n :: _ => Address n <> address end.
Lemma send_ranks_remote (receive : node -> RankUpdate -> outcome node) dests : forall g,
  Forall (fun d : owner * list RankUpdate => d.1.2 <> address) dests ->
  send_ranks update_length address receive g dests =
    Ok (rk_send g (dests ≫= fun d => rank_packets update_length (node_of d.1) d.2)).
Proof using Type.
  induction dests as [|[o batch] dests IH]; intros g Hd; cbn [send_ranks].
  - unfold rk_send. cbn. rewrite app_nil_r. by destruct g.
  - apply Forall_cons in Hd as [Ho Hd]. cbn [node_of Address fst snd] in *.
    rewrite (proj2 (String.eqb_neq _ _)) by done. cbn [mbind outcome_bind].
    rewrite IH by done. unfold rk_send. cbn. by rewrite app_assoc.
Qed.

Lemma receives_remote (range : gmap owner (list string) -> list (owner * list string)) links :
  (forall m, range m ≡ₚ map_to_list m) -> elsewhere links ->
  let dests := (destinations LookupNodes id links ∅).1 in
  Forall (fun d => d.1.2 <> address) (range dests) /\
  (range dests ≫= snd) ≡ₚ placed LookupNodes id links.
Proof using Type.
  intros Hr He. cbv zeta. split.
  - rewrite Hr. apply Forall_forall. intros [o l] Ho%elem_of_map_to_list. cbn.
    destruct (destinations_owner LookupNodes id links o l Ho) as (link & Hin & Hown).
    specialize (He link Hin). unfold first_owner, id in Hown.
    destruct (LookupNodes _) as [|n ns]; cbn in *; [done | by simplify_eq].
  - rewrite Hr. apply destinations_perm.
Qed.

(** Spreading a rank, when no linked page belongs to this node.  What is sent are packets
    below the size limit that together hold as many updates as there are links with an owner,
    less those lost between batches; but every update names the last link, so the owners of
    the other links recompute nothing of theirs.  The rank that was stored before stays in the
    cache as bytes, and the next request for it ends the process. *)
Theorem rank_updates_name_last_link (receive : node -> RankUpdate -> outcome node) (range : gmap owner (list string) -> list (owner * list string)) g urlInfo info :
  (forall m, range m ≡ₚ map_to_list m) -> elsewhere (ob_OutBoundLinks urlInfo) ->
  let links := placed LookupNodes id (ob_OutBoundLinks urlInfo) in
  let update := mkRankUpdate (default "" (last links)) (Some info) in
  exists batches : list (NodeState * list RankUpdate),
    let g' := rk_send (storeRankLocally g info) ((fun b => mkStoreRequest b.1 zero_key
        (pb_encode (mkBatchMessage [] [] [] b.2)) PageRankBucket false) <$> batches) in
    batchRankUpdates update_length LookupNodes address range receive (storeRankLocally g info) urlInfo info = Ok g' /\
    Forall (fun b => Forall (eq update) b.2 /\ total update_length b.2 < udpMaxSize) batches /\
    (length (concat batches.*2) <= length links)%nat /\
    getRank partial_rank LookupValue g' (GenerateKeyHash (ri_Url info)) =
      Panic "interface conversion: interface {} is []uint8, not *gossiper.RankInfo".
Proof using Type.
  intros Hr He. cbv zeta.
  set (update := mkRankUpdate _ _). set (links := ob_OutBoundLinks urlInfo) in *.
  destruct (receives_remote range links Hr He) as [Hd Hp].
  exists (range (destinations LookupNodes id links ∅).1 ≫= fun d =>
    (fun b => (node_of d.1, b)) <$> createUDPBatches update_length ((fun _ => update) <$> d.2)).
  split_and!.
  - unfold batchRankUpdates. fold links. destruct (destinations LookupNodes id links ∅) as [dests broken].
    cbn [fst] in *. fold update. rewrite send_ranks_remote.
    + f_equal. f_equal. clear. induction (range dests) as [|d l IH]; [done |].
      rewrite fmap_cons. cbn [mbind list_bind fst snd]. rewrite IH, fmap_app. f_equal.
      unfold rank_packets. rewrite <-list_fmap_compose. done.
    + apply Forall_fmap. eapply Forall_impl; [exact Hd |]. by intros [].
  - apply Forall_forall. intros [n b] (d & Hb & _)%list_elem_of_bind.
    apply list_elem_of_fmap in Hb as (b' & [= -> ->] & Hb).
    pose proof (batches_sublist update_length ((fun _ => update) <$> d.2)) as [Hsub Hsize].
    rewrite Forall_forall in Hsize. split; [| by apply Hsize].
    apply Forall_forall. intros u Hu.
    assert (u ∈ (fun _ => update) <$> d.2) as (x & -> & _)%list_elem_of_fmap; [| done].
    eapply elem_of_sublist; [| exact Hsub]. apply list_elem_of_In, in_concat.
    exists b'. split; by apply list_elem_of_In.
  - rewrite <-(Permutation_length Hp). clear. induction (range _) as [|d l IH]; [done |].
    cbn [mbind list_bind]. rewrite fmap_app, concat_app, !length_app, <-list_fmap_compose.
    apply Nat.add_le_mono; [| exact IH].
    assert (((fun b : list RankUpdate => (node_of d.1, b).2) <$> createUDPBatches update_length ((fun _ => update) <$> d.2)) =
      createUDPBatches update_length ((fun _ => update) <$> d.2)) as E by apply list_fmap_id.
    unfold compose. rewrite E. destruct (batches_sublist update_length ((fun _ => update) <$> d.2)) as [Hsub _].
    apply sublist_length in Hsub. by rewrite length_fmap in Hsub.
  - unfold getRank, getRankLocally, storeRankLocally. cbn. by rewrite cache_get_set.
Qed.


(** *** Ranks touch only their bucket of the database *)
Definition same_others g g' : Prop := forall b k, b <> PageRankBucket -> bolt_get (rk_db g') b k = bolt_get (rk_db g) b k.
Lemma same_others_trans g1 g2 g3 : same_others g1 g2 -> same_others g2 g3 -> same_others g1 g3.
Proof using Type. intros H1 H2 b k Hb. by rewrite H2, H1. Qed.
Lemma getRank_db g id g' r : getRank partial_rank LookupValue g id = Ok (g', r) -> rk_db g' = rk_db g.
Proof using Type.
  unfold getRank, getRankLocally. cbn [count_access rk_cache].
  destruct (cache_get _ id) as [[| |]|]; cbn; [by intros [= <- _] | done | by intros [= <- _] |].
  destruct (getRankFromDatabase _ _ _); cbn; [by intros [= <- _] |].
  destruct (LookupValue _ _); [| by intros [= <- _]]. destruct (pb_decode _); [| done]. by intros [= <- _].
Qed.
(** Every rank that is looked up counts as one access and as at most one hit. *)
Lemma getRank_counts g id g' r : getRank partial_rank LookupValue g id = Ok (g', r) ->
  rk_totalAccesses g' = rk_totalAccesses g + 1 /\ rk_hits g <= rk_hits g' <= rk_hits g + 1.
Proof using Type.
  unfold getRank, getRankLocally. cbn [count_access rk_cache].
  destruct (cache_get _ id) as [[| |]|]; cbn; [intros [= <- _]; cbn; lia | done | intros [= <- _]; cbn; lia |].
  destruct (getRankFromDatabase _ _ _); cbn; [intros [= <- _]; cbn; lia |].
  destruct (LookupValue _ _); [| intros [= <- _]; cbn; lia]. destruct (pb_decode _); [| done]. intros [= <- _]; cbn; lia.
Qed.
Lemma inlink_sum_db newInfo citedBy : forall g s g' s',
  inlink_sum partial_rank LookupValue g newInfo citedBy s = Ok (g', s') -> rk_db g' = rk_db g.
Proof using Type.
  induction citedBy as [|c rest IH]; intros g s g' s'; cbn [inlink_sum]; [by intros [= <- _] |].
  intros ([g1 r] & E & Hrest)%outcome_bind_Ok. apply IH in Hrest as ->.
  destruct newInfo as [n|]; [| by eapply getRank_db].
  destruct (String.eqb c (ri_Url n)); [by injection E as <- _ | by eapply getRank_db].
Qed.
Lemma updatePageRank_db g page newInfo g' page' relerr :
  updatePageRankWithInfo partial_rank LookupValue g page newInfo = Ok (g', page', relerr) -> rk_db g' = rk_db g.
Proof using Type.
  unfold updatePageRankWithInfo. intros (cit & _ & Hrest)%outcome_bind_Ok.
  destruct (ci_CitedBy cit); [by injection Hrest as <- _ _ |].
  apply outcome_bind_Ok in Hrest as ([g1 sum] & E & Hrest).
  apply Ok_inj, (f_equal (fun x => x.1.1)) in Hrest. cbn [fst] in Hrest. subst g1. by eapply inlink_sum_db.
Qed.
Section Keep.
Context (range : gmap owner (list string) -> list (owner * list string)) (receive : node -> RankUpdate -> outcome node).
Hypothesis receive_keeps : forall g u g', receive g u = Ok g' -> same_others g g'.

Lemma receive_all_keeps updates : forall g g', receive_all receive g updates = Ok g' -> same_others g g'.
Proof using receive_keeps.
  induction updates as [|u rest IH]; intros g g'; cbn [receive_all]; [by intros [= <-] |].
  intros (g1 & E & Hrest)%outcome_bind_Ok. eapply same_others_trans; [by eapply receive_keeps | by apply IH].
Qed.
Lemma send_ranks_keeps dests : forall g g', send_ranks update_length address receive g dests = Ok g' -> same_others g g'.
Proof using receive_keeps.
  induction dests as [|[o batch] rest IH]; intros g g'; cbn [send_ranks]; [by intros [= <-] |].
  intros (g1 & E & Hrest)%outcome_bind_Ok. apply IH in Hrest.
  destruct (String.eqb _ _); [| by injection E as <-].
  eapply same_others_trans; [by eapply receive_all_keeps | exact Hrest].
Qed.
Lemma spread_keeps info id links : forall g g',
  spread_links update_length partial_rank LookupNodes LookupValue address range receive g info id links = Ok g' ->
  same_others g g'.
Proof using receive_keeps.
  induction links as [|link rest IH]; intros g g'; cbn [spread_links]; [by intros [= <-] |].
  intros (g1 & E & Hrest)%outcome_bind_Ok. apply IH in Hrest. eapply same_others_trans; [| exact Hrest].
  destruct (getRankFromDatabase _ _ _) as [li|]; [| by injection E as <-].
  apply outcome_bind_Ok in E as ([[g2 li'] rel] & E2 & E3). apply updatePageRank_db in E2.
  destruct (flt _ _); [| injection E3 as <-; intros b k _; by rewrite E2].
  apply outcome_bind_Ok in E3 as (outs & _ & E4). unfold batchRankUpdates in E4.
  destruct (destinations _ _ _ _) as [dests broken]. apply send_ranks_keeps in E4.
  intros b k Hb. rewrite E4 by done. unfold storeRankLocally. cbn. rewrite get_put_ne by (left; congruence).
  by rewrite E2.
Qed.
Lemma receive_step_keeps g u isLocal isNew g' info :
  receive_step update_length partial_rank LookupNodes LookupValue address range receive g u isLocal isNew = Ok (g', info) ->
  same_others g g'.
Proof using receive_keeps.
  unfold receive_step, processRankUpdates. intros (i0 & Ei & E)%outcome_bind_Ok.
  apply outcome_bind_Ok in E as (i1 & _ & E). apply outcome_bind_Ok in E as ([g1 i2] & E1 & E).
  assert (rk_db g1 = rk_db g) as Edb.
  { destruct isNew; [| by injection E1 as <- _].
    apply outcome_bind_Ok in E1 as ([[g2 i3] rel] & E2 & E3). injection E3 as <- _. by apply updatePageRank_db in E2. }
  apply outcome_bind_Ok in E as (outs & _ & E). apply outcome_bind_Ok in E as (g3 & E3 & E). injection E as <- _.
  apply spread_keeps in E3. intros b k Hb. rewrite E3 by done. destruct isLocal; cbn; [| by rewrite Edb].
  rewrite get_put_ne by (left; congruence). by rewrite Edb.
Qed.
End Keep.
Lemma receive_keeps range depth : forall g u isLocal isNew g' info,
  receiveRankUpdate update_length partial_rank LookupNodes LookupValue address range depth g u isLocal isNew = Ok (g', info) ->
  same_others g g'.
Proof using Type.
  induction depth as [|depth IH]; intros g u isLocal isNew g' info; cbn [receiveRankUpdate]; [done |].
  apply receive_step_keeps. clear -IH. intros g u g' E.
  destruct (receiveRankUpdate _ _ _ _ _ _ depth g u true false) as [[g1 i]| |] eqn:E1; [| done..].
  injection E as <-. by eapply IH.
Qed.

End Properties.

(** ** Samples: third-party code that obeys its laws, for the witnesses *)
#[export] Instance RankInfo_eq_dec : EqDecision RankInfo.
Proof. solve_decision. Defined.
#[export] Instance RankInfo_countable : Countable RankInfo.
Proof.
  refine (inj_countable' (fun r => (ri_Url r, ri_Rank r, ri_NumberOfOutboundLinks r))
    (fun x => mkRankInfo x.1.1 x.1.2 x.2) _). by intros [].
Defined.
#[export] Instance RankUpdate_eq_dec : EqDecision RankUpdate.
Proof. solve_decision. Defined.
#[export] Instance RankUpdate_countable : Countable RankUpdate.
Proof.
  refine (inj_countable' (fun r => (ru_OutboundLink r, ru_RankInfo r)) (fun x => mkRankUpdate x.1 x.2) _).
  by intros [].
Defined.
#[export] Instance OutBoundLinksPackage_eq_dec : EqDecision OutBoundLinksPackage.
Proof. solve_decision. Defined.
#[export] Instance OutBoundLinksPackage_countable : Countable OutBoundLinksPackage.
Proof.
  refine (inj_countable' (fun r => (ob_Url r, ob_OutBoundLinks r)) (fun x => mkOutBoundLinksPackage x.1 x.2) _).
  by intros [].
Defined.
#[export] Instance Citations_eq_dec : EqDecision Citations.
Proof. solve_decision. Defined.
#[export] Instance Citations_countable : Countable Citations.
Proof.
  refine (inj_countable' (fun r => (ci_Url r, ci_CitedBy r)) (fun x => mkCitations x.1 x.2) _).
  by intros [].
Defined.
#[export] Instance KeywordToURLMap_eq_dec : EqDecision KeywordToURLMap.
Proof. solve_decision. Defined.
#[export] Instance KeywordToURLMap_countable : Countable KeywordToURLMap.
Proof.
  refine (inj_countable' (fun r => (km_Keyword r, km_LinkData r)) (fun x => mkKeywordToURLMap x.1 x.2) _).
  by intros [].
Defined.
#[export] Instance BatchMessage_eq_dec : EqDecision BatchMessage.
Proof. solve_decision. Defined.
#[export] Instance BatchMessage_countable : Countable BatchMessage.
Proof.
  refine (inj_countable' (fun b => (bm_UrlMapList b, bm_OutBoundLinksPackages b, bm_Citations b, bm_PageRankUpdates b))
    (fun x => mkBatchMessage x.1.1.1 x.1.1.2 x.1.2 x.2) _). by intros [].
Defined.

(** An encoding by one number; everything is encoded. *)
Definition countable_code (A : Type) `{Countable A} : Protobuf A (fun _ => True).
Proof.
  refine {| pb_encode a := [Z.pos (encode a)];
            pb_decode l := match l with [Z.pos p] => decode p | _ => None end |}.
  intros a _. by rewrite decode_encode.
Defined.
Definition map_cache : Cache (gmap TypeID cache_value).
Proof.
  refine {| cache_get c k := c !! k; cache_set c k v := <[k := v]> c |}.
  - intros c k v. apply lookup_insert_eq.
  - intros c k k' v Hne. left. by apply lookup_insert_ne.
Defined.
Definition set_sketch : Sketch (gset bytes).
Proof. exact {| hll_Insert h b := {[b]} ∪ h; hll_Estimate h := Z.of_nat (size h) |}. Defined.
Definition sample_RankInfo := countable_code RankInfo.
Definition sample_Links := countable_code OutBoundLinksPackage.
Definition sample_Citations := countable_code Citations.
Definition sample_Batch := countable_code BatchMessage.
#[export] Existing Instances map_cache set_sketch sample_RankInfo sample_Links sample_Citations sample_Batch.

Definition page_a : RankInfo := mkRankInfo "/wiki/A" InitialRank 1.
Definition page_b : RankInfo := mkRankInfo "/wiki/B" InitialRank 1.
(** A database where page A is cited by page B, which has the initial rank. *)
Definition sample_ranks : ranker (db := map_db) (C := gmap TypeID cache_value) (H := gset bytes) :=
  mkRanker (db := map_db) ({[ (CitationsBucket, GenerateKeyHash "/wiki/A") := pb_encode (mkCitations "/wiki/A" ["/wiki/B"%string]);
               (PageRankBucket, GenerateKeyHash "/wiki/B") := pb_encode page_b ]}, ∅) ∅ 0 0 ∅ [].
Definition no_partial (b : bytes) : RankInfo := page_a.
Definition no_network (id : TypeID) (bucket : string) : option bytes := None.
Lemma sample_consistent : cache_consistent no_partial no_network sample_ranks.
Proof.
  intros id v H. assert (E : cache_get (rk_cache sample_ranks) id = None) by exact (lookup_empty id).
  rewrite E in H. discriminate H.
Qed.
Lemma sample_network : network_ok no_network.
Proof. by intros id data. Qed.

Lemma page_rank_formula_witness : exists g' page' relerr,
  updatePageRankWithInfo no_partial no_network sample_ranks page_a None = Ok (g', page', relerr) /\
  ri_Rank page' = fadd InitialRank (fmul dampingFactor (fdiv InitialRank (of_int 2))).
Proof.
  destruct (page_rank_formula no_partial no_network sample_ranks page_a None (mkCitations "/wiki/A" ["/wiki/B"%string]))
    as (g' & page' & relerr & H1 & _ & _ & _ & _ & H2 & _).
  - apply sample_network.
  - apply sample_consistent.
  - vm_compute. reflexivity.
  - exists g', page', relerr. split; [exact H1 |]. rewrite H2. vm_compute. reflexivity.
Defined.


Definition two_links : OutBoundLinksPackage := mkOutBoundLinksPackage "/wiki/A" ["/wiki/B"; "/wiki/C"]%string.
Lemma rank_updates_name_last_link_witness :
  exists batches g', batchRankUpdates (fun _ => 100) (fun _ => [mkNodeState zero_key "2.2.2.2:2"]) "1.1.1.1:1"
      map_to_list (fun g _ => Ok g) (storeRankLocally sample_ranks page_a) two_links page_a = Ok g' /\
    Forall (fun b : NodeState * list RankUpdate => Forall (eq (mkRankUpdate "/wiki/C" (Some page_a))) b.2) batches.
Proof.
  destruct (rank_updates_name_last_link (fun _ => 100) no_partial (fun _ => [mkNodeState zero_key "2.2.2.2:2"])
    no_network "1.1.1.1:1" (fun g _ => Ok g) map_to_list sample_ranks two_links page_a) as (batches & H1 & H2 & _).
  - done.
  - intros link _. cbn. by apply (bool_decide_unpack _).
  - eexists batches, _. split; [exact H1 |]. eapply Forall_impl; [exact H2 |]. by intros b [? _].
Defined.
(** The rate of a ranker that was never asked is 0/0. *)
Example fresh_rate : is_NaN (PageRankCacheHitRate (newRanker (db := map_db) (C := gmap TypeID cache_value) (H := gset bytes)
  (∅, ∅) ∅ ∅)) = true.
Proof. vm_compute. reflexivity. Qed.
