(* ===== verification/DhtNode.v ===== *)
(** * The node of the DHT (gossiper/dht.go)

    What a node does with the messages of the DHT: it stores what it is sent, answers
    lookups, and hands replies to the goroutines that wait for them.  Each goroutine that the
    listening routine starts is one step here; the order in which they run is the order of the
    messages.  Random nonces, times and the results of the node's own lookups are arguments. *)
From S2P Require Import Prelude Sha2 DhtId NodeStateArray KBuckets DhtMessage CrawlerPacket Dto Storage Crypto.
From S2P Require Import Sessions Float64 Batches PageRank.

Definition pingTimeout : Z := 1.
(** A packet with a DHT message for an address. *)
Inductive dht_effect := SendMsg (msg : Message) (dest : string).

(** ** Pings *)
(** Delivering replies in their order, as goroutines of the listening routine do. *)
Definition inform_all (cm : ChanMap) (arrivals : list Message) : option ChanMap :=
  foldl (fun acc msg => cm ← acc; InformListener cm (Nonce msg) msg) (Some cm) arrivals.
(** [sendPing]; [arrivals] are the replies delivered before the timer fires.  [None]: one of
    those goroutines blocks. *)
Definition sendPing (cm : ChanMap) (me : TypeID) (nonce : Z) (arrivals : list Message)
    : outcome (option (ChanMap * Message * bool)) :=
  let msg := newDHTPing nonce me in
  let '(cm, c, isNew) := AddListener cm nonce in
  if negb isNew then Panic "Something went very wrong"
  else Ok (cm ← inform_all cm arrivals;
           Some (match chan_recv cm c with
                 | Some (cm, _) => (cm, msg, true)
                 | None => (RemoveListener cm nonce, msg, false)
                 end)).
Definition replyPing (me : TypeID) (senderAddr : string) (ping : Message) : dht_effect :=
  SendMsg (newDHTPingReply me (Nonce ping)) senderAddr.

(** ** Requests *)
Definition sendStore (ns : NodeState) (key : TypeID) (data : bytes) (storeType : string) : store_request :=
  mkStoreRequest ns key data storeType false.
Definition request_message (nonce : Z) (me : TypeID) (r : store_request) : Message :=
  newDHTStore nonce me (sr_key r) (sr_data r) (sr_type r) (sr_encrypted r).

Section Requests.
Context `{AEAD}.
(** What [getKey] sends within five seconds: nothing, nil or a key. *)
Definition sendEncryptedStore (ns : NodeState) (key : TypeID) (data : bytes) (storeType : string)
    (getKey : option (option bytes)) (aesNonce : bytes) : outcome (option store_request) :=
  match getKey with
  | None => Ok None   (* the error "Failed to get key" *)
  | Some None => Ok (Some (sendStore ns key data storeType))
  | Some (Some k) =>
      k ← aes_New k;
      Ok (Some (mkStoreRequest ns key (Encrypt k aesNonce data) storeType true))
  end.

Definition with_encrypted (msg : Message) (enc : bool) (ekey : bytes) : Message :=
  mkMessage (Nonce msg) (SenderID msg) (m_Store msg) (m_Ping msg) (m_PingReply msg) (m_NodeLookup msg)
    (m_NodeReply msg)
    ((fun l => mkValueLookup (vl_Key l) (vl_DbKey l) (vl_DbBucket l) enc ekey) <$> m_ValueLookup msg)
    (m_ValueReply msg).
(** The message of [sendLookupKey]. *)
Definition sendLookupKey (encryptDHTOperations : bool) (nonce : Z) (me key : TypeID) (dbBucket : string)
    (encrypt : bool) (getKey : option (option bytes)) (aesNonce : bytes) : outcome Message :=
  let msg := newDHTValueLookup nonce me key dbBucket encrypt in
  if encryptDHTOperations then
    match getKey with
    | Some (Some k) => k ← aes_New k; Ok (with_encrypted msg encrypt (Encrypt k aesNonce key))
    | _ => Ok (with_encrypted msg false [])
    end
  else Ok msg.
End Requests.
Definition sendLookupNode (nonce : Z) (me id : TypeID) : Message := newDHTNodeLookup nonce me id.

(** ** The state of a node *)
Section Node.
Context {db : Type} `{HB : Bolt db} {C : Type} `{HC : Cache C} {H : Type} `{HS : Sketch H} `{HA : AEAD}.
Context `{HK : Protobuf KeywordToURLMap has_links}.
Context {rank_ok : RankInfo -> Prop} `{HPR : Protobuf RankInfo rank_ok}.
Context {links_ok : OutBoundLinksPackage -> Prop} `{HPL : Protobuf OutBoundLinksPackage links_ok}.
Context {citations_ok : Citations -> Prop} `{HPC : Protobuf Citations citations_ok}.
Context {batch_ok : BatchMessage -> Prop} `{HPB : Protobuf BatchMessage batch_ok}.
Context (update_length : RankUpdate -> Z) (partial_rank : bytes -> RankInfo).
(** What a failing decoder has filled in: the error is ignored for keywords. *)
Context (partial_batch : bytes -> BatchMessage).
Context (LookupNodes : TypeID -> list NodeState) (LookupValue : TypeID -> string -> option bytes).
Context (address : string) (range : gmap owner (list string) -> list (owner * list string)).
Context (order : frequency_order) (depth : nat).

Abbreviation rnode := (@ranker db C H).
Record dht_node := mkDhtNode {
  n_table : bucketTable;
  n_chans : ChanMap;
  n_ranker : rnode;
  n_ingoing : gmap TypeID (list DiffieHellmanSession)
}.
Definition n_set_table (n : dht_node) t := mkDhtNode t (n_chans n) (n_ranker n) (n_ingoing n).
Definition n_set_chans (n : dht_node) c := mkDhtNode (n_table n) c (n_ranker n) (n_ingoing n).
Definition n_set_ranker (n : dht_node) r := mkDhtNode (n_table n) (n_chans n) r (n_ingoing n).
Definition n_set_ingoing (n : dht_node) s := mkDhtNode (n_table n) (n_chans n) (n_ranker n) s.
Definition n_db (n : dht_node) : db := rk_db (n_ranker n).

(** ** Storing (replyStore) *)
Definition store_keywords (g : rnode) (data : bytes) : outcome rnode :=
  let batchTemp := match pb_decode data with Some b => b | None => partial_batch data end in
  d ← BulkAddLinksForKeyword (rk_db g) (bm_UrlMapList batchTemp);
  Ok (rk_set_db g d).
Definition store_pageHash (g : rnode) (key data : bytes) : rnode :=
  rk_set_db g (bolt_put (rk_db g) PageHashBucket key data).

(** The updates of the linked pages share the rank of the page. *)
Fixpoint announce_links (g : rnode) (rankInfo : RankInfo) (links : list string) : outcome rnode :=
  match links with
  | [] => Ok g
  | outLink :: rest =>
      '(g, rankInfo) ← receiveRankUpdate update_length partial_rank LookupNodes LookupValue address range
        depth g (mkRankUpdate outLink (Some rankInfo)) true true;
      announce_links g rankInfo rest
  end.
Definition store_links (g : rnode) (data : bytes) : outcome rnode :=
  match pb_decode data with
  | None => Panic "protobuf"
  | Some batchTemp =>
      let packages := bm_OutBoundLinksPackages batchTemp in
      let links := packages ≫= ob_OutBoundLinks in
      match packages with
      | [] => Panic "index out of range [0]"
      | first :: _ =>
          let url := ob_Url first in
          let g := rk_set_db g (bolt_put (rk_db g) LinksBucket (GenerateKeyHash url)
                     (pb_encode (mkOutBoundLinksPackage url links))) in
          announce_links g (mkRankInfo url InitialRank (Z.of_nat (length links))) links
      end
  end.

(** One item of a batch of citations. *)
Definition store_citation (d : db) (item : Citations) : outcome db :=
  let id := GenerateKeyHash (ci_Url item) in
  match bolt_get d CitationsBucket id with
  | None => Ok (bolt_put d CitationsBucket id (pb_encode item))
  | Some data =>
      match pb_decode data with
      | None => Fatal "protobuf"
      | Some old =>
          let updated := bolt_put d CitationsBucket id
                           (pb_encode (mkCitations (ci_Url old) (ci_CitedBy old ++ ci_CitedBy item))) in
          match ci_CitedBy old, ci_CitedBy item with
          | [], _ => Ok updated
          | _ :: _, [] => Panic "index out of range [0]"
          | olds, citation :: _ => if decide (citation ∈ olds) then Ok d else Ok updated
          end
      end
  end.
Fixpoint store_citation_items (d : db) (items : list Citations) : outcome db :=
  match items with
  | [] => Ok d
  | item :: rest => d ← store_citation d item; store_citation_items d rest
  end.
Definition store_citations (g : rnode) (data : bytes) : outcome rnode :=
  match pb_decode data with
  | None => Panic "protobuf"
  | Some batchTemp => d ← store_citation_items (rk_db g) (bm_Citations batchTemp); Ok (rk_set_db g d)
  end.

Fixpoint receive_updates (g : rnode) (updates : list RankUpdate) : outcome rnode :=
  match updates with
  | [] => Ok g
  | u :: rest =>
      '(g, _) ← receiveRankUpdate update_length partial_rank LookupNodes LookupValue address range
        depth g u false false;
      receive_updates g rest
  end.
Definition store_ranks (g : rnode) (data : bytes) : outcome rnode :=
  match pb_decode data with
  | None => Panic "protobuf"
  | Some batchTemp => receive_updates g (bm_PageRankUpdates batchTemp)
  end.

Definition replyStore (g : rnode) (store : Store) : outcome rnode :=
  let storeType := st_Type store in
  if String.eqb storeType KeywordsBucket then store_keywords g (st_Data store)
  else if String.eqb storeType PageHashBucket then Ok (store_pageHash g (st_Key store) (st_Data store))
  else if String.eqb storeType LinksBucket then store_links g (st_Data store)
  else if String.eqb storeType CitationsBucket then store_citations g (st_Data store)
  else if String.eqb storeType PageRankBucket then store_ranks g (st_Data store)
  else Ok g.

(** ** Decrypting

    The loop counts over the sessions but takes the last one each time. *)
Fixpoint try_session (tries : nat) (session : DiffieHellmanSession) (data : bytes) : outcome (option bytes) :=
  match tries with
  | O => Ok None
  | S tries' =>
      aes ← aes_New (s_Key session);
      r ← Decrypt aes data;
      match r with Some plain => Ok (Some plain) | None => try_session tries' session data end
  end.
Definition touch (now : Z) (s : DiffieHellmanSession) : DiffieHellmanSession :=
  mkSession (s_Key s) now (s_ExpirationDate s).
(** [None]: no session is known.  [Some None]: the message cannot be decrypted. *)
Definition decrypt_from (n : dht_node) (sender : TypeID) (data : bytes) (now : Z)
    : outcome (dht_node * option (option bytes)) :=
  match n_ingoing n !! sender with
  | None => Ok (n, None)
  | Some diffieSessions =>
      match last diffieSessions with
      | None => Ok (n, Some None)
      | Some session =>
          r ← try_session (length diffieSessions) session data;
          match r with
          | Some plain =>
              Ok (n_set_ingoing n (<[sender := removelast diffieSessions ++ [touch now session]]> (n_ingoing n)),
                  Some (Some plain))
          | None => Ok (n, Some None)
          end
      end
  end.

(** ** Answering lookups *)
Definition replyLookupNode (n : dht_node) (me : TypeID) (senderAddr : string) (nonce : Z) (lookup : NodeLookup)
    : dht_effect :=
  SendMsg (newDHTNodeReply me (alphaClosest (n_table n) (nl_NodeID lookup) bucketSize) nonce) senderAddr.

(** [copy(key[:], data)]. *)
Definition copy_key (data : bytes) : TypeID := take 64 (data ++ drop (length data) zero_key).
Definition answer_key (n : dht_node) (me : TypeID) (senderAddr : string) (nonce : Z) (key : TypeID)
    (lookup : ValueLookup) : outcome dht_effect :=
  data ← Retrieve order (n_db n) key (vl_DbBucket lookup);
  Ok (SendMsg (match data with
    | Some data => newDHTValueReplyData me data nonce (vl_Encrypted lookup)
    | None => newDHTValueReplyNodes me (alphaClosest (n_table n) (vl_Key lookup) bucketSize) nonce
    end) senderAddr).
Definition replyLookupKey (n : dht_node) (me : TypeID) (senderAddr : string) (nonce : Z) (sender : TypeID)
    (lookup : ValueLookup) (now : Z) : outcome (dht_node * list dht_effect) :=
  if vl_Encrypted lookup then
    '(n, r) ← decrypt_from n sender (vl_EncryptedKey lookup) now;
    match r with
    | None => Ok (n, [])
    | Some r => e ← answer_key n me senderAddr nonce (match r with Some data => copy_key data | None => zero_key end) lookup;
                Ok (n, [e])
    end
  else e ← answer_key n me senderAddr nonce (vl_Key lookup) lookup; Ok (n, [e]).

(** ** The listening routine (dhtMessageListenRoutine)

    [alive] is the result of the ping that an update of the routing table may make. *)
Definition store_message (n : dht_node) (sender : TypeID) (store : Store) (now : Z) : outcome dht_node :=
  if st_Encrypted store then
    '(n, r) ← decrypt_from n sender (st_Data store) now;
    match r with
    | Some (Some data) =>
        g ← replyStore (n_ranker n) (mkStore (st_Key store) (st_Type store) data (st_Encrypted store));
        Ok (n_set_ranker n g)
    | _ => Ok n
    end
  else g ← replyStore (n_ranker n) store; Ok (n_set_ranker n g).

Definition inform (n : dht_node) (msg : Message) : dht_node :=
  match InformListener (n_chans n) (Nonce msg) msg with
  | Some cm => n_set_chans n cm
  | None => n   (* the goroutine blocks *)
  end.
(** What the goroutine for a message does.  The fields are those of its type. *)
Definition handle (n : dht_node) (me : TypeID) (sender : string) (msg : Message) (now : Z)
    : outcome (dht_node * list dht_effect) :=
  match DhtMessage.GetUnderlyingType msg with
  | PingT => Ok (n, [replyPing me sender msg])
  | NodeLookupT => l ← deref (m_NodeLookup msg); Ok (n, [replyLookupNode n me sender (Nonce msg) l])
  | ValueLookupT =>
      l ← deref (m_ValueLookup msg); replyLookupKey n me sender (Nonce msg) (SenderID msg) l now
  | PingReplyT | NodeReplyT | ValueReplyT => Ok (inform n msg, [])
  | StoreT => s ← deref (m_Store msg); n ← store_message n (SenderID msg) s now; Ok (n, [])
  | NoneT => Ok (n, [])
  end.
Definition dhtMessageListen (alive : NodeState -> bool) (n : dht_node) (me : TypeID) (sender : string)
    (msg : Message) (now : Z) : outcome (dht_node * list dht_effect) :=
  let '(table, _) := updateNode alive (n_table n) (mkNodeState (SenderID msg) sender) in
  handle (n_set_table n table) me sender msg now.
End Node.

(** [sendPing] is called by the routine that also starts the goroutines which deliver replies:
    [started] are the replies whose goroutines were started before. *)
Definition alive_in_listener (cm : ChanMap) (me : TypeID) (nonce : Z) (started : list Message) (ns : NodeState) : bool :=
  match sendPing cm me nonce started with Ok (Some (_, _, alive)) => alive | _ => false end.

(** ** Joining: the identifiers that are looked up, with the random bytes of [RandNodeID] *)
Definition dhtJoin (me : TypeID) (rnd : nat -> TypeID) : outcome (list TypeID) :=
  ids ← foldl (fun acc i => l ← acc; id ← RandNodeID (rnd i) me i; Ok (l ++ [id])) (Ok [])
          (seq 0 (IDByteSize * 8));
  Ok (me :: ids).

(** ** StoreInDHT (gossiper/dhtAPI.go): only the closest node gets the data *)
Definition StoreInDHT (closest : list NodeState) (key : TypeID) (data : bytes) (storeType : string)
    : list store_request :=
  match closest with [] => [] | node :: _ => [sendStore node key data storeType] end.

(** ** Properties *)

(** *** Pings *)
Lemma inform_all_app cm l1 l2 : inform_all cm (l1 ++ l2) = (cm' ← inform_all cm l1; inform_all cm' l2).
Proof.
  unfold inform_all. rewrite foldl_app. destruct (foldl _ (Some cm) l1) as [cm'|]; [done |].
  cbn. induction l2 as [|m l2 IH]; [done |]. exact IH.
Qed.
Lemma inform_other cm nonce c msg cm' : chanmap_ok cm -> NonceMessageMap cm !! nonce = Some c -> Nonce msg <> nonce ->
  InformListener cm (Nonce msg) msg = Some cm' ->
  NonceMessageMap cm' !! nonce = Some c /\ channels cm' !! c = channels cm !! c.
Proof.
  intros Hok Hn Hne. unfold InformListener. destruct (NonceMessageMap cm !! Nonce msg) as [d|] eqn:Ed.
  - destruct (_ <? _)%nat; [| done]. intros [= <-]. cbn. rewrite lookup_delete_ne by done. split; [done |].
    apply lookup_insert_ne. intros ->. apply Hne. exact (cm_inj _ Hok _ _ _ Ed Hn).
  - by intros [= <-].
Qed.
(** Replies to other requests never block and leave the channel of a request as it is. *)
Lemma inform_others cm nonce c arrivals : chanmap_ok cm -> NonceMessageMap cm !! nonce = Some c ->
  Forall (fun m => Nonce m <> nonce) arrivals ->
  exists cm', inform_all cm arrivals = Some cm' /\ chanmap_ok cm' /\ NonceMessageMap cm' !! nonce = Some c /\
    channels cm' !! c = channels cm !! c.
Proof.
  intros Hok Hn. revert cm Hok Hn. induction arrivals as [|m l IH]; intros cm Hok Hn Hl; [by exists cm |].
  apply Forall_cons in Hl as [Hm Hl].
  destruct (InformListener_ok cm (Nonce m) m Hok) as (cm1 & E & Hok1).
  destruct (inform_other cm nonce c m cm1 Hok Hn Hm E) as [Hn1 Hc1].
  destruct (IH cm1 Hok1 Hn1 Hl) as (cm2 & E2 & Hok2 & Hn2 & Hc2).
  exists cm2. split_and!; [| done | done | congruence].
  change (m :: l) with ([m] ++ l). rewrite inform_all_app. unfold inform_all at 1. cbn. by rewrite E.
Qed.
Lemma ping_unanswered cm me nonce started : chanmap_ok cm -> NonceMessageMap cm !! nonce = None ->
  Forall (fun m => Nonce m <> nonce) started ->
  exists cm', sendPing cm me nonce started = Ok (Some (cm', newDHTPing nonce me, false)) /\ chanmap_ok cm' /\
    NonceMessageMap cm' !! nonce = None.
Proof.
  intros Hok Hn Hs. pose proof (AddListener_ok cm nonce Hok) as Hok1.
  unfold sendPing. destruct (AddListener cm nonce) as [[cm1 c] new] eqn:E.
  unfold AddListener in E. rewrite Hn in E. injection E as <- <- <-. cbn [negb fst] in *.
  destruct (inform_others _ nonce (next_chan cm) started Hok1) as (cm2 & -> & Hok2 & _ & Hc);
    [apply lookup_insert_eq | done |].
  cbn [mbind option_bind]. unfold chan_recv. rewrite Hc. cbn [channels]. rewrite lookup_insert_eq.
  eexists. split; [reflexivity |]. split; [by apply RemoveListener_ok | apply lookup_delete_eq].
Qed.

(** The ping of the listening routine is never answered.  The routine waits in [sendPing]
    for a reply that only a goroutine it would start itself can deliver: with the replies
    received before, none of which can have the new nonce, the ping times out.  So a message
    from a new node replaces the last node of a full bucket, even if that node is alive. *)
Theorem live_node_replaced cm me nonce started bt ns l oldest :
  chanmap_ok cm -> NonceMessageMap cm !! nonce = None -> Forall (fun m => Nonce m <> nonce) started ->
  Buckets bt !! CommonLeadingBits (MyNodeID bt) (NodeID ns) = Some (mkBucket (l ++ [oldest])) ->
  length (l ++ [oldest]) = bucketSize -> NodeID ns ∉ ids (l ++ [oldest]) ->
  updateNode (alive_in_listener cm me nonce started) bt ns =
    (mkTable (MyNodeID bt) (<[CommonLeadingBits (MyNodeID bt) (NodeID ns) := mkBucket (ns :: l)]> (Buckets bt)), true).
Proof.
  intros Hok Hn Hs Hb Hlen Hni. unfold updateNode. rewrite Hb.
  unfold bucket_updateNode. cbn [Nodes]. rewrite (proj2 (find_node_None _ _) Hni).
  rewrite Hlen, Nat.leb_refl. rewrite length_app in Hlen. cbn in Hlen.
  rewrite lookup_app_r by lia. replace (bucketSize - 1 - length l)%nat with 0%nat by lia. cbn [lookup list_lookup].
  unfold alive_in_listener. destruct (ping_unanswered cm me nonce started Hok Hn Hs) as (cm' & -> & _).
  rewrite take_app_length' by lia. reflexivity.
Qed.

(** *** Handlers *)
Section Properties.
Context {db : Type} `{HB : Bolt db} {C : Type} `{HC : Cache C} {H : Type} `{HS : Sketch H} `{HA : AEAD}.
Context `{HK : Protobuf KeywordToURLMap has_links}.
Context {rank_ok : RankInfo -> Prop} `{HPR : Protobuf RankInfo rank_ok}.
Context {links_ok : OutBoundLinksPackage -> Prop} `{HPL : Protobuf OutBoundLinksPackage links_ok}.
Context {citations_ok : Citations -> Prop} `{HPC : Protobuf Citations citations_ok}.
Context {batch_ok : BatchMessage -> Prop} `{HPB : Protobuf BatchMessage batch_ok}.
Context (update_length : RankUpdate -> Z) (partial_rank : bytes -> RankInfo).
Context (partial_batch : bytes -> BatchMessage).
Context (LookupNodes : TypeID -> list NodeState) (LookupValue : TypeID -> string -> option bytes).
Context (address : string) (range : gmap owner (list string) -> list (owner * list string)).
Context (order : frequency_order) (depth : nat).
Abbreviation dnode := (@dht_node db C H).
Abbreviation node_handle := (handle update_length partial_rank partial_batch LookupNodes LookupValue address
  range order depth).
Implicit Types (n : dnode).

Lemma try_session_good tries session nonce plain :
  length (s_Key session) = 32%nat -> length nonce = 12%nat ->
  try_session (S tries) session (Encrypt (s_Key session) nonce plain) = Ok (Some plain).
Proof using Type.
  intros Hk Hn. cbn [try_session]. rewrite aes_New_32 by exact Hk. cbn [mbind outcome_bind].
  unfold Decrypt, Encrypt, nonceSize. rewrite length_app, Hn, (proj2 (Nat.ltb_ge _ _)) by lia.
  rewrite take_app_length', drop_app_length' by done. rewrite aead_open_seal by done. reflexivity.
Qed.
Lemma decrypt_from_good n sender older session nonce plain now :
  n_ingoing n !! sender = Some (older ++ [session]) ->
  length (s_Key session) = 32%nat -> length nonce = 12%nat ->
  decrypt_from n sender (Encrypt (s_Key session) nonce plain) now =
    Ok (n_set_ingoing n (<[sender := older ++ [touch now session]]> (n_ingoing n)), Some (Some plain)).
Proof using Type.
  intros Hs Hk Hn. unfold decrypt_from. rewrite Hs, last_snoc, length_app, Nat.add_1_r.
  rewrite try_session_good by done. cbn [mbind outcome_bind]. by rewrite removelast_last.
Qed.

(** C29. An encrypted store is a store.  When sender and receiver share the newest session of
    the receiver, what [sendEncryptedStore] sends has on the receiver the effect of the plain
    store of the same data, whether that succeeds or not, and marks the session as used. *)
Theorem encrypted_store_is_plain n me meS addr older session ns key data storeType nonce aesNonce now :
  n_ingoing n !! me = Some (older ++ [session]) ->
  length (s_Key session) = 32%nat -> length aesNonce = 12%nat ->
  exists r, sendEncryptedStore ns key data storeType (Some (Some (s_Key session))) aesNonce = Ok (Some r) /\
    node_handle n meS addr (request_message nonce me r) now =
      (fun p => (n_set_ingoing p.1 (<[me := older ++ [touch now session]]> (n_ingoing n)), p.2)) <$>
        node_handle n meS addr (request_message nonce me (sendStore ns key data storeType)) now.
Proof using Type.
  intros Hs Hk Hn. unfold sendEncryptedStore.
  rewrite aes_New_32 by exact Hk. cbn [mbind outcome_bind].
  eexists. split; [reflexivity |]. unfold handle, request_message, newDHTStore, sendStore.
  cbn [DhtMessage.GetUnderlyingType m_Store deref mbind outcome_bind SenderID sr_key sr_data sr_type sr_encrypted].
  unfold store_message. cbn [st_Encrypted st_Data st_Key st_Type].
  rewrite (decrypt_from_good n me older session aesNonce data now) by done. cbn [mbind outcome_bind].
  unfold replyStore. cbn [st_Type st_Key st_Data n_set_ingoing n_ranker].
  case_match; [by destruct (store_keywords _ _ _) |]. case_match; [done |].
  case_match; [by destruct (store_links _ _ _ _ _ _ _ _ _) |].
  case_match; [by destruct (store_citations _ _) |].
  case_match; [by destruct (store_ranks _ _ _ _ _ _ _ _ _) | done].
Qed.

(** An encrypted lookup hides nothing.  The message holds the key in clear next to the
    encrypted one, and the receiver, after decrypting, answers as it answers the plain
    lookup: with the data in clear. *)
Theorem encrypted_lookup_in_clear n me meS addr older session key bucket nonce aesNonce now :
  n_ingoing n !! me = Some (older ++ [session]) -> length key = 64%nat ->
  length (s_Key session) = 32%nat -> length aesNonce = 12%nat ->
  exists msg, sendLookupKey true nonce me key bucket true (Some (Some (s_Key session))) aesNonce = Ok msg /\
    (vl_Key <$> m_ValueLookup msg) = Some key /\
    forall n1 reply, node_handle n meS addr (newDHTValueLookup nonce me key bucket false) now = Ok (n1, [SendMsg reply addr]) ->
    exists n2 reply2, node_handle n meS addr msg now = Ok (n2, [SendMsg reply2 addr]) /\
      (vr_Data <$> m_ValueReply reply2) = (vr_Data <$> m_ValueReply reply) /\
      (vr_NodeStates <$> m_ValueReply reply2) = (vr_NodeStates <$> m_ValueReply reply).
Proof using Type.
  intros Hs Hlen Hk Hn. unfold sendLookupKey.
  rewrite aes_New_32 by exact Hk. cbn [mbind outcome_bind].
  eexists. split; [reflexivity |]. split; [reflexivity |]. intros n1 reply.
  unfold handle, newDHTValueLookup, with_encrypted.
  cbn [DhtMessage.GetUnderlyingType m_Store m_Ping m_PingReply m_NodeLookup m_NodeReply m_ValueLookup
       deref mbind outcome_bind fmap option_fmap option_map SenderID Nonce vl_Key vl_DbKey vl_DbBucket].
  unfold replyLookupKey. cbn [vl_Encrypted vl_EncryptedKey vl_Key].
  rewrite (decrypt_from_good n me older session aesNonce key now) by done. cbn [mbind outcome_bind].
  assert (copy_key key = key) as ->.
  { unfold copy_key. rewrite take_app_length' by done. reflexivity. }
  unfold answer_key. cbn [vl_DbBucket vl_Encrypted vl_Key n_db n_set_ingoing n_ranker n_table].
  destruct (Retrieve order (n_db n) key bucket) as [r| |] eqn:Er; cbn [mbind outcome_bind]; [| done..].
  change (n_db (n_set_ingoing n _)) with (n_db n). rewrite Er. cbn [mbind outcome_bind].
  intros [= <- <-]. eexists _, _. split; [reflexivity |]. by destruct r.
Qed.

Lemma try_session_bad tries session data : aes_New (s_Key session) = Ok (s_Key session) ->
  Decrypt (s_Key session) data = Ok None -> try_session tries session data = Ok None.
Proof using Type.
  intros Ha Hd. induction tries as [|t IH]; cbn [try_session]; [done |]. rewrite Ha. cbn [mbind outcome_bind].
  rewrite Hd. exact IH.
Qed.

(** A lookup that cannot be decrypted with the newest session is not discarded, as the
    message printed says: the node answers for the key that is all zeros, and no older
    session is tried. *)
Theorem undecryptable_lookup_answered n me addr older session sender lookup nonce now :
  vl_Encrypted lookup = true -> n_ingoing n !! sender = Some (older ++ [session]) ->
  aes_New (s_Key session) = Ok (s_Key session) ->
  Decrypt (s_Key session) (vl_EncryptedKey lookup) = Ok None ->
  replyLookupKey order n me addr nonce sender lookup now =
    (fun e => (n, [e])) <$> answer_key order n me addr nonce zero_key lookup.
Proof using Type.
  intros He Hs Ha Hd. unfold replyLookupKey, decrypt_from. rewrite He, Hs, last_snoc.
  rewrite try_session_bad by done. cbn [mbind outcome_bind]. by destruct (answer_key _ _ _ _ _ _ _).
Qed.

(** A run of the listening routine on messages that are not stores. *)
Inductive handles_all : dnode -> list (string * Message * Z) -> dnode -> Prop :=
  | handles_nil n : handles_all n [] n
  | handles_cons n n1 n2 meS addr msg now rest effects :
      DhtMessage.GetUnderlyingType msg <> StoreT ->
      node_handle n meS addr msg now = Ok (n1, effects) -> handles_all n1 rest n2 ->
      handles_all n ((addr, msg, now) :: rest) n2.

Lemma decrypt_from_db n sender data now n' r : decrypt_from n sender data now = Ok (n', r) -> n_db n' = n_db n.
Proof using Type.
  unfold decrypt_from. destruct (n_ingoing n !! sender) as [l|]; [| by intros [= <- _]].
  destruct (last l) as [s|]; [| by intros [= <- _]].
  destruct (try_session _ _ _) as [[p|]| |]; cbn; by intros [= <- _].
Qed.
Lemma handle_db n meS addr msg now n' effects : DhtMessage.GetUnderlyingType msg <> StoreT ->
  node_handle n meS addr msg now = Ok (n', effects) -> n_db n' = n_db n.
Proof using Type.
  intros Hs. unfold handle. destruct (DhtMessage.GetUnderlyingType msg); try done.
  - by intros [= <- _].
  - intros [= <- _]. unfold inform. by destruct (InformListener _ _ _).
  - destruct (m_NodeLookup msg); cbn; by intros [= <- _].
  - intros [= <- _]. unfold inform. by destruct (InformListener _ _ _).
  - destruct (m_ValueLookup msg) as [l|]; [| done]. cbn [deref mbind outcome_bind]. unfold replyLookupKey.
    destruct (vl_Encrypted l).
    + destruct (decrypt_from n _ _ _) as [[n1 [r|]]| |] eqn:Ed; cbn [mbind outcome_bind]; try done.
      * destruct (answer_key _ _ _ _ _ _ _); cbn; [| done..]. intros [= <- _]. by eapply decrypt_from_db.
      * intros [= <- _]. by eapply decrypt_from_db.
    + destruct (answer_key _ _ _ _ _ _ _); cbn; [| done..]. by intros [= <- _].
  - intros [= <- _]. unfold inform. by destruct (InformListener _ _ _).
  - by intros [= <- _].
Qed.

(** C28. A stored page hash is found.  After a node handled the store of a page hash, and any
    messages that are not stores, a lookup of the key is answered with the data, and the
    answer reaches the goroutine of the requester that registered the nonce. *)
Theorem stored_hash_found n n1 n2 meS me addr ns key data nonce1 nonce2 now1 now2 between cm :
  node_handle n meS addr (request_message nonce1 me (sendStore ns key data PageHashBucket)) now1 = Ok (n1, []) ->
  handles_all n1 between n2 ->
  chanmap_ok cm -> NonceMessageMap cm !! nonce2 = None ->
  exists reply cm1 c cm2 cm3,
    node_handle n2 meS addr (newDHTValueLookup nonce2 me key PageHashBucket false) now2 = Ok (n2, [SendMsg reply addr]) /\
    AddListener cm nonce2 = (cm1, c, true) /\
    InformListener cm1 (Nonce reply) reply = Some cm2 /\ chan_recv cm2 c = Some (cm3, reply) /\
    (m_ValueReply reply ≫= vr_Data) = Some data.
Proof using Type.
  intros Hst Hbetween Hok Hn.
  assert (Hget : bolt_get (n_db n2) PageHashBucket key = Some data).
  { transitivity (bolt_get (n_db n1) PageHashBucket key).
    - clear Hst. induction Hbetween as [|? ? ? ? ? ? ? ? ? Hm Hh _ IH]; [done |].
      rewrite IH. by rewrite (handle_db _ _ _ _ _ _ _ Hm Hh).
    - cbn in Hst. injection Hst as <-. apply get_put_eq. }
  exists (newDHTValueReplyData meS data nonce2 false).
  unfold AddListener. rewrite Hn. eexists _, _, _, _. split_and!.
  - unfold handle. cbn -[Retrieve]. unfold answer_key. cbn [vl_DbBucket vl_Encrypted].
    rewrite Retrieve_other by (try done; unfold buckets; set_solver).
    unfold retrieve_raw. rewrite Hget. reflexivity.
  - reflexivity.
  - unfold InformListener. cbn [Nonce newDHTValueReplyData NonceMessageMap channels].
    rewrite !lookup_insert_eq. reflexivity.
  - unfold chan_recv. cbn [channels]. rewrite lookup_insert_eq. reflexivity.
  - reflexivity.
Qed.

(** C30. One message of any node ends the process: links without a package or that cannot be
    decoded, citations that cannot be decoded, an encrypted store shorter than a nonce from a
    node with a session, and a lookup in a bucket that does not exist. *)
Theorem malformed_message_stops (n : @dht_node db C H) meS addr nonce me key data bucket now :
  (forall ty, ty ∈ [LinksBucket; CitationsBucket; PageRankBucket] ->
     (pb_decode (A := BatchMessage) data) = None ->
     is_Panic (node_handle n meS addr (newDHTStore nonce me key data ty false) now) = true) /\
  (forall batch, pb_decode data = Some batch -> bm_OutBoundLinksPackages batch = [] ->
     is_Panic (node_handle n meS addr (newDHTStore nonce me key data LinksBucket false) now) = true) /\
  (forall older session, n_ingoing n !! me = Some (older ++ [session]) -> length (s_Key session) = 32%nat ->
     (length data < 12)%nat ->
     is_Panic (node_handle n meS addr (newDHTStore nonce me key data bucket true) now) = true) /\
  (bucket ∉ buckets ->
     is_Panic (node_handle n meS addr (newDHTValueLookup nonce me key bucket false) now) = true).
Proof using Type.
  split_and!.
  - intros ty Hty Hd. unfold handle, newDHTStore. cbn -[replyStore]. unfold replyStore. cbn [st_Type st_Data].
    unfold store_links, store_citations, store_ranks. rewrite Hd.
    repeat (apply elem_of_cons in Hty as [->|Hty]; [done |]). by apply not_elem_of_nil in Hty.
  - intros batch Hd He. unfold handle, newDHTStore. cbn -[replyStore]. unfold replyStore. cbn [st_Type st_Data].
    unfold store_links. by rewrite Hd, He.
  - intros older session Hs Hk Hl. unfold handle, newDHTStore.
    cbn [DhtMessage.GetUnderlyingType m_Store deref mbind outcome_bind SenderID]. unfold store_message.
    cbn [st_Encrypted st_Data]. unfold decrypt_from. rewrite Hs, last_snoc, length_app, Nat.add_1_r.
    cbn [try_session]. rewrite aes_New_32 by exact Hk. cbn [mbind outcome_bind]. unfold Decrypt, nonceSize.
    by rewrite (proj2 (Nat.ltb_lt _ _)).
  - intros Hb. unfold handle, newDHTValueLookup. cbn -[Retrieve]. unfold answer_key, Retrieve. cbn [vl_DbBucket].
    by rewrite bool_decide_eq_false_2.
Qed.

(** *** The index of citations *)
Definition citations_index_ok (K : gset string) (d : db) (idx : gmap string (list string)) : Prop :=
  forall url, url ∈ K -> match idx !! url with
    | None => bolt_get d CitationsBucket (GenerateKeyHash url) = None
    | Some l => l <> [] /\
        bolt_get d CitationsBucket (GenerateKeyHash url) = Some (pb_encode (mkCitations url l))
    end.
Definition add_new (c : string) (l : list string) : list string := if decide (c ∈ l) then l else l ++ [c].
Definition merge_citation (idx : gmap string (list string)) (item : string * string) :=
  <[item.1 := add_new item.2 (default [] (idx !! item.1))]> idx.
Definition citation (item : string * string) : Citations := mkCitations item.1 [item.2].

Lemma add_new_nodup c l : NoDup l -> NoDup (add_new c l).
Proof using Type.
  intros Hl. unfold add_new. case_decide; [done |]. apply NoDup_app. split; [done |].
  split; [by intros x Hx ->%list_elem_of_singleton | apply NoDup_singleton].
Qed.
Lemma add_new_In c l : c ∈ add_new c l.
Proof using Type. unfold add_new. case_decide; [done |]. apply elem_of_app. right. by apply list_elem_of_singleton. Qed.
Lemma add_new_mono c x l : x ∈ l -> x ∈ add_new c l.
Proof using Type. intros Hx. unfold add_new. case_decide; [done |]. apply elem_of_app. by left. Qed.

Lemma store_citation_ok K d idx item : hashes_distinct K -> (forall l, citations_ok (mkCitations item.1 l)) ->
  citations_index_ok K d idx -> item.1 ∈ K ->
  exists d', store_citation d (citation item) = Ok d' /\ citations_index_ok K d' (merge_citation idx item) /\
    forall b k, b <> CitationsBucket -> bolt_get d' b k = bolt_get d b k.
Proof using Type.
  intros Hdist Hok Hi Hk. destruct item as [url c]. unfold store_citation, citation, merge_citation. cbn [ci_Url ci_CitedBy fst snd] in *.
  assert (Hput : forall l, l <> [] -> add_new c (default [] (idx !! url)) = l ->
    citations_index_ok K (bolt_put d CitationsBucket (GenerateKeyHash url) (pb_encode (mkCitations url l)))
      (<[url := add_new c (default [] (idx !! url))]> idx)).
  { intros l Hne -> url' Hu. destruct (decide (url = url')) as [<-|Hd].
    - rewrite lookup_insert_eq, get_put_eq. done.
    - rewrite lookup_insert_ne, get_put_ne by (try right; auto). by apply Hi. }
  pose proof (Hi url Hk) as Hu. destruct (idx !! url) as [l|] eqn:El.
  - destruct Hu as [Hne Hg]. rewrite Hg, pb_roundtrip by apply Hok. cbn [ci_CitedBy ci_Url].
    change (default [] (Some l)) with l in *.
    destruct l as [|x l]; [done |]. unfold add_new in *. case_decide as Hin.
    + exists d. split_and!; [done | | done]. by rewrite insert_id.
    + eexists. split; [reflexivity |]. split; [by apply Hput |].
      intros b k Hb. rewrite get_put_ne; [done | left; congruence].
  - rewrite Hu. eexists. split; [reflexivity |]. split.
    + apply Hput; [done |]. unfold add_new. rewrite decide_False by apply not_elem_of_nil. done.
    + intros b k Hb. rewrite get_put_ne; [done | left; congruence].
Qed.

Lemma merge_citation_absorbed items : forall idx url l,
  foldl merge_citation idx items !! url = Some l -> idx !! url = None \/ exists l0, idx !! url = Some l0 /\ forall x, x ∈ l0 -> x ∈ l.
Proof using Type.
  induction items as [|it items IH]; intros idx url l Hl; cbn [foldl] in Hl; [right; eauto |].
  destruct (idx !! url) as [l0|] eqn:E0; [| by left]. right. exists l0. split; [done |].
  destruct (IH _ _ _ Hl) as [H1|(l1 & H1 & H2)]; unfold merge_citation in H1.
  - apply lookup_insert_None in H1 as [H1 _]. congruence.
  - intros x Hx. apply H2. destruct (decide (it.1 = url)) as [<-|Hne].
    + rewrite lookup_insert_eq in H1. injection H1 as <-. rewrite E0. by apply add_new_mono.
    + rewrite lookup_insert_ne in H1 by done. congruence.
Qed.
Lemma merge_citation_present items : forall idx it, it ∈ items ->
  exists l, foldl merge_citation idx items !! it.1 = Some l /\ it.2 ∈ l.
Proof using Type.
  intros idx it Hin. apply list_elem_of_split in Hin as (l1 & l2 & ->). rewrite foldl_app. cbn [foldl].
  set (idx1 := foldl merge_citation idx l1).
  assert (E : merge_citation idx1 it !! it.1 = Some (add_new it.2 (default [] (idx1 !! it.1)))).
  { unfold merge_citation. apply lookup_insert_eq. }
  destruct (foldl merge_citation (merge_citation idx1 it) l2 !! it.1) as [l|] eqn:El.
  - exists l. split; [done |]. destruct (merge_citation_absorbed _ _ _ _ El) as [H1|(l0 & H1 & H2)]; [congruence |].
    rewrite E in H1. injection H1 as <-. apply H2, add_new_In.
  - exfalso. revert El. clear -E. generalize dependent (merge_citation idx1 it). intros m Hm.
    assert (is_Some (m !! it.1)) as Hs by eauto. clear Hm. revert m Hs.
    induction l2 as [|x l2 IH]; intros m [l Hl] Hn; cbn [foldl] in Hn; [congruence |].
    eapply IH; [| exact Hn]. unfold merge_citation. destruct (decide (x.1 = it.1)) as [->|Hne].
    + rewrite lookup_insert_eq. eauto.
    + rewrite lookup_insert_ne by done. eauto.
Qed.
Lemma merge_citation_idem items idx :
  (forall it, it ∈ items -> exists l, idx !! it.1 = Some l /\ it.2 ∈ l) -> foldl merge_citation idx items = idx.
Proof using Type.
  induction items as [|it items IH]; intros Hall; cbn [foldl]; [done |].
  destruct (Hall it) as (l & Hl & Hin); [set_solver |].
  assert (merge_citation idx it = idx) as ->.
  { unfold merge_citation, add_new. rewrite Hl. cbn [default]. rewrite decide_True by done. by apply insert_id. }
  apply IH. intros x Hx. apply Hall. set_solver.
Qed.

(** C27. The index of citations.  Storing a batch in which each item names one citing page, as
    the crawler sends it, appends each new citing page once to those of the cited page and
    changes no other bucket; lists stay free of duplicates, every citation of the batch is
    stored afterwards, and storing the same batch again changes nothing. *)
Theorem citations_merged K d idx (items : list (string * string)) :
  hashes_distinct K -> (forall url l, citations_ok (mkCitations url l)) -> citations_index_ok K d idx ->
  Forall (fun it => it.1 ∈ K) items -> map_Forall (fun _ l => NoDup l) idx ->
  let idx' := foldl merge_citation idx items in
  exists d', store_citation_items d (citation <$> items) = Ok d' /\ citations_index_ok K d' idx' /\
    (forall b k, b <> CitationsBucket -> bolt_get d' b k = bolt_get d b k) /\
    map_Forall (fun _ l => NoDup l) idx' /\
    (forall it, it ∈ items -> exists l, idx' !! it.1 = Some l /\ it.2 ∈ l) /\
    foldl merge_citation idx' items = idx'.
Proof using Type.
  intros Hdist Hok Hi Hitems Hnd. cbv zeta.
  assert (Hp : forall it, it ∈ items -> exists l, foldl merge_citation idx items !! it.1 = Some l /\ it.2 ∈ l)
    by (intros it; apply merge_citation_present).
  pose proof (merge_citation_idem items _ Hp) as Hid.
  enough (exists d', store_citation_items d (citation <$> items) = Ok d' /\
    citations_index_ok K d' (foldl merge_citation idx items) /\
    (forall b k, b <> CitationsBucket -> bolt_get d' b k = bolt_get d b k) /\
    map_Forall (fun _ l => NoDup l) (foldl merge_citation idx items)) as (d' & ? & ? & ? & ?)
    by (exists d'; by split_and!).
  clear Hp Hid. revert d idx Hi Hnd. induction Hitems as [|it items Hit Hitems IH]; intros d idx Hi Hnd.
  - by exists d.
  - rewrite fmap_cons. cbn [store_citation_items foldl].
    destruct (store_citation_ok K d idx it Hdist (Hok it.1) Hi Hit) as (d1 & -> & Hi1 & Hb1).
    cbn [mbind outcome_bind]. destruct (IH d1 (merge_citation idx it) Hi1) as (d2 & -> & Hi2 & Hb2 & Hnd2).
    + apply map_Forall_insert_2; [| done]. apply add_new_nodup.
      destruct (idx !! it.1) as [l|] eqn:E; [exact (Hnd _ _ E) | apply NoDup_nil_2].
    + exists d2. split_and!; [done | done | | done]. intros b k Hb. rewrite Hb2, Hb1 by done. done.
Qed.
End Properties.

(** *** Joining *)
(** A node that joins looks up itself and, for every bucket of its routing table, an
    identifier that belongs into this bucket. *)
Theorem join_covers_buckets me rnd :
  wf_id me -> (forall i, wf_id (rnd i)) ->
  exists ids, dhtJoin me rnd = Ok (me :: ids) /\ length ids = (IDByteSize * 8)%nat /\
    forall i id, ids !! i = Some id -> wf_id id /\ CommonLeadingBits me id = i.
Proof.
  intros Hme Hrnd. unfold dhtJoin.
  assert (Hn : forall k, (k <= IDByteSize * 8)%nat -> exists ids,
    foldl (fun acc i => l ← acc; id ← RandNodeID (rnd i) me i; Ok (l ++ [id])) (Ok []) (seq 0 k) = Ok ids /\
    length ids = k /\ forall i id, ids !! i = Some id -> wf_id id /\ CommonLeadingBits me id = i).
  { induction k as [|k IH]; intros Hk; [by exists [] |].
    destruct IH as (ids & E & Hlen & Hids); [lia |].
    rewrite seq_S, foldl_app, E. cbn [foldl mbind outcome_bind Nat.add].
    destruct (RandNodeID_bits (rnd k) me k (Hrnd k) Hme) as (g & -> & Hg & Hc); [lia |].
    cbn [mbind outcome_bind]. eexists. split; [reflexivity |]. split; [rewrite length_app; cbn; lia |].
    intros i id [Hi|[Hge Hi]]%lookup_app_Some; [by apply Hids |].
    apply list_lookup_singleton_Some in Hi as [Hi <-]. split; [done |]. rewrite Hc. lia. }
  destruct (Hn (IDByteSize * 8)%nat) as (ids & -> & Hlen & Hids); [lia |].
  cbn [mbind outcome_bind]. by exists ids.
Qed.

(** ** Samples *)
#[local] Existing Instance tag_cipher.
Definition near (x : nat) : NodeState := mkNodeState (sample_id (Z.of_nat x)) "2.2.2.2:2".
Definition full_table : bucketTable :=
  mkTable zero_id (<[504%nat := mkBucket ((near <$> seq 128 19) ++ [near 147])]> (replicate 512 newBucket)).
Definition sample_node : dht_node (db := map_db) (C := gmap TypeID cache_value) (H := gset bytes) :=
  mkDhtNode (newBucketTable zero_id) NewChanMap sample_ranks {[ [1] := [mkSession (replicate 32 7) 0 100] ]}.
Definition no_partial_batch (b : bytes) : BatchMessage := mkBatchMessage [] [] [] [].
Definition sample_handle := handle (db := map_db) (C := gmap TypeID cache_value) (H := gset bytes)
  (fun _ => 100) no_partial no_partial_batch (fun _ => []) no_network "1.1.1.1:1" map_to_list sorted_links 3
  : dht_node -> _.

Lemma live_node_replaced_witness :
  updateNode (alive_in_listener NewChanMap zero_id 7 [newDHTPingReply zero_id 6]) full_table (near 200) =
    (mkTable zero_id (<[504%nat := mkBucket (near 200 :: (near <$> seq 128 19))]> (Buckets full_table)), true).
Proof.
  apply (live_node_replaced NewChanMap zero_id 7 [newDHTPingReply zero_id 6] full_table (near 200)
    (near <$> seq 128 19) (near 147)).
  - apply NewChanMap_ok.
  - reflexivity.
  - by repeat constructor.
  - reflexivity.
  - reflexivity.
  - apply (bool_decide_unpack _). vm_compute. exact I.
Defined.

Lemma encrypted_store_is_plain_witness : exists r,
  sendEncryptedStore (near 1) (replicate 64 5) [1] PageHashBucket (Some (Some (replicate 32 7))) (replicate 12 9) = Ok (Some r) /\
  (fun p => n_ingoing p.1 !! [1]) <$> sample_handle sample_node [2] "3.3.3.3:3" (request_message 8 [1] r) 50 =
    Ok (Some [mkSession (replicate 32 7) 50 100]).
Proof.
  destruct (encrypted_store_is_plain (fun _ => 100) no_partial no_partial_batch (fun _ => []) no_network "1.1.1.1:1"
    map_to_list sorted_links 3 sample_node [1] [2] "3.3.3.3:3" [] (mkSession (replicate 32 7) 0 100) (near 1)
    (replicate 64 5) [1] PageHashBucket 8 (replicate 12 9) 50) as (r & H1 & H2); [reflexivity.. |].
  exists r. split; [exact H1 |]. unfold sample_handle. rewrite H2. reflexivity.
Defined.

Lemma encrypted_lookup_in_clear_witness : exists msg,
  sendLookupKey true 8 [1] (replicate 64 5) PageHashBucket true (Some (Some (replicate 32 7))) (replicate 12 9) = Ok msg /\
  (vl_Key <$> m_ValueLookup msg) = Some (replicate 64 5).
Proof.
  destruct (encrypted_lookup_in_clear (fun _ => 100) no_partial no_partial_batch (fun _ => []) no_network "1.1.1.1:1"
    map_to_list sorted_links 3 sample_node [1] [2] "3.3.3.3:3" [] (mkSession (replicate 32 7) 0 100)
    (replicate 64 5) PageHashBucket 8 (replicate 12 9) 50) as (msg & H1 & H2 & _); [reflexivity.. |].
  exists msg. split; [exact H1 | exact H2].
Defined.

Definition strange_lookup : ValueLookup := mkValueLookup (replicate 64 5) "" PageHashBucket true (replicate 20 0).
Lemma undecryptable_lookup_answered_witness :
  replyLookupKey sorted_links sample_node [2] "3.3.3.3:3" 8 [1] strange_lookup 50 =
    (fun e => (sample_node, [e])) <$> answer_key sorted_links sample_node [2] "3.3.3.3:3" 8 zero_key strange_lookup.
Proof.
  apply (undecryptable_lookup_answered sorted_links sample_node [2] "3.3.3.3:3" [] (mkSession (replicate 32 7) 0 100) [1]);
    reflexivity.
Defined.

Lemma stored_hash_found_witness : exists n1 reply,
  sample_handle n1 [2] "3.3.3.3:3" (newDHTValueLookup 9 [1] (replicate 64 5) PageHashBucket false) 60 =
    Ok (n1, [SendMsg reply "3.3.3.3:3"]) /\ (m_ValueReply reply ≫= vr_Data) = Some [4].
Proof.
  destruct (sample_handle sample_node [2] "3.3.3.3:3" (request_message 8 [1]
    (sendStore (near 1) (replicate 64 5) [4] PageHashBucket)) 50) as [[n1 eff]| |] eqn:E; try discriminate E.
  assert (eff = []) as -> by (injection E as _ <-; reflexivity).
  destruct (stored_hash_found (fun _ => 100) no_partial no_partial_batch (fun _ => []) no_network "1.1.1.1:1"
    map_to_list sorted_links 3 sample_node n1 n1 [2] [1] "3.3.3.3:3" (near 1) (replicate 64 5) [4] 8 9 50 60 []
    NewChanMap) as (reply & cm1 & c & cm2 & cm3 & H1 & _ & _ & _ & H2).
  - exact E.
  - constructor.
  - apply NewChanMap_ok.
  - reflexivity.
  - exists n1, reply. split; [exact H1 | exact H2].
Defined.

Lemma malformed_message_stops_witness :
  is_Panic (sample_handle sample_node [2] "3.3.3.3:3" (newDHTStore 8 [1] [] [] LinksBucket false) 50) = true /\
  is_Panic (sample_handle sample_node [2] "3.3.3.3:3" (newDHTStore 8 [1] [] [] KeywordsBucket true) 50) = true /\
  is_Panic (sample_handle sample_node [2] "3.3.3.3:3" (newDHTValueLookup 8 [1] [] "nothing" false) 50) = true.
Proof.
  destruct (malformed_message_stops (fun _ => 100) no_partial no_partial_batch (fun _ => []) no_network "1.1.1.1:1"
    map_to_list sorted_links 3 sample_node [2] "3.3.3.3:3" 8 [1] [] [] KeywordsBucket 50) as (H1 & _ & H3 & _).
  destruct (malformed_message_stops (fun _ => 100) no_partial no_partial_batch (fun _ => []) no_network "1.1.1.1:1"
    map_to_list sorted_links 3 sample_node [2] "3.3.3.3:3" 8 [1] [] [] "nothing" 50) as (_ & _ & _ & H4).
  split_and!.
  - apply H1; [set_solver | reflexivity].
  - apply (H3 [] (mkSession (replicate 32 7) 0 100)); [reflexivity | reflexivity | cbn; lia].
  - apply H4. apply (bool_decide_unpack _). vm_compute. exact I.
Defined.

Lemma citations_merged_witness : exists d',
  store_citation_items empty_db (citation <$> [("/wiki/A", "/wiki/B"); ("/wiki/A", "/wiki/C"); ("/wiki/A", "/wiki/B")]%string) = Ok d' /\
  bolt_get d' CitationsBucket (GenerateKeyHash "/wiki/A") = Some (pb_encode (mkCitations "/wiki/A" ["/wiki/B"; "/wiki/C"]%string)).
Proof.
  destruct (citations_merged {["/wiki/A"%string]} empty_db ∅
    [("/wiki/A", "/wiki/B"); ("/wiki/A", "/wiki/C"); ("/wiki/A", "/wiki/B")]%string) as (d' & H1 & H2 & _).
  - by intros k k' ->%elem_of_singleton ->%elem_of_singleton.
  - done.
  - intros k _. reflexivity.
  - repeat constructor; set_solver.
  - apply map_Forall_empty.
  - exists d'. split; [exact H1 |]. specialize (H2 "/wiki/A"%string ltac:(set_solver)).
    assert (Hl : foldl merge_citation ∅ [("/wiki/A", "/wiki/B"); ("/wiki/A", "/wiki/C"); ("/wiki/A", "/wiki/B")]%string
      !! "/wiki/A"%string = Some ["/wiki/B"; "/wiki/C"]%string) by (vm_compute; reflexivity).
    rewrite Hl in H2. apply H2.
Defined.

Lemma join_covers_buckets_witness : exists ids,
  dhtJoin zero_id (fun _ => sample_id 7) = Ok (zero_id :: ids) /\ length ids = (IDByteSize * 8)%nat.
Proof.
  destruct (join_covers_buckets zero_id (fun _ => sample_id 7)) as (ids & H1 & H2 & _).
  - apply wf_id_zero.
  - intros _. apply sample_id_wf. unfold in_width. lia.
  - exists ids. split; [exact H1 | exact H2].
Defined.
