(* ===== verification/Crawler.v ===== *)
(** * The crawler (webcrawler/webcrawler.go, CrawlerPacket of crawlerpacket.go)

    The crawler takes urls from a channel, extracts words and links of the page, and sends what
    it found to the gossiper as packets.  Fetching and parsing HTML, stemming and removing stop
    words are third-party code: a page is the list of the texts of its paragraphs and of the
    href attributes of its anchors, after cleaning.  Maps of strings to true are sets. *)
From S2P Require Import Prelude DhtId CrawlerPacket Dto.

Record CrawlerPacket := mkCrawlerPacket {
  c_HyperlinkPackage : option HyperlinkPackage;
  c_OutBoundLinks : option OutBoundLinksPackage;
  c_CitationsPackage : option CitationsPackage;
  c_IndexPackage : option IndexPackage;
  c_PageHash : option PageHashPackage;
  c_PastMapPackage : option PastMapPackage;
  c_Done : option DoneCrawl
}.
Definition no_packet : CrawlerPacket := mkCrawlerPacket None None None None None None None.
Definition packet_Links p := mkCrawlerPacket (Some p) None None None None None None.
Definition packet_OutBoundLinks p := mkCrawlerPacket None (Some p) None None None None None.
Definition packet_Citations p := mkCrawlerPacket None None (Some p) None None None None.
Definition packet_Index p := mkCrawlerPacket None None None (Some p) None None None.
Definition packet_PageHash p := mkCrawlerPacket None None None None (Some p) None None.
Definition packet_Past p := mkCrawlerPacket None None None None None (Some p) None.
Definition packet_Done delete := mkCrawlerPacket None None None None None None (Some (mkDoneCrawl delete)).

Record Crawler := mkCrawler {
  crawlQueue : list string;
  domain : string;
  Leader : bool;
  past : gset string;
  IsCrawling : bool
}.
Definition New (leader : bool) : Crawler := mkCrawler [] "http://en.wikipedia.org" leader ∅ false.
Definition set_past (wc : Crawler) (p : gset string) : Crawler :=
  mkCrawler (crawlQueue wc) (domain wc) (Leader wc) p (IsCrawling wc).
Definition set_queue (wc : Crawler) (q : list string) : Crawler :=
  mkCrawler q (domain wc) (Leader wc) (past wc) (IsCrawling wc).
Definition set_crawling (wc : Crawler) : Crawler :=
  mkCrawler (crawlQueue wc) (domain wc) (Leader wc) (past wc) true.
Definition Start (wc : Crawler) (p : gset string) : Crawler := set_past wc p.

Definition Crawled (wc : Crawler) (url : string) : bool := bool_decide (url ∈ past wc).
Definition popQueue (wc : Crawler) : outcome (Crawler * string) :=
  match crawlQueue wc with
  | [] => Panic "index out of range [0]"
  | head :: rest => Ok (set_queue wc rest, head)
  end.
Definition updateQueue (wc : Crawler) (hyperlinks : list string) : Crawler :=
  foldl (fun wc hyperlink =>
    if Crawled wc hyperlink then wc else set_queue wc (crawlQueue wc ++ [hyperlink])) wc hyperlinks.

(** ** Words and links *)
Definition MinWordLen : nat := 3.

Fixpoint removeDuplicates_loop (keys : gset string) (strs : list string) : list string :=
  match strs with
  | [] => []
  | entry :: rest =>
      if decide (entry ∈ keys) then removeDuplicates_loop keys rest
      else entry :: removeDuplicates_loop ({[entry]} ∪ keys) rest
  end.
Definition removeDuplicates (strs : list string) : list string := removeDuplicates_loop ∅ strs.

Definition keywordFrequency (keywords : list string) : gmap string Z :=
  foldl (fun frequencies keyword =>
    match frequencies !! keyword with
    | None => <[keyword := 1]> frequencies
    | Some val => <[keyword := val + 1]> frequencies
    end) ∅ keywords.

Definition space : Ascii.ascii := Ascii.ascii_of_nat 32.
Definition slash : Ascii.ascii := Ascii.ascii_of_nat 47.
Definition underscore : Ascii.ascii := Ascii.ascii_of_nat 95.
Definition is_letter (a : Ascii.ascii) : bool :=
  let n := Ascii.nat_of_ascii a in ((65 <=? n) && (n <=? 90) || (97 <=? n) && (n <=? 122))%nat.
(** Each run of characters that are not letters becomes one space. *)
Fixpoint replace_runs (in_run : bool) (l : list Ascii.ascii) : list Ascii.ascii :=
  match l with
  | [] => []
  | a :: rest =>
      if is_letter a then a :: replace_runs false rest
      else if in_run then replace_runs true rest
      else space :: replace_runs true rest
  end.
Definition extractText (text : string) : string :=
  String.string_of_list_ascii (replace_runs false (String.list_ascii_of_string text)).

(** [strings.Split(s, " ")]. *)
Fixpoint split_spaces (word : list Ascii.ascii) (l : list Ascii.ascii) : list (list Ascii.ascii) :=
  match l with
  | [] => [word]
  | a :: rest =>
      if Ascii.eqb a space then word :: split_spaces [] rest else split_spaces (word ++ [a]) rest
  end.
Definition Split (s : string) : list string :=
  String.string_of_list_ascii <$> split_spaces [] (String.list_ascii_of_string s).

(** The regular expressions [^[a-zA-Z]+$] and [^[a-zA-Z/_]+$]. *)
Definition validWord (s : string) : bool :=
  match s with EmptyString => false | _ => forallb is_letter (String.list_ascii_of_string s) end.
Definition is_link_char (a : Ascii.ascii) : bool :=
  is_letter a || Ascii.eqb a slash || Ascii.eqb a underscore.
Definition validURL (s : string) : bool :=
  match s with EmptyString => false | _ => forallb is_link_char (String.list_ascii_of_string s) end.

(** A page after [cleanPage]; [pg_rawText] is the text that is hashed. *)
Record page := mkPage {
  pg_paragraphs : list string;
  pg_hrefs : list (option string);   (* [None]: an anchor without href *)
  pg_rawText : string
}.

Section Page.
(** [stopwords.CleanString] and [porterstemmer.StemString]. *)
Context (cleanString : string -> string) (StemString : string -> string).

Definition paragraph_words (text : string) : list string :=
  let processedString := cleanString (extractText text) in
  StemString <$> filter (fun word => (MinWordLen <= String.length word)%nat /\ validWord word = true) (Split processedString).
Definition extractWords (doc : page) : list string := pg_paragraphs doc ≫= paragraph_words.

Fixpoint extractHyperLinks (hrefs : list (option string)) (urls : list string) : outcome (list string) :=
  match hrefs with
  | [] => Ok urls
  | None :: rest => extractHyperLinks rest urls
  | Some href :: rest =>
      match href with
      | EmptyString => Panic "index out of range [0]"
      | String c _ =>
          if negb (Ascii.eqb c slash) || negb (validURL href) then extractHyperLinks rest urls
          else extractHyperLinks rest (urls ++ [href])
      end
  end.

(** [rawDoc]: the page that [getPage] fetched, [None] if that failed.  [parses]: whether
    [url.ParseRequestURI] accepts the url; otherwise [u] is nil. *)
Definition crawlUrl (rawDoc : option page) (parses : bool) : outcome (option PageInfo) :=
  match rawDoc with
  | None => Ok None
  | Some doc =>
      if negb parses then Panic "nil pointer dereference"
      else
        urls ← extractHyperLinks (pg_hrefs doc) [];
        Ok (Some (mkPageInfo (removeDuplicates urls) (keywordFrequency (extractWords doc))
                    (GenerateKeyHash (pg_rawText doc))))
  end.
End Page.

(** ** One page of the crawl loop *)
Definition filter_new (wc : Crawler) (links : list string) : Crawler * list string :=
  foldl (fun acc hyperlink =>
    let '(wc, filtered) := acc in
    if Crawled wc hyperlink then (wc, filtered)
    else (set_past wc ({[hyperlink]} ∪ past wc), filtered ++ [hyperlink])) (wc, []) links.

(** [found] is the answer to the lookup of the page hash; [gob] encodes the past map. *)
Definition crawl_page (gob : gset string -> option bytes) (wc : Crawler) (nextPage : string)
    (page : option PageInfo) (found : bool) : Crawler * list CrawlerPacket :=
  let wc := set_crawling wc in
  match page with
  | None => (wc, [packet_Done true])
  | Some page =>
      let lookup := packet_PageHash (mkPageHashPackage (pi_Hash page) "lookup") in
      if found then (wc, [lookup; packet_Done true])
      else
        let links := packet_OutBoundLinks (mkOutBoundLinksPackage nextPage (pi_Hyperlinks page)) in
        let citations := packet_Citations
          (mkCitationsPackage ((fun link => mkCitations link [nextPage]) <$> pi_Hyperlinks page)) in
        let '(wc, filteredHyperLinks) := filter_new wc (pi_Hyperlinks page) in
        match gob (past wc) with
        | None => (wc, [lookup; links; citations; packet_Done true])
        | Some b =>
            (wc, [lookup; links; citations; packet_Past (mkPastMapPackage b);
                  packet_Links (mkHyperlinkPackage filteredHyperLinks false []);
                  packet_PageHash (mkPageHashPackage (pi_Hash page) "store");
                  packet_Index (mkIndexPackage (pi_KeywordFrequencies page) nextPage);
                  packet_Done true])
        end
  end.

(** The packets of a whole crawl: each page with its url and the answer to its lookup. *)
Fixpoint crawl (gob : gset string -> option bytes) (wc : Crawler) (pages : list (string * option PageInfo * bool))
    : Crawler * list CrawlerPacket :=
  match pages with
  | [] => (wc, [])
  | (url, page, found) :: rest =>
      let '(wc, packets) := crawl_page gob wc url page found in
      let '(wc, more) := crawl gob wc rest in (wc, packets ++ more)
  end.

(** ** Properties *)
Lemma removeDuplicates_loop_spec strs : forall keys,
  NoDup (removeDuplicates_loop keys strs) /\
  removeDuplicates_loop keys strs `sublist_of` strs /\
  forall x, x ∈ removeDuplicates_loop keys strs <-> x ∈ strs /\ x ∉ keys.
Proof.
  induction strs as [|e strs IH]; intros keys; cbn [removeDuplicates_loop].
  - split_and!; [constructor | constructor | set_solver].
  - case_decide as He.
    + destruct (IH keys) as (H1 & H2 & H3). split_and!; [done | by constructor |].
      intros x. rewrite H3. set_solver.
    + destruct (IH ({[e]} ∪ keys)) as (H1 & H2 & H3). split_and!.
      * constructor; [| done]. rewrite H3. set_solver.
      * by constructor.
      * intros x. rewrite elem_of_cons, H3. destruct (decide (x = e)); set_solver.
Qed.

Definition count (l : list string) (k : string) : Z := Z.of_nat (length (filter (fun x => x = k) l)).
Lemma keywordFrequency_spec words k :
  keywordFrequency words !! k = if decide (k ∈ words) then Some (count words k) else None.
Proof.
  unfold keywordFrequency, count. induction words as [|w words IH] using rev_ind; [done |].
  rewrite foldl_app. cbn [foldl]. set (m := foldl _ _ words) in *.
  rewrite filter_app, length_app. destruct (decide (k = w)) as [->|Hne].
  - rewrite filter_cons_True by done. cbn [filter list_filter length].
    destruct (decide (w ∈ words ++ [w])) as [_|Hn]; [| exfalso; set_solver].
    rewrite IH. case_decide as Hw; rewrite lookup_insert_eq; f_equal; [lia |].
    assert (filter (fun x => x = w) words = []) as ->; [| done].
    clear -Hw. induction words as [|x l IH]; [done |]. rewrite filter_cons_False by set_solver. apply IH. set_solver.
  - rewrite filter_cons_False by done. cbn [filter list_filter length]. rewrite Nat.add_0_r.
    assert ((match m !! w with None => <[w:=1]> m | Some v => <[w:=v+1]> m end) !! k = m !! k) as ->.
    { destruct (m !! w); by rewrite lookup_insert_ne. }
    rewrite IH. do 2 case_decide; set_solver.
Qed.

(** *** Text *)
Lemma split_spaces_concat l : forall word, concat (split_spaces word l) = word ++ filter (fun a => a <> space) l.
Proof.
  induction l as [|a l IH]; intros word; cbn [split_spaces]; [done |].
  destruct (Ascii.eqb_spec a space) as [->|Hne].
  - rewrite filter_cons_False by tauto. cbn [concat]. by rewrite IH.
  - rewrite filter_cons_True by done. rewrite IH, <-app_assoc. done.
Qed.
Lemma split_spaces_pieces P l : forall word, Forall P word -> Forall (fun a => a = space \/ P a) l ->
  Forall (Forall P) (split_spaces word l).
Proof.
  induction l as [|a l IH]; intros word Hw Hl; cbn [split_spaces]; [by constructor |].
  apply Forall_cons in Hl as [Ha Hl]. destruct (Ascii.eqb_spec a space) as [->|Hne].
  - constructor; [done | by apply IH].
  - apply IH; [| done]. apply Forall_app. split; [done |]. constructor; [by destruct Ha | done].
Qed.
Lemma replace_runs_chars l : forall b, Forall (fun a => a = space \/ is_letter a = true) (replace_runs b l).
Proof.
  induction l as [|a l IH]; intros b; cbn [replace_runs]; [constructor |].
  destruct (is_letter a) eqn:Ha; [by constructor; [right | apply IH] |].
  destruct b; [apply IH | by constructor; [left | apply IH]].
Qed.
Lemma replace_runs_letters l : forall b,
  filter (fun a => a <> space) (replace_runs b l) = filter (fun a => is_letter a = true) l.
Proof.
  induction l as [|a l IH]; intros b; cbn [replace_runs]; [done |].
  rewrite (filter_cons (fun a => is_letter a = true)). destruct (is_letter a) eqn:Ha.
  - rewrite decide_True by done. rewrite filter_cons_True; [by rewrite IH |]. by intros ->.
  - rewrite decide_False by done. destruct b; [apply IH |].
    rewrite filter_cons_False by tauto. apply IH.
Qed.

(** The tokens of a text consist of letters only, and together they are all the letters
    of the text in their order: nothing but separators is dropped. *)
Theorem tokens_are_letters text :
  let tokens := String.list_ascii_of_string <$> Split (extractText text) in
  Forall (Forall (fun a => is_letter a = true)) tokens /\
  concat tokens = filter (fun a => is_letter a = true) (String.list_ascii_of_string text).
Proof.
  cbv zeta. unfold Split, extractText. rewrite String.list_ascii_of_string_of_list_ascii.
  set (l := String.list_ascii_of_string text).
  assert ((String.list_ascii_of_string <$> (String.string_of_list_ascii <$> split_spaces [] (replace_runs false l))) =
    split_spaces [] (replace_runs false l)) as ->.
  { rewrite <-list_fmap_compose. rewrite <-(list_fmap_id (split_spaces _ _)) at 2. apply list_fmap_ext.
    intros i x _. apply String.list_ascii_of_string_of_list_ascii. }
  split.
  - apply split_spaces_pieces; [constructor |]. apply replace_runs_chars.
  - rewrite split_spaces_concat. apply replace_runs_letters.
Qed.

(** *** Pages *)
Lemma extractHyperLinks_spec hrefs : forall urls,
  match extractHyperLinks hrefs urls with
  | Ok l => Some EmptyString ∉ hrefs /\ forall x, x ∈ l <-> x ∈ urls \/
      (Some x ∈ hrefs /\ validURL x = true /\ String.get 0 x = Some slash)
  | Panic _ => Some EmptyString ∈ hrefs
  | Fatal _ => False
  end.
Proof.
  induction hrefs as [|h hrefs IH]; intros urls; cbn [extractHyperLinks].
  - split; [apply not_elem_of_nil |]. intros x. split; [by left |]. intros [?|[Hin _]]; [done |].
    by apply not_elem_of_nil in Hin.
  - destruct h as [[|c s]|].
    + left.
    + destruct (negb (Ascii.eqb c slash) || negb (validURL (String c s))) eqn:Eb.
      * specialize (IH urls). destruct (extractHyperLinks hrefs urls) as [l| |]; [| done | by right].
        destruct IH as [H1 H2]. split; [by intros [?|?]%elem_of_cons |]. intros x. rewrite H2, elem_of_cons.
        split; [intuition |]. intros [?|([[= ->]|?] & Hv & Hg)]; [by left | | by right].
        cbn in Hg. injection Hg as ->. rewrite Ascii.eqb_refl, Hv in Eb. done.
      * specialize (IH (urls ++ [String c s])).
        destruct (extractHyperLinks hrefs (urls ++ [String c s])) as [l| |]; [| done | by right].
        destruct IH as [H1 H2]. apply orb_false_elim in Eb as [Ec Ev]. apply negb_false_iff in Ec, Ev.
        apply Ascii.eqb_eq in Ec as ->.
        split; [by intros [?|?]%elem_of_cons |]. intros x. rewrite H2, elem_of_app, list_elem_of_singleton, elem_of_cons.
        split; [intros [[?| ->]|(?&?&?)]; auto |]. intros [?|([[= ->]|?] & Hv & Hg)]; auto.
    + specialize (IH urls). destruct (extractHyperLinks hrefs urls) as [l| |]; [| done | by right].
      destruct IH as [H1 H2]. split; [by intros [?|?]%elem_of_cons |]. intros x. rewrite H2, elem_of_cons.
      split; [intuition |]. intros [?|([?|?] & ? & ?)]; [by left | done | by right].
Qed.

(** What a page yields.  A page that was fetched and whose url can be parsed ends the process
    exactly if one of its anchors has an empty href.  Otherwise its links are, once each, the
    hrefs that begin with a slash and consist of letters, slashes and underscores, and the
    frequency of a word is the number of its occurrences among the words of the page. *)
Theorem crawlUrl_page cleanString StemString doc :
  match crawlUrl cleanString StemString (Some doc) true with
  | Ok (Some info) =>
      Some EmptyString ∉ pg_hrefs doc /\ NoDup (pi_Hyperlinks info) /\
      (forall x, x ∈ pi_Hyperlinks info <->
         Some x ∈ pg_hrefs doc /\ validURL x = true /\ String.get 0 x = Some slash) /\
      (forall k, pi_KeywordFrequencies info !! k =
         if decide (k ∈ extractWords cleanString StemString doc)
         then Some (count (extractWords cleanString StemString doc) k) else None)
  | Panic _ => Some EmptyString ∈ pg_hrefs doc
  | _ => False
  end.
Proof.
  unfold crawlUrl. cbn [negb]. pose proof (extractHyperLinks_spec (pg_hrefs doc) []) as Hl.
  destruct (extractHyperLinks (pg_hrefs doc) []) as [l| |]; cbn [mbind outcome_bind]; [| done..].
  destruct Hl as [He Hl]. destruct (removeDuplicates_loop_spec l ∅) as (H1 & _ & H3).
  cbn [pi_Hyperlinks pi_KeywordFrequencies]. split_and!; [done | done | | apply keywordFrequency_spec].
  intros x. unfold removeDuplicates. rewrite H3, Hl. set_solver.
Qed.

(** *** The crawl *)
Definition handed_out (packets : list CrawlerPacket) : list string :=
  packets ≫= fun p => match c_HyperlinkPackage p with Some h => hp_Links h | None => [] end.
Lemma handed_out_app l1 l2 : handed_out (l1 ++ l2) = handed_out l1 ++ handed_out l2.
Proof. apply bind_app. Qed.

Lemma filter_new_spec links wc :
  let '(wc', filtered) := filter_new wc links in
  NoDup filtered /\ (forall x, x ∈ filtered -> x ∉ past wc) /\
  past wc' = past wc ∪ list_to_set links /\ past wc' = past wc ∪ list_to_set filtered.
Proof.
  unfold filter_new. induction links as [|x links IH] using rev_ind.
  - cbn. split_and!; [constructor | set_solver..].
  - rewrite foldl_app. destruct (foldl _ (wc, []) links) as [wc1 f]. destruct IH as (H1 & H2 & H3 & H4).
    cbn [foldl]. unfold Crawled. case_bool_decide as Hx.
    + split_and!; [done | done | | done]. rewrite list_to_set_app_L. set_solver.
    + cbn [past set_past]. split_and!.
      * apply NoDup_app. split; [done |]. split; [| apply NoDup_singleton]. set_solver.
      * intros y [Hy| ->%list_elem_of_singleton]%elem_of_app; [by apply H2 | set_solver].
      * rewrite list_to_set_app_L, H3. set_solver.
      * rewrite list_to_set_app_L, H4. set_solver.
Qed.
Lemma crawl_page_spec gob wc url pg found :
  let '(wc', packets) := crawl_page gob wc url pg found in
  NoDup (handed_out packets) /\ (forall x, x ∈ handed_out packets -> x ∉ past wc) /\
  past wc ∪ list_to_set (handed_out packets) ⊆ past wc' /\
  ((forall p, is_Some (gob p)) -> past wc' = past wc ∪ list_to_set (handed_out packets)) /\
  (forall info x, pg = Some info -> found = false -> x ∈ pi_Hyperlinks info -> x ∈ past wc') /\
  last packets = Some (packet_Done true).
Proof.
  unfold crawl_page. destruct pg as [info|]; [destruct found |].
  - cbn. split_and!; [constructor | set_solver | set_solver | set_solver | done | done].
  - pose proof (filter_new_spec (pi_Hyperlinks info) (set_crawling wc)) as Hf.
    destruct (filter_new _ _) as [wc' f]. destruct Hf as (H1 & H2 & H3 & H4). cbn [past set_crawling] in *.
    assert (Hall : forall info' x, Some info = Some info' -> false = false -> x ∈ pi_Hyperlinks info' -> x ∈ past wc').
    { intros info' x [= <-] _ Hx. rewrite H3. set_solver. }
    destruct (gob (past wc')) as [b|] eqn:Eg; unfold handed_out; cbn; rewrite ?app_nil_r.
    + split_and!; [done | done | set_solver | set_solver | done | done].
    + split_and!; [constructor | set_solver | set_solver | | done | done].
      intros Hg. specialize (Hg (past wc')). rewrite Eg in Hg. by destruct Hg.
  - cbn. split_and!; [constructor | set_solver | set_solver | set_solver | done | done].
Qed.

(** C22. A crawl never hands out a link twice: over any sequence of pages the links that the
    crawler passes on are all different and none of them was known before.  They are exactly
    the links that become known, and no link of a page that is new to the DHT is lost. *)
Theorem crawl_never_repeats gob pages : forall wc,
  let '(wc', packets) := crawl gob wc pages in
  NoDup (handed_out packets) /\ (forall x, x ∈ handed_out packets -> x ∉ past wc) /\
  past wc ∪ list_to_set (handed_out packets) ⊆ past wc' /\
  ((forall p, is_Some (gob p)) -> past wc' = past wc ∪ list_to_set (handed_out packets) /\
     forall url info x, (url, Some info, false) ∈ pages -> x ∈ pi_Hyperlinks info ->
       x ∈ past wc \/ x ∈ handed_out packets).
Proof.
  induction pages as [|[[url pg] found] pages IH]; intros wc; cbn [crawl].
  - cbn. split_and!; [constructor | set_solver | set_solver |]. intros _. split; [set_solver |].
    intros ??? Hin. by apply not_elem_of_nil in Hin.
  - pose proof (crawl_page_spec gob wc url pg found) as Hp.
    destruct (crawl_page gob wc url pg found) as [wc1 p1]. destruct Hp as (A1 & A2 & A3 & A4 & A5 & _).
    specialize (IH wc1). destruct (crawl gob wc1 pages) as [wc2 p2]. destruct IH as (B1 & B2 & B3 & B4).
    rewrite handed_out_app, list_to_set_app_L. split_and!.
    + apply NoDup_app. split_and!; [done | | done]. intros x Hx1 Hx2. apply (B2 x Hx2). set_solver.
    + intros x [Hx|Hx]%elem_of_app; [by apply A2 |]. specialize (B2 x Hx). set_solver.
    + set_solver.
    + intros Hg. specialize (A4 Hg). destruct (B4 Hg) as [B5 B6]. split; [by rewrite B5, A4, (assoc_L (∪)) |].
      intros u info x [[= _ E2 E3]|Hin]%elem_of_cons Hx.
      * specialize (A5 info x (eq_sym E2) (eq_sym E3) Hx). rewrite A4 in A5.
        apply elem_of_union in A5 as [?|?%elem_of_list_to_set]; [by left | right; apply elem_of_app; by left].
      * destruct (B6 _ _ _ Hin Hx) as [Hw|Hw]; [| right; apply elem_of_app; by right].
        rewrite A4 in Hw. apply elem_of_union in Hw as [?|?%elem_of_list_to_set];
          [by left | right; apply elem_of_app; by left].
Qed.

(** ** Samples *)
Definition sample_gob (p : gset string) : option bytes := Some [].
Definition sample_page : PageInfo := mkPageInfo ["/wiki/A"; "/wiki/B"]%string ∅ [].
Lemma sample_gob_total p : is_Some (sample_gob p).
Proof. by eexists. Qed.
Lemma crawl_never_repeats_witness :
  handed_out (crawl sample_gob (New true) [("/wiki/C", Some sample_page, false); ("/wiki/D", Some sample_page, false)]%string).2
    = ["/wiki/A"; "/wiki/B"]%string /\
  NoDup (handed_out (crawl sample_gob (New true) [("/wiki/C", Some sample_page, false); ("/wiki/D", Some sample_page, false)]%string).2).
Proof.
  split; [vm_compute; reflexivity |].
  pose proof (crawl_never_repeats sample_gob
    [("/wiki/C", Some sample_page, false); ("/wiki/D", Some sample_page, false)]%string (New true)) as H.
  destruct (crawl _ _ _) as [wc' packets]. apply H.
Defined.
Example page_words : extractWords id id (mkPage ["Go is a language; the Go language!"%string] [] "") =
  ["language"; "the"; "language"]%string.
Proof. vm_compute. reflexivity. Qed.
