(* ===== verification/CrawlNode.v ===== *)
(** * Between the crawler and the DHT (gossiper/webcrawler.go, links received in gossiper.go)

    The gossiper feeds the crawler with urls from the queue in its database, spreads the links
    the crawler finds over the nodes of the DHT, and stores words, links, citations and page
    hashes at the nodes responsible for them.  What [getKey] and lookups return are arguments;
    a goroutine is one step. *)
From S2P Require Import Prelude Sha2 DhtId KBuckets DhtMessage CrawlerPacket Dto Storage Crypto Sessions.
From S2P Require Import Float64 Batches PageRank DhtNode Crawler.

Definition rootURL : string := "/wiki/Outline_of_academic_disciplines".

Inductive crawl_effect :=
  | SendLinks (links : list string) (dest : string)
  | SendEncryptedLinks (packet : bytes) (dest : string)
  | ToOutChan (p : CrawlerPacket)
  | ToOutChanLater (p : CrawlerPacket)       (* after two seconds *)
  | ToNextCrawl (url : bytes)
  | StartCrawler (past : gset string)
  | AnswerFound (found : bool)
  | DistributeLater (p : HyperlinkPackage).  (* after five seconds *)

Section CrawlNode.
Context {db : Type} `{HB : Bolt db} {C : Type} `{HC : Cache C} {H : Type} `{HS : Sketch H} `{HA : AEAD}.
Context `{HK : Protobuf KeywordToURLMap has_links}.
Context {rank_ok : RankInfo -> Prop} `{HPR : Protobuf RankInfo rank_ok}.
Context {links_ok : OutBoundLinksPackage -> Prop} `{HPL : Protobuf OutBoundLinksPackage links_ok}.
Context {citations_ok : Citations -> Prop} `{HPC : Protobuf Citations citations_ok}.
Context {batch_ok : BatchMessage -> Prop} `{HPB : Protobuf BatchMessage batch_ok}.
Context {hyper_ok : HyperlinkPackage -> Prop} `{HPH : Protobuf HyperlinkPackage hyper_ok}.
Context (update_length : RankUpdate -> Z) (partial_rank : bytes -> RankInfo).
Context (partial_batch : bytes -> BatchMessage).
Context (LookupNodes : TypeID -> list NodeState) (LookupValue : TypeID -> string -> option bytes).
Context (address : string) (me : TypeID) (range : gmap owner (list string) -> list (owner * list string)).
Context (depth : nat).
(** The lengths of the encodings of items. *)
Context (keyword_length : KeywordToURLMap -> Z) (links_length : OutBoundLinksPackage -> Z)
  (citations_length : Citations -> Z).
(** [g.encryptDHTOperations]; the answers of [getKey] and the AES nonces by number of batch. *)
Context (encrypted : bool) (keys : nat -> option (option bytes)) (nonces : nat -> bytes).

Abbreviation rnode := (@ranker db C H).
Abbreviation local_store := (replyStore update_length partial_rank partial_batch LookupNodes LookupValue address
  range depth).

(** ** The queue *)
Definition initiateFreshCrawl (leader : bool) (g : rnode) : rnode * list crawl_effect :=
  if leader
  then (rk_set_db g (UpdateCrawlQueue (rk_db g) (bytes_of_string rootURL)),
        [StartCrawler ∅; ToOutChan (packet_Done false)])
  else (g, [StartCrawler ∅]).
Definition initiateAndRestoreCrawl (decode : bytes -> option (gset string)) (g : rnode)
    : outcome (rnode * list crawl_effect) :=
  past ← GetPast decode (rk_db g);
  Ok (g, [StartCrawler past; ToOutChan (packet_Done false)]).
Definition startCrawler (decode : bytes -> option (gset string)) (leader : bool) (g : rnode)
    : outcome (rnode * list crawl_effect) :=
  queue ← CrawlQueueHeadPointer (rk_db g);
  if queue =? 0 then Ok (initiateFreshCrawl leader g) else initiateAndRestoreCrawl decode g.

Definition done_crawl (g : rnode) (done : DoneCrawl) : outcome (rnode * list crawl_effect) :=
  d ← (if dc_Delete done then DeleteCrawlQueueHead (rk_db g) else Ok (rk_db g));
  '(d, head) ← CrawlQueueHead d;
  Ok (rk_set_db g d,
      match head with
      | None => [ToOutChanLater (packet_Done (dc_Delete done))]
      | Some url => [ToNextCrawl url]
      end).
Definition queue_links (g : rnode) (links : list string) : rnode :=
  foldl (fun g link => rk_set_db g (UpdateCrawlQueue (rk_db g) (bytes_of_string link))) g links.
(** Links of another node (gossiper.go). *)
Definition receiveLinks (g : rnode) (isCrawling : bool) (links : list string) : rnode * list crawl_effect :=
  (queue_links g links, if isCrawling then [] else [ToOutChan (packet_Done false)]).

(** [None]: nothing is ever sent to the goroutine that waits for the links. *)
Definition decryptHyperlinkPackage (n : dht_node (db := db) (C := C) (H := H)) (p : EncryptedCrawlerPacket) (now : Z)
    : outcome (dht_node * option HyperlinkPackage) :=
  '(n, r) ← decrypt_from n (ecp_Origin p) (ecp_Packet p) now;
  match r with
  | Some (Some data) =>
      match pb_decode data with
      | None => Fatal "error decrypting crawler packet"
      | Some hyperlinkPackage => Ok (n, Some hyperlinkPackage)
      end
  | _ => Ok (n, None)
  end.

(** ** Links *)
(** One key per batch; without a key the batches that remain are dropped. *)
Fixpoint sendURLS (i : nat) (dest : string) (batches : list (list string)) : outcome (list crawl_effect) :=
  match batches with
  | [] => Ok []
  | tmp :: rest =>
      if encrypted then
        match keys i with
        | Some (Some []) => Fatal "Fetching of key failed."
        | Some (Some key) =>
            aes ← aes_New key;
            let cipherText := Encrypt aes (nonces i) (pb_encode (mkHyperlinkPackage tmp false [])) in
            more ← sendURLS (S i) dest rest;
            Ok (SendEncryptedLinks cipherText dest :: more)
        | _ => Ok []
        end
      else more ← sendURLS (S i) dest rest; Ok (SendLinks tmp dest :: more)
  end.
Definition string_length (s : string) : Z := Z.of_nat (String.length s).
Definition batchSendURLS (owner : NodeState) (hyperlinks : list string) : outcome (list crawl_effect) :=
  sendURLS 0 (Address owner) (createUDPBatches string_length hyperlinks).

Fixpoint distribute_all (g : rnode) (dests : list (owner * list string)) : outcome (rnode * list crawl_effect) :=
  match dests with
  | [] => Ok (g, [])
  | (o, hyperlinks) :: rest =>
      if String.eqb o.2 address then distribute_all (queue_links g hyperlinks) rest
      else
        sent ← batchSendURLS (node_of o) hyperlinks;
        '(g, more) ← distribute_all g rest;
        Ok (g, sent ++ more)
  end.
Definition distributeHyperlinks (g : rnode) (packet : HyperlinkPackage) : outcome (rnode * list crawl_effect) :=
  let '(domains, broken) := destinations LookupNodes id (hp_Links packet) ∅ in
  '(g, sent) ← distribute_all g (range domains);
  Ok (g, (if broken : bool then [DistributeLater packet] else []) ++ sent).

(** ** Stores *)
Definition send_batch (i : nat) (dest : NodeState) (key : TypeID) (packetBytes : bytes) (bucket : string)
    : outcome (list store_request) :=
  if encrypted then option_list <$> sendEncryptedStore dest key packetBytes bucket (keys i) (nonces i)
  else Ok [sendStore dest key packetBytes bucket].
Fixpoint send_batches (i : nat) (dest : NodeState) (key : TypeID) (packets : list bytes) (bucket : string)
    : outcome (list store_request) :=
  match packets with
  | [] => Ok []
  | p :: rest =>
      sent ← send_batch i dest key p bucket;
      more ← send_batches (S i) dest key rest bucket;
      Ok (sent ++ more)
  end.
Definition keywords_batch (l : list KeywordToURLMap) : bytes := pb_encode (mkBatchMessage l [] [] []).
Definition links_batch (l : list OutBoundLinksPackage) : bytes := pb_encode (mkBatchMessage [] l [] []).
Definition citations_batch (l : list Citations) : bytes := pb_encode (mkBatchMessage [] [] l []).
Definition batchSendKeywords (owner : NodeState) (items : list KeywordToURLMap) : outcome (list store_request) :=
  send_batches 0 owner zero_key (keywords_batch <$> createUDPBatches keyword_length items) KeywordsBucket.
Definition batchSendCitations (owner : NodeState) (items : list Citations) : outcome (list store_request) :=
  send_batches 0 owner zero_key (citations_batch <$> createUDPBatches citations_length items) CitationsBucket.

Fixpoint store_local (g : rnode) (packets : list bytes) (bucket : string) : outcome rnode :=
  match packets with
  | [] => Ok g
  | p :: rest => g ← local_store g (mkStore me bucket p false); store_local g rest bucket
  end.
Definition saveOutboundLinksInDHT (g : rnode) (outboundLinks : OutBoundLinksPackage) : outcome rnode :=
  let id := GenerateKeyHash (ob_Url outboundLinks) in
  match LookupNodes id with
  | [] => Ok g
  | closest :: _ =>
      let s := (fun v => mkOutBoundLinksPackage (ob_Url outboundLinks) [v]) <$> ob_OutBoundLinks outboundLinks in
      let packets := links_batch <$> createUDPBatches links_length s in
      if decide (NodeID closest = me) then store_local g packets LinksBucket
      else sent ← send_batches 0 closest id packets LinksBucket; Ok (rk_send g sent)
  end.

(** The destinations of items of type [A], in the order [order] of the map. *)
Section Save.
Context {A : Type} (order : gmap owner (list A) -> list (owner * list A)).
Context (encode_batch : list A -> bytes) (bucket : string)
  (send : NodeState -> list A -> outcome (list store_request)).
Fixpoint save_all (g : rnode) (dests : list (owner * list A)) : outcome rnode :=
  match dests with
  | [] => Ok g
  | (o, batch) :: rest =>
      g ← (if String.eqb o.2 address then local_store g (mkStore o.1 bucket (encode_batch batch) false)
           else sent ← send (node_of o) batch; Ok (rk_send g sent));
      save_all g rest
  end.
End Save.
Definition saveCitationsInDHT order (g : rnode) (citationsPackage : CitationsPackage) : outcome rnode :=
  save_all citations_batch CitationsBucket batchSendCitations g
    (order (destinations LookupNodes ci_Url (cp_CitationsList citationsPackage) ∅).1).
(** [words]: the map of frequencies in the order it is visited. *)
Definition saveKeywordsInDHT order (words : gmap string Z -> list (string * Z)) (g : rnode)
    (indexPackage : IndexPackage) : outcome rnode :=
  let items := (fun kv => mkKeywordToURLMap kv.1 {[ip_Url indexPackage := kv.2]})
                 <$> words (ip_KeywordFrequencies indexPackage) in
  save_all keywords_batch KeywordsBucket batchSendKeywords g
    (order (destinations LookupNodes km_Keyword items ∅).1).
Definition savePageHashInDHT (g : rnode) (pageHash : PageHashPackage) : rnode :=
  match LookupNodes (ph_Hash pageHash) with
  | [] => g
  | closest :: _ => rk_send g [sendStore closest (ph_Hash pageHash) [] PageHashBucket]
  end.

(** ** The routine that listens to the crawler *)
Definition webCrawlerListener korder corder words (g : rnode) (packet : CrawlerPacket)
    : outcome (rnode * list crawl_effect) :=
  match c_OutBoundLinks packet, c_CitationsPackage packet, c_HyperlinkPackage packet, c_IndexPackage packet with
  | Some outboundLinks, _, _, _ => g ← saveOutboundLinksInDHT g outboundLinks; Ok (g, [])
  | _, Some citation, _, _ => g ← saveCitationsInDHT corder g citation; Ok (g, [])
  | _, _, Some hyperlinks, _ => distributeHyperlinks g hyperlinks
  | _, _, _, Some indexPackage => g ← saveKeywordsInDHT korder words g indexPackage; Ok (g, [])
  | None, None, None, None =>
      let other :=
        match c_PastMapPackage packet, c_Done packet with
        | Some past, _ => Ok (rk_set_db g (SavePast (rk_db g) (pp_Content past)), [])
        | None, Some done => done_crawl g done
        | None, None => Ok (g, [])
        end in
      match c_PageHash packet with
      | Some pageHash =>
          if String.eqb (ph_Type pageHash) "store" then Ok (savePageHashInDHT g pageHash, [])
          else if String.eqb (ph_Type pageHash) "lookup" then
            Ok (g, [AnswerFound (if LookupValue (ph_Hash pageHash) PageHashBucket is Some _ then true else false)])
          else other
      | None => other
      end
  end.
End CrawlNode.

(** ** Properties *)
Section Properties.
Context {db : Type} `{HB : Bolt db} {C : Type} `{HC : Cache C} {H : Type} `{HS : Sketch H} `{HA : AEAD}.
Context `{HK : Protobuf KeywordToURLMap has_links}.
Context {rank_ok : RankInfo -> Prop} `{HPR : Protobuf RankInfo rank_ok}.
Context {links_ok : OutBoundLinksPackage -> Prop} `{HPL : Protobuf OutBoundLinksPackage links_ok}.
Context {citations_ok : Citations -> Prop} `{HPC : Protobuf Citations citations_ok}.
Context {batch_ok : BatchMessage -> Prop} `{HPB : Protobuf BatchMessage batch_ok}.
Context {hyper_ok : HyperlinkPackage -> Prop} `{HPH : Protobuf HyperlinkPackage hyper_ok}.
Context (update_length : RankUpdate -> Z) (partial_rank : bytes -> RankInfo).
Context (partial_batch : bytes -> BatchMessage).
Context (LookupNodes : TypeID -> list NodeState) (LookupValue : TypeID -> string -> option bytes).
Context (address : string) (me : TypeID) (range : gmap owner (list string) -> list (owner * list string)).
Context (depth : nat).
Context (keyword_length : KeywordToURLMap -> Z) (links_length : OutBoundLinksPackage -> Z).
Context (encrypted : bool) (keys : nat -> option (option bytes)) (nonces : nat -> bytes).
Abbreviation rnode := (@ranker db C H).
Implicit Types (g : rnode).




(** *** Outbound links of a page *)
Lemma announce_keeps links : forall g info g',
  announce_links update_length partial_rank LookupNodes LookupValue address range depth g info links = Ok g' ->
  same_others g g'.
Proof using Type.
  induction links as [|l rest IH]; intros g info g'; cbn [announce_links]; [by intros [= <-] |].
  intros ([g1 info1] & E & Hrest)%outcome_bind_Ok. apply receive_keeps in E.
  eapply same_others_trans; [exact E | by eapply IH].
Qed.
Abbreviation local_links := (store_local update_length partial_rank partial_batch LookupNodes LookupValue address me
  range depth).
Lemma store_local_app g l1 l2 bucket : local_links g (l1 ++ l2) bucket = (g1 ← local_links g l1 bucket; local_links g1 l2 bucket).
Proof using Type.
  revert g. induction l1 as [|p l1 IH]; intros g; cbn [store_local app]; [done |].
  destruct (replyStore _ _ _ _ _ _ _ _ _ _); cbn [mbind outcome_bind]; [apply IH | done | done].
Qed.

(** Each batch of the outbound links of a page replaces the links that the batch before it
    stored: when a page has more links than fit into one packet, and its links are stored
    without error, only those of the last batch remain in the database. *)
Theorem outbound_links_overwritten g g' url links bs lastb closest rest :
  (forall b, batch_ok b) -> LookupNodes (GenerateKeyHash url) = closest :: rest -> NodeID closest = me ->
  createUDPBatches links_length ((fun v => mkOutBoundLinksPackage url [v]) <$> links) = bs ++ [lastb] ->
  saveOutboundLinksInDHT update_length partial_rank partial_batch LookupNodes LookupValue address me range depth
    links_length false keys nonces g (mkOutBoundLinksPackage url links) = Ok g' ->
  bolt_get (rk_db g') LinksBucket (GenerateKeyHash url) =
    Some (pb_encode (mkOutBoundLinksPackage url (lastb ≫= ob_OutBoundLinks))).
Proof using Type.
  intros Hok Hl Hme Hb. unfold saveOutboundLinksInDHT. cbn [ob_Url ob_OutBoundLinks].
  rewrite Hl, Hb, decide_True by done. rewrite fmap_app, store_local_app.
  intros (g1 & _ & Hlast)%outcome_bind_Ok. cbn [fmap list_fmap store_local] in Hlast.
  apply outcome_bind_Ok in Hlast as (g2 & Hst & [= <-]).
  unfold replyStore in Hst. cbn [st_Type st_Data] in Hst.
  change (String.eqb LinksBucket KeywordsBucket) with false in Hst.
  change (String.eqb LinksBucket PageHashBucket) with false in Hst.
  change (String.eqb LinksBucket LinksBucket) with true in Hst. cbv iota in Hst.
  unfold store_links, links_batch in Hst. rewrite pb_roundtrip in Hst by apply Hok.
  cbn [bm_OutBoundLinksPackages] in Hst.
  assert (Hu : Forall (fun p => ob_Url p = url) lastb).
  { destruct (batches_sublist links_length ((fun v => mkOutBoundLinksPackage url [v]) <$> links)) as [Hsub _].
    rewrite Hb, concat_app in Hsub. cbn [concat] in Hsub. rewrite app_nil_r in Hsub.
    apply Forall_forall. intros p Hp.
    assert (p ∈ (fun v => mkOutBoundLinksPackage url [v]) <$> links) as (v & -> & _)%list_elem_of_fmap; [| done].
    eapply elem_of_sublist; [| exact Hsub]. apply elem_of_app. by right. }
  destruct lastb as [|p lastb]; [done |]. apply Forall_cons in Hu as [<- _].
  apply announce_keeps in Hst. rewrite Hst by discriminate. cbn [rk_db rk_set_db]. by rewrite get_put_eq.
Qed.

(** *** Encrypted links *)
(** C25. Links that are sent encrypted arrive.  For links that fit into one packet, with the
    session key of the receiver, the one packet that [batchSendURLS] sends is decrypted to
    exactly these links, and the receiver appends them to its queue. *)
Theorem encrypted_links_delivered (n : @dht_node db C H) owner links older session sender now isCrawling :
  hyper_ok (mkHyperlinkPackage links false []) -> links <> [] -> total string_length links < udpMaxSize ->
  n_ingoing n !! sender = Some (older ++ [session]) -> length (s_Key session) = 32%nat ->
  keys 0%nat = Some (Some (s_Key session)) -> length (nonces 0%nat) = 12%nat ->
  exists cipher n', batchSendURLS true keys nonces owner links = Ok [SendEncryptedLinks cipher (Address owner)] /\
    decryptHyperlinkPackage n (mkEncryptedCrawlerPacket cipher sender) now = Ok (n', Some (mkHyperlinkPackage links false [])) /\
    n_ranker n' = n_ranker n /\
    (receiveLinks (n_ranker n') isCrawling links).1 = queue_links (n_ranker n) links.
Proof using Type.
  intros Hok Hne Hsz Hs Hk Hkey Hn. unfold batchSendURLS.
  assert (Hb : createUDPBatches string_length links = [links]).
  { apply batches_single; [done | | done]. apply Forall_forall. intros x _. unfold string_length. lia. }
  rewrite Hb. cbn [sendURLS]. rewrite Hkey. destruct (s_Key session) as [|k0 ks] eqn:Ek; [done |].
  rewrite <-Ek in *. rewrite aes_New_32 by exact Hk. cbn [mbind outcome_bind].
  eexists _, _. split; [reflexivity |]. unfold decryptHyperlinkPackage. cbn [ecp_Origin ecp_Packet].
  rewrite (decrypt_from_good n sender older session) by done. cbn [mbind outcome_bind].
  rewrite pb_roundtrip by exact Hok. by split_and!.
Qed.

(** *** The index *)
Lemma merge_others items : forall idx k, k ∉ km_Keyword <$> items -> foldl merge_links idx items !! k = idx !! k.
Proof using Type.
  induction items as [|km items IH]; intros idx k; cbn [foldl fmap list_fmap]; [done |].
  intros [Hne Hk]%not_elem_of_cons. rewrite IH by done. unfold merge_links. by rewrite lookup_insert_ne.
Qed.
Lemma merge_distinct items : forall idx km, NoDup (km_Keyword <$> items) -> km ∈ items ->
  foldl merge_links idx items !! km_Keyword km = Some (km_LinkData km ∪ default ∅ (idx !! km_Keyword km)).
Proof using Type.
  induction items as [|x items IH]; intros idx km Hnd Hin; [by apply not_elem_of_nil in Hin |].
  rewrite fmap_cons in Hnd. apply NoDup_cons in Hnd as [Hx Hnd]. cbn [foldl].
  apply elem_of_cons in Hin as [->|Hin].
  - rewrite merge_others by done. unfold merge_links. by rewrite lookup_insert_eq.
  - rewrite IH by done. unfold merge_links. rewrite lookup_insert_ne; [done |].
    intros E. apply Hx. rewrite E. by apply list_elem_of_fmap_2.
Qed.

(** What one page adds to the index, for the words in the order [words]. *)
Definition page_items words (freqs : gmap string Z) (url : string) : list KeywordToURLMap :=
  (fun kv : string * Z => mkKeywordToURLMap kv.1 {[url := kv.2]}) <$> words freqs.
Lemma page_items_spec words freqs url km : words freqs ≡ₚ map_to_list freqs -> km ∈ page_items words freqs url ->
  km_Keyword km ∈ dom freqs /\ has_links km.
Proof using Type.
  intros Hw ([k f] & -> & Hkf)%list_elem_of_fmap. rewrite Hw in Hkf. apply elem_of_map_to_list in Hkf. cbn.
  split; [by eapply elem_of_dom_2 | unfold has_links; cbn; apply map_non_empty_singleton].
Qed.
Lemma page_item_merged words freqs url idx k f : words freqs ≡ₚ map_to_list freqs -> freqs !! k = Some f ->
  foldl merge_links idx (page_items words freqs url) !! k = Some ({[url := f]} ∪ default ∅ (idx !! k)).
Proof using Type.
  intros Hw Hkf. pose proof (merge_distinct (page_items words freqs url) idx (mkKeywordToURLMap k {[url := f]})) as H0.
  cbn [km_Keyword km_LinkData] in H0. apply H0; clear H0.
  - unfold page_items. rewrite <-list_fmap_compose. change (km_Keyword ∘ _) with (fst (A := string) (B := Z)).
    rewrite Hw. apply NoDup_fst_map_to_list.
  - apply list_elem_of_fmap. exists (k, f). split; [done |]. rewrite Hw. by apply elem_of_map_to_list.
Qed.
Lemma keywords_saved order words g url freqs idx :
  (forall b, batch_ok b) -> (forall m, order m ≡ₚ map_to_list m) -> words freqs ≡ₚ map_to_list freqs -> freqs <> ∅ ->
  (forall k, k ∈ dom freqs -> head (LookupNodes (GenerateKeyHash k)) = Some (mkNodeState me address)) ->
  hashes_distinct (dom freqs) -> index_ok (dom freqs) (rk_db g) idx ->
  exists g', saveKeywordsInDHT update_length partial_rank partial_batch LookupNodes LookupValue address range depth
      keyword_length false keys nonces order words g (mkIndexPackage freqs url) = Ok g' /\
    index_ok (dom freqs) (rk_db g') (foldl merge_links idx (page_items words freqs url)).
Proof using Type.
  intros Hok Ho Hw Hne Hl Hdist Hi. unfold saveKeywordsInDHT. cbn [ip_KeywordFrequencies ip_Url].
  fold (page_items words freqs url). set (items := page_items words freqs url).
  assert (Hin : forall km, km ∈ items -> km_Keyword km ∈ dom freqs /\ has_links km).
  { intros km. by apply page_items_spec. }
  assert (Hone : (destinations LookupNodes km_Keyword items ∅).1 = {[(me, address) := items]}).
  { apply destinations_one.
    - intros E. apply Hne. apply fmap_nil_inv in E. rewrite E in Hw. apply Permutation_nil_l in Hw.
      by apply map_to_list_empty_iff.
    - apply Forall_forall. intros km Hkm. destruct (Hin km Hkm) as [Hd _]. unfold first_owner. by rewrite (Hl _ Hd). }
  rewrite Hone. assert (order {[(me, address) := items]} = [((me, address), items)]) as ->.
  { apply Permutation_singleton_r. rewrite Ho. by rewrite map_to_list_singleton. }
  cbn [save_all snd]. rewrite String.eqb_refl. unfold replyStore. cbn [st_Type st_Data].
  change (String.eqb KeywordsBucket KeywordsBucket) with true. cbv iota.
  unfold store_keywords, keywords_batch. rewrite pb_roundtrip by apply Hok. cbn [bm_UrlMapList].
  destruct (add_links_all (dom freqs) (rk_db g) idx items Hdist Hi) as (d' & -> & Hi' & _).
  { apply Forall_forall. exact Hin. }
  cbn [mbind outcome_bind]. eexists. split; [reflexivity | exact Hi'].
Qed.

(** C20. Indexing a page.  When this node is the closest one to every word of the page, each
    word is found in the database afterwards with the number of its occurrences on this
    page, and with the pages that were stored for it before. *)
Theorem page_indexed order words g url freqs idx :
  (forall b, batch_ok b) -> (forall m, order m ≡ₚ map_to_list m) -> words freqs ≡ₚ map_to_list freqs -> freqs <> ∅ ->
  (forall k, k ∈ dom freqs -> head (LookupNodes (GenerateKeyHash k)) = Some (mkNodeState me address)) ->
  hashes_distinct (dom freqs) -> index_ok (dom freqs) (rk_db g) idx ->
  exists g', saveKeywordsInDHT update_length partial_rank partial_batch LookupNodes LookupValue address range depth
      keyword_length false keys nonces order words g (mkIndexPackage freqs url) = Ok g' /\
    forall k f, freqs !! k = Some f -> exists m,
      bolt_get (rk_db g') KeywordsBucket (GenerateKeyHash k) = Some (pb_encode (mkKeywordToURLMap k m)) /\
      m !! url = Some f /\ forall u, u <> url -> m !! u = default ∅ (idx !! k) !! u.
Proof using Type.
  intros Hok Ho Hw Hne Hl Hdist Hi.
  destruct (keywords_saved order words g url freqs idx Hok Ho Hw Hne Hl Hdist Hi) as (g' & -> & Hi').
  exists g'. split; [done |]. intros k f Hkf. specialize (Hi' k (elem_of_dom_2 _ _ _ Hkf)).
  rewrite (page_item_merged words freqs url idx k f Hw Hkf) in Hi'. destruct Hi' as [_ Hg].
  eexists. split; [exact Hg |]. split.
  - by rewrite lookup_union_l', lookup_singleton_eq by (rewrite lookup_singleton_eq; eauto).
  - intros u Hu. by rewrite lookup_union_r by by apply lookup_singleton_ne.
Qed.
End Properties.

(** ** Samples *)
#[local] Existing Instance tag_cipher.
#[export] Instance HyperlinkPackage_eq_dec : EqDecision HyperlinkPackage.
Proof. solve_decision. Defined.
#[export] Instance HyperlinkPackage_countable : Countable HyperlinkPackage.
Proof.
  refine (inj_countable' (fun p => (hp_Links p, hp_Encrypted p, hp_EncryptedLinks p))
    (fun x => mkHyperlinkPackage x.1.1 x.1.2 x.2) _). by intros [].
Defined.
Definition sample_Hyperlinks := countable_code HyperlinkPackage.
#[local] Existing Instance sample_Hyperlinks.
(** The node at "1.1.1.1:1" is the closest one to all hashes; the other one is at "2.2.2.2:2". *)
Definition me_closest (id : TypeID) : list NodeState := [mkNodeState zero_key "1.1.1.1:1"].
Definition no_keys (i : nat) : option (option bytes) := None.
Definition no_nonces (i : nat) : bytes := replicate 12 9.


Lemma encrypted_links_delivered_witness : exists cipher n',
  batchSendURLS true (fun _ => Some (Some (replicate 32 7))) no_nonces (mkNodeState zero_key "2.2.2.2:2") ["/wiki/Go"%string] =
    Ok [SendEncryptedLinks cipher "2.2.2.2:2"] /\
  decryptHyperlinkPackage sample_node (mkEncryptedCrawlerPacket cipher [1]) 50 =
    Ok (n', Some (mkHyperlinkPackage ["/wiki/Go"%string] false [])).
Proof.
  destruct (encrypted_links_delivered (fun _ => Some (Some (replicate 32 7))) no_nonces sample_node
    (mkNodeState zero_key "2.2.2.2:2") ["/wiki/Go"%string] [] (mkSession (replicate 32 7) 0 100) [1] 50 true)
    as (cipher & n' & H1 & H2 & _).
  - exact I.
  - discriminate.
  - reflexivity.
  - reflexivity.
  - reflexivity.
  - reflexivity.
  - reflexivity.
  - exists cipher, n'. split; [exact H1 | exact H2].
Defined.

Lemma page_indexed_witness : exists g' m,
  saveKeywordsInDHT (fun _ => 100) no_partial no_partial_batch me_closest no_network "1.1.1.1:1" map_to_list 1
    (fun _ => 100) false no_keys no_nonces map_to_list map_to_list sample_ranks
    (mkIndexPackage {["proof"%string := 3]} "/wiki/Go") = Ok g' /\
  bolt_get (rk_db g') KeywordsBucket (GenerateKeyHash "proof") = Some (pb_encode (mkKeywordToURLMap "proof" m)) /\
  m !! "/wiki/Go"%string = Some 3.
Proof.
  destruct (page_indexed (fun _ => 100) no_partial no_partial_batch me_closest no_network "1.1.1.1:1" zero_key map_to_list 1
    (fun _ => 100) no_keys no_nonces map_to_list map_to_list sample_ranks "/wiki/Go" {["proof"%string := 3]} ∅)
    as (g' & H1 & H2).
  - intros b. exact I.
  - intros m. reflexivity.
  - reflexivity.
  - discriminate.
  - intros k _. reflexivity.
  - intros k k' Hk Hk' _. rewrite dom_singleton_L in Hk, Hk'. apply elem_of_singleton in Hk, Hk'. by rewrite Hk, Hk'.
  - intros k Hk. rewrite dom_singleton_L in Hk. apply elem_of_singleton in Hk as ->. vm_compute. reflexivity.
  - destruct (H2 "proof"%string 3) as (m & Hm & Hf & _); [apply lookup_singleton_eq |].
    exists g', m. split; [exact H1 |]. split; [exact Hm | exact Hf].
Defined.
