(* ===== verification/Bloom.v ===== *)
(** * The Bloom filter (bloomfilter/bloomfilter.go)

    The filter hashes an element six times: with three hash functions, once as it is and once
    after the byte 1.  FNV is Go's standard library; murmur3 and the natural logarithm, whose
    rounding Go leaves to the machine, are interfaces with the laws the code relies on. *)
From S2P Require Import Prelude.

(** ** Hash functions, after [Reset] *)
Definition fnv_offset : Z := 14695981039346656037.
Definition fnv_prime : Z := 1099511628211.
Definition fnv64 (b : bytes) : Z := foldl (fun h x => Z.lxor (u64 (h * fnv_prime)) x) fnv_offset b.
Definition fnv64a (b : bytes) : Z := foldl (fun h x => u64 (Z.lxor h x * fnv_prime)) fnv_offset b.

Class Murmur := {
  murmur3 : bytes -> Z;
  murmur3_width b : in_width 64 (murmur3 b)
}.
(** [int(math.Log(float64(m)))].  The number rounded down is at most the logarithm to base 2. *)
Class NaturalLog := {
  ln_int : Z -> Z;
  ln_zero : ln_int 0 <= 0;
  ln_range m : 1 <= m < 2 ^ 64 -> 0 <= ln_int m <= 44;
  ln_log2 m : 1 <= m < 2 ^ 64 -> 2 ^ ln_int m <= m
}.

(** [float64(z)] of an unsigned integer: the nearest number with 53 significant bits. *)
Definition round53 (z : Z) : Z :=
  let e := Z.log2 z - 52 in
  if e <=? 0 then z
  else
    let q := z / 2 ^ e in let r := z mod 2 ^ e in let half := 2 ^ (e - 1) in
    (if (half <? r) || (r =? half) && Z.odd q then q + 1 else q) * 2 ^ e.

Definition uint64Size : Z := 64.
Record BloomFilter := mkBloom { bitset : list Z; bf_k : Z; bf_n : Z; bf_m : Z }.

Section Bloom.
Context `{HM : Murmur} `{HL : NaturalLog}.

Definition hashFunctions : list (bytes -> Z) := [fnv64; fnv64a; murmur3].

(** [make] panics for more words than fit into the 2^48 bytes of the address space; running out
    of memory before that is not modelled. *)
Definition maxWords : Z := 2 ^ 45.
Definition New (k m : Z) : outcome BloomFilter :=
  let words := - (- round53 m / uint64Size) in
  if maxWords <? words then Panic "runtime error: makeslice: len out of range"
  else Ok (mkBloom (replicate (Z.to_nat words) 0) k 0 m).
Definition Size (bf : BloomFilter) : Z := int64 (bf_n bf).

Fixpoint mask_loop (i : nat) (bits : nat) (mask : Z) : Z :=
  match bits with
  | O => mask
  | S bits => mask_loop (S i) bits (Z.lor mask (Z.shiftl 1 (Z.of_nat i)))
  end.
Definition mask (bits : Z) : Z := u64 (mask_loop 0 (Z.to_nat bits) 0).
Definition mInBits (bf : BloomFilter) : Z := ln_int (bf_m bf).
(** [prefix] was written before the element. *)
Definition position (bf : BloomFilter) (prefix elem : bytes) (hf : bytes -> Z) : Z * Z :=
  let hashSum := hf (prefix ++ elem) in
  let val := Z.land hashSum (mask (mInBits bf)) in
  (round53 val / uint64Size, val mod uint64Size).

Definition set_bit (bf : BloomFilter) (bitsetIndex bitIndex : Z) : outcome BloomFilter :=
  match bitset bf !! Z.to_nat bitsetIndex with
  | None => Panic "index out of range"
  | Some w =>
      Ok (mkBloom (<[Z.to_nat bitsetIndex := Z.lor w (Z.shiftl 1 bitIndex)]> (bitset bf)) (bf_k bf) (bf_n bf) (bf_m bf))
  end.
Fixpoint set_loop (bf : BloomFilter) (prefix elem : bytes) (hfs : list (bytes -> Z)) : outcome BloomFilter :=
  match hfs with
  | [] => Ok bf
  | hf :: rest =>
      let '(bitsetIndex, bitIndex) := position bf prefix elem hf in
      bf ← set_bit bf bitsetIndex bitIndex; set_loop bf prefix elem rest
  end.
Fixpoint isSet_loop (bf : BloomFilter) (prefix elem : bytes) (hfs : list (bytes -> Z)) : outcome bool :=
  match hfs with
  | [] => Ok true
  | hf :: rest =>
      let '(bitsetIndex, bitIndex) := position bf prefix elem hf in
      match bitset bf !! Z.to_nat bitsetIndex with
      | None => Panic "index out of range"
      | Some w =>
          if Z.land w (Z.shiftl 1 bitIndex) =? 0 then Ok false else isSet_loop bf prefix elem rest
      end
  end.
Definition IsSet (bf : BloomFilter) (elem : bytes) : outcome bool :=
  b ← isSet_loop bf [] elem hashFunctions;
  if b : bool then isSet_loop bf [1] elem hashFunctions else Ok false.
Definition Set_ (bf : BloomFilter) (elem : bytes) : outcome BloomFilter :=
  found ← IsSet bf elem;
  if found : bool then Ok bf
  else
    bf ← set_loop bf [] elem hashFunctions;
    bf ← set_loop bf [1] elem hashFunctions;
    Ok (mkBloom (bitset bf) (bf_k bf) (u64 (bf_n bf + 1)) (bf_m bf)).
Fixpoint set_all (bf : BloomFilter) (elems : list bytes) : outcome BloomFilter :=
  match elems with [] => Ok bf | e :: rest => bf ← Set_ bf e; set_all bf rest end.

(** ** Properties *)
Lemma mask_loop_testbit bits : forall i mask j, 0 <= j ->
  Z.testbit (mask_loop i bits mask) j = Z.testbit mask j || ((Z.of_nat i <=? j) && (j <? Z.of_nat (i + bits))).
Proof using Type.
  induction bits as [|bits IH]; intros i mask j Hj; cbn [mask_loop].
  - destruct (Z.leb_spec (Z.of_nat i) j), (Z.ltb_spec j (Z.of_nat (i + 0))); rewrite ?orb_false_r; [lia | done..].
  - rewrite IH, Z.lor_spec by done. rewrite Z.shiftl_1_l, Z.pow2_bits_eqb by lia.
    destruct (Z.testbit mask j); [done |]. cbn [orb].
    destruct (Z.eqb_spec (Z.of_nat i) j), (Z.leb_spec (Z.of_nat (S i)) j), (Z.ltb_spec j (Z.of_nat (S i + bits))),
      (Z.leb_spec (Z.of_nat i) j), (Z.ltb_spec j (Z.of_nat (i + S bits))); cbn; lia.
Qed.
Lemma mask_ones bits : bits <= 64 -> mask bits = Z.ones (0 `max` bits).
Proof using Type.
  intros Hb. unfold mask, wrap. apply Z.bits_inj'. intros j Hj. rewrite Z.testbit_mod_pow2 by lia.
  rewrite mask_loop_testbit by done. rewrite Z.bits_0, orb_false_l, Z.testbit_ones by lia.
  destruct (Z.ltb_spec j 64), (Z.leb_spec (Z.of_nat 0) j), (Z.ltb_spec j (Z.of_nat (0 + Z.to_nat bits))),
    (Z.leb_spec 0 j), (Z.ltb_spec j (0 `max` bits)); cbn; lia.
Qed.
Lemma round53_small z : z < 2 ^ 53 -> round53 z = z.
Proof using Type.
  intros Hz. unfold round53. destruct (Z.leb_spec (Z.log2 z - 52) 0) as [|He]; [done |].
  destruct (Z.le_gt_cases z 0) as [Hn|Hp]; [rewrite Z.log2_nonpos in He by done; lia |].
  assert (Z.log2 z < 53) by (apply Z.log2_lt_pow2; lia). lia.
Qed.
Lemma round53_pow2 j z : 0 <= j -> 2 ^ j <= z -> 2 ^ j <= round53 z.
Proof using Type.
  intros Hj Hz. unfold round53. destruct (Z.leb_spec (Z.log2 z - 52) 0) as [|He]; [done |].
  set (e := Z.log2 z - 52) in *. assert (Hz0 : 0 < z) by (pose proof (Z.pow_pos_nonneg 2 j); lia).
  pose proof (Z.log2_spec z Hz0) as [Hl _].
  assert (Hq : 2 ^ 52 <= z / 2 ^ e).
  { apply Z.div_le_lower_bound; [apply Z.pow_pos_nonneg; lia |]. rewrite <-Z.pow_add_r by lia.
    replace (e + 52) with (Z.log2 z) by lia. done. }
  assert (Hle : 2 ^ j <= 2 ^ (52 + e)).
  { apply Z.pow_le_mono_r; [lia |]. assert (j <= Z.log2 z); [| lia]. by apply Z.log2_le_pow2. }
  rewrite Z.pow_add_r in Hle by lia. pose proof (Z.pow_pos_nonneg 2 e).
  destruct (_ || _); nia.
Qed.

(** The bit an element occupies under a hash function. *)
Definition occupies (m : Z) (prefix elem : bytes) (hf : bytes -> Z) : Z :=
  hf (prefix ++ elem) mod 2 ^ ln_int m.
Definition positions (m : Z) (elem : bytes) : gset Z :=
  list_to_set ((occupies m [] elem <$> hashFunctions) ++ (occupies m [1] elem <$> hashFunctions)).

Definition bit (bf : BloomFilter) (p : Z) : bool :=
  match bitset bf !! Z.to_nat (p / 64) with Some w => Z.testbit w (p mod 64) | None => false end.
(** The filter holds the bits [s]; the array is long enough for every position. *)
Record holds (bf : BloomFilter) (m : Z) (s : gset Z) : Prop := {
  holds_m : bf_m bf = m;
  holds_length : 2 ^ ln_int m <= 64 * Z.of_nat (length (bitset bf));
  holds_range p : p ∈ s -> 0 <= p < 2 ^ ln_int m;
  holds_bit p : 0 <= p -> bit bf p = bool_decide (p ∈ s)
}.

Section Size.
Context (m : Z) (Hm : 1 <= m < 2 ^ 64).
Lemma occupies_range prefix elem hf : 0 <= occupies m prefix elem hf < 2 ^ ln_int m.
Proof using Hm. apply Z.mod_pos_bound. pose proof (ln_range m Hm). apply Z.pow_pos_nonneg; lia. Qed.
Lemma position_occupies bf prefix elem hf : bf_m bf = m ->
  position bf prefix elem hf = (occupies m prefix elem hf / 64, occupies m prefix elem hf mod 64).
Proof using Hm.
  intros Hbm. pose proof (ln_range m Hm) as Hr. pose proof (occupies_range prefix elem hf) as Ho.
  unfold position, mInBits, uint64Size. rewrite Hbm, mask_ones by lia.
  rewrite Z.max_r, Z.land_ones by lia. fold (occupies m prefix elem hf).
  assert (2 ^ ln_int m <= 2 ^ 44) by (apply Z.pow_le_mono_r; lia).
  by rewrite round53_small by lia.
Qed.
Lemma New_limit : maxWords <? - (- round53 m / uint64Size) = bool_decide (2 ^ 51 < m).
Proof using Hm.
  apply eq_bool_prop_intro. rewrite bool_decide_spec, Is_true_true, Z.ltb_lt. unfold maxWords, uint64Size.
  pose proof (Z.div_mod (- round53 m) 64 ltac:(lia)). pose proof (Z.mod_pos_bound (- round53 m) 64 ltac:(lia)).
  destruct (Z.lt_ge_cases m (2 ^ 53)) as [Hs|Hb]; [rewrite round53_small in * by done; lia |].
  pose proof (round53_pow2 53 m ltac:(lia) Hb). lia.
Qed.
Lemma New_holds k : m <= 2 ^ 51 -> exists bf, New k m = Ok bf /\ holds bf m ∅ /\ bf_n bf = 0.
Proof using Hm.
  intros Hle. unfold New. rewrite New_limit, bool_decide_eq_false_2 by lia. eexists. split; [reflexivity |]. split; [| done].
  pose proof (ln_range m Hm) as Hr. assert (Hl : 2 ^ ln_int m <= round53 m).
  { apply round53_pow2; [lia | by apply ln_log2]. }
  constructor; [done | | set_solver |].
  - cbn [bitset]. rewrite length_replicate. unfold uint64Size.
    pose proof (Z.div_mod (- round53 m) 64 ltac:(lia)). pose proof (Z.mod_pos_bound (- round53 m) 64). lia.
  - intros p _. unfold bit. cbn [bitset]. rewrite bool_decide_eq_false_2 by set_solver.
    destruct (replicate _ 0 !! _) as [w|] eqn:E; [| done]. apply lookup_replicate in E as [-> _]. apply Z.bits_0.
Qed.

Lemma holds_word bf s p : holds bf m s -> 0 <= p < 2 ^ ln_int m ->
  exists w, bitset bf !! Z.to_nat (p / 64) = Some w /\ Z.testbit w (p mod 64) = bool_decide (p ∈ s).
Proof using Type.
  intros H Hp. destruct (lookup_lt_is_Some_2 (bitset bf) (Z.to_nat (p / 64))) as [w Hw].
  { pose proof (holds_length _ _ _ H). pose proof (Z.div_pos p 64 ltac:(lia) ltac:(lia)).
    assert (p / 64 < Z.of_nat (length (bitset bf))) by (apply Z.div_lt_upper_bound; lia). lia. }
  exists w. split; [done |]. rewrite <-(holds_bit _ _ _ H) by apply Hp. unfold bit. by rewrite Hw.
Qed.
Lemma land_bit w i : 0 <= i -> (Z.land w (Z.shiftl 1 i) =? 0) = negb (Z.testbit w i).
Proof using Type.
  intros Hi. rewrite Z.shiftl_1_l. destruct (Z.testbit w i) eqn:Ew; cbn.
  - apply Z.eqb_neq. intros E. apply (f_equal (fun z => Z.testbit z i)) in E.
    rewrite Z.land_spec, Ew, Z.pow2_bits_true, Z.bits_0 in E by done. done.
  - apply Z.eqb_eq, Z.bits_inj'. intros j Hj. rewrite Z.land_spec, Z.bits_0, Z.pow2_bits_eqb by done.
    destruct (Z.eqb_spec i j) as [<-|]; [by rewrite Ew | by rewrite andb_false_r].
Qed.
Lemma isSet_loop_spec bf s prefix elem hfs : holds bf m s ->
  isSet_loop bf prefix elem hfs = Ok (forallb (fun hf => bool_decide (occupies m prefix elem hf ∈ s)) hfs).
Proof using Hm.
  intros H. induction hfs as [|hf hfs IH]; cbn [isSet_loop forallb]; [done |].
  rewrite position_occupies by apply H. pose proof (occupies_range prefix elem hf) as Ho.
  destruct (holds_word bf s _ H Ho) as (w & -> & Hw). rewrite land_bit by (pose proof (Z.mod_pos_bound (occupies m prefix elem hf) 64); lia).
  rewrite Hw. case_bool_decide; [exact IH | done].
Qed.
Lemma list_subset_forallb (f : (bytes -> Z) -> Z) hfs (s : gset Z) :
  list_to_set (f <$> hfs) ⊆ s <-> forallb (fun hf => bool_decide (f hf ∈ s)) hfs.
Proof using Type.
  rewrite forallb_True, Forall_forall. split.
  - intros H hf Hhf. apply bool_decide_spec, H, elem_of_list_to_set. by apply list_elem_of_fmap_2.
  - intros H p (hf & -> & Hhf)%elem_of_list_to_set%list_elem_of_fmap. specialize (H hf Hhf). by apply bool_decide_spec in H.
Qed.
Lemma IsSet_spec bf s elem : holds bf m s -> IsSet bf elem = Ok (bool_decide (positions m elem ⊆ s)).
Proof using Hm.
  intros H. unfold IsSet. rewrite !(isSet_loop_spec bf s) by done. cbn [mbind outcome_bind].
  assert (E : bool_decide (positions m elem ⊆ s) =
    forallb (fun hf => bool_decide (occupies m [] elem hf ∈ s)) hashFunctions &&
    forallb (fun hf => bool_decide (occupies m [1] elem hf ∈ s)) hashFunctions).
  { unfold positions. apply eq_bool_prop_intro. rewrite bool_decide_spec, andb_True.
    rewrite list_to_set_app_L, union_subseteq. by rewrite !list_subset_forallb. }
  rewrite E. by destruct (forallb _ _).
Qed.

Lemma word_position p q : 0 <= p -> 0 <= q -> Z.to_nat (p / 64) = Z.to_nat (q / 64) -> p mod 64 = q mod 64 -> p = q.
Proof using Type.
  intros Hp Hq Hd Hr. pose proof (Z.div_pos p 64). pose proof (Z.div_pos q 64).
  pose proof (Z.div_mod p 64). pose proof (Z.div_mod q 64). lia.
Qed.
Lemma set_bit_spec bf s p : holds bf m s -> 0 <= p < 2 ^ ln_int m ->
  exists bf', set_bit bf (p / 64) (p mod 64) = Ok bf' /\ holds bf' m ({[p]} ∪ s) /\ bf_n bf' = bf_n bf.
Proof using Hm.
  intros H Hp. destruct (holds_word bf s p H Hp) as (w & Hw & _). unfold set_bit. rewrite Hw.
  eexists. split; [reflexivity |]. split; [| done]. destruct H as [Hbm Hlen Hran Hbit]. constructor.
  - done.
  - cbn [bitset]. by rewrite length_insert.
  - set_solver.
  - intros q Hq. specialize (Hbit q Hq). unfold bit in *. cbn [bitset].
    pose proof (Z.mod_pos_bound p 64 ltac:(lia)). pose proof (Z.mod_pos_bound q 64 ltac:(lia)).
    destruct (decide (Z.to_nat (p / 64) = Z.to_nat (q / 64))) as [He|Hne].
    + rewrite <-He in Hbit |- *. rewrite list_lookup_insert_eq by by eapply lookup_lt_Some. rewrite Hw in Hbit.
      rewrite Z.lor_spec, Hbit, Z.shiftl_1_l, Z.pow2_bits_eqb by lia.
      destruct (Z.eqb_spec (p mod 64) (q mod 64)) as [Hm'|Hm'].
      * assert (p = q) as -> by (apply word_position; (done || lia)).
        rewrite orb_true_r. by rewrite bool_decide_eq_true_2 by set_solver.
      * rewrite orb_false_r. apply bool_decide_ext. assert (q <> p) by congruence. set_solver.
    + rewrite list_lookup_insert_ne by done. rewrite Hbit. apply bool_decide_ext.
      assert (q <> p) by congruence. set_solver.
Qed.
Lemma set_loop_spec prefix elem hfs : forall bf s, holds bf m s ->
  exists bf', set_loop bf prefix elem hfs = Ok bf' /\
    holds bf' m (list_to_set (occupies m prefix elem <$> hfs) ∪ s) /\ bf_n bf' = bf_n bf.
Proof using Hm.
  induction hfs as [|hf hfs IH]; intros bf s H; cbn [set_loop].
  - exists bf. cbn. rewrite union_empty_l_L. done.
  - rewrite position_occupies by apply H.
    destruct (set_bit_spec bf s _ H (occupies_range prefix elem hf)) as (bf1 & -> & H1 & Hn1). cbn [mbind outcome_bind].
    destruct (IH bf1 _ H1) as (bf2 & -> & H2 & Hn2). exists bf2. split_and!; [done | | congruence].
    rewrite fmap_cons, list_to_set_cons.
    assert (E : {[occupies m prefix elem hf]} ∪ list_to_set (occupies m prefix elem <$> hfs) ∪ s =
      list_to_set (occupies m prefix elem <$> hfs) ∪ ({[occupies m prefix elem hf]} ∪ s)) by set_solver.
    by rewrite E.
Qed.

(** What [Set] does: an element whose positions are all taken changes nothing. *)
Definition add_spec (st : gset Z * Z) (elem : bytes) : gset Z * Z :=
  if decide (positions m elem ⊆ st.1) then st else (positions m elem ∪ st.1, st.2 + 1).
Lemma Set_spec bf s n elem : holds bf m s -> bf_n bf = n -> 0 <= n -> n + 1 < 2 ^ 64 ->
  exists bf', Set_ bf elem = Ok bf' /\ holds bf' m (add_spec (s, n) elem).1 /\ bf_n bf' = (add_spec (s, n) elem).2.
Proof using Hm.
  intros H Hn Hn0 Hb. unfold Set_, add_spec. rewrite (IsSet_spec bf s elem H). cbn [mbind outcome_bind fst snd].
  case_bool_decide as Hp; [rewrite decide_True by done | rewrite decide_False by done].
  - by exists bf.
  - destruct (set_loop_spec [] elem hashFunctions bf s H) as (bf1 & -> & H1 & Hn1). cbn [mbind outcome_bind].
    destruct (set_loop_spec [1] elem hashFunctions bf1 _ H1) as (bf2 & -> & H2 & Hn2). cbn [mbind outcome_bind].
    eexists. split; [reflexivity |]. cbn [fst snd]. split.
    + destruct H2 as [A1 A2 A3 A4]. unfold positions. rewrite list_to_set_app_L.
      set (s1 := list_to_set (occupies m [] elem <$> hashFunctions)) in *.
      set (s2 := list_to_set (occupies m [1] elem <$> hashFunctions)) in *.
      assert (E : s2 ∪ (s1 ∪ s) = s1 ∪ s2 ∪ s) by by rewrite (assoc_L (∪)), (comm_L (∪) s2 s1). rewrite <-E. by constructor.
    + cbn [bf_n]. rewrite Hn2, Hn1, Hn. apply wrap_small. unfold in_width. lia.
Qed.
Lemma set_all_spec elems : forall bf s n, holds bf m s -> bf_n bf = n -> 0 <= n ->
  n + Z.of_nat (length elems) < 2 ^ 64 ->
  let st := foldl add_spec (s, n) elems in
  exists bf', set_all bf elems = Ok bf' /\ holds bf' m st.1 /\ bf_n bf' = st.2.
Proof using Hm.
  induction elems as [|e elems IH]; intros bf s n H Hn Hn0 Hb; cbn [set_all foldl]; [by exists bf |].
  cbn [length] in Hb. destruct (Set_spec bf s n e H Hn Hn0) as (bf1 & -> & H1 & Hn1); [lia |].
  cbn [mbind outcome_bind]. destruct (add_spec (s, n) e) as [s1 n1] eqn:E. cbn [fst snd] in *.
  assert (Hn1' : n <= n1 <= n + 1) by (unfold add_spec in E; case_decide; injection E as <- <-; cbn; lia).
  apply IH; [done | done | lia | lia].
Qed.
Lemma add_spec_grows elems : forall st : gset Z * Z, st.1 ⊆ (foldl add_spec st elems).1 /\
  st.2 <= (foldl add_spec st elems).2 <= st.2 + Z.of_nat (length elems) /\
  forall e, e ∈ elems -> positions m e ⊆ (foldl add_spec st elems).1.
Proof using Type.
  induction elems as [|e elems IH]; intros st; cbn [foldl length].
  - split_and!; [done | lia | lia |]. intros e He. by apply not_elem_of_nil in He.
  - destruct (IH (add_spec st e)) as (H1 & H2 & H3).
    assert (Hs : st.1 ∪ positions m e ⊆ (add_spec st e).1 /\ st.2 <= (add_spec st e).2 <= st.2 + 1).
    { unfold add_spec. case_decide as Hd; cbn [fst snd]; (split; [| lia]).
      - by apply union_least.
      - by rewrite (comm_L (∪)). }
    destruct Hs as [Hs Hn]. apply union_subseteq in Hs as [Hs1 Hs2]. split_and!; [by etrans | lia | lia |].
    intros x [->|Hx]%elem_of_cons; [by etrans | by apply H3].
Qed.
End Size.

(** C26. The filter implements a set of bit positions.  Over any elements, [Set] never fails
    on a filter of [m > 0] bits, it counts an element exactly if one of its positions was
    free, and [IsSet] answers whether all positions of an element are taken: in particular
    every element that was set is found.  All positions are below 2 to the power of the
    rounded natural logarithm of [m], so the bits beyond are never used.  Only a filter of
    more than 2^51 bits cannot be made. *)
Theorem bloom_refines k m elems :
  1 <= m < 2 ^ 64 -> Z.of_nat (length elems) < 2 ^ 63 ->
  let st := foldl (add_spec m) (∅, 0) elems in
  (2 ^ 51 < m -> New k m = Panic "runtime error: makeslice: len out of range") /\
  (m <= 2 ^ 51 -> exists bf0 bf, New k m = Ok bf0 /\ set_all bf0 elems = Ok bf /\
    (forall e, IsSet bf e = Ok (bool_decide (positions m e ⊆ st.1))) /\
    (forall e, e ∈ elems -> IsSet bf e = Ok true) /\
    Size bf = st.2 /\ 0 <= Size bf <= Z.of_nat (length elems) /\
    (forall p, 0 <= p -> bit bf p = bool_decide (p ∈ st.1)) /\
    (forall p, p ∈ st.1 -> 0 <= p < 2 ^ ln_int m)).
Proof using Type.
  intros Hm Hlen st. split.
  { intros Hbig. unfold New. by rewrite New_limit, bool_decide_eq_true_2. }
  intros Hle. destruct (New_holds m Hm k Hle) as (bf0 & E0 & Hh0 & Hn0).
  destruct (set_all_spec m Hm elems bf0 ∅ 0 Hh0 Hn0) as (bf & Hs & Hh & Hn); [done | lia |]. fold st in Hh, Hn.
  destruct (add_spec_grows m elems (∅, 0)) as (_ & Hb & He). fold st in Hb, He. cbn [snd] in Hb.
  assert (HS : Size bf = st.2) by (unfold Size; rewrite Hn; apply int64_small; lia).
  exists bf0, bf. split_and!; [done | done | | | done | lia | lia | apply Hh | apply Hh].
  - intros e. by apply IsSet_spec.
  - intros e Hin. rewrite (IsSet_spec m Hm bf st.1) by done. by rewrite bool_decide_eq_true_2 by by apply He.
Qed.
End Bloom.

(** ** Samples *)
(** FNV's published test vectors. *)
Example fnv_a : fnv64 [97] = 12638153115695167422 /\ fnv64a [97] = 12638187200555641996.
Proof. vm_compute. auto. Qed.


(** The powers of e from the first to the 44th, rounded up: an exact logarithm. *)
Definition e_powers : list Z := [
  3; 8; 21; 55; 149; 404; 1097; 2981; 8104; 22027; 59875; 162755; 442414; 1202605; 3269018; 8886111;
  24154953; 65659970; 178482301; 485165196; 1318815735; 3584912847; 9744803447; 26489122130;
  72004899338; 195729609429; 532048240602; 1446257064292; 3931334297145; 10686474581525; 29048849665248;
  78962960182681; 214643579785917; 583461742527455; 1586013452313431; 4311231547115196;
  11719142372802612; 31855931757113757; 86593400423993747; 235385266837019986; 639843493530054950;
  1739274941520501048; 4727839468229346562; 12851600114359308276].
Fixpoint count_below (m : Z) (l : list Z) : Z :=
  match l with [] => 0 | t :: rest => if t <=? m then 1 + count_below m rest else 0 end.
(** The n-th entry is at least 2 to the power of n. *)
Fixpoint doubling (p : Z) (l : list Z) : bool :=
  match l with [] => true | t :: rest => (2 ^ (p + 1) <=? t) && doubling (p + 1) rest end.
Lemma count_below_spec m l : forall p, 2 ^ p <= m -> doubling p l = true ->
  0 <= count_below m l <= Z.of_nat (length l) /\ 2 ^ (p + count_below m l) <= m.
Proof.
  induction l as [|t l IH]; intros p Hm Hd; cbn [count_below doubling length] in *; [rewrite Z.add_0_r; lia |].
  apply andb_prop in Hd as [Ht Hd]. destruct (Z.leb_spec t m) as [Hle|]; [| rewrite Z.add_0_r; lia].
  destruct (IH (p + 1)) as [H1 H2]; [lia | done |]. split; [lia |]. by rewrite Z.add_assoc.
Qed.
Lemma e_powers_spec m : 1 <= m -> 0 <= count_below m e_powers <= 44 /\ 2 ^ count_below m e_powers <= m.
Proof. intros Hm. apply (count_below_spec m e_powers 0); [exact Hm | reflexivity]. Qed.
#[export] Instance exact_log : NaturalLog.
Proof.
  refine {| ln_int m := count_below m e_powers |}.
  - reflexivity.
  - intros m [Hm _]. by apply e_powers_spec.
  - intros m [Hm _]. by apply e_powers_spec.
Defined.
Definition sum_hash : Murmur.
Proof. refine {| murmur3 b := u64 (foldl Z.add 7 b) |}. intros b. apply wrap_range. lia. Defined.
#[local] Existing Instance sum_hash.

Lemma bloom_refines_witness : exists bf0 bf, New 6 10000 = Ok bf0 /\
  set_all bf0 [[1; 2]; [3]; [1; 2]] = Ok bf /\ IsSet bf [3] = Ok true /\ IsSet bf [4] = Ok false /\
  Size bf = 2.
Proof.
  destruct (bloom_refines 6 10000 [[1; 2]; [3]; [1; 2]]) as [_ H].
  - lia.
  - cbn. lia.
  - destruct H as (bf0 & bf & H0 & H1 & H2 & H3 & H4 & _); [lia |].
    exists bf0, bf. split; [exact H0 |]. split; [exact H1 |]. split; [apply (H3 [3]); right; left |]. split.
    + rewrite H2. vm_compute. reflexivity.
    + rewrite H4. vm_compute. reflexivity.
Defined.
(** 512 of the 10000 bits can be set: an exact logarithm to base 2 would allow 8192. *)
Example bits_used : 2 ^ ln_int 10000 = 512.
Proof. reflexivity. Qed.
