(* ===== verification/Search.v ===== *)
(** * Searches (webcrawler/SearchResults.go; lookupWord, DoSearch and clientDHTListenRoutine of gossiper/dht.go)

    The words of a query are looked up in the DHT, pages that contain all of them are scored
    by word frequencies, and the best ones are ranked together with their page rank.  Stemming,
    the natural logarithm and the order in which Go visits a map are parameters; Go's unstable
    sorting is an interface. *)
From S2P Require Import Prelude DhtId DhtMessage CrawlerPacket Dto Storage Float64 PageRank DhtNode Crawler.

(** [sort.Sort]: it only swaps elements, and sorts if "not less" is a total preorder on them. *)
Class GoSort := {
  go_sort {A} : (A -> A -> bool) -> list A -> list A;
  go_sort_perm {A} (less : A -> A -> bool) l : go_sort less l ≡ₚ l;
  go_sort_sorted {A} (less : A -> A -> bool) l :
    (forall x y, x ∈ l -> y ∈ l -> less y x = false \/ less x y = false) ->
    (forall x y z, x ∈ l -> y ∈ l -> z ∈ l -> less y x = false -> less z y = false -> less z x = false) ->
    StronglySorted (fun x y => less y x = false) (go_sort less l)
}.

Record SearchResult := mkSearchResult { Link : string; TfIdf : list float64; SimScore : float64 }.
Record SearchResults := mkSearchResults { Results : list SearchResult; numberOfDocs : Z }.
Record RankedResult := mkRankedResult { Result : SearchResult; PageRank_ : float64; Rank : float64 }.

Definition MaxResults : nat := 10.
Definition pageRankWeight : float64 := constant 3 10.
Definition simScoreWeight : float64 := constant 7 10.   (* the constant 1 - 0.3 *)

Definition sim_score (tfidf : list float64) : float64 :=
  let n := of_int (Z.of_nat (length tfidf)) in
  fsqrt (fdiv (foldl (fun s i => fadd s (fmul i i)) zero64 tfidf) (fadd n (of_int 1))).
Definition CalculateSimScore (r : SearchResult) : SearchResult :=
  mkSearchResult (Link r) (TfIdf r) (sim_score (TfIdf r)).

Section Search.
Context `{HG : GoSort} `{HK : Protobuf KeywordToURLMap has_links}.
Context {rank_ok : RankInfo -> Prop} `{HPR : Protobuf RankInfo rank_ok}.
Context (Log : float64 -> float64) (StemString : string -> string).
Context (LookupValue : TypeID -> string -> option bytes) (range : gmap string Z -> list (string * Z)).

Definition calculateTfIdfForNewResult (keywordOccurences numberOfResults numberOfDocs : Z) : float64 :=
  let numberOfDocs := if numberOfDocs <=? numberOfResults then int64 (numberOfResults + 3) else numberOfDocs in
  let idf := Log (fdiv (of_int numberOfDocs) (of_int (int64 (1 + numberOfResults)))) in
  fmul (Log (of_int (int64 (1 + keywordOccurences)))) idf.
Definition number_of_results (urlMap : KeywordToURLMap) : Z := Z.of_nat (size (km_LinkData urlMap)).
Definition NewSearchResults (urlMap : KeywordToURLMap) (numberOfDocs : Z) : SearchResults :=
  mkSearchResults
    ((fun kv => mkSearchResult kv.1 [calculateTfIdfForNewResult kv.2 (number_of_results urlMap) numberOfDocs] (of_int (-1)))
       <$> range (km_LinkData urlMap)) numberOfDocs.
Fixpoint join_loop (urlMap : KeywordToURLMap) (docs : Z) (l : list SearchResult) : list SearchResult :=
  match l with
  | [] => []
  | result :: rest =>
      match km_LinkData urlMap !! Link result with
      | Some otherOccurrences =>
          mkSearchResult (Link result)
            (TfIdf result ++ [calculateTfIdfForNewResult otherOccurrences (number_of_results urlMap) docs]) (SimScore result)
          :: join_loop urlMap docs rest
      | None => join_loop urlMap docs rest
      end
  end.
Definition Join (this : SearchResults) (urlMap : KeywordToURLMap) : SearchResults :=
  mkSearchResults (join_loop urlMap (numberOfDocs this) (Results this)) (numberOfDocs this).

(** Each comparison computes the scores of the two results it compares, in place; of fewer than
    two results none is compared. *)
Definition sort_results (rs : SearchResults) : SearchResults :=
  mkSearchResults
    (if (length (Results rs) <? 2)%nat then Results rs
     else go_sort (fun a b => flt (sim_score (TfIdf b)) (sim_score (TfIdf a))) (CalculateSimScore <$> Results rs))
    (numberOfDocs rs).
Definition sort_ranked (l : list RankedResult) : list RankedResult := go_sort (fun a b => flt (Rank b) (Rank a)) l.

(** [None]: the word was not found. *)
Definition lookupWord (token : string) : outcome (option KeywordToURLMap) :=
  match LookupValue (GenerateKeyHash (StemString token)) KeywordsBucket with
  | None => Ok None
  | Some data => match pb_decode data with Some urlMap => Ok (Some urlMap) | None => Panic "protobuf" end
  end.
(** The tokens from the first one that is found. *)
Fixpoint first_found (tokens : list string) : outcome (option (KeywordToURLMap * list string)) :=
  match tokens with
  | [] => Ok None
  | t :: rest =>
      if (String.length t <? MinWordLen)%nat then first_found rest
      else newResults ← lookupWord t;
           match newResults with
           | None => first_found rest
           | Some newResults => Ok (Some (newResults, t :: rest))
           end
  end.
Fixpoint join_tokens (results : SearchResults) (tokens : list string) : outcome SearchResults :=
  match tokens with
  | [] => Ok results
  | t :: rest =>
      if (String.length t <? MinWordLen)%nat then join_tokens results rest
      else newResults ← lookupWord t;
           match newResults with
           | None => join_tokens results rest
           | Some newResults => join_tokens (Join results newResults) rest
           end
  end.
Definition max_ (m x : float64) : float64 := if flt m x then x else m.
(** The page ranks of the best results, with the two maxima. *)
Fixpoint fetch_ranks (results : list SearchResult) (simScoreMax pageRankMax : float64)
    : outcome (list RankedResult * float64 * float64) :=
  match results with
  | [] => Ok ([], simScoreMax, pageRankMax)
  | result :: rest =>
      pageRankVal ← match LookupValue (GenerateKeyHash (Link result)) PageRankBucket with
        | Some data => match pb_decode data with Some pageRank => Ok (ri_Rank pageRank) | None => Panic "protobuf" end
        | None => Ok zero64
        end;
      '(more, s, p) ← fetch_ranks rest (max_ simScoreMax (SimScore result)) (max_ pageRankMax pageRankVal);
      Ok (mkRankedResult result pageRankVal zero64 :: more, s, p)
  end.
Definition rank_result (simScoreMax pageRankMax : float64) (rankedResult : RankedResult) : RankedResult :=
  let result := Result rankedResult in
  let simScore := if fneq simScoreMax zero64 then fdiv (SimScore result) simScoreMax else SimScore result in
  let pageRank := if fneq pageRankMax zero64 then fdiv (PageRank_ rankedResult) pageRankMax else PageRank_ rankedResult in
  mkRankedResult (mkSearchResult (Link result) (TfIdf result) simScore) (PageRank_ rankedResult)
    (fadd (fmul simScoreWeight simScore) (fmul (fmul pageRankWeight (PageRank_ rankedResult)) pageRank)).
Definition DoSearch (numberOfDocuments : Z) (query : string) : outcome (list RankedResult) :=
  found ← first_found (Split query);
  match found with
  | None => Ok []
  | Some (newResults, tokens) =>
      let results := sort_results (NewSearchResults newResults numberOfDocuments) in
      results ← join_tokens results tokens;
      let results := sort_results results in
      '(ranked, simScoreMax, pageRankMax) ← fetch_ranks (take MaxResults (Results results)) zero64 zero64;
      Ok (sort_ranked (rank_result simScoreMax pageRankMax <$> ranked))
  end.
End Search.

(** ** Properties *)
Section Properties.
Context `{HG : GoSort} `{HK : Protobuf KeywordToURLMap has_links}.
Context {rank_ok : RankInfo -> Prop} `{HPR : Protobuf RankInfo rank_ok}.
Context (Log : float64 -> float64) (StemString : string -> string).
Context (LookupValue : TypeID -> string -> option bytes) (range : gmap string Z -> list (string * Z)).
Context (docs : Z).
(** What the network returns can be decoded, and Go visits every entry of a map once. *)
Context (Hwords : forall id data, LookupValue id KeywordsBucket = Some data -> is_Some (pb_decode data : option KeywordToURLMap)).
Context (Hranks : forall id data, LookupValue id PageRankBucket = Some data -> is_Some (pb_decode data : option RankInfo)).
Context (Hrange : forall m, range m ≡ₚ map_to_list m).

(** The maps of the words of a query that are found. *)
Definition word_map (t : string) : option KeywordToURLMap :=
  if (String.length t <? MinWordLen)%nat then None
  else LookupValue (GenerateKeyHash (StemString t)) KeywordsBucket ≫= pb_decode.
Definition word_maps (tokens : list string) : list KeywordToURLMap := omap word_map tokens.

Lemma lookupWord_spec t : lookupWord StemString LookupValue t =
  Ok (LookupValue (GenerateKeyHash (StemString t)) KeywordsBucket ≫= pb_decode).
Proof using Hwords.
  unfold lookupWord. destruct (LookupValue _ KeywordsBucket) as [data|] eqn:E; [| done].
  destruct (Hwords _ _ E) as [m Hm]. cbn [mbind option_bind]. by rewrite Hm.
Qed.
Lemma word_maps_cons t tokens :
  word_maps (t :: tokens) = match word_map t with Some m => m :: word_maps tokens | None => word_maps tokens end.
Proof using Type. unfold word_maps. cbn [omap list_omap]. by destruct (word_map t). Qed.
(** One token, as both loops treat it. *)
Lemma token_step {A} t (short missing : outcome A) (found : KeywordToURLMap -> outcome A) : short = missing ->
  (if (String.length t <? MinWordLen)%nat then short
   else newResults ← lookupWord StemString LookupValue t;
        match newResults with None => missing | Some newResults => found newResults end) =
  match word_map t with Some m => found m | None => missing end.
Proof using Hwords.
  intros ->. unfold word_map. destruct (_ <? _)%nat; [done |]. rewrite lookupWord_spec. cbn [mbind outcome_bind].
  by destruct (LookupValue _ _).
Qed.
Lemma first_found_spec tokens : exists rest, word_maps rest = word_maps tokens /\
  first_found StemString LookupValue tokens = Ok (m ← head (word_maps tokens); Some (m, rest)).
Proof using Hwords.
  induction tokens as [|t tokens (rest & H1 & H2)]; cbn [first_found]; [by exists [] |].
  rewrite token_step by done. rewrite word_maps_cons. destruct (word_map t) as [m|] eqn:Em.
  - exists (t :: tokens). rewrite word_maps_cons, Em. done.
  - by exists rest.
Qed.
Lemma join_tokens_spec tokens : forall results,
  join_tokens Log StemString LookupValue results tokens = Ok (foldl (Join Log) results (word_maps tokens)).
Proof using Hwords.
  induction tokens as [|t tokens IH]; intros results; cbn [join_tokens]; [done |].
  rewrite (token_step t _ _ (fun m => join_tokens Log StemString LookupValue (Join Log results m) tokens)) by done.
  rewrite word_maps_cons. destruct (word_map t); cbn [foldl]; apply IH.
Qed.

(** The weight of a word for a page. *)
Definition tf (m : KeywordToURLMap) (link : string) : float64 :=
  calculateTfIdfForNewResult Log (default 0 (km_LinkData m !! link)) (number_of_results m) docs.
Definition pages (m : KeywordToURLMap) : gset string := dom (km_LinkData m).
Definition common (ms : list KeywordToURLMap) (s : gset string) : gset string := foldl (fun s m => s ∩ pages m) s ms.

(** The results of the words [ms], for the pages [s]. *)
Record scored (rs : SearchResults) (ms : list KeywordToURLMap) (s : gset string) : Prop := {
  scored_docs : numberOfDocs rs = docs;
  scored_nodup : NoDup (Link <$> Results rs);
  scored_pages link : link ∈ Link <$> Results rs <-> link ∈ s;
  scored_tfidf r : r ∈ Results rs -> TfIdf r = (fun m => tf m (Link r)) <$> ms
}.
Lemma NewSearchResults_scored m : scored (NewSearchResults Log range m docs) [m] (pages m).
Proof using Hrange.
  unfold NewSearchResults. assert (E : Link <$> ((fun kv => mkSearchResult kv.1
      [calculateTfIdfForNewResult Log kv.2 (number_of_results m) docs] (of_int (-1))) <$> range (km_LinkData m)) =
    (range (km_LinkData m)).*1) by by rewrite <-list_fmap_compose.
  constructor; cbn [Results numberOfDocs]; [done | | |].
  - rewrite E, Hrange. apply NoDup_fst_map_to_list.
  - intros link. rewrite E, Hrange. unfold pages. rewrite elem_of_dom. rewrite list_elem_of_fmap. split.
    + intros ([k v] & -> & Hin). apply elem_of_map_to_list in Hin. by exists v.
    + intros [v Hv]. exists (link, v). split; [done |]. by apply elem_of_map_to_list.
  - intros r ([k v] & -> & Hin)%list_elem_of_fmap. rewrite Hrange in Hin. apply elem_of_map_to_list in Hin.
    cbn [TfIdf Link fst snd fmap list_fmap]. unfold tf. by rewrite Hin.
Qed.
Lemma join_loop_spec m d l r : r ∈ join_loop Log m d l <-> exists r0 occ, r0 ∈ l /\ km_LinkData m !! Link r0 = Some occ /\
  r = mkSearchResult (Link r0) (TfIdf r0 ++ [calculateTfIdfForNewResult Log occ (number_of_results m) d]) (SimScore r0).
Proof using Type.
  induction l as [|r1 l IH]; cbn [join_loop].
  - split; [by intros ?%not_elem_of_nil |]. by intros (? & ? & ?%not_elem_of_nil & _).
  - destruct (km_LinkData m !! Link r1) as [occ1|] eqn:E1; [rewrite elem_of_cons |]; rewrite IH; split.
    + intros [->|(r0 & occ & H1 & H2 & H3)]; [exists r1, occ1 | exists r0, occ]; (split; [| done]); [left | by right].
    + intros (r0 & occ & [->|H1]%elem_of_cons & H2 & H3); [left; congruence | right; by exists r0, occ].
    + intros (r0 & occ & H1 & H2 & H3). exists r0, occ. split; [by right | done].
    + intros (r0 & occ & [->|H1]%elem_of_cons & H2 & H3); [congruence | by exists r0, occ].
Qed.
Lemma join_loop_sublist m d l : Link <$> join_loop Log m d l `sublist_of` Link <$> l.
Proof using Type.
  induction l as [|r l IH]; cbn [join_loop]; [done |]. rewrite fmap_cons.
  destruct (_ !! _); [rewrite fmap_cons; by constructor | by constructor].
Qed.
Lemma Join_scored rs ms s m : scored rs ms s -> scored (Join Log rs m) (ms ++ [m]) (s ∩ pages m).
Proof using Type.
  intros [H1 H2 H3 H4]. unfold Join. rewrite H1. constructor; cbn [Results numberOfDocs]; [done | | |].
  - eapply sublist_NoDup; [exact H2 | apply join_loop_sublist].
  - intros link. rewrite elem_of_intersection, <-H3. unfold pages. rewrite elem_of_dom, !list_elem_of_fmap. split.
    + intros (r & -> & (r0 & occ & Hin & Hocc & ->)%join_loop_spec). cbn [Link]. split; [by exists r0 | by exists occ].
    + intros [(r0 & -> & Hin) [occ Hocc]]. eexists. split; [| apply join_loop_spec; by exists r0, occ]. done.
  - intros r (r0 & occ & Hin & Hocc & ->)%join_loop_spec. cbn [TfIdf Link]. rewrite fmap_app, (H4 r0 Hin).
    cbn [fmap list_fmap]. unfold tf at 3. by rewrite Hocc.
Qed.
Lemma Joins_scored ms' : forall rs ms s, scored rs ms s ->
  scored (foldl (Join Log) rs ms') (ms ++ ms') (common ms' s).
Proof using Type.
  induction ms' as [|m ms' IH]; intros rs ms s H; cbn [foldl]; [by rewrite app_nil_r |].
  replace (ms ++ m :: ms') with ((ms ++ [m]) ++ ms') by by rewrite <-app_assoc.
  apply (IH _ _ (s ∩ pages m)). by apply Join_scored.
Qed.
Lemma sort_results_perm rs : (fun r => (Link r, TfIdf r)) <$> Results (sort_results rs) ≡ₚ
  (fun r => (Link r, TfIdf r)) <$> Results rs.
Proof using Type.
  unfold sort_results. cbn [Results]. destruct (_ <? _)%nat; [done |]. rewrite go_sort_perm.
  by rewrite <-list_fmap_compose.
Qed.
Lemma sort_results_scored rs ms s : scored rs ms s -> scored (sort_results rs) ms s.
Proof using Type.
  intros [H1 H2 H3 H4]. pose proof (sort_results_perm rs) as Hp.
  assert (Hl : Link <$> Results (sort_results rs) ≡ₚ Link <$> Results rs).
  { apply (fmap_Permutation fst) in Hp. by rewrite <-!list_fmap_compose in Hp. }
  constructor; [done | by rewrite Hl | intros link; by rewrite Hl |].
  intros r Hr. apply (list_elem_of_fmap_2 (fun r => (Link r, TfIdf r))) in Hr. rewrite Hp in Hr.
  apply list_elem_of_fmap in Hr as (r0 & [= -> ->] & Hr0). by apply H4.
Qed.

Definition page_rank (link : string) : float64 :=
  match LookupValue (GenerateKeyHash link) PageRankBucket with
  | Some data => default zero64 (ri_Rank <$> (pb_decode data : option RankInfo))
  | None => zero64
  end.
Definition unranked (r : SearchResult) : RankedResult := mkRankedResult r (page_rank (Link r)) zero64.
Lemma fetch_ranks_spec results : forall s p, fetch_ranks LookupValue results s p =
  Ok (unranked <$> results, foldl max_ s (SimScore <$> results), foldl max_ p ((fun r => page_rank (Link r)) <$> results)).
Proof using Hranks.
  induction results as [|r results IH]; intros s p; cbn [fetch_ranks]; [done |].
  assert (E : (match LookupValue (GenerateKeyHash (Link r)) PageRankBucket with
      | Some data => match pb_decode data with Some pageRank => Ok (ri_Rank pageRank) | None => Panic "protobuf" end
      | None => Ok zero64 end) = Ok (page_rank (Link r))).
  { unfold page_rank. destruct (LookupValue _ _) as [data|] eqn:El; [| done].
    destruct (Hranks _ _ El) as [i Hi]. by rewrite Hi. }
  rewrite E. cbn [mbind outcome_bind]. rewrite IH. done.
Qed.

(** What a search for the found words [m :: ms] computes. *)
Lemma DoSearch_run q m ms : word_maps (Split q) = m :: ms ->
  exists rs0, let rs := take MaxResults (Results (sort_results rs0)) in
  scored rs0 (m :: m :: ms) (common ms (pages m)) /\
  DoSearch Log StemString LookupValue range docs q = Ok (sort_ranked
    (rank_result (foldl max_ zero64 (SimScore <$> rs)) (foldl max_ zero64 ((fun r => page_rank (Link r)) <$> rs))
       <$> (unranked <$> rs))).
Proof using Hwords Hranks Hrange.
  intros Hm. destruct (first_found_spec (Split q)) as (rest & H1 & H2). rewrite Hm in H1, H2.
  exists (foldl (Join Log) (sort_results (NewSearchResults Log range m docs)) (m :: ms)). cbv zeta. split.
  - pose proof (Joins_scored (m :: ms) _ _ _ (sort_results_scored _ _ _ (NewSearchResults_scored m))) as H.
    unfold common in H. cbn [foldl] in H. rewrite intersection_idemp_L in H. exact H.
  - unfold DoSearch. rewrite H2. cbn [head mbind option_bind outcome_bind].
    rewrite join_tokens_spec, H1. cbn [mbind outcome_bind]. rewrite fetch_ranks_spec. done.
Qed.
Lemma scored_size rs ms s : scored rs ms s -> length (Results rs) = size s.
Proof using Type.
  intros [_ H2 H3 _]. rewrite <-(length_fmap Link), <-(size_list_to_set (C := gset string)) by exact H2.
  f_equal. apply set_eq. intros x. by rewrite elem_of_list_to_set.
Qed.
Lemma shown_link l r : r ∈ sort_ranked l -> r ∈ l.
Proof using Type. unfold sort_ranked. by rewrite go_sort_perm. Qed.

(** C23. What a search finds.  When the stored data can be decoded, a search always returns;
    without a word that is found it returns nothing, and otherwise at most ten different
    pages, each of which contains every word that was found - all of them only if they are not
    more than ten, although README.md promises every document with the word.  A page is scored by the weights of these words, where the weight
    of the first one counts twice. *)
Theorem search_common_pages q : exists ranked,
  DoSearch Log StemString LookupValue range docs q = Ok ranked /\
  match word_maps (Split q) with
  | [] => ranked = []
  | m :: ms =>
      NoDup ((fun r => Link (Result r)) <$> ranked) /\
      length ranked = (10 `min` size (common ms (pages m)))%nat /\
      Forall (fun r => Link (Result r) ∈ common ms (pages m) /\
        TfIdf (Result r) = (fun w => tf w (Link (Result r))) <$> m :: m :: ms) ranked
  end.
Proof using Hwords Hranks Hrange.
  destruct (word_maps (Split q)) as [|m ms] eqn:Hm.
  - exists []. split; [| done]. destruct (first_found_spec (Split q)) as (rest & _ & H2). rewrite Hm in H2.
    unfold DoSearch. by rewrite H2.
  - destruct (DoSearch_run q m ms Hm) as (rs0 & Hs0 & ->). eexists. split; [reflexivity |].
    apply sort_results_scored in Hs0. pose proof (scored_size _ _ _ Hs0) as Hlen. destruct Hs0 as [_ H2 H3 H4].
    set (rs := Results (sort_results rs0)) in *. unfold sort_ranked. split_and!.
    + rewrite go_sort_perm, <-!list_fmap_compose. eapply sublist_NoDup; [exact H2 |].
      change (((fun r => Link (Result r)) ∘ rank_result _ _) ∘ unranked) with Link.
      apply fmap_sublist, sublist_take.
    + rewrite go_sort_perm, !length_fmap, length_take. by rewrite Hlen.
    + apply Forall_forall. intros r Hr%shown_link. apply list_elem_of_fmap in Hr as (r1 & -> & Hr).
      apply list_elem_of_fmap in Hr as (r0 & -> & Hr). cbn [unranked rank_result Result Link TfIdf].
      assert (Hr0 : r0 ∈ rs) by (eapply elem_of_sublist; [exact Hr | apply sublist_take]).
      split; [| by apply H4]. apply H3. by apply list_elem_of_fmap_2.
Qed.

(** A page with all the words is among fewer than [MaxResults] results. *)
Lemma search_complete q m ms link : word_maps (Split q) = m :: ms -> link ∈ common ms (pages m) ->
  exists ranked, DoSearch Log StemString LookupValue range docs q = Ok ranked /\
    ((length ranked < MaxResults)%nat -> link ∈ (fun r => Link (Result r)) <$> ranked).
Proof using Hwords Hranks Hrange.
  intros Hm Hin. destruct (DoSearch_run q m ms Hm) as (rs0 & Hs0 & ->). eexists. split; [reflexivity |].
  apply sort_results_scored in Hs0. unfold sort_ranked. rewrite go_sort_perm, !length_fmap, length_take.
  intros Hlen. rewrite take_ge by lia. rewrite <-!list_fmap_compose. by apply (scored_pages _ _ _ Hs0).
Qed.

(** *** The ranking *)
Lemma max_fold l : forall m, is_NaN m = false -> Forall (fun x => is_NaN x = false) l ->
  is_NaN (foldl max_ m l) = false /\ Forall (fge (foldl max_ m l)) (m :: l).
Proof using Type.
  induction l as [|x l IH]; intros m Hm Hl; cbn [foldl].
  - split; [done |]. constructor; [| constructor]. destruct (fge_total m m Hm Hm); done.
  - apply Forall_cons in Hl as [Hx Hl]. assert (Hmx : is_NaN (max_ m x) = false) by (unfold max_; by destruct (flt m x)).
    destruct (IH (max_ m x) Hmx Hl) as [H1 H2]. split; [done |]. apply Forall_cons in H2 as [H2 H3].
    assert (Hge : fge (max_ m x) m /\ fge (max_ m x) x).
    { unfold max_. destruct (flt m x) eqn:E.
      - split; [| by destruct (fge_total x x Hx Hx)]. destruct (fge_total m x Hm Hx) as [H|H]; [| done].
        unfold fge in H. congruence.
      - split; [by destruct (fge_total m m Hm Hm) | done]. }
    destruct Hge as [G1 G2]. constructor; [by apply (fge_trans _ (max_ m x)) |].
    constructor; [by apply (fge_trans _ (max_ m x)) | done].
Qed.
Lemma go_sort_by {A} (f : A -> float64) l : Forall (fun x => is_NaN (f x) = false) l ->
  StronglySorted (fun x y => fge (f x) (f y)) (go_sort (fun a b => flt (f b) (f a)) l).
Proof using Type.
  intros Hl. rewrite Forall_forall in Hl. apply (go_sort_sorted (fun a b => flt (f b) (f a))).
  - intros x y Hx Hy. by apply fge_total; apply Hl.
  - intros x y z Hx Hy Hz. by apply fge_trans; apply Hl.
Qed.

(** The greatest one of zero and the numbers of a list. *)
Definition greatest (l : list float64) (x : float64) : Prop := x ∈ zero64 :: l /\ Forall (fge x) (zero64 :: l).
Definition normalised (x greatest : float64) : float64 := if fneq greatest zero64 then fdiv x greatest else x.
Lemma max_fold_in l : forall m, foldl max_ m l ∈ m :: l.
Proof using Type.
  induction l as [|x l IH]; intros m; cbn [foldl]; [by left |].
  specialize (IH (max_ m x)). apply elem_of_cons in IH as [E|Hin]; [| by right; right].
  rewrite E. unfold max_. destruct (flt m x); [right; left | left].
Qed.
Lemma max_fold_greatest l : Forall (fun x => is_NaN x = false) l -> greatest l (foldl max_ zero64 l).
Proof using Type. intros Hl. split; [apply max_fold_in | by apply max_fold]. Qed.
Lemma greatest_perm l l' x : l ≡ₚ l' -> greatest l x -> greatest l' x.
Proof using Type. intros Hp [H1 H2]. unfold greatest. by rewrite <-Hp. Qed.

(** C24. How the pages of a search are ranked.  For a query with at least two common pages,
    whose scores are numbers: no page that is left out has a higher score than one that is
    shown; with S and P the greatest score and the greatest page rank of the shown pages (at
    least 0), a shown page of score s and page rank p has the rank 0.7 (s/S) + 0.3 p (p/P),
    where nothing is divided by 0 - the page rank enters twice; and the pages are shown in
    the order of their ranks, if these are numbers. *)
Theorem search_ranking q m ms ranked :
  word_maps (Split q) = m :: ms ->
  let found := common ms (pages m) in
  let tfidf link := (fun w => tf w link) <$> m :: m :: ms in
  let score link := sim_score (tfidf link) in
  (2 <= size found)%nat -> (forall link, link ∈ found -> is_NaN (score link) = false) ->
  (forall link, link ∈ found -> is_NaN (page_rank link) = false) ->
  DoSearch Log StemString LookupValue range docs q = Ok ranked ->
  let shown := (fun r => Link (Result r)) <$> ranked in
  (forall link link', link ∈ found -> link ∉ shown -> link' ∈ shown -> fge (score link') (score link)) /\
  (exists S P, greatest (score <$> shown) S /\ greatest (page_rank <$> shown) P /\
    Forall (fun r => let link := Link (Result r) in
      TfIdf (Result r) = tfidf link /\ SimScore (Result r) = normalised (score link) S /\ PageRank_ r = page_rank link /\
      Rank r = fadd (fmul (constant 7 10) (normalised (score link) S))
                    (fmul (fmul (constant 3 10) (page_rank link)) (normalised (page_rank link) P))) ranked) /\
  (Forall (fun r => is_NaN (Rank r) = false) ranked -> StronglySorted (fun r r' => fge (Rank r) (Rank r')) ranked).
Proof using Hwords Hranks Hrange.
  intros Hm found tfidf score Hsize Hnan Hpnan Hrun shown.
  destruct (DoSearch_run q m ms Hm) as (rs0 & Hs0 & E). rewrite E in Hrun. apply Ok_inj in Hrun as <-. clear E.
  pose proof (scored_size _ _ _ Hs0) as Hlen. fold found in Hlen.
  assert (Hsc : forall r, r ∈ Results (sort_results rs0) -> Link r ∈ found /\ r = mkSearchResult (Link r) (tfidf (Link r)) (score (Link r))).
  { intros r Hr. unfold sort_results in Hr. cbn [Results] in Hr.
    destruct (Nat.ltb_spec (length (Results rs0)) 2) as [Hl|_]; [lia |].
    rewrite go_sort_perm in Hr. apply list_elem_of_fmap in Hr as (r0 & -> & Hr0).
    split; [cbn [Link CalculateSimScore]; apply Hs0; by apply list_elem_of_fmap_2 |].
    unfold CalculateSimScore. cbn [Link]. by rewrite (scored_tfidf _ _ _ Hs0 r0 Hr0). }
  assert (Hkey : forall r, r ∈ Results (sort_results rs0) -> sim_score (TfIdf r) = score (Link r)).
  { intros r Hr. destruct (Hsc r Hr) as [_ ->]. done. }
  assert (Hsorted : StronglySorted (fun x y => fge (sim_score (TfIdf x)) (sim_score (TfIdf y))) (Results (sort_results rs0))).
  { unfold sort_results in *. cbn [Results] in *. destruct (Nat.ltb_spec (length (Results rs0)) 2) as [Hl|_]; [lia |].
    apply (go_sort_by (fun r => sim_score (TfIdf r))). apply Forall_forall. intros r Hr.
    rewrite <-(go_sort_perm (fun a b => flt (sim_score (TfIdf b)) (sim_score (TfIdf a)))) in Hr.
    rewrite (Hkey r Hr). apply Hnan, (Hsc r Hr). }
  apply sort_results_scored in Hs0. set (rs := Results (sort_results rs0)) in *.
  set (best := take MaxResults rs) in *.
  assert (Hbest : forall r, r ∈ best -> r ∈ rs) by (intros r Hr; eapply elem_of_sublist; [exact Hr | apply sublist_take]).
  assert (Hshown : forall link, link ∈ shown <-> link ∈ Link <$> best).
  { intros link. unfold shown, sort_ranked. rewrite go_sort_perm, <-!list_fmap_compose. done. }
  split_and!.
  - intros link link' Hl Hn Hl'. rewrite Hshown in Hn, Hl'. apply list_elem_of_fmap in Hl' as (r' & -> & Hr').
    apply (scored_pages _ _ _ Hs0) in Hl. apply list_elem_of_fmap in Hl as (r & -> & Hr). fold rs in Hr.
    destruct (take_or_after _ rs MaxResults r Hsorted Hr) as [Hin|[_ Hall]].
    + exfalso. apply Hn. by apply list_elem_of_fmap_2.
    + rewrite Forall_forall in Hall. specialize (Hall r' Hr'). cbv beta in Hall.
      rewrite <-!Hkey by (done || by apply Hbest). exact Hall.
  - assert (Hlinks : shown ≡ₚ Link <$> best) by (unfold shown, sort_ranked; by rewrite go_sort_perm, <-!list_fmap_compose).
    assert (Hscores : SimScore <$> best = score <$> (Link <$> best)).
    { rewrite <-list_fmap_compose. apply list_fmap_ext. intros i r Hr%list_elem_of_lookup_2%Hbest. destruct (Hsc r Hr) as [_ ->]. done. }
    assert (Hranks' : (fun r => page_rank (Link r)) <$> best = page_rank <$> (Link <$> best)) by by rewrite <-list_fmap_compose.
    rewrite Hscores, Hranks'. eexists _, _. split; [| split; [| apply Forall_forall; intros r Hr%shown_link]].
    + eapply greatest_perm; [by rewrite Hlinks |]. apply max_fold_greatest, Forall_fmap, Forall_fmap, Forall_forall.
      intros r Hr%Hbest. apply Hnan, (Hsc r Hr).
    + eapply greatest_perm; [by rewrite Hlinks |]. apply max_fold_greatest, Forall_fmap, Forall_fmap, Forall_forall.
      intros r Hr%Hbest. apply Hpnan, (Hsc r Hr).
    + apply list_elem_of_fmap in Hr as (r1 & -> & Hr). apply list_elem_of_fmap in Hr as (r0 & -> & Hr).
      destruct (Hsc r0 (Hbest r0 Hr)) as [_ Er]. rewrite Er. split_and!; reflexivity.
  - intros Hno. unfold sort_ranked in *. apply (go_sort_by Rank). by rewrite go_sort_perm in Hno.
Qed.

Lemma join_loop_scores P m d l : Forall (fun r => P (SimScore r)) l -> Forall (fun r => P (SimScore r)) (join_loop Log m d l).
Proof using Type.
  rewrite !Forall_forall. intros H r (r0 & occ & Hin & _ & ->)%join_loop_spec. by apply (H r0).
Qed.
(** A single page is never compared, so its score stays -1; it is shown with the rank
    -0.7 + 0.3 p (p/P). *)
Theorem single_page_unscored q m ms ranked : word_maps (Split q) = m :: ms -> size (pages m) = 1%nat ->
  DoSearch Log StemString LookupValue range docs q = Ok ranked ->
  Forall (fun r => SimScore (Result r) = of_int (-1)) ranked.
Proof using Hwords Hranks Hrange.
  intros Hm Hone. destruct (first_found_spec (Split q)) as (rest & H1 & H2). rewrite Hm in H1, H2.
  unfold DoSearch. rewrite H2. cbn [head mbind option_bind outcome_bind]. rewrite join_tokens_spec, H1.
  cbn [mbind outcome_bind]. rewrite fetch_ranks_spec. cbn [mbind outcome_bind]. intros E%Ok_inj. rewrite <-E. clear E.
  pose proof (NewSearchResults_scored m) as Hs. pose proof (scored_size _ _ _ Hs) as Hlen. rewrite Hone in Hlen.
  assert (Hnew : sort_results (NewSearchResults Log range m docs) = NewSearchResults Log range m docs).
  { unfold sort_results. by rewrite Hlen. }
  rewrite Hnew. set (rs0 := foldl (Join Log) _ (m :: ms)).
  assert (Hrs0 : (length (Results rs0) <= 1)%nat /\ Forall (fun r => SimScore r = of_int (-1)) (Results rs0)).
  { assert (Hinv : forall l rs, (length (Results rs) <= 1)%nat /\ Forall (fun r => SimScore r = of_int (-1)) (Results rs) ->
      (length (Results (foldl (Join Log) rs l)) <= 1)%nat /\
      Forall (fun r => SimScore r = of_int (-1)) (Results (foldl (Join Log) rs l))).
    { induction l as [|x l IH]; intros rs [Hl Hf]; [done |]. cbn [foldl]. apply IH. cbn [Results Join]. split.
      - pose proof (sublist_length _ _ (join_loop_sublist x (numberOfDocs rs) (Results rs))) as Hsub.
        rewrite !length_fmap in Hsub. lia.
      - by apply (join_loop_scores (fun s => s = of_int (-1))). }
    apply Hinv. rewrite Hlen. split; [done |]. unfold NewSearchResults. cbn [Results].
    apply Forall_fmap, Forall_forall. done. }
  destruct Hrs0 as [Hl Hf]. apply Forall_forall. intros r Hr%shown_link.
  unfold sort_results in Hr. destruct (Nat.ltb_spec (length (Results rs0)) 2) as [_|]; [| lia]. cbn [Results] in Hr.
  destruct (Results rs0) as [|r0 [|? ?]]; cbn [length] in Hl; [by apply not_elem_of_nil in Hr | | lia].
  apply Forall_cons in Hf as [Hf _]. cbn [take MaxResults fmap list_fmap] in Hr. apply list_elem_of_singleton in Hr as ->.
  cbn [rank_result unranked Result SimScore foldl]. rewrite Hf. reflexivity.
Qed.
End Properties.

(** ** Requests of the client *)
Inductive dht_client_effect :=
  | PrintNodes (ids : list TypeID)
  | PrintResults (results : list RankedResult)
  | SendStores (stores : list store_request).
Definition clientDHTListen `{HG : GoSort} `{HK : Protobuf KeywordToURLMap has_links}
    {rank_ok : RankInfo -> Prop} `{HPR : Protobuf RankInfo rank_ok}
    (Log : float64 -> float64) (StemString : string -> string) (LookupNodes : TypeID -> list NodeState)
    (LookupValue : TypeID -> string -> option bytes) (range : gmap string Z -> list (string * Z)) (docs : Z)
    (request : DHTRequest) : outcome (list dht_client_effect) :=
  match dr_Lookup request, dr_Store request with
  | Some lookup, _ =>
      match dl_Node lookup with
      | Some node => Ok [PrintNodes (NodeID <$> LookupNodes node)]
      | None =>
          match dl_Key lookup with
          | None => Panic "nil pointer dereference"
          | Some key => results ← DoSearch Log StemString LookupValue range docs key; Ok [PrintResults results]
          end
      end
  | None, Some storeReq =>
      match ds_Key storeReq with
      | None => Panic "nil pointer dereference"
      | Some key => Ok [SendStores (StoreInDHT (LookupNodes key) key (ds_Value storeReq) (ds_Type storeReq))]
      end
  | None, None => Ok []
  end.

(** ** Samples *)
Fixpoint insert_sorted {A} (less : A -> A -> bool) (x : A) (l : list A) : list A :=
  match l with [] => [x] | y :: rest => if less y x then y :: insert_sorted less x rest else x :: l end.
Definition insertion_sort {A} (less : A -> A -> bool) (l : list A) : list A := foldr (insert_sorted less) [] l.
Lemma insert_sorted_perm {A} less (x : A) l : insert_sorted less x l ≡ₚ x :: l.
Proof.
  induction l as [|y l IH]; cbn [insert_sorted]; [done |]. destruct (less y x); [| done]. rewrite IH. apply perm_swap.
Qed.
Lemma insertion_sort_perm {A} (less : A -> A -> bool) l : insertion_sort less l ≡ₚ l.
Proof. induction l as [|x l IH]; [done |]. cbn [insertion_sort foldr]. by rewrite insert_sorted_perm, IH. Qed.
Section Sorted.
Context {A : Type} (less : A -> A -> bool).
Abbreviation R := (fun x y => less y x = false).
Lemma insert_sorted_sorted x l :
  (forall y z, y ∈ x :: l -> z ∈ x :: l -> R y z \/ R z y) ->
  (forall a b c, a ∈ x :: l -> b ∈ x :: l -> c ∈ x :: l -> R a b -> R b c -> R a c) ->
  StronglySorted R l -> StronglySorted R (insert_sorted less x l).
Proof using Type.
  intros Ht Htr Hs. induction Hs as [|y l Hs IH Hy]; cbn [insert_sorted]; [by repeat constructor |].
  rewrite Forall_forall in Hy. destruct (less y x) eqn:E.
  - constructor; [apply IH |].
    + intros a b Ha Hb. apply Ht; set_solver.
    + intros a b c Ha Hb Hc. apply Htr; set_solver.
    + apply Forall_forall. intros z Hz. rewrite insert_sorted_perm in Hz. apply elem_of_cons in Hz as [->|Hz]; [| by apply Hy].
      destruct (Ht x y) as [H|H]; [left | right; left | congruence | exact H].
  - constructor; [by constructor; [| apply Forall_forall] |].
    apply Forall_forall. intros z [->|Hz]%elem_of_cons; [exact E |].
    apply (Htr x y z); [left | right; left | right; by right | exact E | by apply Hy].
Qed.
End Sorted.
#[export] Instance insertion_sorting : GoSort.
Proof.
  refine {| go_sort A less l := insertion_sort less l |}.
  - intros A less l. apply insertion_sort_perm.
  - intros A less l Ht Htr. induction l as [|x l IH]; [constructor |]. cbn [insertion_sort foldr].
    assert (Hin : forall y, y ∈ x :: insertion_sort less l -> y ∈ x :: l).
    { intros y. rewrite (insertion_sort_perm less l). done. }
    apply insert_sorted_sorted.
    + intros y z Hy Hz. by apply Ht; apply Hin.
    + intros a b c Ha Hb Hc. by apply Htr; apply Hin.
    + apply IH; [intros y z Hy Hz; apply Ht; by right | intros a b c Ha Hb Hc; apply Htr; by right].
Defined.
Definition rocq_pages : KeywordToURLMap := mkKeywordToURLMap "rocq" {["/a" := 2; "/b" := 5; "/c" := 1]}%string.
Definition proof_pages : KeywordToURLMap := mkKeywordToURLMap "proof" {["/a" := 3; "/b" := 1]}%string.
(** A network that stores two words and one page rank. *)
Definition sample_network (id : TypeID) (bucket : string) : option bytes :=
  if String.eqb bucket KeywordsBucket then
    if bool_decide (id = GenerateKeyHash "rocq") then Some (pb_encode rocq_pages)
    else if bool_decide (id = GenerateKeyHash "proof") then Some (pb_encode proof_pages) else None
  else if String.eqb bucket PageRankBucket then
    if bool_decide (id = GenerateKeyHash "/b") then Some (pb_encode page_b) else None
  else None.
Definition sample_Log (x : float64) : float64 := fsub x (constant 1 2).
Lemma sample_words id data : sample_network id KeywordsBucket = Some data ->
  is_Some (pb_decode data : option KeywordToURLMap).
Proof.
  unfold sample_network. rewrite String.eqb_refl. case_bool_decide; [| case_bool_decide; [| discriminate]];
    intros E%(inj Some); rewrite <-E, pb_roundtrip by discriminate; eexists; reflexivity.
Qed.
Lemma sample_ranks_ok id data : sample_network id PageRankBucket = Some data -> is_Some (pb_decode data : option RankInfo).
Proof.
  unfold sample_network. rewrite String.eqb_refl. change (String.eqb PageRankBucket KeywordsBucket) with false.
  cbv iota. case_bool_decide; [| discriminate]. intros E%(inj Some). rewrite <-E, pb_roundtrip by exact I.
  eexists. reflexivity.
Qed.
Definition sample_search := DoSearch sample_Log id sample_network map_to_list 10.
Lemma proof_not_rocq : GenerateKeyHash "proof" <> GenerateKeyHash "rocq".
Proof. apply (bool_decide_unpack _). vm_compute. exact I. Qed.
Lemma sample_maps : word_maps id sample_network (Split "rocq is proof") = [rocq_pages; proof_pages].
Proof.
  assert (E1 : word_map id sample_network "rocq" = Some rocq_pages).
  { unfold word_map, sample_network. cbn [String.length MinWordLen Nat.ltb Nat.leb id]. rewrite String.eqb_refl.
    rewrite bool_decide_eq_true_2 by reflexivity. cbn [mbind option_bind]. by rewrite pb_roundtrip. }
  assert (E2 : word_map id sample_network "proof" = Some proof_pages).
  { unfold word_map, sample_network. cbn [String.length MinWordLen Nat.ltb Nat.leb id]. rewrite String.eqb_refl.
    rewrite bool_decide_eq_false_2 by exact proof_not_rocq. rewrite bool_decide_eq_true_2 by reflexivity.
    cbn [mbind option_bind]. by rewrite pb_roundtrip. }
  change (Split "rocq is proof") with ["rocq"; "is"; "proof"]%string. rewrite !word_maps_cons, E1, E2. reflexivity.
Qed.
Lemma search_common_pages_witness : exists ranked, sample_search "rocq is proof" = Ok ranked /\
  length ranked = 2%nat /\ Forall (fun r => length (TfIdf (Result r)) = 3%nat) ranked.
Proof.
  destruct (search_common_pages sample_Log id sample_network map_to_list 10 sample_words sample_ranks_ok
    (fun m => reflexivity _) "rocq is proof") as (ranked & H1 & H2).
  exists ranked. split; [exact H1 |]. rewrite sample_maps in H2. destruct H2 as (_ & H2 & H3). split.
  - rewrite H2. vm_compute. reflexivity.
  - eapply Forall_impl; [exact H3 |]. intros r [_ Hr]. cbv beta in Hr. rewrite Hr. reflexivity.
Defined.
Lemma sample_scores link : link ∈ common [proof_pages] (pages rocq_pages) ->
  is_NaN (sim_score ((fun w => tf sample_Log 10 w link) <$> [rocq_pages; rocq_pages; proof_pages])) = false /\
  is_NaN (page_rank sample_network link) = false.
Proof.
  assert (E : common [proof_pages] (pages rocq_pages) = {["/a"; "/b"]}%string) by (vm_compute; reflexivity).
  rewrite E. intros Hl. split.
  - apply elem_of_union in Hl as [->%elem_of_singleton| ->%elem_of_singleton]; vm_compute; reflexivity.
  - unfold page_rank, sample_network. change (String.eqb PageRankBucket KeywordsBucket) with false. cbv iota.
    rewrite String.eqb_refl. case_bool_decide; [| reflexivity]. by rewrite pb_roundtrip.
Qed.
Lemma search_ranking_witness : exists ranked, sample_search "rocq is proof" = Ok ranked /\
  exists S P, let score link := sim_score ((fun w => tf sample_Log 10 w link) <$> [rocq_pages; rocq_pages; proof_pages]) in
    greatest (score <$> ((fun r => Link (Result r)) <$> ranked)) S /\
    Forall (fun r => Rank r = fadd (fmul (constant 7 10) (normalised (score (Link (Result r))) S))
      (fmul (fmul (constant 3 10) (page_rank sample_network (Link (Result r))))
            (normalised (page_rank sample_network (Link (Result r))) P))) ranked.
Proof.
  destruct (search_common_pages sample_Log id sample_network map_to_list 10 sample_words sample_ranks_ok
    (fun m => reflexivity _) "rocq is proof") as (ranked & H1 & _).
  exists ranked. split; [exact H1 |].
  destruct (search_ranking sample_Log id sample_network map_to_list 10 sample_words sample_ranks_ok
    (fun m => reflexivity _) "rocq is proof" rocq_pages [proof_pages] ranked) as (_ & (S & P & HS & _ & H) & _).
  - exact sample_maps.
  - vm_compute. lia.
  - intros link Hl. by apply sample_scores.
  - intros link Hl. by apply sample_scores.
  - exact H1.
  - exists S, P. split; [exact HS |]. eapply Forall_impl; [exact H |]. intros r (_ & _ & _ & Hr). exact Hr.
Defined.
