(* ===== verification/Client.v ===== *)
(** * Clients (client/client.go, and the requests of the web page in main.go)

    A command-line client and the handlers of the web page build one request and send it to the
    gossiper.  Sockets and encoding are left out: a client is the request it sends, if any.
    [strings.ToLower], whose tables are Unicode's, and the file system are parameters. *)
From S2P Require Import Prelude DhtId DhtMessage CrawlerPacket Dto Gossip Dispatch FileParsing.
From S2P Require Import Storage Crypto Sessions Float64 Batches PageRank DhtNode Crawler Search.

(** ** The standard library: [hex.DecodeString], [strings.Split] at one character, [strconv.Atoi] *)
Definition digit_value (a : Ascii.ascii) : option Z :=
  let n := Z.of_N (Ascii.N_of_ascii a) in
  if (48 <=? n) && (n <=? 57) then Some (n - 48)
  else if (97 <=? n) && (n <=? 102) then Some (n - 87)
  else if (65 <=? n) && (n <=? 70) then Some (n - 55)
  else None.
Fixpoint decode_hex (l : list Ascii.ascii) : option bytes :=
  match l with
  | [] => Some []
  | [_] => None
  | a :: b :: rest => x ← digit_value a; y ← digit_value b; more ← decode_hex rest; Some (x * 16 + y :: more)
  end.
Definition DecodeString (s : string) : option bytes := decode_hex (String.list_ascii_of_string s).

Fixpoint split_at (sep : Ascii.ascii) (word : list Ascii.ascii) (l : list Ascii.ascii) : list (list Ascii.ascii) :=
  match l with
  | [] => [word]
  | a :: rest => if Ascii.eqb a sep then word :: split_at sep [] rest else split_at sep (word ++ [a]) rest
  end.
Definition SplitAt (sep : Ascii.ascii) (s : string) : list string :=
  String.string_of_list_ascii <$> split_at sep [] (String.list_ascii_of_string s).
Definition colon : Ascii.ascii := Ascii.ascii_of_nat 58.
Definition comma : Ascii.ascii := Ascii.ascii_of_nat 44.
Definition minus : Ascii.ascii := Ascii.ascii_of_nat 45.
Definition plus : Ascii.ascii := Ascii.ascii_of_nat 43.

Fixpoint decimal (z : Z) (l : list Ascii.ascii) : option Z :=
  match l with
  | [] => Some z
  | a :: rest => d ← digit_value a; if d <? 10 then decimal (z * 10 + d) rest else None
  end.
Definition Atoi (s : string) : option Z :=
  let '(sign, digits) :=
    match String.list_ascii_of_string s with
    | a :: rest => if Ascii.eqb a minus then (-1, rest) else if Ascii.eqb a plus then (1, rest) else (1, a :: rest)
    | [] => (1, [])
    end in
  match digits with
  | [] => None
  | _ => z ← decimal 0 digits; let z := sign * z in if (- 2 ^ 63 <=? z) && (z <? 2 ^ 63) then Some z else None
  end.

(** ** Requests *)
Definition packet_request p := mkClientRequest (Some p) None None None None None.
Definition share_request f := mkClientRequest None (Some f) None None None None.
Definition download_request f := mkClientRequest None None (Some f) None None None.
Definition search_request f := mkClientRequest None None None (Some f) None None.
Definition lookup_request l := mkClientRequest None None None None (Some l) None.
Definition store_request_ s := mkClientRequest None None None None None (Some s).
Definition message_request (text : string) : ClientRequest := packet_request (simple_packet (mkSimpleMessage "" "" text)).
Definition private_packet (m : PrivateMessage) : GossipPacket :=
  mkGossipPacket None None None (Some m) None None None None None None None None None None.
Definition private_request (dest text : string) : ClientRequest :=
  packet_request (private_packet (mkPrivateMessage "" 0 text dest 0)).

(** ** The command-line client *)
Record Client := mkClient {
  msg : string; dest : string; file : string; request : string; keywords : string; budget : Z;
  lookupKey : string; lookupNode : string; store : string
}.
Definition NewClient (dest file msg request keywords : string) (budget : Z) (lookupNode lookupKey store : string) : Client :=
  mkClient msg dest file request keywords budget lookupKey lookupNode store.

Section Client.
(** The content of a file; [None] if it does not exist. *)
Context (ToLower : string -> string) (read_file : string -> option bytes).

Definition getByteValueForStore (value : string) : bytes :=
  match read_file value with Some data => data | None => bytes_of_string value end.
Definition to_id (idB : option bytes) : option TypeID :=
  idB ← idB; let '(id, ok) := ConvertToTypeID idB in if ok : bool then Some id else None.
(** [None]: nothing is sent. *)
Definition sendUDP (c : Client) : outcome (option ClientRequest) :=
  if negb (String.eqb (store c) "") then
    let tmp := SplitAt colon (store c) in
    match tmp with
    | k :: value :: _ =>
        let hash := GenerateKeyHash (ToLower k) in
        match to_id (DecodeString (hex hash)) with
        | None => Ok None
        | Some id => Ok (Some (store_request_ (mkDHTStore (Some id) "POST" (getByteValueForStore value))))
        end
    | _ => Panic "index out of range [1]"
    end
  else if negb (String.eqb (lookupNode c) "") then
    match to_id (DecodeString (lookupNode c)) with
    | None => Ok None
    | Some id => Ok (Some (lookup_request (mkDHTLookup (Some id) None)))
    end
  else if negb (String.eqb (lookupKey c) "") then Ok (Some (lookup_request (mkDHTLookup None (Some (lookupKey c)))))
  else if negb (String.eqb (keywords c) "") then
    Ok (Some (search_request (mkFileToSearch (budget c) (SplitAt comma (keywords c)))))
  else if negb (String.eqb (request c) "") then
    match DecodeString (request c) ≫= ConvertToHash32 with
    | None => Ok None
    | Some hash32 => Ok (Some (download_request (mkFileToDownload (file c) (dest c) hash32)))
    end
  else if negb (String.eqb (file c) "") then Ok (Some (share_request (mkFileToShare (file c))))
  else if negb (String.eqb (dest c) "") then Ok (Some (private_request (dest c) (msg c)))
  else Ok (Some (message_request (msg c))).
End Client.

(** ** The web page: what is posted, and the request it leads to *)
Inductive web_post :=
  | PostMessage (message : string)
  | PostPrivateMessage (message destName : string)
  | PostShareFile (file : string)
  | PostDownload (file origin metahash : string)
  | PostSearch (keywords budget : string).
Definition sendFileDownloadUDP (saveAs from metahash : string) : option ClientRequest :=
  hash ← DecodeString metahash;
  hash32 ← ConvertToHash32 hash;
  Some (download_request (mkFileToDownload saveAs from hash32)).
Definition sendFileSearchUDP (keywords : string) (budget : Z) : ClientRequest :=
  search_request (mkFileToSearch budget (SplitAt comma keywords)).
Definition handlePost (p : web_post) : option ClientRequest :=
  match p with
  | PostMessage message => Some (message_request message)
  | PostPrivateMessage message dest => if String.eqb dest "" then None else Some (private_request dest message)
  | PostShareFile filePath => Some (share_request (mkFileToShare filePath))
  | PostDownload fileName from metahash =>
      if String.eqb fileName "" then None else sendFileDownloadUDP fileName from metahash
  | PostSearch keywords budgetS =>
      if String.eqb keywords "" then None
      else match Atoi budgetS with
           | None => None
           | Some budget => if budget <? 0 then None else Some (sendFileSearchUDP keywords (u64 budget))
           end
  end.

(** ** Properties *)
Lemma digit_value_hex d : 0 <= d < 16 -> digit_value (hex_digit d) = Some d.
Proof.
  intros Hd. unfold digit_value, hex_digit.
  assert (In d (Z.of_nat <$> seq 0 16)) as Hin.
  { apply list_elem_of_In, list_elem_of_fmap. exists (Z.to_nat d). split; [lia |]. apply elem_of_seq. lia. }
  cbn in Hin. intuition subst; reflexivity.
Qed.
Lemma decode_hex_byte x l : in_width 8 x ->
  decode_hex (hex_digit (x / 16) :: hex_digit (x mod 16) :: l) = (more ← decode_hex l; Some (x :: more)).
Proof.
  intros Hx. unfold in_width in Hx. change (2 ^ 8) with 256 in Hx. cbn [decode_hex].
  rewrite (digit_value_hex (x / 16)) by (split; [apply Z.div_pos; lia | apply Z.div_lt_upper_bound; lia]).
  rewrite (digit_value_hex (x mod 16)) by (apply Z.mod_pos_bound; lia). cbn [mbind option_bind].
  replace (x / 16 * 16 + x mod 16) with x by (pose proof (Z.div_mod x 16); lia). done.
Qed.
Lemma DecodeString_hex b : wf_bytes b -> DecodeString (hex b) = Some b.
Proof.
  unfold DecodeString, hex. rewrite String.list_ascii_of_string_of_list_ascii.
  induction 1 as [|x b Hx Hb IH]; [done |]. rewrite bind_cons. cbn [app]. rewrite decode_hex_byte by done. by rewrite IH.
Qed.
Lemma to_id_hex id : wf_id id -> to_id (DecodeString (hex id)) = Some id.
Proof.
  intros [Hl Hb]. rewrite DecodeString_hex by done. unfold to_id, ConvertToTypeID. cbn [mbind option_bind].
  by rewrite bool_decide_eq_true_2.
Qed.
Lemma hex_nonempty b : b <> [] -> String.eqb (hex b) "" = false.
Proof. by destruct b. Qed.
Lemma SplitAt_two sep k v : sep ∉ String.list_ascii_of_string k -> sep ∉ String.list_ascii_of_string v ->
  SplitAt sep (k ++ String sep v)%string = [k; v].
Proof.
  intros Hk Hv. unfold SplitAt.
  assert (Hno : forall l word, sep ∉ l -> split_at sep word l = [word ++ l]).
  { induction l as [|a l IH]; intros word Hl; cbn [split_at]; [by rewrite app_nil_r |].
    apply not_elem_of_cons in Hl as [Ha Hl]. destruct (Ascii.eqb_spec a sep) as [->|_]; [done |].
    rewrite IH by done. by rewrite <-app_assoc. }
  assert (Hsplit : forall l word rest, sep ∉ l -> split_at sep word (l ++ sep :: rest) = (word ++ l) :: split_at sep [] rest).
  { induction l as [|a l IH]; intros word rest Hl; cbn [split_at app].
    - by rewrite Ascii.eqb_refl, app_nil_r.
    - apply not_elem_of_cons in Hl as [Ha Hl]. destruct (Ascii.eqb_spec a sep) as [->|_]; [done |].
      rewrite IH by done. by rewrite <-app_assoc. }
  assert (E : String.list_ascii_of_string (k ++ String sep v)%string =
    String.list_ascii_of_string k ++ sep :: String.list_ascii_of_string v).
  { clear. induction k as [|a k IH]; [done |]. exact (f_equal (cons a) IH). }
  rewrite E, Hsplit, Hno by done. cbn [app fmap list_fmap]. by rewrite !String.string_of_list_ascii_of_string.
Qed.

Definition no_options : Client := mkClient "" "" "" "" "" 0 "" "" "".
Definition with_lookupNode (s : string) : Client := mkClient "" "" "" "" "" 0 "" s "".
Definition with_store (s : string) : Client := mkClient "" "" "" "" "" 0 "" "" s.

Section Properties.
Context (ToLower : string -> string) (read_file : string -> option bytes).

(** Every request that the web page sends can be sent from the command line, except for
    sharing a file without a name. *)
Theorem web_matches_client p r : p <> PostShareFile "" -> handlePost p = Some r ->
  exists c, sendUDP ToLower read_file c = Ok (Some r).
Proof using Type.
  intros Hp. destruct p as [message|message dest|f|f from metahash|kw budgetS]; cbn [handlePost].
  - intros [= <-]. by exists (mkClient message "" "" "" "" 0 "" "" "").
  - destruct (String.eqb_spec dest "") as [|Hd]; [done |]. intros [= <-].
    exists (mkClient message dest "" "" "" 0 "" "" ""). unfold sendUDP. cbn. apply String.eqb_neq in Hd. by rewrite Hd.
  - intros [= <-]. exists (mkClient "" "" f "" "" 0 "" "" ""). unfold sendUDP. cbn.
    destruct (String.eqb_spec f "") as [->|]; done.
  - destruct (String.eqb_spec f "") as [|Hf]; [done |]. intros H.
    exists (mkClient "" from f metahash "" 0 "" "" ""). unfold sendUDP. cbn [store lookupNode lookupKey keywords request file dest].
    cbn [String.eqb negb]. destruct (String.eqb_spec metahash "") as [->|_]; [done |].
    cbn [negb]. unfold sendFileDownloadUDP in H. destruct (DecodeString metahash) as [hash|]; [| done].
    cbn [mbind option_bind] in *. destruct (ConvertToHash32 hash) as [h|]; [| done]. by injection H as <-.
  - destruct (String.eqb_spec kw "") as [|Hk]; [done |]. destruct (Atoi budgetS) as [b|]; [| done].
    destruct (b <? 0); [done |]. intros [= <-]. exists (mkClient "" "" "" "" kw (u64 b) "" "" "").
    unfold sendUDP. cbn [store lookupNode lookupKey keywords budget]. cbn [String.eqb negb].
    apply String.eqb_neq in Hk. by rewrite Hk.
Qed.

Context `{HG : GoSort} `{HK : Protobuf KeywordToURLMap has_links}.
Context {rank_ok : RankInfo -> Prop} `{HPR : Protobuf RankInfo rank_ok}.
Context (Log : float64 -> float64) (StemString : string -> string) (LookupNodes : TypeID -> list NodeState).
Context (LookupValue : TypeID -> string -> option bytes) (range : gmap string Z -> list (string * Z)) (docs : Z).
(** A request of a client, through the receive loop of the gossiper, to the routine of the DHT. *)
Definition client_to_dht (name : string) (c : Client) : outcome (list dht_client_effect) :=
  r ← sendUDP ToLower read_file c;
  match r with
  | None => Ok []
  | Some r =>
      received ← receiveClientUDP name r;
      match received with
      | ClientDHT d => clientDHTListen Log StemString LookupNodes LookupValue range docs d
      | _ => Ok []
      end
  end.

(** Looking up a node by the identifier that a gossiper prints: the request that the client
    makes of it reaches the DHT routine, which looks up exactly this identifier. *)
Theorem node_lookup_roundtrip name id : wf_id id ->
  client_to_dht name (with_lookupNode (hex id)) = Ok [PrintNodes (NodeID <$> LookupNodes id)].
Proof using Type.
  intros Hid. unfold client_to_dht, sendUDP. cbn [store with_lookupNode lookupNode String.eqb negb].
  rewrite hex_nonempty, (to_id_hex id Hid); [done |]. destruct Hid as [Hl _]. by intros ->.
Qed.

(** A store of the client is sent to the closest node with the type "POST". *)
Lemma client_store_sent name k v : let store := (k ++ String colon v)%string in
  colon ∉ String.list_ascii_of_string k -> colon ∉ String.list_ascii_of_string v ->
  client_to_dht name (with_store store) = Ok [SendStores (StoreInDHT (LookupNodes (GenerateKeyHash (ToLower k)))
    (GenerateKeyHash (ToLower k)) (getByteValueForStore read_file v) "POST")].
Proof using Type.
  intros s Hk Hv. unfold client_to_dht, sendUDP. cbn [store with_store].
  assert (Hs : String.eqb s "" = false) by by destruct k.
  rewrite Hs. cbn [negb]. unfold s at 1. rewrite SplitAt_two by done.
  rewrite (to_id_hex _ (GenerateKeyHash_wf _)). done.
Qed.
End Properties.

(** ** A value stored by a client *)
Section Store.
Context {db : Type} `{HB : Bolt db} {C : Type} `{HC : Cache C} {H : Type} `{HS : Sketch H} `{HA : AEAD}.
Context `{HK : Protobuf KeywordToURLMap has_links}.
Context {rank_ok : RankInfo -> Prop} `{HPR : Protobuf RankInfo rank_ok}.
Context {links_ok : OutBoundLinksPackage -> Prop} `{HPL : Protobuf OutBoundLinksPackage links_ok}.
Context {citations_ok : Citations -> Prop} `{HPC : Protobuf Citations citations_ok}.
Context {batch_ok : BatchMessage -> Prop} `{HPB : Protobuf BatchMessage batch_ok}.
Context (update_length : RankUpdate -> Z) (partial_rank : bytes -> RankInfo).
Context (partial_batch : bytes -> BatchMessage).
Context (LookupNodes : TypeID -> list NodeState) (LookupValue : TypeID -> string -> option bytes).
Context (address : string) (range : gmap owner (list string) -> list (owner * list string)).
Context (order : frequency_order) (depth : nat).

(** What a client stores is lost: the closest node gets a store of the type "POST", which is
    none of the types it knows, and its state does not change. *)
Theorem client_store_dropped `{HG : GoSort} ToLower read_file Log StemString words docs name k v closest others
    (n : @dht_node db C H) nonce me you addr now :
  colon ∉ String.list_ascii_of_string k -> colon ∉ String.list_ascii_of_string v ->
  LookupNodes (GenerateKeyHash (ToLower k)) = closest :: others ->
  exists r, client_to_dht ToLower read_file Log StemString LookupNodes LookupValue words docs name
      (with_store (k ++ String colon v)) = Ok [SendStores [r]] /\
    sr_node r = closest /\ sr_data r = getByteValueForStore read_file v /\
    handle update_length partial_rank partial_batch LookupNodes LookupValue address range order depth n you addr
      (request_message nonce me r) now = Ok (n, []).
Proof using Type.
  intros Hk Hv Hl. rewrite client_store_sent by done. rewrite Hl. eexists. split; [reflexivity |].
  split_and!; [done | done |]. destruct n as [t c [] s]. reflexivity.
Qed.
End Store.

(** ** Samples *)
Definition no_file (s : string) : option bytes := None.
Lemma web_matches_client_witness : exists c,
  sendUDP id no_file c = Ok (Some (private_request "B" "hi")).
Proof.
  destruct (web_matches_client id no_file (PostPrivateMessage "hi" "B") (private_request "B" "hi")) as [c H].
  - discriminate.
  - reflexivity.
  - exists c. exact H.
Defined.
Definition one_node (i : TypeID) : list NodeState := [mkNodeState i "2.2.2.2:2"].
Lemma node_lookup_roundtrip_witness :
  client_to_dht id no_file sample_Log id one_node sample_network map_to_list 10 "A" (with_lookupNode (hex zero_id)) =
    Ok [PrintNodes [zero_id]].
Proof.
  apply (node_lookup_roundtrip id no_file sample_Log id one_node sample_network map_to_list 10 "A" zero_id).
  exact wf_id_zero.
Defined.
#[local] Existing Instance tag_cipher.
Lemma client_store_dropped_witness : exists r,
  client_to_dht id no_file sample_Log id one_node no_network map_to_list 10 "A" (with_store "word:value") =
    Ok [SendStores [r]] /\
  handle (fun _ => 100) no_partial no_partial_batch one_node no_network "1.1.1.1:1" map_to_list sorted_links 3
    sample_node zero_key "1.1.1.1:1" (request_message 7 [1] r) 50 = Ok (sample_node, []).
Proof.
  destruct (client_store_dropped (fun _ => 100) no_partial no_partial_batch one_node no_network "1.1.1.1:1" map_to_list
    sorted_links 3 id no_file sample_Log id map_to_list 10 "A" "word" "value"
    (mkNodeState (GenerateKeyHash "word") "2.2.2.2:2") [] sample_node 7 [1] zero_key "1.1.1.1:1" 50)
    as (r & H1 & _ & _ & H2).
  - apply (bool_decide_unpack _). vm_compute. exact I.
  - apply (bool_decide_unpack _). vm_compute. exact I.
  - reflexivity.
  - exists r. split; [exact H1 | exact H2].
Defined.
(** Only the part between the first two colons is stored. *)
Example value_cut : SplitAt colon "key:10:30" = ["key"; "10"; "30"]%string.
Proof. reflexivity. Qed.
Example atoi : Atoi "-12" = Some (-12) /\ Atoi "" = None /\ Atoi "9223372036854775808" = None.
Proof. vm_compute. auto. Qed.
