(* ===== verification/Engine.v ===== *)
(** * The search engine as a whole

    A page is crawled ([Crawler]), its words are stored at the nodes responsible for them
    ([CrawlNode], [DhtNode], [Storage]), and a query finds it ([Search]).  This file joins the
    parts for words that one node is responsible for. *)
From S2P Require Import Prelude DhtId CrawlerPacket Dto Storage Crypto Sessions Float64 Batches PageRank DhtNode.
From S2P Require Import Crawler CrawlNode Search.

(** [LookupValue] (gossiper/dhtAPI.go): the own database first, then the network. *)
Section Lookup.
Context {db : Type} `{HB : Bolt db} `{HK : Protobuf KeywordToURLMap has_links}.
Context (order : frequency_order) (d : db) (network : TypeID -> string -> option bytes).
Definition LookupValue (id : TypeID) (dbBucket : string) : outcome (option bytes) :=
  data ← Retrieve order d id dbBucket;
  Ok (match data with Some data => Some data | None => network id dbBucket end).
(** Its result, for the buckets that exist. *)
Definition found_value (id : TypeID) (dbBucket : string) : option bytes :=
  match LookupValue id dbBucket with Ok r => r | _ => None end.
Lemma found_small id data : bolt_get d KeywordsBucket id = Some data -> Z.of_nat (length data) <= maxSize ->
  found_value id KeywordsBucket = Some data.
Proof using Type.
  intros Hg Hs. unfold found_value, LookupValue, Retrieve. rewrite Hg.
  rewrite bool_decide_eq_true_2 by (cbn; set_solver). cbn [negb].
  destruct (String.eqb_spec KeywordsBucket KeywordsBucket) as [_|]; [| done].
  destruct (Z.ltb_spec maxSize (Z.of_nat (length data))) as [|_]; [lia |]. done.
Qed.
End Lookup.

Section Engine.
Context {db : Type} `{HB : Bolt db} {C : Type} `{HC : Cache C} {H : Type} `{HS : Sketch H} `{HA : AEAD}.
Context `{HK : Protobuf KeywordToURLMap has_links} `{HG : GoSort}.
Context {rank_ok : RankInfo -> Prop} `{HPR : Protobuf RankInfo rank_ok}.
Context {links_ok : OutBoundLinksPackage -> Prop} `{HPL : Protobuf OutBoundLinksPackage links_ok}.
Context {citations_ok : Citations -> Prop} `{HPC : Protobuf Citations citations_ok}.
Context {batch_ok : BatchMessage -> Prop} `{HPB : Protobuf BatchMessage batch_ok}.
Context {hyper_ok : HyperlinkPackage -> Prop} `{HPH : Protobuf HyperlinkPackage hyper_ok}.
Context (update_length : RankUpdate -> Z) (partial_rank : bytes -> RankInfo) (partial_batch : bytes -> BatchMessage).
Context (LookupNodes : TypeID -> list NodeState) (network : TypeID -> string -> option bytes).
Context (address : string) (me : TypeID) (depth : nat) (keys : nat -> option (option bytes)) (nonces : nat -> bytes).
Context (keyword_length : KeywordToURLMap -> Z) (links_length : OutBoundLinksPackage -> Z) (citations_length : Citations -> Z).
Context (gob : gset string -> option bytes) (cleanString StemString : string -> string) (Log : float64 -> float64).
(** The orders in which Go visits its maps. *)
Context (lorder : gmap owner (list string) -> list (owner * list string)).
Context (korder : gmap owner (list KeywordToURLMap) -> list (owner * list KeywordToURLMap)).
Context (corder : gmap owner (list Citations) -> list (owner * list Citations)).
Context (words range : gmap string Z -> list (string * Z)) (order : frequency_order).
Context (Hkorder : forall m, korder m ≡ₚ map_to_list m) (Hwords : forall m, words m ≡ₚ map_to_list m).
Context (Hrange : forall m, range m ≡ₚ map_to_list m) (Hbatch : forall b, batch_ok b).

Abbreviation listener := (webCrawlerListener update_length partial_rank partial_batch LookupNodes network address me
  lorder depth keyword_length links_length citations_length false keys nonces korder corder words).
Abbreviation value_in g := (found_value order (rk_db g) network).

(** The words of a query. *)
Definition query_words (q : string) : list string := filter (fun t => (MinWordLen <= String.length t)%nat) (Split q).

Lemma index_packet wc url info packet : packet ∈ (crawl_page gob wc url (Some info) false).2 ->
  is_Some (c_IndexPackage packet) -> packet = packet_Index (mkIndexPackage (pi_KeywordFrequencies info) url).
Proof using Type.
  unfold crawl_page. destruct (filter_new _ _) as [wc' f]. destruct (gob (past wc')); cbn [snd];
    rewrite !elem_of_cons, elem_of_nil; intros Hp [ip Hip];
    repeat (destruct Hp as [->|Hp]); try discriminate Hip; done.
Qed.
Lemma query_maps Stem L q (P : KeywordToURLMap -> Prop) : query_words q <> [] ->
  (forall t, t ∈ query_words q -> exists m, L (GenerateKeyHash (Stem t)) KeywordsBucket ≫= pb_decode = Some m /\ P m) ->
  exists m ms, word_maps Stem L (Split q) = m :: ms /\ Forall P (m :: ms).
Proof using Type.
  unfold query_words, word_maps. induction (Split q) as [|t l IH]; [done |]. rewrite filter_cons. cbn [omap list_omap].
  unfold word_map at 1. destruct (decide (MinWordLen <= String.length t)%nat) as [Hl|Hl].
  - intros _ Hall. destruct (Nat.ltb_spec (String.length t) MinWordLen) as [|_]; [lia |].
    destruct (Hall t) as (m & -> & Hm); [left |].
    destruct (decide (filter (fun t => (MinWordLen <= String.length t)%nat) l = [])) as [E|E].
    + exists m, (omap (word_map Stem L) l). split; [done |]. constructor; [done |].
      apply Forall_forall. intros m' (t' & Ht' & Hm')%list_elem_of_omap. exfalso. unfold word_map in Hm'.
      destruct (Nat.ltb_spec (String.length t') MinWordLen); [done |].
      assert (t' ∈ filter (fun t => (MinWordLen <= String.length t)%nat) l) as Hin by by apply list_elem_of_filter.
      rewrite E in Hin. by apply not_elem_of_nil in Hin.
    + destruct IH as (m' & ms & E' & Hms); [done | intros t' Ht'; apply Hall; by right |].
      exists m, (m' :: ms). split; [by rewrite <-E' | by constructor].
  - intros Hne Hall. destruct (Nat.ltb_spec (String.length t) MinWordLen) as [_|]; [| lia]. by apply IH.
Qed.
Lemma common_all ms s link : link ∈ s -> Forall (fun m => link ∈ pages m) ms -> link ∈ common ms s.
Proof using Type.
  unfold common. intros Hs Hms. revert s Hs. induction Hms as [|m ms Hm _ IH]; intros s Hs; cbn [foldl]; [done |].
  apply IH. by apply elem_of_intersection.
Qed.

(** C13. A crawled page is found.  Let this node be the closest one to every word of the page [doc],
    and let the words have different hashes.  When the crawler finds the page new, the packet
    that it sends for the index is stored without error, and afterwards a query all of whose
    words occur on the page - compared by their stems, and with entries that fit into a packet
    - returns without error; if it has fewer than [MaxResults] results, the page is one of them. *)
Theorem crawled_page_found wc g doc url info packet idx docs q :
  crawlUrl cleanString StemString (Some doc) true = Ok (Some info) ->
  packet ∈ (crawl_page gob wc url (Some info) false).2 -> is_Some (c_IndexPackage packet) ->
  let freqs := pi_KeywordFrequencies info in
  (forall k, k ∈ dom freqs -> head (LookupNodes (GenerateKeyHash k)) = Some (mkNodeState me address)) ->
  hashes_distinct (dom freqs) -> index_ok (dom freqs) (rk_db g) idx ->
  query_words q <> [] ->
  (forall t, t ∈ query_words q -> StemString t ∈ extractWords cleanString StemString doc) ->
  exists g', listener g packet = Ok (g', []) /\
    ((forall id data, value_in g' id KeywordsBucket = Some data -> is_Some (pb_decode data : option KeywordToURLMap)) ->
     (forall id data, value_in g' id PageRankBucket = Some data -> is_Some (pb_decode data : option RankInfo)) ->
     (forall t data, t ∈ query_words q ->
        bolt_get (rk_db g') KeywordsBucket (GenerateKeyHash (StemString t)) = Some data ->
        Z.of_nat (length data) <= maxSize) ->
     exists ranked, DoSearch Log StemString (value_in g') range docs q = Ok ranked /\
       ((length ranked < MaxResults)%nat -> url ∈ (fun r => Link (Result r)) <$> ranked)).
Proof using Hkorder Hwords Hrange Hbatch.
  intros Hc Hp Hip freqs Hl Hdist Hidx Hq Hstem. rewrite (index_packet wc url info packet Hp Hip).
  assert (Hfreq : forall k, k ∈ extractWords cleanString StemString doc -> is_Some (freqs !! k)).
  { unfold crawlUrl in Hc. cbn [negb] in Hc. apply outcome_bind_Ok in Hc as (urls & _ & Hi).
    injection Hi as Hi. intros k Hk. unfold freqs. rewrite <-Hi. cbn [pi_KeywordFrequencies].
    rewrite keywordFrequency_spec, decide_True by exact Hk. by eexists. }
  assert (Hne : freqs <> ∅).
  { intros E. destruct (query_words q) as [|t l]; [done |]. destruct (Hfreq _ (Hstem t ltac:(left))) as [f Hf].
    rewrite E in Hf. done. }
  destruct (keywords_saved update_length partial_rank partial_batch LookupNodes network address me lorder depth
    keyword_length keys nonces korder words g url freqs idx Hbatch Hkorder (Hwords freqs) Hne Hl Hdist Hidx)
    as (g' & Hsave & Hi').
  exists g'. split.
  { unfold webCrawlerListener, packet_Index. cbn [c_OutBoundLinks c_CitationsPackage c_HyperlinkPackage c_IndexPackage].
    fold freqs. rewrite Hsave. done. }
  intros Hdec Hrank Hsmall.
  destruct (query_maps StemString (value_in g') q (fun m => url ∈ pages m) Hq) as (m & ms & Hm & Hall).
  { intros t Ht. destruct (Hfreq _ (Hstem t Ht)) as [f Hf]. pose proof (Hi' _ (elem_of_dom_2 _ _ _ Hf)) as Hk.
    rewrite (page_item_merged words freqs url idx _ f (Hwords freqs) Hf) in Hk. destruct Hk as [Hmne Hg].
    rewrite (found_small order (rk_db g') network _ _ Hg (Hsmall t _ Ht Hg)). cbn [mbind option_bind].
    rewrite pb_roundtrip by exact Hmne. eexists. split; [reflexivity |]. unfold pages. cbn [km_LinkData].
    apply elem_of_dom. rewrite lookup_union_l', lookup_singleton_eq by (rewrite lookup_singleton_eq; eauto). by eexists. }
  apply Forall_cons in Hall as [Hm0 Hall].
  apply (search_complete Log StemString (value_in g') range docs Hdec Hrank Hrange q m ms); [exact Hm |].
  by apply common_all.
Qed.
End Engine.

(** ** Samples *)
#[local] Existing Instance tag_cipher.
#[local] Existing Instance sample_Hyperlinks.
Definition empty_ranks : ranker (db := map_db) (C := gmap TypeID cache_value) (H := gset bytes) :=
  mkRanker (db := map_db) (∅, ∅) ∅ 0 0 ∅ [].
Definition proof_page : page := mkPage ["A proof"%string] [Some "/wiki/B"%string] "A proof".
Definition proof_info : PageInfo :=
  mkPageInfo ["/wiki/B"%string] {["proof"%string := 1]} (GenerateKeyHash "A proof").
Definition proof_packet : CrawlerPacket := packet_Index (mkIndexPackage {["proof"%string := 1]} "/wiki/A").
Definition sample_listener := webCrawlerListener (fun _ => 100) no_partial no_partial_batch me_closest no_network
  "1.1.1.1:1" zero_key map_to_list 1 (fun _ => 100) (fun _ => 100) (fun _ => 100) false no_keys no_nonces map_to_list
  map_to_list map_to_list.
Definition proof_entry : KeywordToURLMap := mkKeywordToURLMap "proof" {["/wiki/A"%string := 1]}.
Definition proof_db : map_db := ({[(KeywordsBucket, GenerateKeyHash "proof") := pb_encode proof_entry]}, ∅).
Lemma sample_stored : (fun p => rk_db p.1) <$> sample_listener empty_ranks proof_packet = Ok proof_db.
Proof. apply (bool_decide_unpack _). vm_compute. exact I. Qed.
Lemma proof_db_get id data : bolt_get proof_db KeywordsBucket id = Some data -> data = pb_encode proof_entry.
Proof.
  cbn [bolt_get map_bolt proof_db fst].
  destruct (decide ((KeywordsBucket, id) = (KeywordsBucket, GenerateKeyHash "proof"))) as [Hd|Hd].
  - rewrite Hd, lookup_singleton_eq. intros E. by apply (inj Some) in E.
  - rewrite lookup_singleton_ne by congruence. discriminate.
Qed.
Lemma proof_db_values id data : found_value sorted_links proof_db no_network id KeywordsBucket = Some data ->
  data = pb_encode proof_entry.
Proof.
  intros Hv. unfold found_value, LookupValue, Retrieve in Hv. destruct (negb _); [discriminate Hv |].
  destruct (bolt_get proof_db KeywordsBucket id) as [d|] eqn:E; [| discriminate Hv].
  rewrite (proof_db_get id d E) in Hv.
  assert (Hlen : (maxSize <? Z.of_nat (length (pb_encode proof_entry))) = false) by reflexivity.
  rewrite Hlen, andb_false_r in Hv. cbn [mbind outcome_bind] in Hv. by apply (inj Some) in Hv.
Qed.
Lemma proof_db_ranks id data : found_value sorted_links proof_db no_network id PageRankBucket <> Some data.
Proof.
  unfold found_value, LookupValue, Retrieve. destruct (negb _); [discriminate |].
  assert (E : bolt_get proof_db PageRankBucket id = None) by (cbn [bolt_get map_bolt proof_db fst]; by apply lookup_singleton_ne).
  rewrite E. discriminate.
Qed.

Lemma crawled_page_found_witness : exists g' ranked,
  sample_listener empty_ranks proof_packet = Ok (g', []) /\
  DoSearch sample_Log id (found_value sorted_links (rk_db g') no_network) map_to_list 10 "proof" = Ok ranked /\
  ((length ranked < MaxResults)%nat -> "/wiki/A"%string ∈ (fun r => Link (Result r)) <$> ranked).
Proof.
  destruct (crawled_page_found (fun _ => 100) no_partial no_partial_batch me_closest no_network "1.1.1.1:1" zero_key 1
    no_keys no_nonces (fun _ => 100) (fun _ => 100) (fun _ => 100) sample_gob id id sample_Log map_to_list map_to_list
    map_to_list map_to_list map_to_list sorted_links (fun m => reflexivity _) (fun m => reflexivity _)
    (fun m => reflexivity _) (fun b => I) (Crawler.New true) empty_ranks proof_page "/wiki/A" proof_info proof_packet ∅ 10
    "proof") as (g' & H1 & H2).
  - vm_compute. reflexivity.
  - cbn. do 6 right. left.
  - by eexists.
  - intros k _. reflexivity.
  - intros k k' Hk Hk' _. cbn [pi_KeywordFrequencies proof_info] in Hk, Hk'. rewrite dom_singleton_L in Hk, Hk'.
    apply elem_of_singleton in Hk, Hk'. by rewrite Hk, Hk'.
  - intros k _. apply lookup_empty.
  - discriminate.
  - intros t Ht. vm_compute in Ht. apply list_elem_of_singleton in Ht as ->. left.
  - pose proof sample_stored as Hs. unfold sample_listener in Hs. rewrite H1 in Hs. apply Ok_inj in Hs. cbn [fst] in Hs.
    rewrite Hs in H2. destruct H2 as (ranked & H2 & H3).
    + intros i data Hv. rewrite (proof_db_values i data Hv).
      rewrite pb_roundtrip by discriminate. by eexists.
    + intros i data Hv. destruct (proof_db_ranks i data Hv).
    + intros t data _ Hg. rewrite (proof_db_get _ _ Hg). vm_compute. discriminate.
    + exists g', ranked. split; [exact H1 |]. rewrite Hs. split; [exact H2 | exact H3].
Defined.
