(* ===== verification/Network.v ===== *)
(** * Networks of gossipers: anti-entropy makes all nodes agree

    One tick of the anti-entropy ticker composes the handlers of [Gossip]: a node sends its
    status packet to a known peer (antiEntropy.go), the peer answers with the messages that
    the node lacks (statusListenRoutine and peerStatusListenRoutine), and the node handles
    each of them (rumorListenRoutine).  All other packets that these handlers send may be
    lost.  A network is a map from addresses to gossipers, and a run is a sequence of ticks. *)
From stdpp Require Import relations.
From S2P Require Import Prelude Dto Containers Gossip.
Open Scope Z_scope.

(** ** Two nodes *)
(** The rumors among the packets sent to [a], in the order in which they arrive. *)
Fixpoint hear (a : Gossiper) (sender : string) (sent : list action) : outcome Gossiper :=
  match sent with
  | [] => Ok a
  | Send p addr :: rest =>
      if String.eqb addr (gs_address a) && String.eqb (GetUnderlyingType p) "rumor"
      then '(a, _) ← rumorListen a (mkPacketAddressPair p sender); hear a sender rest
      else hear a sender rest
  | _ :: rest => hear a sender rest
  end.
(** The routine of a peer gets the status packets that [statusListen] hands over. *)
Fixpoint peer_routine (b : Gossiper) (peer : string) (acts : list action) : Gossiper * list action :=
  match acts with
  | [] => (b, [])
  | SendStatus _ (Some sp) :: rest =>
      let '(b, sent, _) := peerStatusListen b peer sp in
      let '(b, sent') := peer_routine b peer rest in (b, sent ++ sent')
  | _ :: rest => peer_routine b peer rest
  end.
(** The status packet [p] of [a] arrives at [b], and the answer at [a]. *)
Definition exchange (a b : Gossiper) (p : GossipPacket) : outcome (Gossiper * Gossiper) :=
  '(b, acts) ← statusListen b (mkPacketAddressPair p (gs_address a));
  let '(b, sent) := peer_routine b (gs_address a) acts in
  a ← hear a (gs_address b) sent;
  Ok (a, b).

(** ** A network, by address *)
Abbreviation network := (gmap string Gossiper).
(** The ticker of node [i] fires; its random number is [r]. *)
Definition tick (n : network) (i : string) (r : nat) : outcome network :=
  match n !! i with
  | Some a =>
      match antiEntropy_tick a r with
      | Send p j :: _ =>
          match n !! j with
          | Some b => '(a, b) ← exchange a b p; Ok (<[j := b]> (<[i := a]> n))
          | None => Ok n
          end
      | _ => Ok n
      end
  | None => Ok n
  end.
Fixpoint run_ticks (n : network) (ticks : list (string * nat)) : outcome network :=
  match ticks with
  | [] => Ok n
  | (i, r) :: rest => n ← tick n i r; run_ticks n rest
  end.

(** A gossiper in normal mode with well-formed messages, fewer than an ID can number. *)
Record node_ok (g : Gossiper) : Prop := {
  ok_mode : UseSimple g = false;
  ok_msgs : msgs_ok (msgMap g);
  ok_keyed : msgs_keyed (msgMap g);
  ok_bound o : count (msgMap g) o < 2 ^ 32 - 1
}.
Definition messages (g : Gossiper) (o : string) : gmap Z RumorMessage := originMessages (msgMap g) o.
Definition total (g : Gossiper) (o : string) : Z := count (msgMap g) o.
(** What [a] knows of the origin [o] after asking [b]: one message more, if [b] has it. *)
Definition pulled (a b : Gossiper) (o : string) : gmap Z RumorMessage :=
  match messages b o !! (total a o + 1) with
  | Some rm => <[total a o + 1 := rm]> (messages a o)
  | None => messages a o
  end.
(** What a handler leaves: the address, and the known peers at their places. *)
Record grown (g g' : Gossiper) : Prop := {
  grown_address : gs_address g' = gs_address g;
  grown_name : gs_name g' = gs_name g;
  grown_mode : UseSimple g' = UseSimple g;
  grown_peers : GetArrayCopy (peers g) `prefix_of` GetArrayCopy (peers g')
}.
#[export] Instance grown_preorder : PreOrder grown.
Proof. split; [by constructor |]. intros a b c [] []. constructor; [congruence | congruence | congruence | by etrans]. Qed.

Lemma total_eq g g' o : messages g' o = messages g o -> total g' o = total g o.
Proof. unfold total, count. fold (messages g o) (messages g' o). by intros ->. Qed.
Lemma total_nonneg g o : 0 <= total g o.
Proof. unfold total, count. lia. Qed.
Lemma messages_dom g o id : node_ok g -> is_Some (messages g o !! id) <-> 1 <= id <= total g o.
Proof. intros H. apply (ok_msgs g H). Qed.
Lemma messages_ok g g' : (forall o, messages g' o = messages g o) -> UseSimple g' = UseSimple g -> node_ok g -> node_ok g'.
Proof.
  intros Hm Hs [H1 H2 H3 H4]. pose proof (fun o => total_eq g g' o (Hm o)) as Ht. constructor.
  - congruence.
  - intros o id. fold (messages g' o) (total g' o). rewrite Hm, Ht. apply H2.
  - intros o id rm. fold (messages g' o). rewrite Hm. apply H3.
  - intros o. fold (total g' o). rewrite Ht. apply H4.
Qed.

Lemma addToPeers_grown g peer : grown g (addToPeers g peer).1.
Proof.
  unfold addToPeers, AppendUniqueToArray. destruct (decide _); constructor; try done.
  cbn. by apply prefix_app_r.
Qed.
Lemma peerStatusListen_state b peer sp :
  exists q m, (peerStatusListen b peer sp).1.1 = set_msgMap (set_quitChanMap b q) m.
Proof.
  unfold peerStatusListen. destruct (InformListeners _ _ _) as [q notM]. exists q.
  assert (Hf : forall l m acts, exists m', (foldl (sendDesired peer) (set_msgMap (set_quitChanMap b q) m, acts) l).1
     = set_msgMap (set_quitChanMap b q) m').
  { induction l as [|v l IH]; intros m acts; [by exists m |]. cbn [foldl]. unfold sendDesired at 2.
    destruct (GetMessage _ _ _) as [m1 rm]. exact (IH m1 _). }
  destruct (Hf (peerStatusDifference (sp_Want (GetOwnStatusPacket (msgMap b))) (sp_Want sp)) (msgMap b) []) as [m Em].
  replace (set_msgMap (set_quitChanMap b q) (msgMap b)) with (set_quitChanMap b q) in Em by done.
  exists m. rewrite <-Em. destruct (foldl _ _ _) as [g acts].
  destruct (_ && _); [| done]. by destruct (decide _).
Qed.

Lemma rumorListen_step a rm sender : node_ok a -> in_width 32 (rm_ID rm) ->
  total a (rm_Origin rm) < 2 ^ 32 - 2 ->
  exists a', (exists isNew, rumorListen a (mkPacketAddressPair (rumor_packet rm) sender) = Ok (a',
      sendStatusPacket a' sender ++ (if isNew : bool then [GoRumorMonger (rumor_packet rm) sender] else []))) /\
    msgMap a' = (AddMessage (msgMap a) rm).1 /\ node_ok a' /\ grown a a' /\ seqIDCounter a' = seqIDCounter a /\
    latestMessages a' = latestMessages a ++ (if (AddMessage (msgMap a) rm).2 && IsChatRumor rm then [rm] else []) /\
    routingTable a' = (if decide (rm_Origin rm = gs_name a) then routingTable a
                       else (UpdateEntry (routingTable a) (rm_ID rm) (rm_Origin rm) sender).1).
Proof.
  intros Ha Hw Hb. rewrite (rumorListen_eq a (rumor_packet rm) rm sender) by (done || apply Ha).
  assert (Hg : grown a (learned a rm sender)).
  { etrans; [apply (addToPeers_grown a sender) |]. unfold learned. by destruct (decide _). }
  destruct (learned_fields a rm sender) as (E & Er & El & Ec & _). unfold addMessage. rewrite E.
  pose proof (AddMessage_keyed (msgMap a) rm (ok_msgs a Ha) Hw (ok_bound a Ha _) (ok_keyed a Ha)) as Hk.
  pose proof (AddMessage_ok (msgMap a) rm (ok_msgs a Ha) Hw (ok_bound a Ha _)) as Hadd.
  destruct (AddMessage (msgMap a) rm) as [m isNew]. cbn [fst] in *. destruct Hadd as (Hok & _ & Hc & _).
  set (a' := if isNew && IsChatRumor rm then _ else _).
  assert (H' : msgMap a' = m /\ grown a a' /\ seqIDCounter a' = seqIDCounter a /\
    latestMessages a' = latestMessages a ++ (if isNew && IsChatRumor rm then [rm] else []) /\
    routingTable a' = routingTable (learned a rm sender)).
  { unfold a'. destruct Hg. destruct (isNew && _); cbn; rewrite El, ?app_nil_r; by split_and!. }
  destruct H' as (Em & Hg' & Ec' & El' & Er'). rewrite Er in Er'.
  exists a'. split; [by exists isNew |]. split; [done |]. split; [| by split_and!].
  constructor; rewrite ?Em; [rewrite (grown_mode _ _ Hg'); apply Ha | done | done |]. intros o.
  rewrite Hc. unfold total in Hb. destruct (decide (isNew = true /\ o = rm_Origin rm)) as [[_ ->]|]; [lia |].
  pose proof (ok_bound a Ha o). lia.
Qed.

(** The next message of an origin is stored, and nothing else changes. *)
Lemma AddMessage_next a rm : node_ok a -> rm_ID rm = total a (rm_Origin rm) + 1 ->
  total a (rm_Origin rm) < 2 ^ 32 - 2 ->
  let m := (AddMessage (msgMap a) rm).1 in
  node_ok (set_msgMap a m) /\
  (forall o, originMessages m o = if decide (o = rm_Origin rm) then <[rm_ID rm := rm]> (messages a o) else messages a o) /\
  count m (rm_Origin rm) = total a (rm_Origin rm) + 1.
Proof.
  intros Ha Hid Hb. pose proof (total_nonneg a (rm_Origin rm)).
  assert (Hw : in_width 32 (rm_ID rm)) by (unfold in_width; lia).
  pose proof (AddMessage_keyed (msgMap a) rm (ok_msgs a Ha) Hw (ok_bound a Ha _) (ok_keyed a Ha)) as Hk.
  pose proof (AddMessage_ok (msgMap a) rm (ok_msgs a Ha) Hw (ok_bound a Ha _)) as Hadd.
  destruct (AddMessage (msgMap a) rm) as [m isNew]. cbn [fst] in *.
  destruct Hadd as (Hok & [_ Hnew] & Hc & Hm). rewrite (Hnew Hid) in *. split_and!.
  - constructor; [apply Ha | done | done |]. intros o. cbn [msgMap set_msgMap]. rewrite Hc. unfold total in Hb.
    destruct (decide _) as [[_ ->]|]; [lia |]. pose proof (ok_bound a Ha o). lia.
  - intros o. apply map_eq. intros id. rewrite Hm. destruct (decide (o = rm_Origin rm)) as [->|Hne].
    + destruct (decide (id = rm_ID rm)) as [->|Hne]; [by rewrite decide_True, lookup_insert_eq |].
      rewrite decide_False by (intros (_ & _ & ?); done). by rewrite lookup_insert_ne.
    + by rewrite decide_False by (intros (_ & ? & _); done).
  - by rewrite Hc, decide_True.
Qed.
Lemma rumorListen_next a rm sender : node_ok a -> rm_ID rm = total a (rm_Origin rm) + 1 ->
  total a (rm_Origin rm) < 2 ^ 32 - 2 ->
  exists a' acts, rumorListen a (mkPacketAddressPair (rumor_packet rm) sender) = Ok (a', acts) /\
    node_ok a' /\ grown a a' /\
    (forall o, messages a' o = if decide (o = rm_Origin rm) then <[rm_ID rm := rm]> (messages a o) else messages a o).
Proof.
  intros Ha Hid Hb. pose proof (total_nonneg a (rm_Origin rm)).
  destruct (rumorListen_step a rm sender Ha) as (a' & (isNew & E) & Em & Hok & Hg & _); [unfold in_width; lia | done |].
  exists a'. eexists. split_and!; [exact E | done | done |]. intros o. unfold messages at 1. rewrite Em.
  by apply AddMessage_next.
Qed.

Lemma hear_app a sender l1 l2 : hear a sender (l1 ++ l2) = (a' ← hear a sender l1; hear a' sender l2).
Proof.
  revert a. induction l1 as [|act l1 IH]; intros a; [done |]. destruct act; cbn [app hear]; try apply IH.
  destruct (_ && _); [| apply IH]. destruct (rumorListen _ _) as [[a' ?]| |]; cbn; [apply IH | done | done].
Qed.

(** The answers to the wanted statuses [l] arrive one after the other. *)
Lemma hear_wanted b l : node_ok b -> forall a sender, node_ok a -> NoDup (ps_Identifier <$> l) ->
  (forall v, v ∈ l -> ps_NextID v = total a (ps_Identifier v) + 1) ->
  exists a', hear a sender ((fun v => Send (desired_packet b v) (gs_address a)) <$> l) = Ok a' /\
    node_ok a' /\ grown a a' /\
    (forall o, messages a' o = if decide (o ∈ ps_Identifier <$> l) then pulled a b o else messages a o).
Proof.
  intros Hb. induction l as [|v l IH]; intros a sender Ha Hnd Hids.
  { exists a. split_and!; [done | done | done |]. intros o. rewrite decide_False; [done |]. apply not_elem_of_nil. }
  rewrite fmap_cons in Hnd. apply NoDup_cons in Hnd as [Hv Hnd].
  set (o0 := ps_Identifier v) in *.
  assert (Hstep : exists a1, (forall rest, hear a sender (Send (desired_packet b v) (gs_address a) :: rest)
      = hear a1 sender rest) /\ node_ok a1 /\ grown a a1 /\
      (forall o, messages a1 o = if decide (o = o0) then pulled a b o else messages a o)).
  { pose proof (Hids v (list_elem_of_here _ _)) as Hn. fold o0 in Hn.
    unfold desired_packet, pulled. fold o0 (messages b o0). rewrite Hn. cbn [hear].
    rewrite String.eqb_refl. destruct (messages b o0 !! (total a o0 + 1)) as [rm|] eqn:Erm.
    - destruct (ok_keyed b Hb _ _ _ Erm) as [Eo Ei].
      assert (Hin : 1 <= total a o0 + 1 <= total b o0) by (apply messages_dom; [done |]; by rewrite Erm).
      pose proof (ok_bound b Hb o0) as Hbd. fold (total b o0) in Hbd.
      destruct (rumorListen_next a rm sender Ha) as (a1 & acts & E & Ha1 & Hg & Hm); [by rewrite Eo | rewrite Eo; lia |].
      exists a1. split; [| split; [done |]; split; [done |]].
      + intros rest. fold (rumor_packet rm). cbn [andb]. rewrite E. done.
      + intros o. rewrite Hm, Eo, Ei. destruct (decide (o = o0)) as [->|]; [by rewrite Erm | done].
    - exists a. split_and!; [done | done | done |]. intros o.
      destruct (decide (o = o0)) as [->|]; [by rewrite Erm | done]. }
  destruct Hstep as (a1 & E1 & Ha1 & Hg1 & Hm1).
  destruct (IH a1 sender Ha1 Hnd) as (a' & E & Ha' & Hg' & Hm').
  { intros v' Hv'. rewrite Hids by (by right). f_equal. apply total_eq. symmetry. rewrite Hm1.
    apply decide_False. intros Eq. apply Hv. fold o0. rewrite <-Eq. by apply list_elem_of_fmap_2. }
  exists a'. rewrite fmap_cons, E1. rewrite (grown_address _ _ Hg1) in E. split; [done |]. split; [done |].
  split; [by etrans |]. intros o. rewrite Hm'. rewrite fmap_cons.
  destruct (decide (o ∈ ps_Identifier <$> l)) as [Hin|Hnin].
  - rewrite decide_True by (by right). unfold pulled.
    assert (Ho : messages a1 o = messages a o) by (rewrite Hm1; apply decide_False; intros ->; done).
    by rewrite Ho, (total_eq _ _ _ Ho).
  - rewrite Hm1. fold o0. destruct (decide (o = o0)) as [->|Hne].
    + by rewrite decide_True by constructor.
    + rewrite decide_False; [done |]. by intros [?|?]%elem_of_cons.
Qed.

Lemma hear_status a sender sp addr : hear a sender [Send (status_packet sp) addr] = Ok a.
Proof. cbn [hear]. by rewrite andb_false_r. Qed.

(** What a node sends in answer to a status packet, and what stays as it is. *)
Lemma answer_spec b peer sp :
  exists b1 acts b' extra, statusListen b (mkPacketAddressPair (status_packet sp) peer) = Ok (b1, acts) /\
    peer_routine b1 peer acts = (b', ((fun v => Send (desired_packet b v) peer) <$>
      peerStatusDifference (sp_Want (GetOwnStatusPacket (msgMap b))) (sp_Want sp)) ++ extra) /\
    (extra = [] \/ extra = sendStatusPacket b' peer) /\
    grown b b' /\ seqIDCounter b' = seqIDCounter b /\ latestMessages b' = latestMessages b /\
    routingTable b' = routingTable b /\ (forall o, messages b' o = messages b o).
Proof.
  unfold statusListen. rewrite pap_sender_rumor by discriminate. cbn [mbind outcome_bind].
  destruct (addToPeers_fields b peer) as (_ & E2 & _ & E4 & E5 & E6 & _). pose proof (addToPeers_grown b peer) as Hg0.
  set (b0 := (addToPeers b peer).1) in *.
  destruct (AddOrGetPeerStatusListener (statusChanMap b0) peer) as [[scm c] isNew].
  cbn [mbind outcome_bind pap_Packet status_packet g_Status].
  set (b1 := set_statusChanMap b0 scm). assert (E3 : msgMap b1 = msgMap b) by exact E2.
  pose proof (peerStatusListen_shape b1 peer sp) as Hs. rewrite E3 in Hs.
  destruct (peerStatusListen_state b1 peer sp) as (q & m & Es).
  exists b1. eexists. destruct (peerStatusListen b1 peer sp) as [[b' sent] s] eqn:El. cbn [fst] in Es.
  destruct Hs as (Hmb & extra & -> & Hextra & _). exists b', extra. split; [reflexivity |]. split.
  { replace (fun v => Send (desired_packet b v) peer) with (fun v => Send (desired_packet b1 v) peer)
      by (unfold desired_packet; by rewrite E3).
    destruct isNew; cbn [app peer_routine]; rewrite El; by rewrite app_nil_r. }
  split; [destruct Hextra as [->|[-> _]]; [by left | by right] |]. rewrite Es in *. split; [| by split_and!].
  etrans; [exact Hg0 |]. by constructor.
Qed.

(** [b] gets the status of [a] and answers; [a] has one message more of every origin of
    which [b] has more, and [b] has the messages that it had. *)
Lemma exchange_spec a b : node_ok a -> node_ok b ->
  exists a' b', exchange a b (status_packet (GetOwnStatusPacket (msgMap a))) = Ok (a', b') /\
    node_ok a' /\ node_ok b' /\ grown a a' /\ grown b b' /\
    (forall o, messages a' o = pulled a b o) /\ (forall o, messages b' o = messages b o).
Proof.
  intros Ha Hb. set (sp := GetOwnStatusPacket (msgMap a)). unfold exchange.
  destruct (answer_spec b (gs_address a) sp) as (b1 & acts & b' & extra & E1 & E2 & Hextra & Hgb & _ & _ & _ & Hmb).
  rewrite E1. cbn [mbind outcome_bind]. rewrite E2. set (l := peerStatusDifference _ _) in *.
  assert (Hwant : forall v, v ∈ l <-> ps_NextID v = total a (ps_Identifier v) + 1 /\ is_Some (msgMap b !! ps_Identifier v) /\
      (total a (ps_Identifier v) < total b (ps_Identifier v) \/ msgMap a !! ps_Identifier v = None)).
  { intros v. apply elem_of_wanted; [apply Hb | apply Ha | apply Hb | apply Ha]. }
  destruct (hear_wanted b l Hb a (gs_address b') Ha) as (a' & E & Ha' & Hg' & Hm).
  { unfold l, peerStatusDifference. apply wanted_nodup, GetOwnStatusPacket_nodup. }
  { intros v Hv. by apply Hwant. }
  exists a', b'. rewrite hear_app, E. split.
  { assert (Ee : hear a' (gs_address b') extra = Ok a')
      by (destruct Hextra as [->| ->]; [done | apply hear_status]).
    cbn [mbind outcome_bind]. by rewrite Ee. }
  split; [done |]. split; [apply (messages_ok b b'); [exact Hmb | apply Hgb | done] |].
  split_and!; [done | done | | done]. intros o. rewrite Hm. destruct (decide _) as [Hin|Hnin]; [done |].
  unfold pulled. destruct (messages b o !! (total a o + 1)) as [rm|] eqn:Erm; [| done].
  destruct Hnin. apply list_elem_of_fmap. exists (mkPeerStatus o (total a o + 1)). split; [done |].
  apply Hwant. cbn [ps_Identifier ps_NextID]. split; [done |].
  assert (Hin : 1 <= total a o + 1 <= total b o) by (apply messages_dom; [done |]; by rewrite Erm).
  split; [| left; lia]. unfold messages, originMessages in Erm.
  destruct (msgMap b !! o); [by eexists | done].
Qed.

Lemma pulled_sub a b o : node_ok a -> messages a o ⊆ pulled a b o.
Proof.
  intros Ha. unfold pulled. destruct (messages b o !! _) eqn:E; [| done]. apply insert_subseteq.
  apply eq_None_not_Some. intros H. apply messages_dom in H; [lia | done].
Qed.
Lemma total_sub g g' o : messages g o ⊆ messages g' o -> total g o <= total g' o.
Proof. intros H. unfold total, count. apply inj_le. exact (map_subseteq_size _ _ H). Qed.
Lemma pulled_more a b a' o : node_ok a -> node_ok b -> node_ok a' -> messages a' o = pulled a b o ->
  total a o < total b o -> total a o + 1 <= total a' o.
Proof.
  intros Ha Hb Ha' E Hlt. pose proof (total_nonneg a o).
  destruct (proj2 (messages_dom b o (total a o + 1) Hb)) as [rm Erm]; [lia |].
  apply (messages_dom a' o _ Ha'). rewrite E. unfold pulled. rewrite Erm. by rewrite lookup_insert_eq.
Qed.

(** ** The steps of a network *)
Definition net_ok (n : network) : Prop := forall i g, n !! i = Some g -> node_ok g /\ gs_address g = i.
(** Nodes stay, they keep their messages, and each message comes from some node. *)
Record later (n n' : network) : Prop := {
  later_node i g : n !! i = Some g -> exists g', n' !! i = Some g' /\ grown g g' /\ forall o, messages g o ⊆ messages g' o;
  later_dom : dom n' = dom n;
  later_source i g' o id rm : n' !! i = Some g' -> messages g' o !! id = Some rm ->
    exists j g, n !! j = Some g /\ messages g o !! id = Some rm
}.
#[export] Instance later_preorder : PreOrder later.
Proof.
  split.
  - intros n. constructor; [| done | by eauto]. intros i g E. exists g. by split_and!.
  - intros n1 n2 n3 [H1 D1 S1] [H2 D2 S2]. constructor.
    + intros i g E. destruct (H1 i g E) as (g2 & E2 & G2 & M2). destruct (H2 i g2 E2) as (g3 & E3 & G3 & M3).
      exists g3. split; [done |]. split; [by etrans |]. intros o. etrans; [apply M2 | apply M3].
    + congruence.
    + intros i g' o id rm E Em. destruct (S2 i g' o id rm E Em) as (j & g & Ej & Emj). by apply (S1 j g).
Qed.

Lemma tick_pick a r : UseSimple a = false ->
  antiEntropy_tick a r = match GetArrayCopy (peers a) !! r with
    | Some j => [Send (status_packet (GetOwnStatusPacket (msgMap a))) j] | None => [] end.
Proof.
  intros Hm. unfold antiEntropy_tick, pickRandomPeer, pickRandom. rewrite Hm.
  assert (El : stringArrayDifference (GetArrayCopy (peers a)) [] = GetArrayCopy (peers a)).
  { unfold stringArrayDifference. induction (GetArrayCopy (peers a)) as [|x l IH]; [done |].
    rewrite filter_cons_True; [by rewrite IH | apply not_elem_of_empty]. }
  rewrite El. destruct (decide _) as [E|]; [| by destruct (_ !! r)].
  apply nil_length_inv in E. by rewrite E.
Qed.

Lemma later_exchange n i j a b a' b' : net_ok n -> n !! i = Some a -> n !! j = Some b ->
  node_ok a' -> node_ok b' -> grown a a' -> grown b b' ->
  (forall o, messages a' o = pulled a b o) -> (forall o, messages b' o = messages b o) ->
  let n' := <[j := b']> (<[i := a']> n) in
  net_ok n' /\ later n n' /\
  exists g', n' !! i = Some g' /\ node_ok g' /\ forall o, messages g' o = pulled a b o.
Proof.
  intros Hn Ei Ej Ha' Hb' Hga Hgb Hma Hmb n'. destruct (Hn i a Ei) as [Ha Hia], (Hn j b Ej) as [Hb Hjb].
  assert (Hcase : forall k g, n' !! k = Some g -> (k = j /\ g = b') \/ (k = i /\ g = a') \/ n !! k = Some g).
  { intros k g. unfold n'. rewrite lookup_insert_Some. intros [[<- <-]|[_ E]]; [by left |].
    apply lookup_insert_Some in E as [[<- <-]|[_ E]]; [by right; left | by right; right]. }
  assert (Hself : i = j -> forall o, messages b' o = pulled a b o).
  { intros <- o. replace b with a in * by congruence. rewrite Hmb. unfold pulled.
    destruct (messages a o !! (total a o + 1)) eqn:E; [| done].
    assert (Hin : 1 <= total a o + 1 <= total a o) by (apply messages_dom; [done |]; by rewrite E). lia. }
  split; [| split].
  - intros k g [[-> ->]|[[-> ->]|E]]%Hcase; [| | by apply Hn].
    + split; [done |]. by rewrite (grown_address _ _ Hgb).
    + split; [done |]. by rewrite (grown_address _ _ Hga).
  - constructor.
    + intros k g E. unfold n'. destruct (decide (k = j)) as [->|Hkj].
      { exists b'. rewrite lookup_insert_eq. replace g with b by congruence. split_and!; [done | done |].
        intros o. by rewrite Hmb. }
      rewrite lookup_insert_ne by done. destruct (decide (k = i)) as [->|Hki].
      { exists a'. rewrite lookup_insert_eq. replace g with a by congruence. split_and!; [done | done |].
        intros o. rewrite Hma. by apply pulled_sub. }
      rewrite lookup_insert_ne by done. exists g. by split_and!.
    + unfold n'. rewrite !dom_insert_lookup_L; [done | by eexists |].
      destruct (decide (i = j)) as [->|]; [rewrite lookup_insert_eq | rewrite lookup_insert_ne by done]; by eexists.
    + intros k g o id rm [[-> ->]|[[-> ->]|E]]%Hcase.
      * rewrite Hmb. eauto.
      * rewrite Hma. unfold pulled. destruct (messages b o !! (total a o + 1)) eqn:E; [| eauto].
        intros [[<- <-]|[_ Hl]]%lookup_insert_Some; eauto.
      * eauto.
  - unfold n'. destruct (decide (i = j)) as [Eij|Hne].
    + exists b'. rewrite Eij, lookup_insert_eq. split_and!; [done | done | by apply Hself].
    + exists a'. rewrite lookup_insert_ne by done. by rewrite lookup_insert_eq.
Qed.

Lemma tick_spec n i r : net_ok n -> exists n', tick n i r = Ok n' /\ net_ok n' /\ later n n' /\
  forall a j b, n !! i = Some a -> GetArrayCopy (peers a) !! r = Some j -> n !! j = Some b ->
    exists g', n' !! i = Some g' /\ forall o, total a o < total b o -> total a o + 1 <= total g' o.
Proof.
  intros Hn. unfold tick.
  assert (Hstay : net_ok n /\ later n n) by done.
  destruct (n !! i) as [a|] eqn:Ei; [| exists n; split_and!; [done | done | done | by intros ? ? ? [=]]].
  destruct (Hn i a Ei) as [Ha Hia]. rewrite (tick_pick a r (ok_mode a Ha)).
  destruct (GetArrayCopy (peers a) !! r) as [j|] eqn:Er;
    [| exists n; split_and!; [done | done | done | intros ? ? ? [= <-]; by rewrite Er]].
  destruct (n !! j) as [b|] eqn:Ej;
    [| exists n; split_and!; [done | done | done | intros ? ? ? [= <-]; rewrite Er; intros [= <-]; by rewrite Ej]].
  destruct (Hn j b Ej) as [Hb _].
  destruct (exchange_spec a b Ha Hb) as (a' & b' & -> & Ha' & Hb' & Hga & Hgb & Hma & Hmb).
  cbn [mbind outcome_bind]. eexists. split; [reflexivity |].
  destruct (later_exchange n i j a b a' b' Hn Ei Ej Ha' Hb' Hga Hgb Hma Hmb) as (H1 & H2 & g' & E & Hg' & Hm).
  split_and!; [done | done |]. intros ? ? ? [= <-]. rewrite Er. intros [= <-]. rewrite Ej. intros [= <-].
  exists g'. split; [done |]. intros o. by apply pulled_more.
Qed.

Lemma run_ticks_app n l1 l2 : run_ticks n (l1 ++ l2) = (n' ← run_ticks n l1; run_ticks n' l2).
Proof.
  revert n. induction l1 as [|[i r] l1 IH]; intros n; [done |]. cbn [app run_ticks].
  destruct (tick n i r) as [n'| |]; cbn; [apply IH | done | done].
Qed.
Lemma run_ticks_later n l : net_ok n -> exists n', run_ticks n l = Ok n' /\ net_ok n' /\ later n n'.
Proof.
  revert n. induction l as [|[i r] l IH]; intros n Hn; [by exists n |]. cbn [run_ticks].
  destruct (tick_spec n i r Hn) as (n1 & -> & Hn1 & Hl & _). cbn [mbind outcome_bind].
  destruct (IH n1 Hn1) as (n' & E & Hn' & Hl'). exists n'. split_and!; [done | done | by etrans].
Qed.

(** Node [i] has [j] among its peers, and [j] is a node. *)
Definition knows (n : network) (i j : string) : Prop :=
  exists g, n !! i = Some g /\ j ∈ GetArrayCopy (peers g) /\ is_Some (n !! j).
(** In the round each node draws each of its peers at least once. *)
Definition covers (n : network) (round : list (string * nat)) : Prop :=
  forall i j, knows n i j -> exists g r, n !! i = Some g /\ GetArrayCopy (peers g) !! r = Some j /\ (i, r) ∈ round.
(** Two nodes that hold a message with the same origin and ID hold the same message. *)
Definition coherent (n : network) : Prop :=
  forall i j g g' o id rm rm', n !! i = Some g -> n !! j = Some g' ->
    messages g o !! id = Some rm -> messages g' o !! id = Some rm' -> rm' = rm.
(** The number of messages of the origin [o] at node [i]. *)
Definition known_at (n : network) (i o : string) : Z := if n !! i is Some g then total g o else 0.

Lemma later_known n n' i o : later n n' -> known_at n i o <= known_at n' i o.
Proof.
  intros H. unfold known_at. destruct (n !! i) as [g|] eqn:E.
  - destruct (later_node n n' H i g E) as (g' & -> & _ & Hm). by apply total_sub.
  - destruct (n' !! i); [apply total_nonneg | lia].
Qed.

(** A round in which [i] draws [j]: [i] gets a message of every origin of which [j] had more. *)
Lemma round_pull n0 n round i j : net_ok n -> later n0 n -> covers n0 round -> knows n0 i j ->
  exists n', run_ticks n round = Ok n' /\ net_ok n' /\ later n n' /\
    forall o, known_at n i o < known_at n j o -> known_at n i o + 1 <= known_at n' i o.
Proof.
  intros Hn Hl0 Hc Hk. destruct (Hc i j Hk) as (g0 & r & Eg0 & Er & (l1 & l2 & ->)%list_elem_of_split).
  destruct Hk as (_ & _ & _ & [b0 Eb0]).
  destruct (run_ticks_later n l1 Hn) as (n1 & E1 & Hn1 & Hl1).
  destruct (tick_spec n1 i r Hn1) as (n2 & E2 & Hn2 & Hl2 & Hpull).
  destruct (run_ticks_later n2 l2 Hn2) as (n3 & E3 & Hn3 & Hl3).
  exists n3. rewrite run_ticks_app, E1. cbn [mbind outcome_bind run_ticks]. rewrite E2. cbn [mbind outcome_bind].
  split_and!; [done | done | by do 2 (etrans; [eassumption |]) |]. intros o Hlt.
  destruct (later_node n0 n1 (transitivity Hl0 Hl1) i g0 Eg0) as (a & Ea & Hga & _).
  destruct (later_node n0 n1 (transitivity Hl0 Hl1) j b0 Eb0) as (b & Eb & _ & _).
  destruct (Hpull a j b Ea) as (g' & Eg' & Hg'); [| done |].
  { destruct (grown_peers _ _ Hga) as [tl ->]. by apply lookup_app_l_Some. }
  assert (Hn1' : known_at n1 i o < known_at n1 j o -> known_at n1 i o + 1 <= known_at n2 i o).
  { unfold known_at. rewrite Ea, Eb, Eg'. apply Hg'. }
  pose proof (later_known n n1 i o Hl1). pose proof (later_known n n1 j o Hl1).
  pose proof (later_known n1 n2 i o Hl2). pose proof (later_known n2 n3 i o Hl3).
  destruct (Z.lt_ge_cases (known_at n1 i o) (known_at n1 j o)) as [Hlt1|]; [specialize (Hn1' Hlt1) |]; lia.
Qed.

(** After [k] rounds a node has caught up with another one at distance [d], or has at least
    [k - d] messages. *)
Lemma rounds_progress n0 rounds : net_ok n0 -> Forall (covers n0) rounds ->
  exists n', run_ticks n0 (concat rounds) = Ok n' /\ net_ok n' /\ later n0 n' /\
    forall d i j o, nsteps (knows n0) d i j ->
      known_at n0 j o <= known_at n' i o \/ Z.of_nat (length rounds) <= known_at n' i o + Z.of_nat d.
Proof.
  intros Hn Hr. induction rounds as [|round rounds IH] using rev_ind.
  { exists n0. split_and!; [done | done | done |]. intros d i j o _. right. unfold known_at.
    destruct (n0 !! i) as [g|]; [pose proof (total_nonneg g o) |]; cbn [length]; lia. }
  apply Forall_app in Hr as [Hr Hround]. apply Forall_inv in Hround.
  destruct (IH Hr) as (n & E & Hnn & Hl & Hprog).
  destruct (run_ticks_later n round Hnn) as (n' & E' & Hn' & Hl').
  exists n'. rewrite concat_app, run_ticks_app, E. cbn [concat mbind outcome_bind]. rewrite app_nil_r.
  split_and!; [done | done | by etrans |]. intros d i j o Hd.
  assert (Hlen : Z.of_nat (length (rounds ++ [round])) = Z.of_nat (length rounds) + 1)
    by (rewrite length_app; cbn [length]; lia).
  rewrite Hlen. pose proof (later_known n n' i o Hl') as Hmono.
  inversion Hd as [x|d' x i' y Hki Hd']; subst.
  { left. etrans; [exact (later_known n0 n j o Hl) | done]. }
  destruct (round_pull n0 n round i i' Hnn Hl Hround Hki) as (n2 & E2 & _ & _ & Hpull).
  rewrite E' in E2. injection E2 as <-. specialize (Hpull o).
  assert (Hstep : known_at n i' o <= known_at n i o \/ known_at n i o + 1 <= known_at n' i o)
    by (destruct (Z.lt_ge_cases (known_at n i o) (known_at n i' o)); auto).
  destruct (Hprog _ i j o Hd) as [?|?], (Hprog _ i' j o Hd') as [?|?]; lia.
Qed.

(** ** Properties *)

(** Anti-entropy makes all nodes agree.  Every node of a network knows a path of at most
    [diameter] peers to every other one, and no node holds more than [most] messages of an
    origin.  When, in each of [most + diameter] rounds, every node sends its status at
    least once to each of its first peers - in any order, with any other ticks in between,
    and with all packets lost but the status and the rumors that answer it - the run
    returns, and then every node holds exactly the messages that were anywhere at first. *)
Theorem gossip_converges n diameter most rounds :
  net_ok n -> coherent n ->
  (forall i g o, n !! i = Some g -> total g o <= Z.of_nat most) ->
  (forall i j, i ∈ dom n -> j ∈ dom n -> exists d, (d <= diameter)%nat /\ nsteps (knows n) d i j) ->
  Forall (covers n) rounds -> (most + diameter <= length rounds)%nat ->
  exists n', run_ticks n (concat rounds) = Ok n' /\ dom n' = dom n /\
    forall i g', n' !! i = Some g' -> node_ok g' /\
      forall o id rm, messages g' o !! id = Some rm <->
        exists j g, n !! j = Some g /\ messages g o !! id = Some rm.
Proof.
  intros Hn Hcoh Hmost Hpath Hr Hlen.
  destruct (rounds_progress n rounds Hn Hr) as (n' & E & Hn' & Hl & Hprog).
  exists n'. split; [done |]. split; [apply Hl |]. intros i g' Ei.
  destruct (Hn' i g' Ei) as [Hg' _]. split; [done |]. intros o id rm. split.
  { by apply (later_source n n' Hl i). }
  intros (j & g & Ej & Hm). destruct (Hn j g Ej) as [Hg _].
  assert (Hin : 1 <= id <= total g o) by (apply messages_dom; [done |]; by rewrite Hm).
  destruct (Hpath i j) as (d & Hd & Hsteps).
  { rewrite <-(later_dom n n' Hl). by apply elem_of_dom_2 in Ei. }
  { by apply elem_of_dom_2 in Ej. }
  specialize (Hprog d i j o Hsteps). unfold known_at in Hprog. rewrite Ei, Ej in Hprog.
  specialize (Hmost j g o Ej).
  destruct (proj2 (messages_dom g' o id Hg')) as [rm' Hm']; [lia |]. rewrite Hm'. f_equal.
  destruct (later_source n n' Hl i g' o id rm' Ei Hm') as (k & gk & Ek & Hmk).
  by apply (Hcoh j k g gk o id rm rm').
Qed.

(** Two nodes that know each other; one of them has a message. *)
Definition pair_network : network :=
  <["127.0.0.1:5000" := sample_gossiper]>
    {["127.0.0.1:5001" := NewGossiper "127.0.0.1:5001" "B" ["127.0.0.1:5000"] false]}.
Definition pair_round : list (string * nat) := [("127.0.0.1:5000", 0%nat); ("127.0.0.1:5001", 0%nat)].

Lemma pair_nodes i g : pair_network !! i = Some g ->
  (i = "127.0.0.1:5000" /\ g = sample_gossiper) \/
  (i = "127.0.0.1:5001" /\ g = NewGossiper "127.0.0.1:5001" "B" ["127.0.0.1:5000"] false).
Proof.
  unfold pair_network. intros [[<- <-]|[_ [<- <-]%lookup_singleton_Some]]%lookup_insert_Some; auto.
Qed.
Lemma new_node_ok address name members : node_ok (NewGossiper address name members false).
Proof.
  constructor; [done | exact NewSafeMessagesMap_ok | done |]. intros o. cbn. rewrite NewSafeMessagesMap_count. lia.
Qed.
Lemma new_node_empty address name members o : messages (NewGossiper address name members false) o = ∅.
Proof. done. Qed.
Lemma sample_node_ok : node_ok sample_gossiper.
Proof.
  destruct sample_gossiper_ok as (H1 & H2 & H3 & _). constructor; [done | done | done |].
  intros o. specialize (H3 o). lia.
Qed.

Lemma gossip_converges_witness :
  exists n', run_ticks pair_network (concat [pair_round; pair_round]) = Ok n' /\
    forall i g', n' !! i = Some g' -> messages g' "A" !! 1 = Some (mkRumorMessage "A" 1 "hello").
Proof.
  destruct (gossip_converges pair_network 1 1 [pair_round; pair_round]) as (n' & E & _ & H).
  - intros i g [[-> ->]|[-> ->]]%pair_nodes; split; [apply sample_node_ok | done | apply new_node_ok | done].
  - intros i j g g' o id rm rm' [[-> ->]|[-> ->]]%pair_nodes [[-> ->]|[-> ->]]%pair_nodes; rewrite ?new_node_empty;
      rewrite ?lookup_empty; congruence.
  - intros i g o [[-> ->]|[-> ->]]%pair_nodes.
    + assert (Em : msgMap sample_gossiper = <["A" := {[1 := mkRumorMessage "A" 1 "hello"]}]> ∅) by reflexivity.
      unfold total, count. rewrite Em, originMessages_insert. by destruct (decide (o = "A")).
    + unfold total. cbn. rewrite NewSafeMessagesMap_count. lia.
  - assert (K1 : knows pair_network "127.0.0.1:5000" "127.0.0.1:5001").
    { exists sample_gossiper. split; [reflexivity |]. split; [vm_compute; constructor | by eexists]. }
    assert (K2 : knows pair_network "127.0.0.1:5001" "127.0.0.1:5000").
    { eexists. split; [reflexivity |]. split; [vm_compute; constructor | by eexists]. }
    intros i j [gi [[-> ->]|[-> ->]]%pair_nodes]%elem_of_dom [gj [[-> ->]|[-> ->]]%pair_nodes]%elem_of_dom.
    + exists 0%nat. split; [lia | constructor].
    + exists 1%nat. split; [lia |]. by eapply nsteps_once.
    + exists 1%nat. split; [lia |]. by eapply nsteps_once.
    + exists 0%nat. split; [lia | constructor].
  - assert (Hc : covers pair_network pair_round); [| by repeat constructor].
    intros i j (g & [[-> ->]|[-> ->]]%pair_nodes & Hin & _); cbn in Hin; apply list_elem_of_singleton in Hin as ->.
    + exists sample_gossiper, 0%nat. split; [reflexivity |]. split; [reflexivity |]. by constructor.
    + eexists _, 0%nat. split; [reflexivity |]. split; [reflexivity |]. by do 2 constructor.
  - cbn. lia.
  - exists n'. split; [exact E |]. intros i g' Ei. apply (H i g' Ei). exists "127.0.0.1:5000", sample_gossiper.
    split; reflexivity.
Defined.
