(* ===== verification/Provenance.v ===== *)
(** * Where rumors come from and where they are shown: all runs of a network of gossipers

    A world is a network of gossipers with the rumors that were ever sent, and what the web
    page of each node has shown.  The rules of [world_step] are the handlers of [Gossip]; a
    rumor that was sent may arrive at any node, at any time, once, again or never, from the
    address of its sender or, with [spoofing], as from any address; status packets and private
    messages may say anything.  The invariant of [Reachable] worlds is proved by rule
    induction: a stored rumor is stored with the same text at the node that created it, and
    each node shows, once, the rumors with text that it stores.  The exchanges of [Network]
    are runs, too. *)
From stdpp Require Import relations.
From S2P Require Import Prelude Dto Containers Gossip Dispatch Network.
Open Scope Z_scope.

(** The rumors among what a handler sends, or gives to the mongering goroutine. *)
Definition rumors_of (acts : list action) : list RumorMessage :=
  omap (fun a => match a with Send p _ | GoRumorMonger p _ => g_Rumor p | _ => None end) acts.

Record world := mkWorld {
  w_nodes : network;
  w_sent : list (string * RumorMessage);       (* by the address of the sender *)
  w_shown : gmap string (list RumorMessage)   (* what the web page of a node has shown *)
}.
Definition become (w : world) (i : string) (g' : Gossiper) (acts : list action) : world :=
  mkWorld (<[i := g']> (w_nodes w)) ((pair i <$> rumors_of acts) ++ w_sent w) (w_shown w).
Definition shown_at (w : world) (i : string) : list RumorMessage := default [] (w_shown w !! i).
(** The web page of node [i] asks for the latest messages. *)
Definition poll (w : world) (i : string) (g : Gossiper) : world :=
  let '(g', rms) := GetLatestMessagesList g in
  mkWorld (<[i := g']> (w_nodes w)) (w_sent w) (<[i := shown_at w i ++ rms]> (w_shown w)).
Definition private (pm : PrivateMessage) : GossipPacket := with_Private empty_packet pm.

(** [spoofing]: a datagram may claim to come from any address. *)
Inductive world_step (spoofing : Prop) (w : world) : world -> Prop :=
  | step_client i g request pap g' acts :          (* a message of a client of node [i] *)
      w_nodes w !! i = Some g -> seqIDCounter g < 2 ^ 32 - 2 ->
      receiveClientUDP (gs_name g) request = Ok (ClientPacket cUI pap) ->
      clientListen g pap = Ok (g', acts) ->
      world_step spoofing w (become w i g' acts)
  | step_route i g r g' acts quit :                (* the ticker of the route rumors *)
      w_nodes w !! i = Some g -> seqIDCounter g < 2 ^ 32 - 2 ->
      periodicRouteRumor_tick g r = Ok (g', acts, quit) ->
      world_step spoofing w (become w i g' acts)
  | step_rumor i g from rm sender g' acts :        (* a rumor arrives *)
      w_nodes w !! i = Some g -> (from, rm) ∈ w_sent w -> sender = from \/ spoofing ->
      rumorListen g (mkPacketAddressPair (rumor_packet rm) sender) = Ok (g', acts) ->
      world_step spoofing w (become w i g' acts)
  | step_status i g sp peer g1 acts g' sent :      (* a status packet arrives *)
      w_nodes w !! i = Some g ->
      statusListen g (mkPacketAddressPair (status_packet sp) peer) = Ok (g1, acts) ->
      peer_routine g1 peer acts = (g', sent) ->
      world_step spoofing w (become w i g' sent)
  | step_private i g pm sender g' acts :           (* a private message arrives *)
      w_nodes w !! i = Some g ->
      privateMessageListen g (mkPacketAddressPair (private pm) sender) = Ok (g', acts) ->
      world_step spoofing w (become w i g' acts)
  | step_monger i g rm peer g' acts quit :         (* mongering sends a rumor *)
      w_nodes w !! i = Some g -> (i, rm) ∈ w_sent w ->
      trySend_start g (rumor_packet rm) peer = Ok (g', acts, quit) ->
      world_step spoofing w (become w i g' acts)
  | step_timeout i g rm peer g' :                  (* and gives up waiting for a status *)
      w_nodes w !! i = Some g ->
      trySend_timeout g (rumor_packet rm) peer = Ok g' ->
      world_step spoofing w (become w i g' [])
  | step_poll i g :                                (* the web page of a node polls *)
      w_nodes w !! i = Some g ->
      world_step spoofing w (poll w i g)
  | step_peer i g peer :                           (* its user adds a peer *)
      w_nodes w !! i = Some g ->
      world_step spoofing w (become w i (AddPeer g peer) []).

(** New gossipers with names of their own, and nothing sent or shown. *)
Definition initial (w : world) : Prop :=
  w_sent w = [] /\ w_shown w = ∅ /\
  (forall i g, w_nodes w !! i = Some g -> exists name members, g = NewGossiper i name members false) /\
  (forall i j g g', w_nodes w !! i = Some g -> w_nodes w !! j = Some g' -> gs_name g = gs_name g' -> i = j).
Inductive Reachable (spoofing : Prop) : world -> Prop :=
  | reach_start w : initial w -> Reachable spoofing w
  | reach_step w w' : Reachable spoofing w -> world_step spoofing w w' -> Reachable spoofing w'.

(** A rumor that is stored at a node or was sent. *)
Definition around (w : world) (rm : RumorMessage) : Prop :=
  (exists from, (from, rm) ∈ w_sent w) \/ exists i g o id, w_nodes w !! i = Some g /\ messages g o !! id = Some rm.
(** [g] created [rm] and stores it. *)
Definition stores_own (g : Gossiper) (rm : RumorMessage) : Prop :=
  gs_name g = rm_Origin rm /\ messages g (rm_Origin rm) !! rm_ID rm = Some rm.
(** The own messages of a node are numbered by its counter. *)
Definition numbered (g : Gossiper) : Prop :=
  seqIDCounter g = total g (gs_name g) + 1 /\ total g (gs_name g) < 2 ^ 32 - 2.

(** The rumors among what was shown and is to be shown (private messages have the ID 0) are
    those with text that are stored, each of them once. *)
Definition gossip_only (l : list RumorMessage) : list RumorMessage := filter (fun rm => rm_ID rm <> 0) l.
Definition displays (shown : list RumorMessage) (g : Gossiper) : Prop :=
  let l := gossip_only (shown ++ latestMessages g) in
  NoDup l /\ forall rm, rm ∈ l <-> IsChatRumor rm = true /\ exists o id, messages g o !! id = Some rm.

Record world_ok (w : world) : Prop := {
  wok_nodes : net_ok (w_nodes w);
  wok_names i j g g' : w_nodes w !! i = Some g -> w_nodes w !! j = Some g' -> gs_name g = gs_name g' -> i = j;
  wok_numbered i g : w_nodes w !! i = Some g -> numbered g;
  wok_displays i g : w_nodes w !! i = Some g -> displays (shown_at w i) g;
  wok_created rm : around w rm -> exists i g, w_nodes w !! i = Some g /\ stores_own g rm
}.

Lemma initial_ok w : initial w -> world_ok w.
Proof.
  intros (Hs & Hsh & Hn & Hnames). constructor; [| exact Hnames | | |].
  - intros i g (name & members & ->)%Hn. split; [apply new_node_ok | done].
  - intros i g (name & members & ->)%Hn. unfold numbered, total. cbn. rewrite NewSafeMessagesMap_count. split; [done | lia].
  - intros i g (name & members & ->)%Hn. unfold displays, shown_at. rewrite Hsh, lookup_empty. cbn.
    split; [constructor |]. intros rm. split; [by intros ?%elem_of_nil |].
    intros (_ & o & id & E). by rewrite new_node_empty in E.
  - intros rm [[from Hin]|(i & g & o & id & (name & members & ->)%Hn & Hm)]; [rewrite Hs in Hin; by apply elem_of_nil in Hin |].
    by rewrite new_node_empty in Hm.
Qed.

(** A step changes one node, which keeps its messages; what it stores or sends was around
    or is its own. *)
Lemma node_step w w' i g g' acts : world_ok w -> w_nodes w !! i = Some g ->
  w_nodes w' = <[i := g']> (w_nodes w) -> w_sent w' = (pair i <$> rumors_of acts) ++ w_sent w ->
  (forall k, k <> i -> shown_at w' k = shown_at w k) -> displays (shown_at w' i) g' ->
  node_ok g' -> grown g g' -> numbered g' -> (forall o, messages g o ⊆ messages g' o) ->
  (forall rm o id, messages g' o !! id = Some rm -> around w rm \/ stores_own g' rm) ->
  (forall rm, rm ∈ rumors_of acts -> around w rm \/ stores_own g' rm) ->
  world_ok w'.
Proof.
  intros [Hn Hnames Hnum Hdis Hcr] Ei En Es Hsh Hd Hg' Hgr Hnum' Hsub Hmsg Hacts. destruct (Hn i g Ei) as [Hg Hi].
  assert (Hcase : forall k gk, w_nodes w' !! k = Some gk ->
    (k = i /\ gk = g') \/ (k <> i /\ w_nodes w !! k = Some gk)).
  { intros k gk. rewrite En. intros [[<- <-]|[? E]]%lookup_insert_Some; [by left | right; by split]. }
  constructor.
  - intros k gk [[-> ->]|[_ E]]%Hcase; [| by apply Hn]. split; [done |]. by rewrite (grown_address _ _ Hgr).
  - intros k l gk gl [[-> ->]|[_ Ek]]%Hcase [[-> ->]|[_ El]]%Hcase; rewrite ?(grown_name _ _ Hgr); eauto.
  - intros k gk [[-> ->]|[_ E]]%Hcase; [done | by apply (Hnum k)].
  - intros k gk [[-> ->]|[Hne E]]%Hcase; [done |]. rewrite Hsh by done. by apply Hdis.
  - intros rm Haround. assert (H : around w rm \/ stores_own g' rm).
    { destruct Haround as [[from Hin]|(k & gk & o & id & [[-> ->]|[_ E]]%Hcase & Em)].
      - rewrite Es in Hin. apply elem_of_app in Hin as [(x & [= -> ->] & Hx)%list_elem_of_fmap|Hin];
          [by apply Hacts | left; left; by exists from].
      - by eapply Hmsg.
      - left. right. by exists k, gk, o, id. }
    destruct H as [H|H]; [| exists i, g'; split; [rewrite En; apply lookup_insert_eq | done]].
    destruct (Hcr rm H) as (k & gk & Ek & Hname & Hst).
    destruct (decide (k = i)) as [->|Hne].
    + exists i, g'. split; [rewrite En; apply lookup_insert_eq |]. replace gk with g in * by congruence.
      split; [by rewrite (grown_name _ _ Hgr) |]. by apply (lookup_weaken _ _ _ _ Hst).
    + exists k, gk. split; [| by split]. rewrite En. by rewrite lookup_insert_ne.
Qed.

(** The same for a step that stores nothing, and shows a rumor only if it was to be shown. *)
Lemma silent_step w w' i g g' acts : world_ok w -> w_nodes w !! i = Some g ->
  w_nodes w' = <[i := g']> (w_nodes w) -> w_sent w' = (pair i <$> rumors_of acts) ++ w_sent w ->
  (forall k, k <> i -> shown_at w' k = shown_at w k) ->
  gossip_only (shown_at w' i ++ latestMessages g') = gossip_only (shown_at w i ++ latestMessages g) ->
  grown g g' -> seqIDCounter g' = seqIDCounter g -> (forall o, messages g' o = messages g o) ->
  (forall rm, rm ∈ rumors_of acts -> around w rm) ->
  world_ok w'.
Proof.
  intros Hw Ei En Es Hsh Hl Hgr Hc Hm Hacts. destruct (wok_nodes w Hw i g Ei) as [Hg _].
  apply (node_step w w' i g g' acts Hw Ei En Es Hsh).
  - destruct (wok_displays w Hw i g Ei) as [Hnd Hiff]. unfold displays. rewrite Hl. split; [done |].
    intros rm. rewrite Hiff. split; intros (Hchat & o & id & E); (split; [done | exists o, id]); [by rewrite Hm | by rewrite <-Hm].
  - apply (messages_ok g); [done | apply Hgr | done].
  - done.
  - destruct (wok_numbered w Hw i g Ei). unfold numbered. rewrite Hc, (grown_name _ _ Hgr), (total_eq g g' _ (Hm _)). done.
  - intros o. by rewrite Hm.
  - intros rm o id E. rewrite Hm in E. left. right. by exists i, g, o, id.
  - intros rm H. left. by apply Hacts.
Qed.
Lemma become_same w i g g' acts : world_ok w -> w_nodes w !! i = Some g ->
  grown g g' -> seqIDCounter g' = seqIDCounter g -> latestMessages g' = latestMessages g ->
  (forall o, messages g' o = messages g o) -> (forall rm, rm ∈ rumors_of acts -> around w rm) ->
  world_ok (become w i g' acts).
Proof.
  intros Hw Ei Hgr Hc Hl Hm Hacts. apply (silent_step w _ i g g' acts); try done. by rewrite Hl.
Qed.

(** A message that is accepted is shown once, if it has text. *)
Lemma displays_add sh g g' rm : node_ok g -> in_width 32 (rm_ID rm) -> rm_ID rm <> 0 ->
  msgMap g' = (AddMessage (msgMap g) rm).1 ->
  latestMessages g' = latestMessages g ++ (if (AddMessage (msgMap g) rm).2 && IsChatRumor rm then [rm] else []) ->
  displays sh g -> displays sh g'.
Proof.
  intros Hg Hw H0 Em El [Hnd Hiff]. unfold displays, messages. rewrite Em, El, app_assoc.
  pose proof (AddMessage_ok (msgMap g) rm (ok_msgs g Hg) Hw (ok_bound g Hg _)) as Hadd.
  destruct (AddMessage (msgMap g) rm) as [m isNew]. cbn [fst snd]. destruct Hadd as (_ & Hnew & _ & Hm).
  assert (Hcase : forall rm', (exists o id, originMessages m o !! id = Some rm') <->
      (isNew = true /\ rm' = rm) \/ exists o id, messages g o !! id = Some rm').
  { intros rm'. split.
    - intros (o & id & E). rewrite Hm in E. destruct (decide _) as [(? & _ & _)|_]; [left; split; congruence |].
      right. by exists o, id.
    - intros [[Hn ->]|(o & id & E)]; [exists (rm_Origin rm), (rm_ID rm); by rewrite Hm, decide_True |].
      exists o, id. rewrite Hm. destruct (decide _) as [(Hn & -> & ->)|]; [| done]. apply Hnew in Hn.
      assert (H : 1 <= rm_ID rm <= total g (rm_Origin rm)) by (apply messages_dom; [done |]; by rewrite E).
      unfold total in H. lia. }
  unfold gossip_only in *. rewrite filter_app. destruct (isNew && IsChatRumor rm) eqn:Eb.
  - apply andb_true_iff in Eb as [Hn Hchat]. rewrite filter_cons_True by done. rewrite filter_nil. split.
    + apply NoDup_app. split; [done |]. split; [| apply NoDup_singleton].
      intros x Hx ->%list_elem_of_singleton. apply Hiff in Hx as (_ & o & id & E).
      destruct (ok_keyed g Hg _ _ _ E) as [Eo Eid].
      assert (H : 1 <= id <= total g o) by (apply messages_dom; [done |]; by rewrite E).
      apply Hnew in Hn. rewrite Eo, Eid in Hn. unfold total in H. lia.
    + intros rm'. rewrite elem_of_app, Hiff, list_elem_of_singleton, Hcase. split.
      * intros [[? ?]| ->]; (split; [done |]); [by right | by left].
      * intros [? [[_ ->]|?]]; [by right | by left].
  - rewrite filter_nil, app_nil_r. split; [done |]. intros rm'. rewrite Hiff, Hcase. split.
    + intros [? ?]. split; [done | by right].
    + intros [Hchat [[Hn ->]|?]]; [| done]. by rewrite Hn, Hchat in Eb.
Qed.

(** A node creates its next rumor. *)
Lemma create_ok w i g g' rm acts : world_ok w -> w_nodes w !! i = Some g -> seqIDCounter g < 2 ^ 32 - 2 ->
  rm_Origin rm = gs_name g -> rm_ID rm = seqIDCounter g ->
  grown g g' -> seqIDCounter g' = u32 (seqIDCounter g + 1) -> msgMap g' = (AddMessage (msgMap g) rm).1 ->
  latestMessages g' = latestMessages g ++ (if (AddMessage (msgMap g) rm).2 && IsChatRumor rm then [rm] else []) ->
  (forall rm', rm' ∈ rumors_of acts -> rm' = rm) ->
  world_ok (become w i g' acts).
Proof.
  intros Hw Ei Hlim Ho Hid Hgr Hc Em El Hacts. destruct (wok_nodes w Hw i g Ei) as [Hg _].
  destruct (wok_numbered w Hw i g Ei) as [Hnum Htot]. pose proof (total_nonneg g (gs_name g)) as H0.
  destruct (AddMessage_next g rm Hg) as (Hok & Hm & Ht); [by rewrite Ho, Hid | rewrite Ho; lia |].
  assert (Hm' : forall o, messages g' o = if decide (o = rm_Origin rm) then <[rm_ID rm := rm]> (messages g o) else messages g o)
    by (intros o; unfold messages; rewrite Em; apply Hm).
  assert (Hown : stores_own g' rm).
  { split; [by rewrite (grown_name _ _ Hgr) |]. rewrite Hm', decide_True by done. apply lookup_insert_eq. }
  apply (node_step w _ i g g' acts Hw Ei); try done.
  - apply (displays_add _ g g' rm Hg); [unfold in_width; lia | lia | done | done |]. by apply (wok_displays w Hw).
  - apply (messages_ok (set_msgMap g (AddMessage (msgMap g) rm).1)); [| apply Hgr | done].
    intros o. unfold messages. by rewrite Em.
  - unfold numbered. rewrite Hc, (grown_name _ _ Hgr). unfold total at 1 2. rewrite Em, <-Ho.
    rewrite Ht. rewrite Ho. rewrite wrap_small by (unfold in_width; lia). lia.
  - intros o. rewrite Hm'. destruct (decide _) as [->|]; [| done]. apply insert_subseteq.
    apply eq_None_not_Some. intros Hs%messages_dom; [| done]. rewrite Ho in Hs. lia.
  - intros rm' o id. rewrite Hm'. destruct (decide _) as [->|].
    + intros [[<- <-]|[_ E]]%lookup_insert_Some; [by right | left; right; by exists i, g, (rm_Origin rm), id].
    + intros E. left. right. by exists i, g, o, id.
  - intros rm' ->%Hacts. by right.
Qed.

(** The two handlers that create a rumor. *)
Lemma created_state g text : let rm := mkRumorMessage (gs_name g) (seqIDCounter g) text in
  let g' := (addMessage (set_counter g (u32 (seqIDCounter g + 1))) rm).1 in
  grown g g' /\ seqIDCounter g' = u32 (seqIDCounter g + 1) /\ msgMap g' = (AddMessage (msgMap g) rm).1 /\
  routingTable g' = routingTable g /\
  latestMessages g' = latestMessages g ++ (if (AddMessage (msgMap g) rm).2 && IsChatRumor rm then [rm] else []).
Proof.
  intros rm. unfold addMessage. cbn [msgMap set_counter].
  destruct (AddMessage (msgMap g) rm) as [m isNew]. cbn [fst snd].
  destruct (isNew && _); cbn; rewrite ?app_nil_r; split_and!; by try constructor.
Qed.
Lemma clientListen_eq g pap text : UseSimple g = false ->
  GetOrigin (pap_Packet pap) = Ok (gs_name g) -> GetContents (pap_Packet pap) = Ok text ->
  let rm := mkRumorMessage (gs_name g) (seqIDCounter g) text in
  clientListen g pap =
    Ok ((addMessage (set_counter g (u32 (seqIDCounter g + 1))) rm).1, [GoRumorMonger (rumor_packet rm) ""]).
Proof.
  intros Hm Eo Ec rm. unfold clientListen, printClientMessage, pap_GetContents. rewrite Ec.
  cbn [mbind outcome_bind mret outcome_ret]. unfold makeGossip. rewrite Hm, Eo, Ec.
  cbn [mbind outcome_bind GetAndIncrement UseSimple set_counter]. by rewrite Hm.
Qed.
(** What reaches the routine of the client's messages has the own name and a text. *)
Lemma client_packet name request pap : receiveClientUDP name request = Ok (ClientPacket cUI pap) ->
  exists text, GetOrigin (pap_Packet pap) = Ok name /\ GetContents (pap_Packet pap) = Ok text /\ text <> "".
Proof.
  unfold receiveClientUDP, ClientRequest_GetUnderlyingType. destruct (cr_Packet request) as [p|].
  - destruct p as [[sm|] [rm|] st pr dq dp sq sp tx bp dm hp ep dh]; cbn [GetUnderlyingType g_Simple g_Rumor].
    + cbn. destruct (String.eqb_spec (sm_Contents sm) ""); intros [= <-]. by exists (sm_Contents sm).
    + cbn. destruct (String.eqb_spec (sm_Contents sm) ""); intros [= <-]. by exists (sm_Contents sm).
    + cbn. destruct (String.eqb_spec (rm_Text rm) ""); intros [= <-]. by exists (rm_Text rm).
    + destruct st; [done |]. destruct pr as [pm|].
      { cbn. by destruct (String.eqb (pm_Text pm) ""). }
      destruct dq; [done |]. destruct dp; [done |]. destruct sq; [done |]. destruct sp; [done |].
      destruct tx; [done |]. destruct bp; [done |]. destruct dm; [done |]. destruct hp; [done |].
      destruct ep; [done |]. by destruct dh.
  - destruct (cr_FileShare request); [done |]. destruct (cr_FileDownload request); [done |].
    destruct (cr_FileSearch request); [done |]. destruct (cr_DHTLookup request) as [l|].
    + destruct (dl_Node l); [done |]. destruct (dl_Key l); [done |]. by destruct (cr_DHTStore request).
    + by destruct (cr_DHTStore request).
Qed.
Lemma trySend_same g rm peer g' acts quit : trySend_start g (rumor_packet rm) peer = Ok (g', acts, quit) ->
  grown g g' /\ seqIDCounter g' = seqIDCounter g /\ msgMap g' = msgMap g /\ latestMessages g' = latestMessages g /\
  routingTable g' = routingTable g /\ forall rm', rm' ∈ rumors_of acts -> rm' = rm.
Proof.
  destruct (rumor_accessors (rumor_packet rm) rm eq_refl eq_refl) as (_ & Eo & _ & Ei).
  unfold trySend_start. rewrite Eo, Ei. cbn [mbind outcome_bind].
  destruct (AddListener _ _ _ _) as [[q quit'] already]. destruct already; intros [= <- <- <-].
  - split_and!; [by constructor | done | done | done | done |]. intros rm' H. by apply elem_of_nil in H.
  - split_and!; [by constructor | done | done | done | done |]. intros rm' H. by apply list_elem_of_singleton in H.
Qed.

(** What a node does with a private message. *)
Lemma privateMessage_eq g pm sender :
  privateMessageListen g (mkPacketAddressPair (private pm) sender) = Ok (
    let g1 := (addToPeers g sender).1 in let pm' := (pm_DecrementHopCount pm).1 in
    if String.eqb (pm_Destination pm) (gs_name g)
    then (set_latest g1 (latestMessages g1 ++ [mkRumorMessage (pm_Origin pm) 0 (pm_Text pm)]), [])
    else (g1, if 0 <? pm_HopLimit pm'
              then (if getNextHop g (pm_Destination pm) is Some nextHop then [Send (private pm') nextHop] else [])
              else [])).
Proof.
  unfold privateMessageListen. rewrite pap_sender_rumor by discriminate. cbn [mbind outcome_bind].
  destruct (addToPeers_fields g sender) as (_ & _ & En & Er & _). set (g1 := (addToPeers g sender).1) in *.
  change (pap_GetDestination (mkPacketAddressPair (private pm) sender)) with (Ok (pm_Destination pm)).
  cbn [mbind outcome_bind]. rewrite En. destruct (String.eqb (pm_Destination pm) (gs_name g)).
  - by rewrite (printGossiperMessage_private (private pm) pm sender).
  - cbn [pap_Packet]. set (pm' := (pm_DecrementHopCount pm).1).
    change (forward g1 (private pm)) with (if 0 <? pm_HopLimit pm' then match getNextHop g1 (pm_Destination pm) with
        | Some nh => Ok (private pm', [Send (private pm') nh]) | None => Ok (private pm', []) end else Ok (private pm', [])).
    assert (Eh : getNextHop g1 (pm_Destination pm) = getNextHop g (pm_Destination pm)) by (unfold getNextHop; by rewrite Er).
    rewrite Eh. destruct (0 <? _); [| reflexivity].
    by destruct (getNextHop g (pm_Destination pm)).
Qed.

(** ** Every step keeps the invariant *)
Section one_step.
Context (w : world) (Hw : world_ok w) (i : string) (g : Gossiper) (Ei : w_nodes w !! i = Some g).

Lemma client_ok request pap g' acts : seqIDCounter g < 2 ^ 32 - 2 ->
  receiveClientUDP (gs_name g) request = Ok (ClientPacket cUI pap) -> clientListen g pap = Ok (g', acts) ->
  world_ok (become w i g' acts).
Proof using Hw Ei.
  intros Hlim (text & Eo & Ec & _)%client_packet. destruct (wok_nodes w Hw i g Ei) as [Hg _].
  rewrite (clientListen_eq g pap text) by (done || apply Hg).
  intros [= <- <-]. destruct (created_state g text) as (Hgr & Hc & Em & _ & El).
  apply (create_ok w i g _ (mkRumorMessage (gs_name g) (seqIDCounter g) text)); try done.
  intros rm' H. by apply list_elem_of_singleton in H.
Qed.
Lemma route_ok r g' acts quit : seqIDCounter g < 2 ^ 32 - 2 ->
  periodicRouteRumor_tick g r = Ok (g', acts, quit) -> world_ok (become w i g' acts).
Proof using Hw Ei.
  intros Hlim. unfold periodicRouteRumor_tick. destruct (pickRandomPeer _ _ _) as [peer|].
  - unfold makeRouteRumorPacket. cbn [GetAndIncrement rumor_packet g_Rumor deref mbind outcome_bind].
    intros (Hgr & Hc & Em & El & _ & Hacts)%trySend_same. destruct (created_state g "") as (Hgr0 & Hc0 & Em0 & _ & El0).
    apply (create_ok w i g g' (mkRumorMessage (gs_name g) (seqIDCounter g) "")); try done.
    + by etrans.
    + by rewrite Hc.
    + by rewrite Em.
    + by rewrite El.
  - intros [= <- <- <-]. apply (become_same w i g g); try done. intros rm H. by apply elem_of_nil in H.
Qed.
Lemma around_bounds rm : around w rm -> 1 <= rm_ID rm < 2 ^ 32 - 1.
Proof using Hw.
  intros (k & c & Ek & Hname & Hst)%(wok_created w Hw). destruct (wok_nodes w Hw k c Ek) as [Hc _].
  assert (H : 1 <= rm_ID rm <= total c (rm_Origin rm)) by (apply messages_dom; [done |]; by rewrite Hst).
  pose proof (ok_bound c Hc (rm_Origin rm)) as Hb. fold (total c (rm_Origin rm)) in Hb. lia.
Qed.
(** Nobody has more messages of an origin than the node of that name. *)
Lemma total_bounded o : total g o < 2 ^ 32 - 2.
Proof using Hw Ei.
  destruct (wok_nodes w Hw i g Ei) as [Hg _]. pose proof (total_nonneg g o).
  destruct (decide (total g o = 0)) as [->|Hne]; [lia |].
  destruct (proj2 (messages_dom g o (total g o) Hg)) as [rm Erm]; [lia |].
  destruct (ok_keyed g Hg _ _ _ Erm) as [Eo Eid].
  destruct (wok_created w Hw rm) as (k & c & Ek & Hname & Hst); [right; by exists i, g, o, (total g o) |].
  destruct (wok_nodes w Hw k c Ek) as [Hc _], (wok_numbered w Hw k c Ek) as [_ Hlt].
  assert (Hin : 1 <= rm_ID rm <= total c (rm_Origin rm)) by (apply messages_dom; [done |]; by rewrite Hst).
  rewrite Hname in Hlt. rewrite Eo in *. lia.
Qed.
Lemma rumor_ok from rm sender g' acts : (from, rm) ∈ w_sent w ->
  rumorListen g (mkPacketAddressPair (rumor_packet rm) sender) = Ok (g', acts) -> world_ok (become w i g' acts).
Proof using Hw Ei.
  intros Hin. destruct (wok_nodes w Hw i g Ei) as [Hg _].
  assert (Ha : around w rm) by (left; by exists from). pose proof (around_bounds rm Ha) as Hid. pose proof (total_bounded (rm_Origin rm)) as Hb.
  assert (Hwid : in_width 32 (rm_ID rm)) by (unfold in_width; lia).
  destruct (rumorListen_step g rm sender Hg Hwid Hb) as (g2 & (isNew & E) & Em & Hg2 & Hgr & Hc & El & _).
  rewrite E. intros [= <- <-].
  assert (Hd : displays (shown_at w i) g2).
  { apply (displays_add _ g g2 rm Hg Hwid); [lia | done | done |]. by apply (wok_displays w Hw). }
  pose proof (AddMessage_ok (msgMap g) rm (ok_msgs g Hg) Hwid (ok_bound g Hg _)) as Hadd.
  destruct (AddMessage (msgMap g) rm) as [m new]. cbn [fst] in Em. subst m. destruct Hadd as (_ & Hnew & Hcount & Hm).
  assert (Hlook : forall o id, messages g2 o !! id = if decide (new = true /\ o = rm_Origin rm /\ id = rm_ID rm)
    then Some rm else messages g o !! id) by exact Hm.
  eapply (node_step w _ i g g2 _ Hw Ei); try done.
  - destruct (wok_numbered w Hw i g Ei) as [Hn Ht]. unfold numbered. rewrite Hc, (grown_name _ _ Hgr).
    assert (Et : total g2 (gs_name g) = total g (gs_name g)); [| by rewrite Et].
    unfold total. rewrite Hcount. rewrite decide_False; [lia |]. intros [Hnw Eo].
    destruct (wok_created w Hw rm Ha) as (k & c & Ek & Hname & Hst).
    replace k with i in Ek by (symmetry; apply (wok_names w Hw k i c g Ek Ei); congruence).
    replace c with g in Hst by congruence.
    assert (H : 1 <= rm_ID rm <= total g (rm_Origin rm)) by (apply messages_dom; [done |]; by rewrite Hst).
    apply Hnew in Hnw. unfold total in H. lia.
  - intros o. apply map_subseteq_spec. intros id rm' E'. rewrite Hlook. destruct (decide _) as [(Hnw & -> & ->)|]; [| done].
    assert (H : 1 <= rm_ID rm <= total g (rm_Origin rm)) by (apply messages_dom; [done |]; by rewrite E').
    apply Hnew in Hnw. unfold total in H. lia.
  - intros rm' o id. rewrite Hlook. destruct (decide _) as [(_ & -> & ->)|].
    + intros [= <-]. by left.
    + intros E'. left. right. by exists i, g, o, id.
  - intros rm' H. left. destruct isNew; cbn in H; [by apply list_elem_of_singleton in H as -> | by apply elem_of_nil in H].
Qed.
Lemma status_ok sp peer g1 acts g' sent :
  statusListen g (mkPacketAddressPair (status_packet sp) peer) = Ok (g1, acts) ->
  peer_routine g1 peer acts = (g', sent) -> world_ok (become w i g' sent).
Proof using Hw Ei.
  intros E1 E2. destruct (answer_spec g peer sp) as (b1 & acts1 & b' & extra & F1 & F2 & Hextra & Hgr & Hc & Hl & _ & Hm).
  rewrite F1 in E1. injection E1 as <- <-. rewrite F2 in E2. injection E2 as <- <-.
  apply (become_same w i g b' _ Hw Ei Hgr Hc Hl Hm). intros rm H. right.
  apply list_elem_of_omap in H as (a & [(v & -> & _)%list_elem_of_fmap|Ha]%elem_of_app & E).
  - exists i, g, (ps_Identifier v), (ps_NextID v). by split.
  - destruct Hextra as [->| ->]; [by apply elem_of_nil in Ha |].
    apply list_elem_of_singleton in Ha as ->. done.
Qed.
Lemma monger_ok rm peer g' acts quit : (i, rm) ∈ w_sent w ->
  trySend_start g (rumor_packet rm) peer = Ok (g', acts, quit) -> world_ok (become w i g' acts).
Proof using Hw Ei.
  intros Hin (Hgr & Hc & Em & El & _ & Hacts)%trySend_same. apply (become_same w i g g' _ Hw Ei Hgr Hc El).
  - intros o. unfold messages. by rewrite Em.
  - intros rm' ->%Hacts. left. by exists i.
Qed.
Lemma timeout_ok rm peer g' : trySend_timeout g (rumor_packet rm) peer = Ok g' -> world_ok (become w i g' []).
Proof using Hw Ei.
  destruct (rumor_accessors (rumor_packet rm) rm eq_refl eq_refl) as (_ & Eo & _ & Eid).
  unfold trySend_timeout. rewrite Eo, Eid. intros [= <-]. apply (become_same w i g _ _ Hw Ei); try done.
  intros rm' H. by apply elem_of_nil in H.
Qed.
Lemma private_ok pm sender g' acts :
  privateMessageListen g (mkPacketAddressPair (private pm) sender) = Ok (g', acts) -> world_ok (become w i g' acts).
Proof using Hw Ei.
  rewrite privateMessage_eq. destruct (addToPeers_fields g sender) as (_ & Em & _ & _ & El & Ec & _).
  intros E. assert (H : exists extra, gossip_only extra = [] /\ rumors_of acts = [] /\
    g' = set_latest (addToPeers g sender).1 (latestMessages g ++ extra)).
  { destruct (String.eqb _ _); injection E as <- <-.
    - eexists. split; [| split; [done | by rewrite El]]. done.
    - exists []. rewrite app_nil_r, <-El. split; [done |]. split; [| by destruct (addToPeers g sender).1].
      destruct (0 <? _); [| done]. by destruct (getNextHop _ _). }
  destruct H as (extra & Hextra & Hr & ->).
  apply (silent_step w _ i g (set_latest (addToPeers g sender).1 (latestMessages g ++ extra)) acts Hw Ei); try done.
  - cbn [latestMessages set_latest]. unfold gossip_only in *. rewrite app_assoc, (filter_app _ (_ ++ _)), Hextra, app_nil_r. done.
  - etrans; [apply (addToPeers_grown g sender) |]. by constructor.
  - intros o. unfold messages. cbn [msgMap set_latest]. by rewrite Em.
  - rewrite Hr. intros rm H. by apply elem_of_nil in H.
Qed.
Lemma poll_ok : world_ok (poll w i g).
Proof using Hw Ei.
  apply (silent_step w _ i g (set_latest g []) [] Hw Ei); try done.
  - intros k Hk. unfold shown_at. cbn [poll GetLatestMessagesList GetArrayCopyAndDelete w_shown]. by rewrite lookup_insert_ne.
  - unfold shown_at at 1. cbn [poll GetLatestMessagesList GetArrayCopyAndDelete w_shown latestMessages set_latest].
    rewrite lookup_insert_eq. cbn [default from_option id]. by rewrite app_nil_r.
  - intros rm H. by apply elem_of_nil in H.
Qed.
Lemma peer_ok peer : world_ok (become w i (AddPeer g peer) []).
Proof using Hw Ei.
  unfold AddPeer. destruct (addToPeers_fields g peer) as (_ & Em & _ & _ & El & Ec & _).
  apply (become_same w i g _ _ Hw Ei); try done.
  - apply addToPeers_grown.
  - intros o. unfold messages. by rewrite Em.
  - intros rm H. by apply elem_of_nil in H.
Qed.
End one_step.

Lemma world_step_ok spoofing w w' : world_ok w -> world_step spoofing w w' -> world_ok w'.
Proof.
  intros Hw Hs. destruct Hs.
  - by eapply client_ok.
  - by eapply route_ok.
  - by eapply rumor_ok.
  - by eapply status_ok.
  - by eapply private_ok.
  - by eapply monger_ok.
  - by eapply timeout_ok.
  - by apply poll_ok.
  - by apply peer_ok.
Qed.
Lemma Reachable_ok spoofing w : Reachable spoofing w -> world_ok w.
Proof. induction 1; [by apply initial_ok | by eapply world_step_ok]. Qed.
Lemma world_coherent w : world_ok w -> coherent (w_nodes w).
Proof.
  intros Hw i j g g' o id rm rm' Ei Ej Em Em'.
  destruct (wok_nodes w Hw i g Ei) as [Hg _], (wok_nodes w Hw j g' Ej) as [Hg' _].
  destruct (ok_keyed g Hg _ _ _ Em) as [Eo Eid], (ok_keyed g' Hg' _ _ _ Em') as [Eo' Eid'].
  destruct (wok_created w Hw rm) as (k & c & Ek & Hn & Hs); [right; by exists i, g, o, id |].
  destruct (wok_created w Hw rm') as (l & c' & El & Hn' & Hs'); [right; by exists j, g', o, id |].
  assert (k = l) as <- by (apply (wok_names w Hw k l c c' Ek El); congruence).
  replace c' with c in Hs' by congruence. rewrite Eo, Eid in Hs. rewrite Eo', Eid' in Hs'. congruence.
Qed.
(** What is stored under the name of a node is stored at that node. *)
Lemma world_created w i g o id rm : world_ok w -> w_nodes w !! i = Some g -> messages g o !! id = Some rm ->
  exists j c, w_nodes w !! j = Some c /\ gs_name c = o /\ messages c o !! id = Some rm.
Proof.
  intros Hw Ei Em. destruct (wok_nodes w Hw i g Ei) as [Hg _]. destruct (ok_keyed g Hg _ _ _ Em) as [Eo Eid].
  destruct (wok_created w Hw rm) as (j & c & Ej & Hn & Hs); [right; by exists i, g, o, id |].
  exists j, c. rewrite Eo, Eid in *. done.
Qed.

(** ** The exchanges of [Network] are runs *)
Lemma hear_world spoofing acts : forall w i a sender a', Reachable spoofing w -> w_nodes w !! i = Some a ->
  (forall p addr, Send p addr ∈ acts -> GetUnderlyingType p = "rumor" -> exists rm, p = rumor_packet rm /\ (sender, rm) ∈ w_sent w) ->
  hear a sender acts = Ok a' ->
  exists w', Reachable spoofing w' /\ w_nodes w' = <[i := a']> (w_nodes w) /\ w_shown w' = w_shown w.
Proof.
  induction acts as [|act acts IH]; intros w i a sender a' Hr Ei Hp.
  { intros [= <-]. exists w. by rewrite insert_id. }
  assert (Hp' : forall p addr, Send p addr ∈ acts -> GetUnderlyingType p = "rumor" -> exists rm, p = rumor_packet rm /\ (sender, rm) ∈ w_sent w).
  { intros p addr Hin. apply (Hp p addr). by right. }
  destruct act as [p addr| | |]; cbn [hear]; try by apply (IH w i a sender a' Hr Ei Hp').
  destruct (String.eqb addr (gs_address a) && String.eqb (GetUnderlyingType p) "rumor") eqn:Eb;
    [| by apply (IH w i a sender a' Hr Ei Hp')].
  apply andb_true_iff in Eb as [_ Et%String.eqb_eq].
  destruct (Hp p addr (list_elem_of_here _ _) Et) as (rm & -> & Hin).
  destruct (rumorListen a _) as [[a1 acts1]| |] eqn:E1; [| done | done]. cbn [mbind outcome_bind].
  pose proof (reach_step spoofing w _ Hr (step_rumor spoofing w i a sender rm sender a1 acts1 Ei Hin (or_introl eq_refl) E1)) as Hr1. intros E.
  destruct (IH (become w i a1 acts1) i a1 sender a' Hr1) as (w' & Hr' & En & Es); [apply lookup_insert_eq | | done |].
  - intros p addr' Hin' Et'. destruct (Hp' p addr' Hin' Et') as (rm' & -> & H). exists rm'. split; [done |].
    apply elem_of_app. by right.
  - exists w'. split; [done |]. split; [| done]. rewrite En. cbn [become w_nodes]. by rewrite insert_insert_eq.
Qed.
Lemma tick_world spoofing w i r n' : Reachable spoofing w -> tick (w_nodes w) i r = Ok n' ->
  exists w', Reachable spoofing w' /\ w_nodes w' = n' /\ w_shown w' = w_shown w.
Proof.
  intros Hr. pose proof (Reachable_ok spoofing w Hr) as Hw. unfold tick.
  assert (Hsame : Ok (w_nodes w) = Ok n' -> exists w', Reachable spoofing w' /\ w_nodes w' = n' /\ w_shown w' = w_shown w)
    by (intros [= <-]; by exists w).
  destruct (w_nodes w !! i) as [a|] eqn:Ei; [| done]. destruct (wok_nodes w Hw i a Ei) as [Ha _].
  rewrite (tick_pick a r (ok_mode a Ha)). destruct (GetArrayCopy (peers a) !! r) as [j|]; [| done].
  destruct (w_nodes w !! j) as [b|] eqn:Ej; [| done]. set (sp := GetOwnStatusPacket (msgMap a)). unfold exchange.
  destruct (answer_spec b (gs_address a) sp) as (b1 & acts & b' & extra & E1 & E2 & Hextra & Hgb & _).
  rewrite E1. cbn [mbind outcome_bind]. rewrite E2.
  set (sent := _ ++ extra) in *. destruct (hear a (gs_address b') sent) as [a'| |] eqn:Eh; [| done | done].
  cbn [mbind outcome_bind]. intros [= <-].
  pose proof (reach_step spoofing w _ Hr (step_status spoofing w j b sp (gs_address a) b1 acts b' sent Ej E1 E2)) as Hr1.
  destruct (decide (i = j)) as [->|Hne].
  { exists (become w j b' sent). split; [done |]. split; [| done]. cbn [become w_nodes]. by rewrite insert_insert_eq. }
  destruct (hear_world spoofing sent (become w j b' sent) i a (gs_address b') a' Hr1) as (w' & Hr' & En & Es).
  - cbn [become w_nodes]. by rewrite lookup_insert_ne.
  - intros p addr Hin Et.
    assert (Hp : exists rm, p = rumor_packet rm).
    { apply elem_of_app in Hin as [(v & [= -> _] & _)%list_elem_of_fmap|Hin].
      - unfold desired_packet in *. destruct (originMessages (msgMap b) (ps_Identifier v) !! ps_NextID v) as [rm|]; [by exists rm | done].
      - destruct Hextra as [->| ->]; [by apply elem_of_nil in Hin |].
        apply list_elem_of_singleton in Hin as [= -> ->]. done. }
    destruct Hp as [rm ->]. exists rm. split; [done |]. apply elem_of_app. left.
    replace (gs_address b') with j by (rewrite (grown_address b b'); [symmetry; by apply (wok_nodes w Hw) | done]).
    apply list_elem_of_fmap. exists rm. split; [done |]. apply list_elem_of_omap. by exists (Send (rumor_packet rm) addr).
  - done.
  - exists w'. split; [done |]. split; [| done]. rewrite En. cbn [become w_nodes]. by rewrite insert_insert_ne.
Qed.
Lemma run_ticks_world spoofing l : forall w n', Reachable spoofing w -> run_ticks (w_nodes w) l = Ok n' ->
  exists w', Reachable spoofing w' /\ w_nodes w' = n' /\ w_shown w' = w_shown w.
Proof.
  induction l as [|[i r] l IH]; intros w n' Hr; cbn [run_ticks]; [intros [= <-]; by exists w |].
  destruct (tick (w_nodes w) i r) as [n1| |] eqn:E; [| done | done]. cbn [mbind outcome_bind]. intros El.
  destruct (tick_world spoofing w i r n1 Hr E) as (w1 & Hr1 & <- & Es).
  destruct (IH w1 n' Hr1 El) as (w' & Hr' & En & Es'). exists w'. split_and!; [done | done | congruence].
Qed.

(** ** Properties *)

(** C3. Stored rumors are authentic, in every run.  A rumor that any node stores under an
    origin and an ID has them; the node of that name created it with that ID and stores the
    same text; and every earlier rumor of the origin is stored, too.  A rumor on its way was
    created in the same way, and two nodes never disagree on a rumor. *)
Theorem rumors_authentic spoofing w : Reachable spoofing w ->
  (forall i g o id rm, w_nodes w !! i = Some g -> messages g o !! id = Some rm ->
     rm_Origin rm = o /\ rm_ID rm = id /\
     (exists j c, w_nodes w !! j = Some c /\ gs_name c = o /\ messages c o !! id = Some rm /\ id < seqIDCounter c) /\
     (forall id', 1 <= id' <= id -> is_Some (messages g o !! id'))) /\
  (forall from rm, (from, rm) ∈ w_sent w -> exists j c, w_nodes w !! j = Some c /\ gs_name c = rm_Origin rm /\
     messages c (rm_Origin rm) !! rm_ID rm = Some rm) /\
  coherent (w_nodes w).
Proof.
  intros Hw%Reachable_ok. split; [| split; [| by apply world_coherent]].
  - intros i g o id rm Ei Em. destruct (wok_nodes w Hw i g Ei) as [Hg _].
    destruct (ok_keyed g Hg _ _ _ Em) as [Eo Eid].
    destruct (world_created w i g o id rm Hw Ei Em) as (j & c & Ej & Hn & Hs).
    destruct (wok_nodes w Hw j c Ej) as [Hc _], (wok_numbered w Hw j c Ej) as [Hcnt _].
    assert (H1 : 1 <= id <= total c o) by (apply messages_dom; [done |]; by rewrite Hs).
    assert (H2 : 1 <= id <= total g o) by (apply messages_dom; [done |]; by rewrite Em).
    split; [done |]. split; [done |]. split.
    + exists j, c. split_and!; [done | done | done |]. rewrite Hn in Hcnt. lia.
    + intros id' Hid'. apply messages_dom; [done | lia].
  - intros from rm Hin. apply (wok_created w Hw). left. by exists from.
Qed.

(** C4. Every node shows each rumor with text that it stores exactly once, in every run:
    whatever its web page has shown and would show next holds it once, however often and in
    whatever order it arrives; and it shows no rumor that it does not store. *)
Theorem rumors_shown_once spoofing w i g : Reachable spoofing w -> w_nodes w !! i = Some g ->
  let l := gossip_only (shown_at w i ++ latestMessages g) in
  NoDup l /\ (forall rm, rm ∈ l <-> IsChatRumor rm = true /\ messages g (rm_Origin rm) !! rm_ID rm = Some rm).
Proof.
  intros Hw%Reachable_ok Ei. destruct (wok_displays w Hw i g Ei) as [Hnd Hiff]. split; [done |].
  intros rm. rewrite Hiff. split; intros [Hchat H]; (split; [done |]); [| by eexists _, _].
  destruct H as (o & id & E). destruct (wok_nodes w Hw i g Ei) as [Hg _].
  by destruct (ok_keyed g Hg _ _ _ E) as [-> ->].
Qed.

(** C2. Rumors are delivered.  Take any run of the network, with lost, repeated and reordered
    packets, after which every node has a path of at most [diameter] known peers to every
    other one.  If then, in each of [most + diameter] rounds, every node sends its status to
    each of these peers, and the status and its answers arrive, every node ends with exactly
    the rumors that each node created, and has shown, or shows next, each of them that has
    text exactly once. *)
Theorem rumors_delivered spoofing w diameter most rounds :
  Reachable spoofing w ->
  (forall i g o, w_nodes w !! i = Some g -> total g o <= Z.of_nat most) ->
  (forall i j, i ∈ dom (w_nodes w) -> j ∈ dom (w_nodes w) ->
     exists d, (d <= diameter)%nat /\ nsteps (knows (w_nodes w)) d i j) ->
  Forall (covers (w_nodes w)) rounds -> (most + diameter <= length rounds)%nat ->
  exists n', run_ticks (w_nodes w) (concat rounds) = Ok n' /\ dom n' = dom (w_nodes w) /\
    forall i g', n' !! i = Some g' ->
      (forall j c, w_nodes w !! j = Some c -> messages g' (gs_name c) = messages c (gs_name c)) /\
      (forall o, (forall j c, w_nodes w !! j = Some c -> gs_name c <> o) -> messages g' o = ∅) /\
      let l := gossip_only (shown_at w i ++ latestMessages g') in
      NoDup l /\ (forall rm, rm ∈ l <-> IsChatRumor rm = true /\
        exists j c, w_nodes w !! j = Some c /\ stores_own c rm).
Proof.
  intros Hreach Hmost Hpath Hr Hlen. pose proof (Reachable_ok spoofing w Hreach) as Hw.
  destruct (gossip_converges (w_nodes w) diameter most rounds (wok_nodes w Hw) (world_coherent w Hw) Hmost Hpath Hr Hlen)
    as (n' & E & Hdom & H).
  exists n'. split; [done |]. split; [done |]. intros i g' Ei. destruct (H i g' Ei) as [Hg' Hiff].
  split; [| split].
  - intros j c Ej. apply map_eq. intros id. apply option_eq. intros rm. rewrite Hiff. split; [| by exists j, c].
    intros (k & g & Ek & Em). destruct (world_created w k g _ id rm Hw Ek Em) as (l & c' & El & Hn & Hs).
    assert (l = j) as -> by (by apply (wok_names w Hw l j c' c)). by replace c' with c in Hs by congruence.
  - intros o Hno. apply map_eq. intros id. rewrite lookup_empty. apply eq_None_not_Some. intros [rm Hm].
    apply Hiff in Hm as (k & g & Ek & Em). destruct (world_created w k g o id rm Hw Ek Em) as (l & c & El & Hn & _).
    by apply (Hno l c).
  - destruct (run_ticks_world spoofing _ w n' Hreach E) as (w' & Hw'%Reachable_ok & <- & Es).
    destruct (wok_displays w' Hw' i g' Ei) as [Hnd Hl]. unfold shown_at in Hnd, Hl. rewrite Es in Hnd, Hl.
    split; [exact Hnd |]. intros rm. rewrite (Hl rm). split; intros [Hchat Hst]; (split; [done |]).
    + destruct Hst as (o & id & Em). destruct (ok_keyed g' Hg' _ _ _ Em) as [<- <-].
      apply Hiff in Em as (k & g & Ek & Em). destruct (world_created w k g _ _ rm Hw Ek Em) as (j & c & Ej & Hn & Hs).
      by exists j, c.
    + destruct Hst as (j & c & Ej & Hn & Hs). eexists _, _. apply Hiff. by exists j, c.
Qed.

(** A run: two nodes start, and the client of the first one sends a message. *)
Definition start_world : world :=
  mkWorld (<["127.0.0.1:5000" := NewGossiper "127.0.0.1:5000" "A" ["127.0.0.1:5001"] false]>
    {["127.0.0.1:5001" := NewGossiper "127.0.0.1:5001" "B" ["127.0.0.1:5000"] false]}) [] ∅.
Lemma start_initial : initial start_world.
Proof.
  assert (Hcase : forall i g, w_nodes start_world !! i = Some g ->
    (i = "127.0.0.1:5000" /\ g = NewGossiper i "A" ["127.0.0.1:5001"] false) \/
    (i = "127.0.0.1:5001" /\ g = NewGossiper i "B" ["127.0.0.1:5000"] false)).
  { intros i g. cbn. intros [[<- <-]|[_ [<- <-]%lookup_singleton_Some]]%lookup_insert_Some; auto. }
  split; [done |]. split; [done |]. split.
  - intros i g [[-> ->]|[-> ->]]%Hcase; eauto.
  - intros i j g g' [[-> ->]|[-> ->]]%Hcase [[-> ->]|[-> ->]]%Hcase; done.
Qed.
Definition hello_state : Gossiper :=
  (addMessage (set_counter (NewGossiper "127.0.0.1:5000" "A" ["127.0.0.1:5001"] false) 2) (mkRumorMessage "A" 1 "hello")).1.
Definition hello_request : ClientRequest :=
  mkClientRequest (Some (simple_packet (mkSimpleMessage "" "" "hello"))) None None None None None.
Definition hello_world : world :=
  become start_world "127.0.0.1:5000" hello_state [GoRumorMonger (rumor_packet (mkRumorMessage "A" 1 "hello")) ""].
Lemma hello_reachable spoofing : Reachable spoofing hello_world.
Proof.
  apply (reach_step spoofing start_world); [apply reach_start, start_initial |].
  apply (step_client spoofing _ "127.0.0.1:5000" (NewGossiper "127.0.0.1:5000" "A" ["127.0.0.1:5001"] false) hello_request
    (mkPacketAddressPair (simple_packet (mkSimpleMessage "A" "" "hello")) ""));
    [reflexivity | vm_compute; reflexivity | reflexivity | reflexivity].
Qed.
Lemma hello_nodes i g : w_nodes hello_world !! i = Some g ->
  (i = "127.0.0.1:5000" /\ g = hello_state) \/
  (i = "127.0.0.1:5001" /\ g = NewGossiper "127.0.0.1:5001" "B" ["127.0.0.1:5000"] false).
Proof.
  unfold hello_world. cbn [w_nodes become start_world]. rewrite insert_insert_eq.
  intros [[<- <-]|[_ [<- <-]%lookup_singleton_Some]]%lookup_insert_Some; auto.
Qed.
Lemma hello_messages o : messages hello_state o = if decide (o = "A") then {[1 := mkRumorMessage "A" 1 "hello"]} else ∅.
Proof.
  assert (Em : msgMap hello_state = <["A" := {[1 := mkRumorMessage "A" 1 "hello"]}]> ∅) by reflexivity.
  unfold messages. rewrite Em, originMessages_insert. by destruct (decide (o = "A")).
Qed.

Lemma rumors_authentic_witness :
  rm_Origin (mkRumorMessage "A" 1 "hello") = "A" /\
  exists j c, w_nodes hello_world !! j = Some c /\ gs_name c = "A" /\
    messages c "A" !! 1 = Some (mkRumorMessage "A" 1 "hello").
Proof.
  destruct (rumors_authentic True hello_world (hello_reachable True)) as (H & _ & _).
  destruct (H "127.0.0.1:5000" hello_state "A" 1 (mkRumorMessage "A" 1 "hello")) as (Eo & _ & (j & c & E & Hn & Hm & _) & _);
    [reflexivity | reflexivity |].
  split; [exact Eo |]. exists j, c. exact (conj E (conj Hn Hm)).
Defined.

Lemma rumors_shown_once_witness :
  mkRumorMessage "A" 1 "hello" ∈ gossip_only (shown_at hello_world "127.0.0.1:5000" ++ latestMessages hello_state).
Proof.
  destruct (rumors_shown_once True hello_world "127.0.0.1:5000" hello_state (hello_reachable True)) as [_ H]; [reflexivity |].
  apply H. split; reflexivity.
Defined.

Lemma rumors_delivered_witness :
  exists n', run_ticks (w_nodes hello_world) (concat [pair_round; pair_round]) = Ok n' /\
    forall i g', n' !! i = Some g' -> messages g' "A" !! 1 = Some (mkRumorMessage "A" 1 "hello").
Proof.
  destruct (rumors_delivered True hello_world 1 1 [pair_round; pair_round]) as (n' & E & _ & H).
  - exact (hello_reachable True).
  - intros i g o [[-> ->]|[-> ->]]%hello_nodes.
    + unfold total, count. fold (messages hello_state o). rewrite hello_messages. by destruct (decide (o = "A")).
    + unfold total. cbn. rewrite NewSafeMessagesMap_count. lia.
  - assert (K1 : knows (w_nodes hello_world) "127.0.0.1:5000" "127.0.0.1:5001").
    { exists hello_state. split; [reflexivity |]. split; [vm_compute; constructor | by eexists]. }
    assert (K2 : knows (w_nodes hello_world) "127.0.0.1:5001" "127.0.0.1:5000").
    { eexists. split; [reflexivity |]. split; [vm_compute; constructor | by eexists]. }
    intros i j [gi [[-> ->]|[-> ->]]%hello_nodes]%elem_of_dom [gj [[-> ->]|[-> ->]]%hello_nodes]%elem_of_dom.
    + exists 0%nat. split; [lia | constructor].
    + exists 1%nat. split; [lia |]. by eapply nsteps_once.
    + exists 1%nat. split; [lia |]. by eapply nsteps_once.
    + exists 0%nat. split; [lia | constructor].
  - assert (Hc : covers (w_nodes hello_world) pair_round); [| by repeat constructor].
    intros i j (g & [[-> ->]|[-> ->]]%hello_nodes & Hin & _); cbn in Hin; apply list_elem_of_singleton in Hin as ->.
    + exists hello_state, 0%nat. split; [reflexivity |]. split; [reflexivity |]. by constructor.
    + eexists _, 0%nat. split; [reflexivity |]. split; [reflexivity |]. by do 2 constructor.
  - cbn. lia.
  - exists n'. split; [exact E |]. intros i g' Ei.
    pose proof (proj1 (H i g' Ei) "127.0.0.1:5000" hello_state eq_refl) as Hm.
    change (gs_name hello_state) with "A" in Hm. rewrite Hm. reflexivity.
Defined.
