(* ===== verification/Web.v ===== *)
(** * The web server of a node and its start (main.go; SendGossipPacket of dto/DTO.go)

    A handler gets the method and the form of a request and returns the new state of the
    gossiper, the value that it writes as JSON, if any, and the request that it sends to the
    gossiper's own client port, if any.  [ParseForm] fails on a malformed form.  Sockets are
    left out; resolving an address and encoding a packet are parameters. *)
From stdpp Require Import relations.
From S2P Require Import Prelude DhtId CrawlerPacket Dto Containers Gossip Dispatch Storage Float64 PageRank Search Client FileParsing FileNode Network Provenance.
Open Scope Z_scope.

(** ** Answers *)
Inductive json := JNull | JStr (s : string) | JNum (f : float64) | JArr (l : list json) | JObj (fields : list (string * json)).
(** [json.Marshal] refuses infinities and NaN. *)
Definition json_finite (f : float64) : bool :=
  match f with SpecFloat.S754_infinity _ | SpecFloat.S754_nan => false | _ => true end.
Fixpoint marshals (v : json) : bool :=
  match v with
  | JNull | JStr _ => true
  | JNum f => json_finite f
  | JArr l => forallb marshals l
  | JObj fields => forallb (fun kv => marshals kv.2) fields
  end.
Definition answer (v : json) : outcome json := if marshals v then Ok v else Panic "json".

Definition json_message (m : FrontEndMessage) : json :=
  JObj [("Origin", JStr (fe_Origin m)); ("Text", JStr (fe_Text m)); ("Type", JStr (fe_Type m))].
Definition jsonPeer (v : string) : json := JObj [("Name", JStr v)].
Definition jsonOrigin (v : string) : json := JObj [("Name", JStr v)].
Definition json_match (m : MetahashFilenamePair) : json :=
  JObj [("Metahash", JStr (mfp_Metahash m)); ("Filename", JStr (mfp_Filename m))].
Definition json_result (r : RankedResult) : json :=
  JObj [("Result", JObj [("Link", JStr (Link (Result r))); ("TfIdf", JArr (JNum <$> TfIdf (Result r)));
                         ("SimScore", JNum (SimScore (Result r)))]);
        ("PageRank", JNum (PageRank_ r)); ("Rank", JNum (Rank r))].

(** ** Requests *)
Record http_request := mkHttp { hr_path : string; hr_method : string; hr_form : option (gmap string string) }.
Definition ParseForm (r : http_request) : outcome (gmap string string) :=
  match hr_form r with Some f => Ok f | None => Panic "ParseForm" end.
Definition PostFormValue (form : gmap string string) (key : string) : string := default "" (form !! key).
(** The new state, what is written, and the request sent to the client port. *)
Abbreviation reply := (outcome (Gossiper * option json * option ClientRequest)).
Definition wrote (g : Gossiper) (v : json) : reply := v ← answer v; Ok (g, Some v, None).
Definition posted (g : Gossiper) (p : web_post) : reply := Ok (g, None, handlePost p).
Definition nothing (g : Gossiper) : reply := Ok (g, None, None).

Definition messageHandler (g : Gossiper) (r : http_request) : reply :=
  switch (hr_method r) [
    ("GET", let '(g, list) := GetLatestMessagesList g in wrote g (JArr (json_message <$> ConvertToFEMList list)));
    ("POST", form ← ParseForm r; posted g (PostMessage (PostFormValue form "message")))
  ] (nothing g).
Definition nodeHandler (g : Gossiper) (r : http_request) : reply :=
  switch (hr_method r) [
    ("GET", wrote g (JArr (jsonPeer <$> GetPeersList g)));
    ("POST", form ← ParseForm r; nothing (AddPeer g (PostFormValue form "peer")))
  ] (nothing g).
Definition idHandler (g : Gossiper) (r : http_request) : reply := wrote g (JStr (GetName g)).
Definition privateMessageHandler (g : Gossiper) (r : http_request) : reply :=
  switch (hr_method r) [
    ("POST", form ← ParseForm r;
       posted g (PostPrivateMessage (PostFormValue form "message") (PostFormValue form "destName")))
  ] (nothing g).
Definition originsHandler (g : Gossiper) (r : http_request) : reply :=
  switch (hr_method r) [("GET", wrote g (JArr (jsonOrigin <$> GetOriginsList g)))] (nothing g).
Definition shareFileHandler (g : Gossiper) (r : http_request) : reply :=
  switch (hr_method r) [
    ("POST", form ← ParseForm r; posted g (PostShareFile (PostFormValue form "file")))
  ] (nothing g).
Definition downloadFileHandler (g : Gossiper) (r : http_request) : reply :=
  switch (hr_method r) [
    ("POST", form ← ParseForm r;
       posted g (PostDownload (PostFormValue form "file") (PostFormValue form "origin") (PostFormValue form "metahash")))
  ] (nothing g).
Definition searchFileHandler (g : Gossiper) (r : http_request) : reply :=
  switch (hr_method r) [
    ("POST", form ← ParseForm r;
       posted g (PostSearch (PostFormValue form "keywords") (PostFormValue form "budget")))
  ] (nothing g).
Definition matchesFoundHandler (g : Gossiper) (r : http_request) : reply :=
  switch (hr_method r) [("GET", wrote g (JArr (json_match <$> GetMatchesList g)))] (nothing g).
(** The handlers that [main] registers; every other path is a file of the page. *)
Definition serve (g : Gossiper) (r : http_request) : reply :=
  switch (hr_path r) [
    ("/message", messageHandler g r); ("/node", nodeHandler g r); ("/id", idHandler g r);
    ("/privatemessage", privateMessageHandler g r); ("/origins", originsHandler g r);
    ("/sharefile", shareFileHandler g r); ("/dlfile", downloadFileHandler g r);
    ("/searchfile", searchFileHandler g r); ("/searchmatches", matchesFoundHandler g r)
  ] (nothing g).

(** The search page of the crawl leader. *)
Section search_page.
Context `{HG : GoSort} `{HK : Protobuf KeywordToURLMap has_links}.
Context {rank_ok : RankInfo -> Prop} `{HPR : Protobuf RankInfo rank_ok}.
Context (Log : float64 -> float64) (StemString : string -> string).
Context (LookupValue : TypeID -> string -> option bytes) (range : gmap string Z -> list (string * Z)).
Definition searchHandler (docs : Z) (query : string) : outcome json :=
  results ← DoSearch Log StemString LookupValue range docs query;
  answer (JObj [("Results", if decide (results = []) then JNull else JArr (json_result <$> results))]).
End search_page.

(** ** Start and sending *)
Section sockets.
Context {udp_addr : Type} (ResolveUDPAddr : string -> option udp_addr) (Encode : GossipPacket -> option bytes).

Definition LogError_ {A} (what : string) (v : option A) : outcome A :=
  match v with Some a => Ok a | None => LogError what end.
Definition SendGossipPacket (packet : GossipPacket) (addr : string) : outcome (udp_addr * bytes) :=
  udpAddr ← LogError_ "address" (ResolveUDPAddr addr);
  packetBytes ← LogError_ "encode" (Encode packet);
  Ok (udpAddr, packetBytes).
(** The datagrams of what a handler does; the other effects start goroutines. *)
Fixpoint sendUDP_all (acts : list action) : outcome (list (udp_addr * bytes)) :=
  match acts with
  | [] => Ok []
  | Send packet addr :: rest => d ← SendGossipPacket packet addr; ds ← sendUDP_all rest; Ok (d :: ds)
  | _ :: rest => sendUDP_all rest
  end.
(** The gossiper that [main] makes of its flags. *)
Definition peers_of_flag (peersStr : string) : list string :=
  if String.eqb peersStr "" then [] else SplitAt comma peersStr.
Definition start (UIPort gossipAddr name peersStr : string) (simple : bool) : outcome Gossiper :=
  _ ← LogError_ "address" (ResolveUDPAddr gossipAddr);
  _ ← LogError_ "address" (ResolveUDPAddr ("localhost:" +:+ UIPort));
  Ok (NewGossiper gossipAddr name (peers_of_flag peersStr) simple).
End sockets.

(** ** Lemmas *)
Lemma marshals_list {A} (f : A -> json) l : (forall x, marshals (f x) = true) -> marshals (JArr (f <$> l)) = true.
Proof. intros H. induction l as [|x l IH]; [done |]. cbn in *. by rewrite H, IH. Qed.
Lemma wrote_list {A} g (f : A -> json) l : (forall x, marshals (f x) = true) ->
  wrote g (JArr (f <$> l)) = Ok (g, Some (JArr (f <$> l)), None).
Proof. intros H. unfold wrote, answer. by rewrite marshals_list. Qed.

(** What a request of the web page does to the state. *)
Inductive web_effect (g : Gossiper) : Gossiper -> Prop :=
  | web_none : web_effect g g
  | web_poll : web_effect g (GetLatestMessagesList g).1
  | web_peer peer : web_effect g (AddPeer g peer).
Lemma ParseForm_bind r (f : gmap string string -> reply) g g' v q :
  (forall form, f form = Ok (g', v, q) -> web_effect g g') ->
  (form ← ParseForm r; f form) = Ok (g', v, q) -> web_effect g g'.
Proof. intros H. unfold ParseForm. destruct (hr_form r); [apply H | done]. Qed.
Lemma posted_effect g p g' v q : posted g p = Ok (g', v, q) -> web_effect g g'.
Proof. intros [= <- _ _]. constructor. Qed.
Lemma nothing_effect g g' v q : nothing g = Ok (g', v, q) -> web_effect g g'.
Proof. intros [= <- _ _]. constructor. Qed.
Lemma wrote_effect g j g' v q : wrote g j = Ok (g', v, q) -> g' = g.
Proof. unfold wrote. destruct (answer j); [| done..]. by intros [= <- _ _]. Qed.
Lemma switch_cases {A} (P : A -> Prop) key cases dflt :
  Forall (fun c => P c.2) cases -> P dflt -> P (switch key cases dflt).
Proof. induction 1 as [|[k v] l Hv _ IH]; intros Hd; [done |]. cbn. destruct (String.eqb key k); auto. Qed.

Lemma serve_effect g r g' v q : serve g r = Ok (g', v, q) -> web_effect g g'.
Proof.
  assert (Hw : forall j, wrote g j = Ok (g', v, q) -> web_effect g g').
  { intros j ->%wrote_effect. constructor. }
  assert (Hp : forall p, posted g p = Ok (g', v, q) -> web_effect g g')
    by (intros p; apply posted_effect).
  unfold serve. apply (switch_cases (fun x => x = Ok (g', v, q) -> web_effect g g')); [| apply nothing_effect].
  repeat apply Forall_cons_2; try apply Forall_nil_2; cbn [snd];
    unfold messageHandler, nodeHandler, idHandler, privateMessageHandler, originsHandler, shareFileHandler,
      downloadFileHandler, searchFileHandler, matchesFoundHandler; try apply Hw;
    apply (switch_cases (fun x => x = Ok (g', v, q) -> web_effect g g')); try apply nothing_effect;
    repeat apply Forall_cons_2; try apply Forall_nil_2; cbn [snd]; try apply Hw;
    try (apply ParseForm_bind; intros form; first [apply Hp | intros [= <- _ _]; constructor]).
  intros ->%wrote_effect. apply web_poll.
Qed.

(** ** Properties *)
(** The web page only polls messages and adds peers: whatever it asks for, the network goes
    on with a reachable world, in which only that node has changed. *)
Theorem web_request_is_step spoofing w i g r g' v q : Reachable spoofing w -> w_nodes w !! i = Some g -> serve g r = Ok (g', v, q) ->
  exists w', Reachable spoofing w' /\ w_nodes w' = <[i := g']> (w_nodes w) /\ w_sent w' = w_sent w.
Proof.
  intros Hr Ei He%serve_effect. destruct He as [| |peer].
  - exists w. split; [done |]. by rewrite insert_id.
  - exists (poll w i g). split; [| done]. by apply (reach_step spoofing w); [| apply step_poll].
  - exists (become w i (AddPeer g peer) []). split; [| done]. by apply (reach_step spoofing w); [| apply step_peer].
Qed.

Definition get (path : string) : http_request := mkHttp path "GET" (Some ∅).
Definition post (path : string) (form : gmap string string) : http_request := mkHttp path "POST" (Some form).
Lemma get_messages g : serve g (get "/message") =
  Ok (set_latest g [], Some (JArr (json_message <$> ConvertToFEMList (latestMessages g))), None).
Proof. exact (wrote_list (set_latest g []) json_message _ (fun _ => eq_refl)). Qed.

(** C39. A message that the user posts on the web page.  In any reachable world it becomes the
    next rumor of the node: the handler sends a request to the client port, the receive loop
    hands it to the routine of the client's messages, and this stores a rumor with the text
    and the next ID, and starts to monger it.  The next poll of the page shows it. *)
Theorem posted_message_created spoofing w i g text form : Reachable spoofing w -> w_nodes w !! i = Some g ->
  seqIDCounter g < 2 ^ 32 - 2 -> text <> "" -> form !! "message" = Some text ->
  exists request pap g', serve g (post "/message" form) = Ok (g, None, Some request) /\
    receiveClientUDP (gs_name g) request = Ok (ClientPacket cUI pap) /\
    let rm := mkRumorMessage (gs_name g) (seqIDCounter g) text in
    clientListen g pap = Ok (g', [GoRumorMonger (rumor_packet rm) ""]) /\
    Reachable spoofing (become w i g' [GoRumorMonger (rumor_packet rm) ""]) /\
    stores_own g' rm /\ IsChatRumor rm = true /\
    exists l, serve g' (get "/message") = Ok (set_latest g' [], Some (JArr l), None) /\
      json_message (mkFEM (gs_name g) text "Gossip") ∈ l.
Proof.
  intros Hr Ei Hlim Hne Hform. pose proof (Reachable_ok spoofing w Hr) as Hw. destruct (wok_nodes w Hw i g Ei) as [Hg _].
  destruct (wok_numbered w Hw i g Ei) as [Hnum _]. pose proof (total_nonneg g (gs_name g)) as H0.
  set (pap := mkPacketAddressPair (simple_packet (mkSimpleMessage (gs_name g) "" text)) "").
  set (rm := mkRumorMessage (gs_name g) (seqIDCounter g) text).
  set (g' := (addMessage (set_counter g (u32 (seqIDCounter g + 1))) rm).1).
  assert (Er : receiveClientUDP (gs_name g) (message_request text) = Ok (ClientPacket cUI pap)).
  { unfold receiveClientUDP. cbn. by rewrite (proj2 (String.eqb_neq _ _) Hne). }
  assert (Ec : clientListen g pap = Ok (g', [GoRumorMonger (rumor_packet rm) ""])).
  { apply (clientListen_eq g pap text); [apply Hg | done | done]. }
  pose proof (step_client spoofing w i g (message_request text) pap g' _ Ei Hlim Er Ec) as Hstep.
  pose proof (reach_step spoofing w _ Hr Hstep) as Hr'. pose proof (Reachable_ok spoofing _ Hr') as Hw'.
  assert (Ei' : w_nodes (become w i g' [GoRumorMonger (rumor_packet rm) ""]) !! i = Some g') by apply lookup_insert_eq.
  assert (Hchat : IsChatRumor rm = true) by (unfold IsChatRumor; cbn; by rewrite (proj2 (String.eqb_neq _ _) Hne)).
  assert (Hmsg : forall o, messages g' o = if decide (o = gs_name g) then <[seqIDCounter g := rm]> (messages g o) else messages g o).
  { destruct (created_state g text) as (_ & _ & Em & _). fold rm g' in Em. intros o. unfold messages. rewrite Em.
    apply (AddMessage_next g rm Hg); [done |]. cbn. unfold total in *. lia. }
  exists (message_request text), pap, g'. split; [unfold serve; cbn; unfold PostFormValue; by rewrite Hform |].
  split; [done |]. split; [done |]. split; [done |]. split; [| split; [done |]].
  - split; [apply (grown_name g g'); apply (created_state g text) |]. cbn. by rewrite Hmsg, decide_True, lookup_insert_eq.
  - eexists. split; [apply get_messages |]. apply list_elem_of_fmap. exists (mkFEM (gs_name g) text "Gossip"). split; [done |].
    apply list_elem_of_fmap. exists rm. split.
    { cbn. by rewrite (proj2 (Z.eqb_neq (seqIDCounter g) 0)) by lia. }
    destruct (created_state g text) as (_ & _ & _ & _ & El). fold rm g' in El. rewrite El.
    assert (Hwid : in_width 32 (rm_ID rm)) by (cbn; unfold in_width; lia).
    pose proof (AddMessage_ok (msgMap g) rm (ok_msgs g Hg) Hwid (ok_bound g Hg _)) as Hadd.
    destruct (AddMessage (msgMap g) rm) as [m isNew]. destruct Hadd as (_ & [_ Hnew] & _).
    rewrite (Hnew Hnum). cbn [snd andb]. rewrite Hchat. apply elem_of_app. right. by apply list_elem_of_singleton.
Qed.

Definition hello_form : gmap string string := {["message" := "hello"]}.
Lemma posted_message_created_witness :
  exists request pap g', serve (NewGossiper "127.0.0.1:5000" "A" ["127.0.0.1:5001"] false) (post "/message" hello_form) =
      Ok (NewGossiper "127.0.0.1:5000" "A" ["127.0.0.1:5001"] false, None, Some request) /\
    receiveClientUDP "A" request = Ok (ClientPacket cUI pap) /\
    stores_own g' (mkRumorMessage "A" 1 "hello").
Proof.
  destruct (posted_message_created False start_world "127.0.0.1:5000" (NewGossiper "127.0.0.1:5000" "A" ["127.0.0.1:5001"] false)
    "hello" hello_form) as (request & pap & g' & H1 & H2 & _ & _ & H3 & _).
  - apply reach_start, start_initial.
  - reflexivity.
  - vm_compute. reflexivity.
  - discriminate.
  - reflexivity.
  - exists request, pap, g'. exact (conj H1 (conj H2 H3)).
Defined.

(** ** Addresses that do not resolve *)
Section resolve.
Context {udp_addr : Type} (ResolveUDPAddr : string -> option udp_addr) (Encode : GossipPacket -> option bytes).

Lemma unresolved_send p addr acts : Send p addr ∈ acts -> ResolveUDPAddr addr = None ->
  exists what, sendUDP_all ResolveUDPAddr Encode acts = Fatal what.
Proof.
  intros Hin Hn. induction acts as [|act acts IH]; [by apply elem_of_nil in Hin |].
  apply elem_of_cons in Hin as [<-|Hin].
  - eexists. cbn [sendUDP_all]. unfold SendGossipPacket. by rewrite Hn.
  - destruct (IH Hin) as [what E]. destruct act as [p' a'| | |]; cbn [sendUDP_all]; rewrite ?E; try by exists what.
    unfold SendGossipPacket, LogError_. destruct (ResolveUDPAddr a'); [| by eexists].
    cbn. destruct (Encode p'); by eexists.
Qed.

(** A peer that the user adds and whose address does not resolve - the empty field of the
    form, for example - stays among the peers, and the process ends as soon as it is drawn:
    for mongering or anti-entropy by a random number, in simple mode with the next message. *)
Theorem unresolvable_peer_stops g form addr v q g' : serve g (post "/node" form) = Ok (g', v, q) ->
  PostFormValue form "peer" = addr -> ResolveUDPAddr addr = None -> addr ∉ ssa_exists (peers g) ->
  addr ∈ GetArrayCopy (peers g') /\
  (UseSimple g = false -> exists r what, sendUDP_all ResolveUDPAddr Encode (antiEntropy_tick g' r) = Fatal what) /\
  (forall packet exception, addr <> exception ->
     exists what, sendUDP_all ResolveUDPAddr Encode (sendAllPeers g' packet exception) = Fatal what).
Proof.
  intros Hs Hf Hn Hnew.
  assert (Eg : g' = AddPeer g addr).
  { change (serve g (post "/node" form)) with (nothing (AddPeer g (PostFormValue form "peer"))) in Hs.
    rewrite Hf in Hs. by injection Hs. }
  assert (Ep : GetArrayCopy (peers g') = GetArrayCopy (peers g) ++ [addr]).
  { rewrite Eg. unfold AddPeer, addToPeers, AppendUniqueToArray. by rewrite decide_False. }
  assert (Em : UseSimple g' = UseSimple g).
  { rewrite Eg. apply addToPeers_grown. }
  split; [rewrite Ep; apply elem_of_app; right; by apply list_elem_of_singleton |]. split.
  - intros Hm. exists (length (GetArrayCopy (peers g))). rewrite tick_pick by congruence.
    rewrite Ep, list_lookup_middle by done. eapply unresolved_send; [by constructor | done].
  - intros packet exception Hne. eapply unresolved_send; [| done]. unfold sendAllPeers.
    apply list_elem_of_fmap. exists addr. split; [done |]. unfold stringArrayDifference.
    apply list_elem_of_filter. split; [| rewrite Ep; apply elem_of_app; right; by apply list_elem_of_singleton].
    rewrite elem_of_list_to_set. intros ?%list_elem_of_singleton. done.
Qed.
End resolve.

Definition no_colon (addr : string) : option string := if String.eqb addr "" then None else Some addr.
Lemma unresolvable_peer_stops_witness :
  exists g', serve (NewGossiper "127.0.0.1:5000" "A" [] false) (post "/node" ∅) = Ok (g', None, None) /\
    exists r what, sendUDP_all no_colon (fun _ => Some []) (antiEntropy_tick g' r) = Fatal what.
Proof.
  eexists. split; [reflexivity |].
  destruct (unresolvable_peer_stops no_colon (fun _ => Some []) (NewGossiper "127.0.0.1:5000" "A" [] false) ∅ "" None None
    (AddPeer (NewGossiper "127.0.0.1:5000" "A" [] false) "")) as (_ & H & _).
  - reflexivity.
  - reflexivity.
  - reflexivity.
  - apply (bool_decide_unpack _). vm_compute. exact I.
  - apply H. reflexivity.
Defined.

(** A flag that ends with a comma names such a peer, too. *)
Example trailing_comma : start (fun a => no_colon a) "8080" "127.0.0.1:5000" "A" "127.0.0.1:5001," false =
  Ok (NewGossiper "127.0.0.1:5000" "A" ["127.0.0.1:5001"; ""] false).
Proof. reflexivity. Qed.

(** ** Files *)
(** A download that the user starts on the web page, by the hash that a share request printed
    or a match of a search shows: the routine of the client's downloads starts the download
    of exactly this file, under the name and from the origin that were entered. *)
Theorem web_download g n disk form h name origin env create_ok write_ok :
  wf_bytes h -> length h = 32%nat -> name <> "" ->
  PostFormValue form "file" = name -> PostFormValue form "origin" = origin -> PostFormValue form "metahash" = hex h ->
  exists request fileToDL, serve g (post "/dlfile" form) = Ok (g, None, Some request) /\
    receiveClientUDP (gs_name g) request = Ok (ClientFileDL fileToDL) /\
    clientFileDownloadListen n disk fileToDL env create_ok write_ok =
      downloadFile n disk name h origin env create_ok write_ok.
Proof.
  intros Hwf Hlen Hne Hf Ho Hm. exists (download_request (mkFileToDownload name origin h)), (mkFileToDownload name origin h).
  split; [| done].
  change (serve g (post "/dlfile" form)) with (posted g (PostDownload (PostFormValue form "file") (PostFormValue form "origin")
    (PostFormValue form "metahash"))).
  rewrite Hf, Ho, Hm. unfold posted, handlePost, sendFileDownloadUDP.
  rewrite (proj2 (String.eqb_neq _ _) Hne), DecodeString_hex by done. cbn [mbind option_bind].
  by rewrite ConvertToHash32_Some.
Qed.

Definition dl_form (h : bytes) : gmap string string := {["file" := "copy.txt"; "metahash" := hex h]}.
Definition zero_hash : bytes := replicate 32 0.
Lemma web_download_witness : exists request fileToDL,
  serve (NewGossiper "127.0.0.1:5000" "A" [] false) (post "/dlfile" (dl_form zero_hash)) =
    Ok (NewGossiper "127.0.0.1:5000" "A" [] false, None, Some request) /\
  receiveClientUDP "A" request = Ok (ClientFileDL fileToDL) /\ ftd_Metahash fileToDL = zero_hash.
Proof.
  destruct (web_download (NewGossiper "127.0.0.1:5000" "A" [] false)
    (NewFileNode (NewGossiper "127.0.0.1:5000" "A" [] false)) ∅ (dl_form zero_hash) zero_hash "copy.txt" ""
    sample_env true true) as (request & fileToDL & H1 & H2 & _).
  - repeat constructor; unfold in_width; lia.
  - reflexivity.
  - discriminate.
  - reflexivity.
  - reflexivity.
  - reflexivity.
  - exists request, fileToDL. split; [exact H1 |]. split; [exact H2 |].
    cbn in H1. injection H1 as <-. injection H2 as <-. reflexivity.
Defined.
