(* ===== verification/Routes.v ===== *)
(** * Routes: the next hops that rumors leave behind lead to their origin

    In a run of a network whose datagrams come from the addresses they claim, however they
    are lost, repeated and reordered, the routing tables of all nodes never contain a loop:
    along the next hops to an origin the sequence numbers do not decrease, and while they
    stay the same, the entries get older.  A private message follows such a path. *)
From stdpp Require Import relations.
From S2P Require Import Prelude Dto Containers Gossip Dispatch Client Network Provenance Web.
Open Scope Z_scope.

Definition route (g : Gossiper) (o : string) : option SafeRoutingTableEntry := routingTable g !! o.
(** [g] is the origin [o], or has a route to it that is at least as new as the rumor [id]. *)
Definition routed (g : Gossiper) (o : string) (id : Z) : Prop :=
  gs_name g = o \/ exists e, route g o = Some e /\ id <= seqNum e.
(** The next hop [j] of an entry is the origin, or its own entry is newer, or it is as new
    and older in time. *)
Definition nearer (n : network) (rank : string -> string -> nat) (i o : string) (e : SafeRoutingTableEntry) : Prop :=
  exists h, n !! srte_address e = Some h /\
    (gs_name h = o \/ exists e', route h o = Some e' /\
      (seqNum e < seqNum e' \/ (seqNum e = seqNum e' /\ (rank (srte_address e) o < rank i o)%nat))).

Record routes_ok (w : world) (rank : string -> string -> nat) : Prop := {
  rok_stored i g o id rm : w_nodes w !! i = Some g -> messages g o !! id = Some rm -> routed g o id;
  rok_sent from rm : (from, rm) ∈ w_sent w -> exists g, w_nodes w !! from = Some g /\ routed g (rm_Origin rm) (rm_ID rm);
  rok_next i g o e : w_nodes w !! i = Some g -> route g o = Some e -> seqNum e < 2 ^ 32 /\ nearer (w_nodes w) rank i o e
}.

Lemma routed_mono g g' o id : gs_name g' = gs_name g ->
  (forall e, route g o = Some e -> exists e', route g' o = Some e' /\ seqNum e <= seqNum e') ->
  routed g o id -> routed g' o id.
Proof.
  intros Hn Hr [Ho|(e & E & Hid)]; [left; congruence | right]. destruct (Hr e E) as (e' & E' & Hle).
  exists e'. split; [done | lia].
Qed.

(** A step that changes one node.  Its entry for [o0], if it changes, becomes newer, and its
    next hop has a route that is as new. *)
Lemma routes_step w w' rank i g g' o0 : routes_ok w rank -> w_nodes w !! i = Some g ->
  w_nodes w' = <[i := g']> (w_nodes w) -> gs_name g' = gs_name g ->
  (forall o, o <> o0 -> route g' o = route g o) ->
  (route g' o0 = route g o0 \/ gs_name g <> o0 /\ exists e' h, route g' o0 = Some e' /\ seqNum e' < 2 ^ 32 /\
     (forall e, route g o0 = Some e -> seqNum e < seqNum e') /\
     w_nodes w !! srte_address e' = Some h /\ routed h o0 (seqNum e')) ->
  (forall o id rm, messages g' o !! id = Some rm -> messages g o !! id = Some rm \/ routed g' o id) ->
  (forall from rm, (from, rm) ∈ w_sent w' -> (from, rm) ∈ w_sent w \/ from = i /\ routed g' (rm_Origin rm) (rm_ID rm)) ->
  exists rank', routes_ok w' rank'.
Proof.
  intros [Hst Hse Hne] Ei En Hname Hother H0 Hmsg Hsent.
  assert (Hmono : forall o e, route g o = Some e -> exists e', route g' o = Some e' /\ seqNum e <= seqNum e').
  { intros o e E. destruct (decide (o = o0)) as [->|Hno]; [| exists e; rewrite Hother by done; split; [done | lia]].
    destruct H0 as [->|(_ & e' & h & E' & _ & Hlt & _)]; [exists e; split; [done | lia] |].
    exists e'. specialize (Hlt e E). split; [done | lia]. }
  assert (Hrouted : forall o id, routed g o id -> routed g' o id) by (intros o id; apply routed_mono; [done | apply Hmono]).
  assert (Hcase : forall k gk, w_nodes w' !! k = Some gk -> (k = i /\ gk = g') \/ (k <> i /\ w_nodes w !! k = Some gk)).
  { intros k gk. rewrite En. intros [[<- <-]|[? E]]%lookup_insert_Some; [by left | right; by split]. }
  assert (Hkeep : forall k gk, w_nodes w !! k = Some gk -> exists gk', w_nodes w' !! k = Some gk' /\
    forall o id, routed gk o id -> routed gk' o id).
  { intros k gk Ek. destruct (decide (k = i)) as [->|Hk].
    - exists g'. rewrite En, lookup_insert_eq. replace gk with g by congruence. by split.
    - exists gk. rewrite En, lookup_insert_ne by done. by split. }
  assert (Hstored : forall k gk o id rm, w_nodes w' !! k = Some gk -> messages gk o !! id = Some rm -> routed gk o id).
  { intros k gk o id rm [[-> ->]|[_ Ek]]%Hcase Em; [| by eapply Hst].
    destruct (Hmsg o id rm Em) as [Em'|]; [apply Hrouted; by eapply Hst | done]. }
  assert (Hsent' : forall from rm, (from, rm) ∈ w_sent w' ->
    exists gf, w_nodes w' !! from = Some gf /\ routed gf (rm_Origin rm) (rm_ID rm)).
  { intros from rm [(gf & Ef & Hr)%Hse|[-> Hr]]%Hsent.
    - destruct (Hkeep from gf Ef) as (gf' & Ef' & Hk). exists gf'. split; [done | by apply Hk].
    - exists g'. split; [rewrite En; apply lookup_insert_eq | done]. }
  destruct H0 as [Hsame|(Hno & e' & h & E' & Hw & Hlt & Eh & Hh)].
  - assert (Hall : forall o, route g' o = route g o) by (intros o; destruct (decide (o = o0)) as [->|]; auto).
    exists rank. constructor; [exact Hstored | exact Hsent' |]. intros k gk o e Hk He.
    assert (Hold : exists gk0, w_nodes w !! k = Some gk0 /\ route gk0 o = Some e).
    { apply Hcase in Hk as [[-> ->]|[_ Ek]]; [exists g | by exists gk]. by rewrite <-Hall. }
    destruct Hold as (gk0 & Ek0 & Ee0). destruct (Hne k gk0 o e Ek0 Ee0) as [Hb (h & Eh & Hh)]. split; [done |].
    destruct (decide (srte_address e = i)) as [Ea|Ha].
    + exists g'. rewrite Ea, En, lookup_insert_eq. split; [done |]. replace h with g in Hh by congruence.
      rewrite Hname, Hall, <-Ea. exact Hh.
    + exists h. rewrite En, lookup_insert_ne by done. by split.
  - set (rank' := fun j o => if decide (j = i /\ o = o0) then S (rank (srte_address e') o0) else rank j o).
    assert (Hold : forall j o, (j = i -> o <> o0) -> rank' j o = rank j o).
    { intros j o Hj. unfold rank'. destruct (decide _) as [[H1 H2]|]; [by destruct (Hj H1) | done]. }
    exists rank'. constructor; [exact Hstored | exact Hsent' |]. intros k gk o e Hk He.
    destruct (decide (k = i /\ o = o0)) as [[-> ->]|Hko].
    + assert (gk = g') as -> by (apply Hcase in Hk as [[_ ->]|[? _]]; done). replace e with e' by congruence. split; [done |].
      assert (Ha : srte_address e' <> i).
      { intros Ea. rewrite Ea, Ei in Eh. injection Eh as <-. destruct Hh as [?|(e1 & E1 & Hle)]; [done |].
        specialize (Hlt e1 E1). lia. }
      exists h. rewrite En, lookup_insert_ne by done. split; [done |].
      destruct Hh as [?|(e1 & E1 & Hle)]; [by left | right; exists e1; split; [done |]].
      rewrite (Hold (srte_address e')) by done. unfold rank'. rewrite decide_True by done. lia.
    + assert (Hpre : exists gk0, w_nodes w !! k = Some gk0 /\ route gk0 o = Some e).
      { apply Hcase in Hk as [[-> ->]|[_ Ek]]; [exists g | by exists gk]. split; [done |]. rewrite <-Hother; [done |].
        intros ->. by apply Hko. }
      destruct Hpre as (gk0 & Ek0 & Ee0). destruct (Hne k gk0 o e Ek0 Ee0) as [Hb (h1 & Eh1 & Hh1)]. split; [done |].
      rewrite <-(Hold k o) in Hh1 by (intros -> ->; by apply Hko).
      destruct (decide (srte_address e = i)) as [Ea|Ha].
      * exists g'. rewrite Ea, En, lookup_insert_eq. split; [done |]. replace h1 with g in Hh1 by congruence.
        rewrite Hname. destruct Hh1 as [?|(e1 & E1 & Hn1)]; [by left | right].
        destruct (decide (o = o0)) as [->|Ho].
        -- exists e'. split; [done |]. specialize (Hlt e1 E1). left. lia.
        -- exists e1. rewrite Hother by done. split; [done |]. rewrite Ea in Hn1. rewrite (Hold i o) by done. exact Hn1.
      * exists h1. rewrite En, lookup_insert_ne by done. split; [done |]. rewrite (Hold (srte_address e)) by done. exact Hh1.
Qed.

(** A step that leaves the routes as they are. *)
Lemma routes_quiet w w' rank i g g' : routes_ok w rank -> w_nodes w !! i = Some g ->
  w_nodes w' = <[i := g']> (w_nodes w) -> gs_name g' = gs_name g -> routingTable g' = routingTable g ->
  (forall o id rm, messages g' o !! id = Some rm -> messages g o !! id = Some rm \/ gs_name g = o) ->
  (forall from rm, (from, rm) ∈ w_sent w' -> (from, rm) ∈ w_sent w \/
     from = i /\ (gs_name g = rm_Origin rm \/ (exists o id, messages g o !! id = Some rm /\ rm_Origin rm = o /\ rm_ID rm = id))) ->
  exists rank', routes_ok w' rank'.
Proof.
  intros Hr Ei En Hname Ht Hmsg Hsent.
  assert (Hsame : forall o, route g' o = route g o) by (intros o; unfold route; by rewrite Ht).
  assert (Hrouted : forall o id, routed g o id -> routed g' o id).
  { intros o id. apply routed_mono; [done |]. intros e E. exists e. rewrite Hsame. split; [done | lia]. }
  apply (routes_step w w' rank i g g' ""); try done.
  - by left.
  - intros o id rm Em. destruct (Hmsg o id rm Em) as [?|Ho]; [by left | right; left; congruence].
  - intros from rm Hin. destruct (Hsent from rm Hin) as [?|[-> Hor]]; [by left | right]. split; [done |].
    apply Hrouted. destruct Hor as [?|(o & id & Em & <- & <-)]; [by left | by eapply (rok_stored w rank Hr)].
Qed.
Lemma become_sent w i g' acts from rm : (from, rm) ∈ w_sent (become w i g' acts) ->
  (from = i /\ rm ∈ rumors_of acts) \/ (from, rm) ∈ w_sent w.
Proof. cbn. intros [(x & [= -> ->] & Hx)%list_elem_of_fmap|?]%elem_of_app; [by left | by right]. Qed.

(** A handler that creates a rumor. *)
Lemma routes_create w rank i g g' rm acts : world_ok w -> routes_ok w rank -> w_nodes w !! i = Some g ->
  seqIDCounter g < 2 ^ 32 - 2 -> rm_Origin rm = gs_name g -> rm_ID rm = seqIDCounter g ->
  gs_name g' = gs_name g -> routingTable g' = routingTable g -> msgMap g' = (AddMessage (msgMap g) rm).1 ->
  (forall rm', rm' ∈ rumors_of acts -> rm' = rm) ->
  exists rank', routes_ok (become w i g' acts) rank'.
Proof.
  intros Hw Hr Ei Hlim Ho Hid Hname Ht Em Hacts. destruct (wok_nodes w Hw i g Ei) as [Hg _].
  destruct (wok_numbered w Hw i g Ei) as [Hnum Htot]. pose proof (total_nonneg g (gs_name g)) as H0.
  destruct (AddMessage_next g rm Hg) as (_ & Hm & _); [by rewrite Ho, Hid | rewrite Ho; lia |].
  apply (routes_quiet w _ rank i g g' Hr Ei); try done.
  - intros o id rm'. unfold messages at 1. rewrite Em, Hm. destruct (decide (o = rm_Origin rm)) as [->|]; [| by left].
    intros _. right. by rewrite Ho.
  - intros from rm' [[-> ->%Hacts]|?]%become_sent; [right; split; [done | left; by rewrite Ho] | by left].
Qed.

(** A rumor arrives from the node that sent it. *)
Lemma routes_rumor w rank i g from rm g' acts : world_ok w -> routes_ok w rank -> w_nodes w !! i = Some g ->
  (from, rm) ∈ w_sent w -> rumorListen g (mkPacketAddressPair (rumor_packet rm) from) = Ok (g', acts) ->
  exists rank', routes_ok (become w i g' acts) rank'.
Proof.
  intros Hw Hr Ei Hin. destruct (wok_nodes w Hw i g Ei) as [Hg _].
  assert (Ha : around w rm) by (left; by exists from). pose proof (around_bounds w Hw rm Ha) as Hid.
  pose proof (total_bounded w Hw i g Ei (rm_Origin rm)) as Hb.
  assert (Hwid : in_width 32 (rm_ID rm)) by (unfold in_width; lia).
  destruct (rumorListen_step g rm from Hg Hwid Hb) as (g2 & (isNew & E) & Em & _ & Hgr & _ & _ & Et).
  rewrite E. intros [= <- <-].
  pose proof (AddMessage_ok (msgMap g) rm (ok_msgs g Hg) Hwid (ok_bound g Hg _)) as Hadd.
  destruct (AddMessage (msgMap g) rm) as [m new]. cbn [fst] in Em. subst m. destruct Hadd as (_ & _ & _ & Hm).
  destruct (rok_sent w rank Hr from rm Hin) as (h & Eh & Hh).
  assert (Hroute : (forall o, o <> rm_Origin rm -> route g2 o = route g o) /\
    (route g2 (rm_Origin rm) = route g (rm_Origin rm) \/ gs_name g <> rm_Origin rm /\ exists e' h, route g2 (rm_Origin rm) = Some e' /\
      seqNum e' < 2 ^ 32 /\ (forall e, route g (rm_Origin rm) = Some e -> seqNum e < seqNum e') /\
      w_nodes w !! srte_address e' = Some h /\ routed h (rm_Origin rm) (seqNum e')) /\
    routed g2 (rm_Origin rm) (rm_ID rm)).
  { unfold routed, route. rewrite Et, (grown_name _ _ Hgr). destruct (decide (rm_Origin rm = gs_name g)) as [Eo|Eo].
    { split; [done |]. split; by left. }
    unfold UpdateEntry. destruct (routingTable g !! rm_Origin rm) as [e|] eqn:Ee.
    - unfold Update. destruct (Z.ltb_spec (seqNum e) (rm_ID rm)) as [Hlt|Hge]; cbn [fst].
      + split; [intros o Hne; by rewrite lookup_insert_ne |]. rewrite lookup_insert_eq. split.
        * right. split; [congruence |]. exists (mkSRTE (rm_ID rm) from), h. cbn. split_and!; [done | lia | | done | done].
          intros e0 [= <-]. lia.
        * right. eexists. split; [done |]. cbn. lia.
      + rewrite insert_id by done. split; [done |]. split; [by left |]. right. exists e. split; [done | lia].
    - cbn [fst]. split; [intros o Hne; by rewrite lookup_insert_ne |]. rewrite lookup_insert_eq. split.
      + right. split; [congruence |]. exists (mkSRTE (rm_ID rm) from), h. cbn. split_and!; [done | lia | done | done | done].
      + right. eexists. split; [done |]. cbn. lia. }
  destruct Hroute as (Hother & Hcase & Hnow).
  apply (routes_step w _ rank i g g2 (rm_Origin rm) Hr Ei); try done.
  - apply Hgr.
  - intros o id rm' Em. unfold messages in Em. rewrite Hm in Em. destruct (decide (new = true /\ o = rm_Origin rm /\ id = rm_ID rm)) as [(_ & -> & ->)|]; [by right | by left].
  - intros from' rm' [[-> Hin']|?]%become_sent; [right; split; [done |] | by left].
    destruct isNew; cbn in Hin'; [by apply list_elem_of_singleton in Hin' as -> | by apply elem_of_nil in Hin'].
Qed.

Lemma world_step_routes w w' rank : world_ok w -> routes_ok w rank -> world_step False w w' -> exists rank', routes_ok w' rank'.
Proof.
  intros Hw Hr Hs.
  destruct Hs as [i g request pap g' acts Ei Hlim E1 E2|i g r g' acts quit Ei Hlim E|i g from rm sender g' acts Ei Hin Hor E
    |i g sp peer g1 acts g' sent Ei E1 E2|i g pm sender g' acts Ei E|i g rm peer g' acts quit Ei Hin E|i g rm peer g' Ei E
    |i g Ei|i g peer Ei]; destruct (wok_nodes w Hw i g Ei) as [Hg _].
  - apply client_packet in E1 as (text & Eo & Ec & _). rewrite (clientListen_eq g pap text) in E2 by (done || apply Hg).
    injection E2 as <- <-. destruct (created_state g text) as (Hgr & Hc & Em & Et & _).
    apply (routes_create w rank i g _ (mkRumorMessage (gs_name g) (seqIDCounter g) text)); try done; [apply Hgr |].
    intros rm' H. by apply list_elem_of_singleton in H.
  - revert E. unfold periodicRouteRumor_tick. destruct (pickRandomPeer _ _ _) as [peer|].
    + unfold makeRouteRumorPacket. cbn [GetAndIncrement rumor_packet g_Rumor deref mbind outcome_bind].
      intros (Hgr & Hc & Em & _ & Et & Hacts)%trySend_same. destruct (created_state g "") as (Hgr0 & _ & Em0 & Et0 & _).
      apply (routes_create w rank i g g' (mkRumorMessage (gs_name g) (seqIDCounter g) "")); try done.
      * rewrite (grown_name _ _ Hgr). apply Hgr0.
      * by rewrite Et.
      * by rewrite Em.
    + intros [= <- <- <-]. apply (routes_quiet w _ rank i g g Hr Ei); try done; [by left |].
      intros from rm [[_ H]|?]%become_sent; [by apply elem_of_nil in H | by left].
  - destruct Hor as [->|[]]. by apply (routes_rumor w rank i g from rm).
  - destruct (answer_spec g peer sp) as (b1 & acts1 & b' & extra & F1 & F2 & Hextra & Hgr & _ & _ & Et & Hm).
    rewrite F1 in E1. injection E1 as <- <-. rewrite F2 in E2. injection E2 as <- <-.
    apply (routes_quiet w _ rank i g b' Hr Ei); [done | apply Hgr | done | intros o id rm; rewrite Hm; by left |].
    intros from rm [[-> H]|?]%become_sent; [right; split; [done |]; right | by left].
    apply list_elem_of_omap in H as (a & [(v & -> & _)%list_elem_of_fmap|Hin]%elem_of_app & E).
    + cbn in E. destruct (ok_keyed g Hg _ _ _ E) as [Eo Eid]. exists (ps_Identifier v), (ps_NextID v). by split_and!.
    + destruct Hextra as [->| ->]; [by apply elem_of_nil in Hin |]. by apply list_elem_of_singleton in Hin as ->.
  - rewrite privateMessage_eq in E. destruct (addToPeers_fields g sender) as (_ & Em & En & Et & _).
    assert (H : rumors_of acts = [] /\ gs_name g' = gs_name g /\ routingTable g' = routingTable g /\ msgMap g' = msgMap g).
    { destruct (String.eqb _ _); injection E as <- <-; [done |]. split; [| done].
      destruct (0 <? _); [| done]. by destruct (getNextHop _ _). }
    destruct H as (Ha & Hn & Ht & Hmm). apply (routes_quiet w _ rank i g g' Hr Ei); try done.
    + intros o id rm. unfold messages. rewrite Hmm. by left.
    + intros from rm [[_ H]|?]%become_sent; [rewrite Ha in H; by apply elem_of_nil in H | by left].
  - apply trySend_same in E as (Hgr & _ & Em & _ & Et & Hacts).
    apply (routes_quiet w _ rank i g g' Hr Ei); [done | apply Hgr | done | intros o id rm'; unfold messages; rewrite Em; by left |].
    intros from rm' [[-> ->%Hacts]|?]%become_sent; by left.
  - destruct (rumor_accessors (rumor_packet rm) rm eq_refl eq_refl) as (_ & Eo & _ & Eid).
    unfold trySend_timeout in E. rewrite Eo, Eid in E. injection E as <-.
    eapply (routes_quiet w _ rank i g _ Hr Ei); try done; [by left |].
    intros from rm' [[_ H]|?]%become_sent; [by apply elem_of_nil in H | by left].
  - apply (routes_quiet w _ rank i g (GetLatestMessagesList g).1 Hr Ei); try done; by left.
  - unfold AddPeer. destruct (addToPeers_fields g peer) as (_ & Em & En & Et & _).
    eapply (routes_quiet w _ rank i g _ Hr Ei); try done; [intros o id rm; unfold messages; cbn; rewrite Em; by left |].
    intros from rm' [[_ H]|?]%become_sent; [by apply elem_of_nil in H | by left].
Qed.
Lemma Reachable_routes w : Reachable False w -> exists rank, routes_ok w rank.
Proof.
  induction 1 as [w (Hs & _ & Hn & _)|w w' Hr [rank IH] Hstep].
  - exists (fun _ _ => 0%nat). constructor.
    + intros i g o id rm (name & members & ->)%Hn Em. by rewrite new_node_empty in Em.
    + intros from rm Hin. rewrite Hs in Hin. by apply elem_of_nil in Hin.
    + intros i g o e (name & members & ->)%Hn E. done.
  - by apply (world_step_routes w w' rank); [apply (Reachable_ok False) | |].
Qed.

(** ** Paths *)
(** The nodes on the way from [i] to the first node named [o], along the next hops. *)
Inductive route_path (n : network) (o : string) : string -> list string -> Prop :=
  | path_end i g : n !! i = Some g -> gs_name g = o -> route_path n o i [i]
  | path_hop i g j path : n !! i = Some g -> gs_name g <> o -> getNextHop g o = Some j ->
      route_path n o j path -> route_path n o i (i :: path).

Lemma route_path_head n o i path : route_path n o i path -> head path = Some i /\ path ⊆ elements (dom n).
Proof.
  induction 1 as [i g Ei Eo|i g j path Ei Hne Ej _ [_ IH]]; (split; [done |]); intros k.
  - intros ->%list_elem_of_singleton. apply elem_of_elements. by apply elem_of_dom_2 in Ei.
  - intros [->|Hk]%elem_of_cons; [apply elem_of_elements; by apply elem_of_dom_2 in Ei | by apply IH].
Qed.
Lemma route_path_insert n o j path i g : route_path n o j path -> i ∉ path -> route_path (<[i := g]> n) o j path.
Proof.
  induction 1 as [k h Ek Eo|k h l path Ek Hne El _ IH]; intros [Hik Hi]%not_elem_of_cons.
  - apply (path_end _ _ k h); [by rewrite lookup_insert_ne | done].
  - apply (path_hop _ _ k h l); [by rewrite lookup_insert_ne | done | done | by apply IH].
Qed.

Section path.
Context (w : world) (rank : string -> string -> nat) (Hr : routes_ok w rank) (o : string).

(** What the nodes of the rest of a path have: a newer entry, or one as new and not younger. *)
Definition ahead (i : string) (e : SafeRoutingTableEntry) (k : string) : Prop :=
  exists h, w_nodes w !! k = Some h /\ (gs_name h = o \/ exists e', route h o = Some e' /\
    (seqNum e < seqNum e' \/ (seqNum e = seqNum e' /\ (rank k o <= rank i o)%nat))).

Lemma path_exists m : forall r i g e, w_nodes w !! i = Some g -> gs_name g <> o -> route g o = Some e ->
  2 ^ 32 - seqNum e < Z.of_nat m -> rank i o = r ->
  exists path, route_path (w_nodes w) o i path /\ NoDup path /\ Forall (ahead i e) path.
Proof using Hr.
  induction m as [m IHm] using lt_wf_ind. intros r. induction r as [r IHr] using lt_wf_ind.
  intros i g e Ei Hno Ee Hm Hrank. destruct (rok_next w rank Hr i g o e Ei Ee) as [Hb (h & Eh & Hh)].
  set (j := srte_address e) in *.
  assert (Hhop : getNextHop g o = Some j) by (unfold getNextHop, GetNextHop; fold (route g o); by rewrite Ee).
  assert (Hself : ahead i e i) by (exists g; split; [done | right; exists e; split; [done | right; lia]]).
  destruct (decide (gs_name h = o)) as [Ho|Ho].
  { exists [i; j]. split; [| split].
    - apply (path_hop _ _ i g j); [done | done | done |]. by apply (path_end _ _ j h).
    - apply NoDup_cons. split; [| apply NoDup_singleton]. intros ->%list_elem_of_singleton. congruence.
    - repeat constructor; [done |]. exists h. split; [done | by left]. }
  destruct Hh as [?|(e' & Ee' & Hn)]; [done |].
  assert (Hrest : exists path, route_path (w_nodes w) o j path /\ NoDup path /\ Forall (ahead j e') path).
  { destruct Hn as [Hlt|[Heq Hlt]].
    - destruct (rok_next w rank Hr j h o e' Eh Ee') as [Hb' _].
      apply (IHm (m - 1)%nat ltac:(lia) (rank j o) j h e'); [done | done | done | lia | done].
    - apply (IHr (rank j o) ltac:(lia) j h e'); [done | done | done | lia | done]. }
  destruct Hrest as (path & Hp & Hnd & Hall).
  assert (Hstrict : Forall (fun k => exists hk, w_nodes w !! k = Some hk /\ (gs_name hk = o \/ exists ek, route hk o = Some ek /\
      (seqNum e < seqNum ek \/ (seqNum e = seqNum ek /\ (rank k o < rank i o)%nat)))) path).
  { eapply Forall_impl; [exact Hall |]. intros k (hk & Ek & Hk). exists hk. split; [done |].
    destruct Hk as [?|(ek & Eek & Hk)]; [by left | right; exists ek; split; [done | lia]]. }
  exists (i :: path). split; [by apply (path_hop _ _ i g j) | split].
  - apply NoDup_cons. split; [| done]. intros Hin. rewrite Forall_forall in Hstrict.
    destruct (Hstrict i Hin) as (g' & Eg' & Hg'). replace g' with g in Hg' by congruence.
    destruct Hg' as [?|(e1 & E1 & H1)]; [done |]. replace e1 with e in H1 by congruence. lia.
  - constructor; [done |]. eapply Forall_impl; [exact Hstrict |]. intros k (hk & Ek & Hk). exists hk. split; [done |].
    destruct Hk as [?|(ek & Eek & Hk)]; [by left | right; exists ek; split; [done | lia]].
Qed.
End path.

Lemma path_known w i g o j : Reachable False w -> w_nodes w !! i = Some g -> gs_name g <> o -> getNextHop g o = Some j ->
  exists path, route_path (w_nodes w) o i (i :: path) /\ route_path (w_nodes w) o j path /\ NoDup (i :: path) /\
    (length (i :: path) <= size (w_nodes w))%nat.
Proof.
  intros [rank Hr]%Reachable_routes Ei Hno Hhop. unfold getNextHop, GetNextHop in Hhop. fold (route g o) in Hhop.
  destruct (route g o) as [e|] eqn:Ee; [| done].
  destruct (path_exists w rank Hr o (S (Z.to_nat (2 ^ 32 - seqNum e))) (rank i o) i g e Ei Hno Ee) as (path & Hp & Hnd & _);
    [lia | done |].
  destruct (route_path_head _ _ _ _ Hp) as [_ Hsub].
  assert (Hlen : (length path <= size (w_nodes w))%nat).
  { rewrite <-size_dom. apply (submseteq_length path (elements (dom (w_nodes w)))). by apply NoDup_submseteq. }
  inversion Hp as [|? g' j' path' Ei' _ Hhop' Hp']; subst; [congruence |].
  replace g' with g in Hhop' by congruence. unfold getNextHop, GetNextHop in Hhop'. fold (route g (o)) in Hhop'.
  rewrite Ee in Hhop'. replace j' with j in Hp' by congruence. exists path'. by split_and!.
Qed.

(** ** Private messages *)
(** A private message on its way: every node that gets it handles it, and sends it on. *)
Fixpoint travel (n : network) (sender i : string) (p : GossipPacket) (fuel : nat) : outcome network :=
  match fuel, n !! i with
  | S fuel, Some g =>
      '(g', acts) ← privateMessageListen g (mkPacketAddressPair p sender);
      let n := <[i := g']> n in
      match acts with
      | Send p' j :: _ => travel n i j p' fuel
      | _ => Ok n
      end
  | _, _ => Ok n
  end.

Lemma last_of_path path n o i : route_path n o i path -> exists d h, last path = Some d /\ n !! d = Some h /\ gs_name h = o.
Proof.
  induction 1 as [i g Ei Eo|i g j path Ei Hne Ej Hp (d & h & El & Eh & Hh)]; [by exists i, g |].
  exists d, h. split; [| done]. destruct path; [done |]. exact El.
Qed.
Lemma travel_path path : forall n o i sender pm fuel, route_path n o i path -> NoDup path ->
  pm_Destination pm = o -> in_width 32 (pm_HopLimit pm) -> Z.of_nat (length path) <= pm_HopLimit pm -> (length path <= fuel)%nat ->
  exists n', travel n sender i (private pm) fuel = Ok n' /\
    forall k g, n !! k = Some g -> exists g', n' !! k = Some g' /\ latestMessages g' = latestMessages g ++
      (if decide (last path = Some k) then [mkRumorMessage (pm_Origin pm) 0 (pm_Text pm)] else []).
Proof.
  induction path as [|i0 path IH]; intros n o i sender pm fuel Hp Hnd Hd Hw Hlim Hf; [inversion Hp |].
  destruct fuel as [|fuel]; [cbn in Hf; lia |]. cbn [travel].
  inversion Hp as [i' g Ei Eo|i' g j path' Ei Hne Ej Hrest]; subst i0; [subst path | subst path'].
  - rewrite Ei, privateMessage_eq, Hd, Eo, String.eqb_refl. cbn [mbind outcome_bind].
    eexists. split; [reflexivity |]. intros k gk Ek. destruct (addToPeers_fields g sender) as (_ & _ & _ & _ & El & _).
    cbn [last]. destruct (decide (k = i)) as [->|Hk].
    + rewrite lookup_insert_eq, decide_True by done. eexists. split; [done |]. cbn [latestMessages set_latest].
      rewrite El. by replace gk with g by congruence.
    + rewrite lookup_insert_ne, decide_False by congruence. exists gk. split; [done |]. by rewrite app_nil_r.
  - apply NoDup_cons in Hnd as [Hi Hnd]. destruct (last_of_path _ _ _ _ Hrest) as (d & _ & El & _).
    assert (Hlen : (1 <= length path)%nat) by (destruct path; [done | cbn; lia]). cbn [length] in Hlim, Hf.
    assert (Eh : decrement_hop (pm_HopLimit pm) = pm_HopLimit pm - 1).
    { unfold decrement_hop. apply wrap_small. unfold in_width in *. lia. }
    rewrite Ei, privateMessage_eq, Hd, (proj2 (String.eqb_neq _ _)) by congruence. cbn [mbind outcome_bind].
    set (pm' := (pm_DecrementHopCount pm).1).
    assert (Epm : pm' = mkPrivateMessage (pm_Origin pm) (pm_ID pm) (pm_Text pm) o (pm_HopLimit pm - 1))
      by (unfold pm', pm_DecrementHopCount; cbn; by rewrite Eh, Hd).
    rewrite (proj2 (Z.ltb_lt 0 (pm_HopLimit pm'))) by (rewrite Epm; cbn; lia). rewrite Ej.
    destruct (addToPeers_fields g sender) as (_ & _ & _ & _ & Elat & _). set (g1 := (addToPeers g sender).1) in *.
    destruct (IH (<[i := g1]> n) o j i pm' fuel) as (n' & E & Hn');
      [by apply route_path_insert | done | by rewrite Epm | rewrite Epm; unfold in_width in *; cbn; lia | rewrite Epm; cbn; lia | lia |].
    exists n'. split; [exact E |]. intros k gk Ek.
    assert (Elast : last (i :: path) = last path) by (destruct path; [done | done]). rewrite Elast.
    destruct (decide (k = i)) as [->|Hk].
    + destruct (Hn' i g1) as (g' & Eg' & Hl); [apply lookup_insert_eq |]. exists g'. split; [done |].
      replace gk with g by congruence. rewrite Hl, Elat. rewrite !decide_False; [done | |];
        intros E'; apply Hi; apply last_Some in E' as [l' ->]; apply elem_of_app; right; by constructor.
    + destruct (Hn' k gk) as (g' & Eg' & Hl); [by rewrite lookup_insert_ne |]. exists g'. split; [done |].
      rewrite Hl, Epm. done.
Qed.

(** ** Properties *)

(** C5. Routes have no loops.  In every run of a network whose datagrams come from the addresses
    they claim - lost, repeated and reordered as they may be - whenever a node has a next hop
    to an origin, the next hops lead, without visiting a node twice, to the node of that
    name; so they do in at most as many steps as there are nodes. *)
Theorem routes_loop_free w i g o j : Reachable False w -> w_nodes w !! i = Some g -> gs_name g <> o ->
  getNextHop g o = Some j ->
  exists path d h, route_path (w_nodes w) o i (i :: path) /\ head path = Some j /\ NoDup (i :: path) /\
    last path = Some d /\ w_nodes w !! d = Some h /\ gs_name h = o /\ (length path < size (w_nodes w))%nat.
Proof.
  intros Hr Ei Hno Hj. destruct (path_known w i g o j Hr Ei Hno Hj) as (path & Hp & Hp' & Hnd & Hlen).
  destruct (last_of_path _ _ _ _ Hp') as (d & h & El & Eh & Hh). destruct (route_path_head _ _ _ _ Hp') as [Hh' _].
  exists path, d, h. cbn [length] in Hlen. split_and!; try done.
Qed.

(** C6. Private messages arrive.  In every such run, in a network of at most eleven nodes, a
    private message that the user of a node posts to any name to which the node has a route
    is handed on along the next hops until the node of that name shows it, once; no other
    node shows it, although the packet sets out with a hop limit of ten. *)
Theorem private_message_arrives w i g dest text form : Reachable False w -> w_nodes w !! i = Some g ->
  (size (w_nodes w) <= 11)%nat -> gs_name g <> dest -> is_Some (getNextHop g dest) -> dest <> "" -> text <> "" ->
  PostFormValue form "message" = text -> PostFormValue form "destName" = dest ->
  exists request pap j p n' d h, serve g (post "/privatemessage" form) = Ok (g, None, Some request) /\
    receiveClientUDP (gs_name g) request = Ok (ClientPacket cUIPM pap) /\
    clientPMListen g pap = Ok [Send p j] /\
    travel (w_nodes w) i j p 10 = Ok n' /\ w_nodes w !! d = Some h /\ gs_name h = dest /\
    forall k gk, w_nodes w !! k = Some gk -> exists gk', n' !! k = Some gk' /\ latestMessages gk' =
      latestMessages gk ++ (if decide (k = d) then [mkRumorMessage (gs_name g) 0 text] else []).
Proof.
  intros Hr Ei Hsize Hno [j Hj] Hdest Htext Hm Hd.
  destruct (path_known w i g dest j Hr Ei Hno Hj) as (path & _ & Hp & Hnd & Hlen). cbn [length] in Hlen.
  apply NoDup_cons in Hnd as [_ Hnd]. destruct (last_of_path _ _ _ _ Hp) as (d & h & El & Eh & Hh).
  set (pm := mkPrivateMessage (gs_name g) 0 text dest defaultHopLimit).
  destruct (travel_path path (w_nodes w) dest j i pm 10 Hp Hnd eq_refl) as (n' & En & Hn');
    [unfold in_width; cbn; unfold defaultHopLimit; lia | cbn; unfold defaultHopLimit; lia | lia |].
  set (pap := mkPacketAddressPair (private_packet (mkPrivateMessage "" 0 text dest 0)) "").
  exists (private_request dest text), pap, j, (private pm), n', d, h.
  split; [| split; [| split; [| split; [exact En | split; [done | split; [done |]]]]]].
  - change (serve g (post "/privatemessage" form)) with
      (posted g (PostPrivateMessage (PostFormValue form "message") (PostFormValue form "destName"))).
    rewrite Hm, Hd. unfold posted, handlePost. by rewrite (proj2 (String.eqb_neq _ _) Hdest).
  - unfold receiveClientUDP. cbn. by rewrite (proj2 (String.eqb_neq _ _) Htext).
  - change (clientPMListen g pap) with (Ok (if getNextHop g dest is Some nextHop then [Send (private pm) nextHop] else [])).
    by rewrite Hj.
  - intros k gk Ek. destruct (Hn' k gk Ek) as (gk' & Ek' & Hl). exists gk'. split; [done |]. rewrite Hl. f_equal.
    destruct (decide (k = d)) as [->|Hk]; [by rewrite decide_True | by rewrite decide_False by congruence].
Qed.

(** The run of [Provenance] goes on: the second node hears the rumor, and has a route. *)
Definition heard : outcome (Gossiper * list action) :=
  rumorListen (NewGossiper "127.0.0.1:5001" "B" ["127.0.0.1:5000"] false)
    (mkPacketAddressPair (rumor_packet (mkRumorMessage "A" 1 "hello")) "127.0.0.1:5000").
Definition heard_state : Gossiper := match heard with Ok (g, _) => g | _ => hello_state end.
Definition heard_acts : list action := match heard with Ok (_, acts) => acts | _ => [] end.
Definition heard_world : world := become hello_world "127.0.0.1:5001" heard_state heard_acts.
Lemma heard_reachable : Reachable False heard_world.
Proof.
  apply (reach_step False hello_world); [apply hello_reachable |].
  apply (step_rumor False hello_world "127.0.0.1:5001" (NewGossiper "127.0.0.1:5001" "B" ["127.0.0.1:5000"] false)
    "127.0.0.1:5000" (mkRumorMessage "A" 1 "hello") "127.0.0.1:5000"); [reflexivity | constructor | left; reflexivity | vm_compute; reflexivity].
Qed.

Lemma routes_loop_free_witness : exists path d h,
  route_path (w_nodes heard_world) "A" "127.0.0.1:5001" ("127.0.0.1:5001" :: path) /\
  last path = Some d /\ w_nodes heard_world !! d = Some h /\ gs_name h = "A".
Proof.
  destruct (routes_loop_free heard_world "127.0.0.1:5001" heard_state "A" "127.0.0.1:5000" heard_reachable)
    as (path & d & h & H1 & _ & _ & H2 & H3 & H4 & _); [reflexivity | discriminate | reflexivity |].
  exists path, d, h. exact (conj H1 (conj H2 (conj H3 H4))).
Defined.

Definition pm_form : gmap string string := {["message" := "hi"; "destName" := "A"]}.
Lemma private_message_arrives_witness : exists request pap j p n',
  serve heard_state (post "/privatemessage" pm_form) = Ok (heard_state, None, Some request) /\
  receiveClientUDP "B" request = Ok (ClientPacket cUIPM pap) /\ clientPMListen heard_state pap = Ok [Send p j] /\
  travel (w_nodes heard_world) "127.0.0.1:5001" j p 10 = Ok n'.
Proof.
  destruct (private_message_arrives heard_world "127.0.0.1:5001" heard_state "A" "hi" pm_form heard_reachable)
    as (request & pap & j & p & n' & d & h & H1 & H2 & H3 & H4 & _).
  - reflexivity.
  - apply (bool_decide_unpack _). vm_compute. exact I.
  - discriminate.
  - exists "127.0.0.1:5000". reflexivity.
  - discriminate.
  - discriminate.
  - reflexivity.
  - reflexivity.
  - exists request, pap, j, p, n'. exact (conj H1 (conj H2 (conj H3 H4))).
Defined.
