(* ===== verification/Transfer.v ===== *)
(** * Transfer: a file crosses the network

    The data requests and replies of a download, carried hop by hop over the nodes of a
    network, along the routes that rumors have left ([Routes]).  The packets travel as bytes,
    which the receive loop reads into its buffer ([readPacket]).  [carry] gives each packet in
    flight to the routine of its receiver, [fetch] is one call of [downloadChunk] with the
    network that answers it, and [answers] are those that a download waits for, in order. *)
From S2P Require Import Prelude Sha2 Dto Containers Gossip Dispatch FileParsing FileNode Network Provenance Routes.
Open Scope Z_scope.

Abbreviation file_network := (gmap string FileNode).
Definition gossipers (fs : file_network) : network := gossip <$> fs.

(** The receive loop, and the routine that gets the packet; other packets are not handled here. *)
Definition handle_file (n : FileNode) (pap : PacketAddressPair)
    : outcome (FileNode * list action * option (nat * bytes)) :=
  r ← receiveExternalUDP (UseSimple (gossip n)) pap;
  match r with
  | ToChannel cDataRequest pap => '(n, sent) ← dataRequestListen n pap; Ok (n, sent, None)
  | ToChannel cDataReply pap => dataReplyListen n pap
  | _ => Ok (n, [], None)
  end.

(** A datagram on its way. *)
Record datagram := mkDatagram { d_from : string; d_to : string; d_bytes : bytes }.
Section wire.
Context {W : Wire}.
Definition in_flight (i : string) (sent : list action) : list datagram :=
  omap (fun a => match a with Send p j => Some (mkDatagram i j (wire_encode p)) | _ => None end) sent.
(** Data that a listener got: at the node, on the channel. *)
Record delivery := mkDelivery { at_node : string; on_channel : nat; delivered : bytes }.

(** Datagrams arrive in the order they were sent, at most [fuel] of them; the result
    tells what is in flight then, and what was delivered. *)
Fixpoint carry (fs : file_network) (flight : list datagram) (got : list delivery) (fuel : nat)
    : outcome (file_network * list datagram * list delivery) :=
  match fuel, flight with
  | S fuel, d :: flight =>
      match fs !! d_to d with
      | Some n =>
          '(n, sent, data) ← handle_file n (mkPacketAddressPair (readPacket (d_bytes d)) (d_from d));
          carry (<[d_to d := n]> fs) (flight ++ in_flight (d_to d) sent)
            (got ++ (if data is Some (c, bs) then [mkDelivery (d_to d) c bs] else [])) fuel
      | None => carry fs flight got fuel
      end
  | _, _ => Ok (fs, flight, got)
  end.

(** [downloadChunk] at node [i], and all that it causes, without time-outs. *)
Definition fetch (fs : file_network) (i : string) (hash : bytes) (origin : string) (fuel : nat)
    : outcome (file_network * list datagram * list delivery * nat) :=
  n ← deref (fs !! i);
  '(n, c, sent) ← downloadChunk n hash origin 0;
  '(fs, flight, got) ← carry (<[i := n]> fs) (in_flight i sent) [] fuel;
  Ok (fs, flight, got, c).
(** One after the other; each has to be answered, by nothing else than its data. *)
Fixpoint fetch_all (fs : file_network) (i : string) (hashes : list bytes) (origin : string) (fuel : nat)
    : outcome (option (file_network * list bytes)) :=
  match hashes with
  | [] => Ok (Some (fs, []))
  | hash :: rest =>
      '(fs, flight, got, c) ← fetch fs i hash origin fuel;
      match flight, got with
      | [], [mkDelivery k c' data] =>
          if decide (k = i /\ c' = c) then
            r ← fetch_all fs i rest origin fuel;
            Ok (match r with Some (fs, datas) => Some (fs, data :: datas) | None => None end)
          else Ok None
      | _, _ => Ok None
      end
  end.
(** What a download gets: the metafile, and the chunks that it lists. *)
Definition answers (fs : file_network) (i : string) (metahash : bytes) (origin : string) (fuel : nat)
    : outcome (option (file_network * list bytes)) :=
  r ← fetch_all fs i [metahash] origin fuel;
  match r with
  | Some (fs, [metafile]) =>
      match ParseMetafile metafile with
      | Some hashes =>
          r ← fetch_all fs i hashes origin fuel;
          Ok (match r with Some (fs, chunks) => Some (fs, metafile :: chunks) | None => None end)
      | None => Ok (Some (fs, [metafile]))
      end
  | _ => Ok None
  end.
End wire.
Definition answered (datas : list bytes) (i : nat) : dl_env := mkDlEnv 0 0 (default [] (datas !! i)).

(** ** What the handlers change *)
(** A node that has only learned of peers. *)
Definition met (n n' : FileNode) : Prop :=
  exists g, n' = fn_set_gossip n g /\ gs_name g = gs_name (gossip n) /\
    routingTable g = routingTable (gossip n) /\ UseSimple g = UseSimple (gossip n).
#[export] Instance met_preorder : PreOrder met.
Proof.
  split; [intros n; exists (gossip n); by destruct n |].
  intros n n' n'' (g & -> & E1 & E2 & E3) (g' & -> & E1' & E2' & E3'). exists g'.
  split; [done |]. cbn in *. split_and!; congruence.
Qed.
Lemma met_addToPeers n sender : met n (fn_addToPeers n sender).
Proof.
  exists (addToPeers (gossip n) sender).1. split; [done |].
  destruct (addToPeers_fields (gossip n) sender) as (E1 & _ & E2 & E3 & _). done.
Qed.
Definition all_met (fs fs' : file_network) : Prop := forall i, option_Forall2 met (fs !! i) (fs' !! i).
#[export] Instance all_met_preorder : PreOrder all_met.
Proof.
  split; [intros fs i; apply reflexivity |]. intros fs fs' fs'' H H' i. by etrans; [apply H | apply H'].
Qed.
Lemma all_met_insert fs fs' i n n' : all_met fs fs' -> met n n' -> all_met (<[i := n]> fs) (<[i := n']> fs').
Proof.
  intros H Hn k. destruct (decide (i = k)) as [->|Hk]; [rewrite !lookup_insert_eq; by constructor |].
  rewrite !lookup_insert_ne by done. apply H.
Qed.
Lemma all_met_step fs i n n' : fs !! i = Some n -> met n n' -> all_met fs (<[i := n']> fs).
Proof. intros Ei Hn. rewrite <-(insert_id fs i n) at 1 by done. by apply all_met_insert. Qed.
Lemma all_met_lookup fs fs' i n : all_met fs fs' -> fs !! i = Some n -> exists n', fs' !! i = Some n' /\ met n n'.
Proof. intros H Ei. specialize (H i). rewrite Ei in H. inversion H; subst. eauto. Qed.

(** The same routes. *)
Definition same_route (n n' : FileNode) : Prop :=
  gs_name (gossip n') = gs_name (gossip n) /\ routingTable (gossip n') = routingTable (gossip n) /\
  UseSimple (gossip n') = UseSimple (gossip n).
Definition same_routes (fs fs' : file_network) : Prop := forall i, option_Forall2 same_route (fs !! i) (fs' !! i).
#[export] Instance same_routes_equiv : PreOrder same_routes.
Proof.
  split.
  - intros fs i. destruct (fs !! i); by constructor.
  - intros fs fs' fs'' H H' i. specialize (H i). specialize (H' i).
    destruct H as [n n' H|]; inversion H'; subst; constructor. unfold same_route in *. intuition congruence.
Qed.
Lemma met_same_routes fs fs' : all_met fs fs' -> same_routes fs fs'.
Proof. intros H i. destruct (H i) as [n n' (g & -> & Hg)|]; constructor. exact Hg. Qed.
Lemma same_routes_insert fs i n n' : fs !! i = Some n -> same_route n n' -> same_routes fs (<[i := n']> fs).
Proof.
  intros Ei Hn k. destruct (decide (i = k)) as [<-|Hk]; [rewrite lookup_insert_eq, Ei; by constructor |].
  rewrite lookup_insert_ne by done. by destruct (fs !! k); constructor.
Qed.
Lemma same_routes_path fs fs' o i path : same_routes fs fs' ->
  route_path (gossipers fs) o i path -> route_path (gossipers fs') o i path.
Proof.
  intros Hs. assert (Hn : forall i g, gossipers fs !! i = Some g -> exists g', gossipers fs' !! i = Some g' /\
    gs_name g' = gs_name g /\ getNextHop g' o = getNextHop g o).
  { intros k g. unfold gossipers. rewrite !lookup_fmap. intros (n & En & ->)%fmap_Some. specialize (Hs k).
    rewrite En in Hs. inversion Hs as [? n' (E1 & E2 & _)|]; subst. exists (gossip n'). split; [done |].
    unfold getNextHop. by rewrite E1, E2. }
  induction 1 as [k g Ek Eo|k g j path Ek Hne Ej _ IH]; destruct (Hn k g Ek) as (g' & Ek' & En & Eh).
  - apply (path_end _ _ k g'); congruence.
  - apply (path_hop _ _ k g' j); congruence.
Qed.

(** ** Packets on their way *)
(** What a node that is not its destination does with a packet whose hop limit is above 1. *)
Lemma handle_request n req sender : UseSimple (gossip n) = false ->
  handle_file n (mkPacketAddressPair (data_request_packet req) sender) =
    ('(n', sent) ← dataRequestListen n (mkPacketAddressPair (data_request_packet req) sender); Ok (n', sent, None)).
Proof. intros Hm. unfold handle_file. rewrite Hm. reflexivity. Qed.
Lemma handle_reply n drep sender : UseSimple (gossip n) = false ->
  handle_file n (mkPacketAddressPair (data_reply_packet drep) sender) =
    dataReplyListen n (mkPacketAddressPair (data_reply_packet drep) sender).
Proof. intros Hm. unfold handle_file. rewrite Hm. reflexivity. Qed.

Definition request (o d hash : _) (h : Z) : GossipPacket := data_request_packet (mkDataRequest o d h hash).
Definition reply (o d hash data : _) (h : Z) : GossipPacket := data_reply_packet (mkDataReply o d h hash data).

Lemma decrement_above h : 1 < h -> in_width 32 h -> decrement_hop h = h - 1 /\ (0 <? decrement_hop h) = true.
Proof.
  intros H Hw. destruct (decrement_hop_spec h Hw) as [-> ->]. rewrite decide_False by lia.
  split; [done | apply bool_decide_eq_true; lia].
Qed.
Definition sends (g : Gossiper) (d : string) (p : GossipPacket) : list action :=
  if getNextHop g d is Some j then [Send p j] else [].
Lemma forward_request g o d hash h : 1 < h -> in_width 32 h ->
  forward g (request o d hash h) = Ok (request o d hash (h - 1), sends g d (request o d hash (h - 1))).
Proof.
  intros H Hw. destruct (decrement_above h H Hw) as [E1 E2]. unfold forward, request, sends.
  change (DecrementHopCount _) with (Ok (data_request_packet (mkDataRequest o d (decrement_hop h) hash), 0 <? decrement_hop h)).
  cbn [mbind outcome_bind]. rewrite E2, E1. change (GetDestination _) with (Ok d). cbn [mbind outcome_bind].
  destruct (getNextHop g d); reflexivity.
Qed.
Lemma forward_reply g o d hash data h : 1 < h -> in_width 32 h ->
  forward g (reply o d hash data h) = Ok (reply o d hash data (h - 1), sends g d (reply o d hash data (h - 1))).
Proof.
  intros H Hw. destruct (decrement_above h H Hw) as [E1 E2]. unfold forward, reply, sends.
  change (DecrementHopCount _) with (Ok (data_reply_packet (mkDataReply o d (decrement_hop h) hash data), 0 <? decrement_hop h)).
  cbn [mbind outcome_bind]. rewrite E2, E1. change (GetDestination _) with (Ok d). cbn [mbind outcome_bind].
  destruct (getNextHop g d); reflexivity.
Qed.

Lemma sends_addToPeers n sender d p : sends (gossip (fn_addToPeers n sender)) d p = sends (gossip n) d p.
Proof. destruct (addToPeers_fields (gossip n) sender) as (_ & _ & _ & E & _). unfold sends, getNextHop. cbn. by rewrite E. Qed.
Lemma name_addToPeers n sender : gs_name (gossip (fn_addToPeers n sender)) = gs_name (gossip n).
Proof. apply (addToPeers_fields (gossip n) sender). Qed.

Lemma relay_request n o d hash h sender : UseSimple (gossip n) = false -> gs_name (gossip n) <> d -> 1 < h -> in_width 32 h ->
  handle_file n (mkPacketAddressPair (request o d hash h) sender) =
    Ok (fn_addToPeers n sender, sends (gossip n) d (request o d hash (h - 1)), None).
Proof.
  intros Hm Hd Hh Hw. unfold request at 1. rewrite handle_request by done. fold (request o d hash h). unfold dataRequestListen.
  change (pap_GetSenderAddress (mkPacketAddressPair (request o d hash h) sender)) with (Ok sender).
  change (pap_GetOrigin (mkPacketAddressPair (request o d hash h) sender)) with (Ok o).
  change (pap_GetHashValue (mkPacketAddressPair (request o d hash h) sender)) with (Ok hash).
  change (pap_GetDestination (mkPacketAddressPair (request o d hash h) sender)) with (Ok d).
  cbn [mbind outcome_bind pap_Packet]. rewrite name_addToPeers, (proj2 (String.eqb_neq _ _)) by done.
  rewrite forward_request by done. cbn [mbind outcome_bind]. by rewrite sends_addToPeers.
Qed.
Lemma relay_reply n o d hash data h sender : UseSimple (gossip n) = false -> gs_name (gossip n) <> d -> 1 < h -> in_width 32 h ->
  Sum256 data = hash ->
  handle_file n (mkPacketAddressPair (reply o d hash data h) sender) =
    Ok (fn_addToPeers n sender, sends (gossip n) d (reply o d hash data (h - 1)), None).
Proof.
  intros Hm Hd Hh Hw Hv%VerifyDataHash_spec. unfold reply at 1. rewrite handle_reply by done. fold (reply o d hash data h).
  unfold dataReplyListen.
  change (pap_GetSenderAddress (mkPacketAddressPair (reply o d hash data h) sender)) with (Ok sender).
  change (pap_GetOrigin (mkPacketAddressPair (reply o d hash data h) sender)) with (Ok o).
  change (pap_GetHashValue (mkPacketAddressPair (reply o d hash data h) sender)) with (Ok hash).
  change (pap_GetDestination (mkPacketAddressPair (reply o d hash data h) sender)) with (Ok d).
  change (g_DataReply (pap_Packet (mkPacketAddressPair (reply o d hash data h) sender))) with (Some (mkDataReply o d h hash data)).
  cbn [mbind outcome_bind pap_Packet deref drep_HashValue drep_Data]. rewrite Hv. cbn [negb].
  rewrite name_addToPeers, (proj2 (String.eqb_neq _ _)) by done.
  rewrite forward_reply by done. cbn [mbind outcome_bind]. by rewrite sends_addToPeers.
Qed.

Section carried.
Context {W : Wire}.
(** A packet that the receive loop reads whole, however many hops are left. *)
Definition readable (K : Z -> GossipPacket) : Prop :=
  forall h, in_width 32 h -> readPacket (wire_encode (K h)) = K h.

(** A packet whose routines only relay it travels to the last node of its path. *)
Section hops.
Context (K : Z -> GossipPacket) (o : string).
Definition relayed_by (n : FileNode) : Prop := forall h sender, 1 < h -> in_width 32 h ->
  handle_file n (mkPacketAddressPair (K h) sender) = Ok (fn_addToPeers n sender, sends (gossip n) o (K (h - 1)), None).
Context (HK : forall n, UseSimple (gossip n) = false -> gs_name (gossip n) <> o -> relayed_by n) (HR : readable K).

Lemma carry_hops path : forall fs i from h fuel got, route_path (gossipers fs) o i path -> NoDup path ->
  (forall k n, fs !! k = Some n -> UseSimple (gossip n) = false) ->
  in_width 32 h -> Z.of_nat (length path) <= h ->
  exists fs' from' h' d, all_met fs fs' /\ last path = Some d /\ fs' !! d = fs !! d /\ 0 < h' <= h /\
    carry fs [mkDatagram from i (wire_encode (K h))] got (length path + fuel) =
      carry fs' [mkDatagram from' d (wire_encode (K h'))] got (S fuel).
Proof using HK HR.
  induction path as [|i0 path IH]; intros fs i from h fuel got Hp Hnd Hm Hw Hlen; [inversion Hp |].
  inversion Hp as [i' g Ei Eo|i' g j path' Ei Hne Ej Hrest]; subst i0; [subst path | subst path'].
  - exists fs, from, h, i. split_and!; [done | done | done | cbn in Hlen; lia | lia | done].
  - apply NoDup_cons in Hnd as [Hi Hnd]. destruct (last_of_path _ _ _ _ Hrest) as (d & _ & El & _).
    assert (Hpos : (1 <= length path)%nat) by (destruct path; [done | cbn; lia]). cbn [length] in Hlen.
    unfold gossipers in Ei. rewrite lookup_fmap in Ei. apply fmap_Some in Ei as (n & En & ->).
    set (n1 := fn_addToPeers n from). set (fs1 := <[i := n1]> fs).
    assert (Hmet : all_met fs fs1) by (apply (all_met_step fs i n); [done | apply met_addToPeers]).
    destruct (IH fs1 j i (h - 1) fuel got) as (fs' & from' & h' & d' & Hmet' & El' & Ed & Hh & E).
    + by eapply same_routes_path; [apply met_same_routes |].
    + done.
    + intros k nk. unfold fs1. intros [[<- <-]|[_ Hk]]%lookup_insert_Some; [| by apply (Hm k)].
      destruct (met_addToPeers n from) as (g' & Eg & _ & _ & Hg'). unfold n1. rewrite Eg. cbn. rewrite Hg'. by apply (Hm i).
    + unfold in_width in *. lia.
    + lia.
    + replace d' with d in * by congruence. exists fs', from', h', d. split; [by etrans |].
      split; [by destruct path |]. split; [| split; [lia |]].
      * rewrite Ed. unfold fs1. rewrite lookup_insert_ne; [done |]. intros <-. apply Hi.
        apply last_Some in El as [l' ->]. apply elem_of_app. right. by constructor.
      * rewrite <-E. cbn [length Nat.add carry d_to d_bytes d_from]. rewrite En, HR by done.
        rewrite (HK n) by (try done; first [by apply (Hm i) | lia]). cbn [mbind outcome_bind]. unfold sends. rewrite Ej, app_nil_r.
        reflexivity.
Qed.
End hops.

(** ** Packets that arrive *)
Lemma answer_request n o hash data h sender : UseSimple (gossip n) = false -> length hash = 32%nat ->
  chunkMap n !! hash = Some data ->
  handle_file n (mkPacketAddressPair (request o (gs_name (gossip n)) hash h) sender) =
    Ok (fn_addToPeers n sender, sends (gossip n) o (reply (gs_name (gossip n)) o hash data 9), None).
Proof.
  intros Hm Hl Hc. unfold request. rewrite handle_request by done. set (d := gs_name (gossip n)).
  fold (request o d hash h). unfold dataRequestListen.
  change (pap_GetSenderAddress (mkPacketAddressPair (request o d hash h) sender)) with (Ok sender).
  change (pap_GetOrigin (mkPacketAddressPair (request o d hash h) sender)) with (Ok o).
  change (pap_GetHashValue (mkPacketAddressPair (request o d hash h) sender)) with (Ok hash).
  change (pap_GetDestination (mkPacketAddressPair (request o d hash h) sender)) with (Ok d).
  cbn [mbind outcome_bind]. rewrite name_addToPeers, String.eqb_refl. unfold answerDataRequest.
  rewrite ConvertToHash32_Some by done. change (chunkMap (fn_addToPeers n sender)) with (chunkMap n).
  cbn [mbind option_bind]. unfold GetChunk. rewrite Hc. cbn [mbind option_bind]. unfold makeDataReply.
  rewrite name_addToPeers. change (data_reply_packet _) with (reply d o hash data 10).
  rewrite forward_reply by (unfold in_width; lia). cbn [mbind outcome_bind]. by rewrite sends_addToPeers.
Qed.
Definition stop_listening (n : FileNode) (hash : bytes) : FileNode :=
  fn_set_listeners n (mkDLChanMap (delete hash (checksumMap (dlChunkListeners n))) (dl_next (dlChunkListeners n))).
Lemma take_reply n o hash data h sender c : UseSimple (gossip n) = false -> Sum256 data = hash ->
  checksumMap (dlChunkListeners n) !! hash = Some c ->
  handle_file n (mkPacketAddressPair (reply o (gs_name (gossip n)) hash data h) sender) =
    Ok (stop_listening (fn_addToPeers n sender) hash, [], Some (c, data)).
Proof.
  intros Hm Hsum Hc. pose proof (proj2 (VerifyDataHash_spec hash data) Hsum) as Hv.
  unfold reply. rewrite handle_reply by done. set (d := gs_name (gossip n)). fold (reply o d hash data h).
  unfold dataReplyListen.
  change (pap_GetSenderAddress (mkPacketAddressPair (reply o d hash data h) sender)) with (Ok sender).
  change (pap_GetOrigin (mkPacketAddressPair (reply o d hash data h) sender)) with (Ok o).
  change (pap_GetHashValue (mkPacketAddressPair (reply o d hash data h) sender)) with (Ok hash).
  change (pap_GetDestination (mkPacketAddressPair (reply o d hash data h) sender)) with (Ok d).
  change (pap_GetData (mkPacketAddressPair (reply o d hash data h) sender)) with (Ok data).
  change (g_DataReply (pap_Packet (mkPacketAddressPair (reply o d hash data h) sender))) with (Some (mkDataReply o d h hash data)).
  cbn [mbind outcome_bind deref drep_HashValue drep_Data]. rewrite Hv. cbn [negb].
  rewrite name_addToPeers, String.eqb_refl. rewrite ConvertToHash32_Some by (rewrite <-Hsum; apply Sum256_length).
  unfold dl_InformListener. change (dlChunkListeners (fn_addToPeers n sender)) with (dlChunkListeners n). by rewrite Hc.
Qed.
Lemma carry_nothing fs got fuel : carry fs [] got fuel = Ok (fs, [], got).
Proof. by destruct fuel. Qed.

(** ** A chunk *)
(** The routes lead from node [i] to node [d], named [o], in at most nine hops. *)
Definition way (fs : file_network) (i o d : string) : Prop :=
  exists g j path, gossipers fs !! i = Some g /\ gs_name g <> o /\ getNextHop g o = Some j /\
    route_path (gossipers fs) o j path /\ NoDup (i :: path) /\ (length path <= 9)%nat /\ last path = Some d.
Definition normal (fs : file_network) : Prop := forall k n, fs !! k = Some n -> UseSimple (gossip n) = false.

Lemma same_routes_lookup fs fs' k n' : same_routes fs fs' -> fs' !! k = Some n' -> exists n, fs !! k = Some n /\ same_route n n'.
Proof. intros H E. specialize (H k). rewrite E in H. inversion H; subst. eauto. Qed.
Lemma same_routes_normal fs fs' : same_routes fs fs' -> normal fs -> normal fs'.
Proof. intros H Hn k n' (n & E & _ & _ & ->)%(same_routes_lookup fs fs' k n' H). by apply (Hn k). Qed.
Lemma same_routes_way fs fs' i o d : same_routes fs fs' -> way fs i o d -> way fs' i o d.
Proof.
  intros H (g & j & path & Eg & Hne & Ej & Hp & Hrest). unfold gossipers in Eg. rewrite lookup_fmap in Eg.
  apply fmap_Some in Eg as (n & En & ->). destruct (fs' !! i) as [n'|] eqn:En'.
  2: { specialize (H i). rewrite En, En' in H. inversion H. }
  destruct (same_routes_lookup fs fs' i n' H En') as (n0 & En0 & E1 & E2 & _). replace n0 with n in * by congruence.
  exists (gossip n'), j, path. split; [unfold gossipers; by rewrite lookup_fmap, En' |]. split; [by rewrite E1 |].
  split; [unfold getNextHop in *; by rewrite E2 |]. split; [by eapply same_routes_path |]. done.
Qed.
Lemma reachable_way w fs i d n m : Reachable False w -> gossipers fs = w_nodes w -> (size (w_nodes w) <= 10)%nat ->
  fs !! i = Some n -> fs !! d = Some m -> gs_name (gossip n) <> gs_name (gossip m) ->
  is_Some (getNextHop (gossip n) (gs_name (gossip m))) -> way fs i (gs_name (gossip m)) d.
Proof.
  intros Hr Efs Hsize En Em Hne [j Hj].
  assert (Ei : w_nodes w !! i = Some (gossip n)) by (rewrite <-Efs; unfold gossipers; by rewrite lookup_fmap, En).
  assert (Ed : w_nodes w !! d = Some (gossip m)) by (rewrite <-Efs; unfold gossipers; by rewrite lookup_fmap, Em).
  destruct (path_known w i _ _ j Hr Ei Hne Hj) as (path & _ & Hp & Hnd & Hlen). cbn [length] in Hlen.
  destruct (last_of_path _ _ _ _ Hp) as (d' & h & El & Eh & Hh).
  assert (d' = d) as -> by (eapply (wok_names w (Reachable_ok False w Hr)); [exact Eh | exact Ed | done]).
  exists (gossip n), j, path. rewrite Efs. split_and!; try done. lia.
Qed.
Lemma reachable_normal w fs : Reachable False w -> gossipers fs = w_nodes w -> normal fs.
Proof.
  intros Hr%Reachable_ok Efs k n En. assert (Ek : w_nodes w !! k = Some (gossip n)) by (rewrite <-Efs; unfold gossipers; by rewrite lookup_fmap, En).
  apply (wok_nodes w Hr k _ Ek).
Qed.

Lemma request_sent n hash o : checksumMap (dlChunkListeners n) !! hash = None ->
  exists n' c, downloadChunk n hash o 0 = Ok (n', c, sends (gossip n) o (request (gs_name (gossip n)) o hash 9)) /\
    gossip n' = gossip n /\ checksumMap (dlChunkListeners n') = <[hash := c]> (checksumMap (dlChunkListeners n)).
Proof.
  intros Hl. unfold downloadChunk, dl_AddListener. rewrite Hl. cbn [forward_retries].
  change (data_request_packet _) with (request (gs_name (gossip n)) o hash 10).
  rewrite forward_request by (unfold in_width; lia). cbn [mbind outcome_bind]. rewrite app_nil_r. eauto.
Qed.

(** Node [a] is free to ask node [b] for what it holds, and the routes lead both ways. *)
Record session (fs : file_network) (a oA b oB : string) (waiting : gmap bytes nat) (held : SafeChunkMap) : Prop := {
  ses_normal : normal fs;
  ses_to : way fs a oB b;
  ses_back : way fs b oA a;
  ses_client : exists n, fs !! a = Some n /\ gs_name (gossip n) = oA /\ checksumMap (dlChunkListeners n) = waiting;
  ses_server : exists n, fs !! b = Some n /\ gs_name (gossip n) = oB /\ chunkMap n = held
}.

(** A packet sent to [o] at its first hop arrives, and takes at most nine units of fuel. *)
Lemma carry_way K o fs i d n fuel got : readable K ->
  (forall n, UseSimple (gossip n) = false -> gs_name (gossip n) <> o -> relayed_by K o n) ->
  way fs i o d -> normal fs -> fs !! i = Some n -> (9 <= fuel)%nat ->
  exists fs' from' h' fuel', all_met fs fs' /\ fs' !! d = fs !! d /\ (fuel <= fuel' + 9)%nat /\
    carry fs (in_flight i (sends (gossip n) o (K 9))) got fuel =
      carry fs' [mkDatagram from' d (wire_encode (K h'))] got (S fuel') /\ readPacket (wire_encode (K h')) = K h'.
Proof.
  intros HR HK (g & j & path & Eg & _ & Ej & Hp & [_ Hnd]%NoDup_cons & Hlen & El) Hn En Hfuel.
  unfold gossipers in Eg. rewrite lookup_fmap, En in Eg. injection Eg as <-.
  destruct (carry_hops K o HK HR path fs j i 9 (fuel - length path) got Hp Hnd Hn) as (fs' & from' & h' & d' & Hm & El' & Ed & Hh & E);
    [unfold in_width; lia | lia |].
  replace (length path + (fuel - length path))%nat with fuel in E by lia. replace d' with d in * by congruence.
  exists fs', from', h', (fuel - length path)%nat. split_and!; [done | done | lia | |].
  - unfold sends. rewrite Ej. exact E.
  - apply HR. unfold in_width. lia.
Qed.

(** The request arrives at [b], which sends the answer. *)
Lemma request_answered fs a oA b oB waiting held hash data n fuel got : readable (request oA oB hash) -> session fs a oA b oB waiting held ->
  fs !! a = Some n -> held !! hash = Some data -> length hash = 32%nat -> (9 <= fuel)%nat ->
  exists fs' nB fuel', all_met fs fs' /\ fs' !! b = Some nB /\ (fuel <= fuel' + 9)%nat /\
    carry fs (in_flight a (sends (gossip n) oB (request oA oB hash 9))) got fuel =
      carry fs' (in_flight b (sends (gossip nB) oA (reply oB oA hash data 9))) got fuel'.
Proof.
  intros HR [Hn Hto _ _ (nB & Eb & HB & Hh)] Ea Hd Hl Hfuel.
  destruct (carry_way (request oA oB hash) oB fs a b n fuel got HR) as (fs' & from' & h' & fuel' & Hm & Eb' & Hle & E & Er);
    [intros k Hk Hne h s Hh1 Hh2; by apply relay_request | done.. |].
  rewrite Eb in Eb'. exists (<[b := fn_addToPeers nB from']> fs'), (fn_addToPeers nB from'), fuel'.
  split; [etrans; [exact Hm | apply (all_met_step fs' b nB); [done | apply met_addToPeers]] |].
  split; [apply lookup_insert_eq |]. split; [done |]. rewrite E. cbn [carry d_to d_bytes d_from]. rewrite Eb', Er.
  rewrite <-HB, (answer_request nB oA hash data) by (done || by apply (Hn b) || by rewrite Hh).
  cbn [mbind outcome_bind app]. by rewrite app_nil_r, sends_addToPeers.
Qed.
(** The answer arrives at [a], where the listener gets the data. *)
Lemma reply_taken fs a oA b oB hash data n c fuel got : readable (reply oB oA hash data) -> way fs b oA a -> normal fs ->
  fs !! a = Some n -> gs_name (gossip n) = oA -> checksumMap (dlChunkListeners n) !! hash = Some c ->
  (exists nB, fs !! b = Some nB) -> Sum256 data = hash -> (9 <= fuel)%nat ->
  exists fs' n', all_met fs fs' /\ fs' !! a = Some n' /\ met n n' /\ forall nB, fs !! b = Some nB ->
    carry fs (in_flight b (sends (gossip nB) oA (reply oB oA hash data 9))) got fuel =
      Ok (<[a := stop_listening n' hash]> fs', [], got ++ [mkDelivery a c data]).
Proof.
  intros HR Hback Hn Ea HA Hc [nB Eb] Hsum Hfuel.
  destruct (carry_way (reply oB oA hash data) oA fs b a nB fuel got HR) as (fs' & from' & h' & fuel' & Hm & Ea' & _ & E & Er);
    [intros k Hk Hne h s Hh1 Hh2; by apply relay_reply | done.. |].
  rewrite Ea in Ea'. exists (<[a := fn_addToPeers n from']> fs'), (fn_addToPeers n from').
  split; [etrans; [exact Hm | apply (all_met_step fs' a n); [done | apply met_addToPeers]] |].
  split; [apply lookup_insert_eq |]. split; [apply met_addToPeers |]. intros nB' Eb'. replace nB' with nB by congruence.
  rewrite E. cbn [carry d_to d_bytes d_from]. rewrite Ea', Er. rewrite <-HA, (take_reply n oB hash data h' from' c) by (done || by apply (Hn a)).
  cbn [mbind outcome_bind in_flight omap list_omap app]. by rewrite carry_nothing, insert_insert_eq.
Qed.

Lemma fetch_chunk fs a oA b oB waiting held hash data fuel :
  readable (request oA oB hash) -> readable (reply oB oA hash data) -> session fs a oA b oB waiting held ->
  held !! hash = Some data -> Sum256 data = hash -> waiting !! hash = None -> (18 <= fuel)%nat ->
  exists fs' c, fetch fs a hash oB fuel = Ok (fs', [], [mkDelivery a c data], c) /\ session fs' a oA b oB waiting held.
Proof.
  intros HRq HRp [Hn Hto Hback (nA & Ea & HA & Hw) (nB & Eb & HB & Hh)] Hd Hsum Hf Hfuel.
  destruct (request_sent nA hash oB) as (nA1 & c & E1 & Eg1 & El1); [by rewrite Hw |]. rewrite HA in E1.
  assert (Hl32 : length hash = 32%nat) by (rewrite <-Hsum; apply Sum256_length).
  set (fs1 := <[a := nA1]> fs).
  assert (Hs1 : same_routes fs fs1) by (apply (same_routes_insert fs a nA); [done | unfold same_route; by rewrite Eg1]).
  assert (Hab : a <> b).
  { intros ->. destruct Hto as (g & _ & _ & Eg & Hne & _). unfold gossipers in Eg. rewrite lookup_fmap, Eb in Eg. by injection Eg as <-. }
  assert (Eb1 : fs1 !! b = Some nB) by (unfold fs1; by rewrite lookup_insert_ne).
  assert (Hses : session fs1 a oA b oB (<[hash := c]> waiting) held).
  { constructor; [by apply (same_routes_normal fs) | by apply (same_routes_way fs) | by apply (same_routes_way fs) | |].
    - exists nA1. split; [apply lookup_insert_eq |]. rewrite Eg1, El1, Hw. done.
    - by exists nB. }
  destruct (request_answered fs1 a oA b oB _ held hash data nA1 fuel [] HRq Hses) as (fs2 & nB2 & fuel2 & Hm2 & Eb2 & Hle2 & E2);
    [apply lookup_insert_eq | done | done | lia |].
  assert (Hs2 : same_routes fs fs2) by (etrans; [exact Hs1 | by apply met_same_routes]).
  destruct (all_met_lookup fs1 fs2 a nA1 Hm2) as (nA2 & Ea2 & (g2 & -> & En2 & _)); [apply lookup_insert_eq |].
  destruct (reply_taken fs2 a oA b oB hash data (fn_set_gossip nA1 g2) c fuel2 [] HRp) as (fs3 & nA3 & Hm3 & Ea3 & Hmet & E3);
    [by apply (same_routes_way fs) | by apply (same_routes_normal fs) | done | cbn; by rewrite En2, Eg1
    | cbn; by rewrite El1, lookup_insert_eq | by eexists | done | lia |].
  destruct Hmet as (g3 & -> & En3 & _). exists (<[a := stop_listening (fn_set_gossip (fn_set_gossip nA1 g2) g3) hash]> fs3), c. split.
  { unfold fetch. rewrite Ea. cbn [deref mbind outcome_bind]. rewrite E1. cbn [mbind outcome_bind]. rewrite <-Eg1. fold fs1.
    by rewrite E2, (E3 nB2 Eb2). }
  assert (Hs3 : same_routes fs (<[a := stop_listening (fn_set_gossip (fn_set_gossip nA1 g2) g3) hash]> fs3)).
  { etrans; [exact Hs2 |]. etrans; [by apply met_same_routes |]. by eapply same_routes_insert. }
  constructor; [by apply (same_routes_normal fs) | by apply (same_routes_way fs) | by apply (same_routes_way fs) | |].
  - eexists. split; [apply lookup_insert_eq |]. split; [cbn in *; by rewrite En3, En2, Eg1 |].
    cbn. by rewrite El1, delete_insert_id, Hw by (by rewrite Hw).
  - destruct (all_met_lookup fs1 fs3 b nB) as (nB3 & Eb3 & (g & -> & En & _)); [by etrans | done |].
    eexists. rewrite lookup_insert_ne by done. split; [exact Eb3 |]. split; [cbn; by rewrite En | done].
Qed.

(** ** A file *)
(** [data] is what [held] has for the hash, no download waits for it, and the two packets
    that ask for it and answer are read whole. *)
Definition available (oA oB : string) (waiting : gmap bytes nat) (held : SafeChunkMap) (hash data : bytes) : Prop :=
  held !! hash = Some data /\ Sum256 data = hash /\ waiting !! hash = None /\
  readable (request oA oB hash) /\ readable (reply oB oA hash data).

Lemma fetch_all_session a oA b oB waiting held fuel hashes : forall datas fs, session fs a oA b oB waiting held ->
  Forall2 (available oA oB waiting held) hashes datas -> (18 <= fuel)%nat ->
  exists fs', fetch_all fs a hashes oB fuel = Ok (Some (fs', datas)) /\ session fs' a oA b oB waiting held.
Proof.
  induction hashes as [|hash hashes IH]; intros datas fs Hs Hall Hfuel; inversion Hall as [|? data ? datas' (Hd & Hsum & Hf & HRq & HRp) Hrest]; subst.
  { by exists fs. }
  destruct (fetch_chunk fs a oA b oB waiting held _ data fuel HRq HRp Hs Hd eq_refl Hf Hfuel) as (fs1 & c & E & Hs1).
  destruct (IH datas' fs1 Hs1 Hrest Hfuel) as (fs2 & E2 & Hs2). exists fs2. split; [| done].
  cbn [fetch_all]. rewrite E. cbn [mbind outcome_bind]. rewrite decide_True by done. rewrite E2. reflexivity.
Qed.
Lemma answers_session fs a oA b oB waiting held fuel metafile chunks : session fs a oA b oB waiting held ->
  available oA oB waiting held (Sum256 metafile) metafile -> metafile = concat (Sum256 <$> chunks) ->
  Forall2 (available oA oB waiting held) (Sum256 <$> chunks) chunks -> (18 <= fuel)%nat ->
  exists fs', answers fs a (Sum256 metafile) oB fuel = Ok (Some (fs', metafile :: chunks)).
Proof.
  intros Hs Hm Em Hc Hfuel. unfold answers.
  destruct (fetch_all_session a oA b oB waiting held fuel [Sum256 metafile] [metafile] fs Hs) as (fs1 & E1 & Hs1);
    [constructor; [done | constructor] | done |].
  destruct (fetch_all_session a oA b oB waiting held fuel _ chunks fs1 Hs1 Hc Hfuel) as (fs2 & E2 & _).
  exists fs2. rewrite E1. cbn [mbind outcome_bind]. rewrite Em, ParseMetafile_sums, E2. reflexivity.
Qed.

End carried.

(** The chunks of a file, its metafile, and the sum that names it. *)
Definition chunks_of (content : bytes) : list bytes :=
  pieces defaultChunkSize ((length content + defaultChunkSize - 1) / defaultChunkSize) content.
Definition metafile_of (content : bytes) : bytes := concat (Sum256 <$> chunks_of content).
Definition metahash_of (content : bytes) : bytes := Sum256 (metafile_of content).

Lemma AddChunk_fold (new : gmap bytes bytes) (m : SafeChunkMap) :
  map_fold (fun checksum chunk m => (AddChunk m checksum chunk).1) m new = m ∪ new.
Proof.
  revert new. apply (map_fold_weak_ind (fun r new => r = m ∪ new)); [by rewrite (right_id_L ∅ (∪)) |].
  intros k x new r Hk ->. unfold AddChunk. destruct (m !! k) as [y|] eqn:Em.
  - rewrite (lookup_union_Some_l _ _ _ _ Em). cbn [fst]. apply map_eq. intros h. rewrite !lookup_union.
    destruct (decide (h = k)) as [->|Hh]; [| by rewrite lookup_insert_ne].
    rewrite Em, Hk, lookup_insert_eq. reflexivity.
  - rewrite lookup_union, Em, Hk. cbn. by rewrite insert_union_r.
Qed.

(** Every entry of a chunk map is one of [l], under its sum. *)
Definition sums_of (l : list bytes) (m : SafeChunkMap) : Prop := forall h d, m !! h = Some d -> Sum256 d = h /\ d ∈ l.
Definition no_collision (l : list bytes) : Prop := forall x y, x ∈ l -> y ∈ l -> Sum256 x = Sum256 y -> x = y.

Lemma sums_of_union l m1 m2 : sums_of l m1 -> sums_of l m2 -> sums_of l (m1 ∪ m2).
Proof. intros H1 H2 h d [E|[_ E]]%lookup_union_Some_raw; eauto. Qed.
Lemma sums_of_AddChunk l m d : sums_of l m -> d ∈ l -> sums_of l (AddChunk m (Sum256 d) d).1.
Proof.
  intros Hm Hd. unfold AddChunk. destruct (m !! Sum256 d); cbn [fst]; [exact Hm |].
  intros h d' [[<- <-]|[_ E]]%lookup_insert_Some; [done | by apply Hm].
Qed.
Lemma sums_of_chunks l chunks : chunks ⊆ l -> sums_of l (CreateChunksMap chunks).1.1.
Proof.
  unfold CreateChunksMap. cbn [fst]. induction chunks as [|d chunks IH] using rev_ind; intros Hsub; [intros h x E; cbn [foldl] in E; by rewrite lookup_empty in E |].
  rewrite foldl_snoc. intros h x [[<- <-]|[_ E]]%lookup_insert_Some; [split; [done |] | revert E].
  - apply Hsub, elem_of_app. right. by constructor.
  - apply IH. intros y Hy. apply Hsub, elem_of_app. by left.
Qed.
Lemma sums_of_lookup l m x : sums_of l m -> no_collision l -> x ∈ l -> is_Some (m !! Sum256 x) -> m !! Sum256 x = Some x.
Proof. intros Hm Hl Hx [y E]. destruct (Hm _ _ E) as [Hs Hy]. by rewrite E, (Hl y x). Qed.

(** What a node knows when it shares a file: the file, and the chunks that it has. *)
Definition known (n : FileNode) (content : bytes) : list bytes :=
  metafile_of content :: chunks_of content ++ (map_to_list (chunkMap n)).*2.
Lemma share_file n fileName content :
  (forall h d, chunkMap n !! h = Some d -> Sum256 d = h) -> no_collision (known n content) ->
  exists n', clientFileShareListen n fileName (Ok (file_reads content)) =
      Some (n', Some (mkPacketAddressPair (tx_packet (mkTxPublish
        (mkFile fileName (Z.of_nat (length content)) (metahash_of content)) defaultHopLimit)) "")) /\
    gossip n' = gossip n /\
    forall x, x = metafile_of content \/ x ∈ chunks_of content -> chunkMap n' !! Sum256 x = Some x.
Proof.
  intros Hsums Hinj. unfold clientFileShareListen. rewrite ReadChunks_file. fold (chunks_of content).
  destruct (CreateChunksMap (chunks_of content)) as [[new metafile] metahash] eqn:E.
  assert (new = (CreateChunksMap (chunks_of content)).1.1) as Enew by (by rewrite E).
  unfold CreateChunksMap in E. injection E as _ Ef Eh. fold (metafile_of content) in Ef, Eh. fold (metahash_of content) in Eh. subst metafile metahash.
  eexists. split; [reflexivity |]. split; [done |]. cbn [chunkMap fn_set_chunks fn_set_files]. rewrite AddChunk_fold.
  intros x Hx. assert (Hin : x ∈ known n content) by (unfold known; rewrite elem_of_cons, elem_of_app; tauto).
  apply (sums_of_lookup (known n content)); [| done | done |].
  - apply sums_of_union; [apply sums_of_AddChunk |].
    + intros h d E. split; [by apply Hsums |]. unfold known. apply list_elem_of_further, elem_of_app. right.
      apply list_elem_of_fmap. exists (h, d). split; [done | by apply elem_of_map_to_list].
    + by constructor.
    + rewrite Enew. apply sums_of_chunks. intros y Hy. unfold known. apply list_elem_of_further, elem_of_app. by left.
  - rewrite lookup_union_is_Some. destruct Hx as [->|Hx].
    + left. unfold AddChunk. fold (metahash_of content). destruct (chunkMap n !! metahash_of content) eqn:Em; cbn [fst];
        [by rewrite Em | by rewrite lookup_insert_eq].
    + right. rewrite Enew. destruct (CreateChunksMap_lookup _ x Hx) as (c & -> & _). by eexists.
Qed.

Lemma answered_chunks metafile chunks :
  (fun k => e_data (answered (metafile :: chunks) k)) <$> seq 1 (length chunks) = chunks.
Proof.
  apply list_eq. intros i. rewrite list_lookup_fmap. destruct (chunks !! i) as [c|] eqn:Ei.
  - rewrite lookup_seq_lt by (by eapply lookup_lt_Some).
    change (Some (default [] (chunks !! i)) = Some c). by rewrite Ei.
  - apply lookup_ge_None in Ei. by rewrite lookup_seq_ge.
Qed.
Lemma chunks_concat content : concat (chunks_of content) = content.
Proof. apply (chunk_sizes content). Qed.

(** ** The size of the packets *)
(** The wire format, of the packets of a download: their four or five parts and at most 66
    bytes more, as long as the parts are not longer than the buffer. *)
Class DataWire `{Wire} := {
  wire_request o d hash h : wf_bytes hash -> in_width 32 h ->
    Z.of_nat (String.length o + String.length d + length hash) <= packetSize ->
    wire_ok (request o d hash h) /\
    (length (wire_encode (request o d hash h)) <= String.length o + String.length d + length hash + 66)%nat;
  wire_reply o d hash data h : wf_bytes hash -> wf_bytes data -> in_width 32 h ->
    Z.of_nat (String.length o + String.length d + length hash + length data) <= packetSize ->
    wire_ok (reply o d hash data h) /\
    (length (wire_encode (reply o d hash data h)) <= String.length o + String.length d + length hash + length data + 66)%nat
}.
Lemma readable_data `{DataWire} oA oB data : wf_bytes data ->
  Z.of_nat (String.length oA + String.length oB + length data) + 98 <= packetSize ->
  readable (request oA oB (Sum256 data)) /\ readable (reply oB oA (Sum256 data) data).
Proof.
  intros Hwf Hl. pose proof (Sum256_length data) as Hs. unfold packetSize in *.
  split; intros h Hh; apply readPacket_encode; unfold packetSize.
  1-2: destruct (wire_request oA oB (Sum256 data) h (Sum256_wf data) Hh) as [Hok Hn]; [unfold packetSize; lia |]; [done || lia].
  all: destruct (wire_reply oB oA (Sum256 data) data h (Sum256_wf data) Hwf Hh) as [Hok Hn]; [unfold packetSize; lia |]; [done || lia].
Qed.

Lemma metafile_wf content : wf_bytes (metafile_of content).
Proof. unfold metafile_of. apply Forall_concat, Forall_fmap, Forall_forall. intros c _. apply Sum256_wf. Qed.
Lemma metafile_length content :
  Z.of_nat (length (metafile_of content)) = 32 * ((Z.of_nat (length content) + 8191) / 8192).
Proof.
  destruct (chunk_sizes content) as (_ & _ & H1 & H2). fold (chunks_of content) in H1, H2.
  assert (E : length (metafile_of content) = (length (chunks_of content) * 32)%nat).
  { unfold metafile_of. rewrite (concat_length_fixed 32) by apply sums_length. by rewrite length_fmap, Nat.mul_comm. }
  rewrite E. replace ((Z.of_nat (length content) + 8191) / 8192) with (Z.of_nat (length (chunks_of content))); [lia |].
  apply Z.div_unique with (Z.of_nat (length content) + 8191 - 8192 * Z.of_nat (length (chunks_of content))); lia.
Qed.
(** Every chunk of a file of bytes has bytes, at most [defaultChunkSize] of them. *)
Lemma chunk_bytes content c : wf_bytes content -> c ∈ chunks_of content -> wf_bytes c /\ Z.of_nat (length c) <= 8192.
Proof.
  intros Hwf Hc. destruct (chunk_sizes content) as (Hs & E & _). fold (chunks_of content) in Hs, E.
  rewrite <-E in Hwf. apply Forall_concat in Hwf. rewrite Forall_forall in Hs, Hwf.
  split; [by apply Hwf | by apply Hs].
Qed.

(** ** Properties *)

(** C7. Files cross the network.  In every run of a network of at most ten nodes whose datagrams
    come from the addresses they claim, when the user of a node shares a file and the user of
    another one downloads it by the hash that the share announces, and rumors have left
    each of the two a route to the other, the download ends and writes the content of the
    file: the metafile and every chunk is asked for once, request and answer are handed on
    from node to node without a time-out, and nothing else is delivered.  The packets travel
    as bytes through the receive buffers, so the file has a bound: a reply with a chunk, and
    the one with the metafile, of 32 bytes for every 8192 bytes of the file, have to fit
    10,000 bytes with the two names, the hash and the 66 bytes that the format may add
    (names of 1000 bytes leave room for 278 chunks, more than two megabytes).  The only thing
    asked of the sum is that it tells apart what the sharing node holds. *)
Theorem file_transferred `{DataWire} w fs a b nA nB content fileName copy disk :
  Reachable False w -> gossipers fs = w_nodes w -> (size (w_nodes w) <= 10)%nat ->
  fs !! a = Some nA -> fs !! b = Some nB -> gs_name (gossip nA) <> gs_name (gossip nB) -> gs_name (gossip nB) <> "" ->
  is_Some (getNextHop (gossip nA) (gs_name (gossip nB))) -> is_Some (getNextHop (gossip nB) (gs_name (gossip nA))) ->
  (forall h d, chunkMap nB !! h = Some d -> Sum256 d = h) -> no_collision (known nB content) ->
  (forall h, h ∈ metahash_of content :: (Sum256 <$> chunks_of content) -> checksumMap (dlChunkListeners nA) !! h = None) ->
  metahash_of content ∉ dlFilesSet nA ->
  wf_bytes content ->
  let names := Z.of_nat (String.length (gs_name (gossip nA)) + String.length (gs_name (gossip nB))) in
  names + 8192 + 98 <= packetSize ->
  names + 32 * ((Z.of_nat (length content) + 8191) / 8192) + 98 <= packetSize ->
  exists nB' fs' datas nA' sent,
    clientFileShareListen nB fileName (Ok (file_reads content)) =
      Some (nB', Some (mkPacketAddressPair (tx_packet (mkTxPublish
        (mkFile fileName (Z.of_nat (length content)) (metahash_of content)) defaultHopLimit)) "")) /\
    answers (<[b := nB']> fs) a (metahash_of content) (gs_name (gossip nB)) 18 = Ok (Some (fs', datas)) /\
    clientFileDownloadListen nA disk (mkFileToDownload copy (gs_name (gossip nB)) (metahash_of content)) (answered datas) true true =
      Ok (nA', <[dlBaseDir +:+ copy := content]> disk, sent, true) /\
    dlFilesSet nA' = dlFilesSet nA.
Proof.
  intros Hr Efs Hsize Ea Eb Hne Hname HAB HBA Hsums Hinj Hfree Hset Hwf names Hchunk Hmeta.
  destruct (share_file nB fileName content Hsums Hinj) as (nB' & Eshare & Eg & Hheld).
  assert (Hread : forall x, x = metafile_of content \/ x ∈ chunks_of content ->
    readable (request (gs_name (gossip nA)) (gs_name (gossip nB)) (Sum256 x)) /\
    readable (reply (gs_name (gossip nB)) (gs_name (gossip nA)) (Sum256 x) x)).
  { intros x [->|Hx]; apply readable_data.
    - apply metafile_wf.
    - rewrite Nat2Z.inj_add, metafile_length. exact Hmeta.
    - by apply (chunk_bytes content).
    - destruct (chunk_bytes content x Hwf Hx) as [_ Hl]. subst names. lia. }
  clearbody names. assert (Hab : a <> b) by congruence. set (fs1 := <[b := nB']> fs).
  assert (Efs1 : gossipers fs1 = w_nodes w).
  { rewrite <-Efs. unfold gossipers, fs1. rewrite fmap_insert, Eg. apply insert_id. by rewrite lookup_fmap, Eb. }
  assert (Ea1 : fs1 !! a = Some nA) by (unfold fs1; by rewrite lookup_insert_ne).
  assert (Eb1 : fs1 !! b = Some nB') by apply lookup_insert_eq. rewrite <-Eg in HBA, HAB, Hne, Hread |- *.
  assert (Hs : session fs1 a (gs_name (gossip nA)) b (gs_name (gossip nB')) (checksumMap (dlChunkListeners nA)) (chunkMap nB')).
  { constructor; [by eapply reachable_normal | by eapply reachable_way | eapply reachable_way; done || by apply not_eq_sym | by exists nA | by exists nB']. }
  destruct (answers_session fs1 a _ b _ _ _ 18 (metafile_of content) (chunks_of content) Hs) as (fs' & E); [| done | | done |].
  - split_and!; [apply Hheld; by left | done | apply Hfree; by constructor | apply Hread; by left..].
  - apply Forall2_fmap_l, Forall2_same_length_lookup_2; [done |]. intros i x y Ex Ey. replace y with x by congruence.
    apply list_elem_of_lookup_2 in Ex. split_and!; [apply Hheld; by right | done | | apply Hread; by right..].
    apply Hfree. apply list_elem_of_further. by apply list_elem_of_fmap_2.
  - destruct (downloadFile_named nA disk copy (metahash_of content) (gs_name (gossip nB'))
      (answered (metafile_of content :: chunks_of content)) (Sum256 <$> chunks_of content)) as (nA' & sent & Ed & Hset' & _);
      [done | by rewrite Eg | apply ParseMetafile_sums |].
    rewrite length_fmap, answered_chunks, chunks_concat in Ed.
    exists nB', fs', (metafile_of content :: chunks_of content), nA', sent. split_and!; [done | exact E | exact Ed | done].
Qed.

(** The run of [Routes] goes on: the second node sends a route rumor, and the first one hears it. *)
Definition ticked : outcome (Gossiper * list action * option nat) := periodicRouteRumor_tick heard_state 0.
Definition ticked_state : Gossiper := match ticked with Ok (g, _, _) => g | _ => heard_state end.
Definition ticked_acts : list action := match ticked with Ok (_, acts, _) => acts | _ => [] end.
Definition ticked_world : world := become heard_world "127.0.0.1:5001" ticked_state ticked_acts.
Definition linked : outcome (Gossiper * list action) :=
  rumorListen hello_state (mkPacketAddressPair (rumor_packet (mkRumorMessage "B" 1 "")) "127.0.0.1:5001").
Definition linked_state : Gossiper := match linked with Ok (g, _) => g | _ => hello_state end.
Definition linked_acts : list action := match linked with Ok (_, acts) => acts | _ => [] end.
Definition linked_world : world := become ticked_world "127.0.0.1:5000" linked_state linked_acts.
Lemma linked_reachable : Reachable False linked_world.
Proof.
  apply (reach_step False ticked_world).
  - apply (reach_step False heard_world); [exact heard_reachable |].
    eapply (step_route False heard_world "127.0.0.1:5001" heard_state 0); [reflexivity | vm_compute; reflexivity | vm_compute; reflexivity].
  - apply (step_rumor False ticked_world "127.0.0.1:5000" hello_state "127.0.0.1:5001" (mkRumorMessage "B" 1 "") "127.0.0.1:5001");
      [reflexivity | constructor | left; reflexivity | vm_compute; reflexivity].
Qed.
Definition linked_files : file_network :=
  <["127.0.0.1:5000" := NewFileNode linked_state]> {["127.0.0.1:5001" := NewFileNode ticked_state]}.

(** A wire format for the packets of a download: a tag, the hop limit, and every part after
    its length. *)
Definition sized (l : bytes) : bytes := be_split 4 (Z.of_nat (length l)) ++ l.
Definition read_sized (l : bytes) : bytes * bytes :=
  let n := Z.to_nat (be (take 4 l)) in (take n (drop 4 l), drop n (drop 4 l)).
Definition string_of_bytes (l : bytes) : string :=
  String.string_of_list_ascii ((fun z => Ascii.ascii_of_N (Z.to_N z)) <$> l).
Definition encode_data (p : GossipPacket) : bytes :=
  match g_DataRequest p, g_DataReply p with
  | Some r, _ => 1 :: be_split 4 (dreq_HopLimit r) ++ sized (bytes_of_string (dreq_Origin r)) ++
      sized (bytes_of_string (dreq_Destination r)) ++ sized (dreq_HashValue r)
  | None, Some r => 2 :: be_split 4 (drep_HopLimit r) ++ sized (bytes_of_string (drep_Origin r)) ++
      sized (bytes_of_string (drep_Destination r)) ++ sized (drep_HashValue r) ++ sized (drep_Data r)
  | None, None => []
  end.
Definition decode_data (l : bytes) : GossipPacket :=
  let h := be (take 4 (drop 1 l)) in
  let '(o, l') := read_sized (drop 5 l) in
  let '(d, l') := read_sized l' in
  let '(hash, l') := read_sized l' in
  match l with
  | 1 :: _ => request (string_of_bytes o) (string_of_bytes d) hash h
  | 2 :: _ => reply (string_of_bytes o) (string_of_bytes d) hash (read_sized l').1 h
  | _ => empty_packet
  end.
Definition short (l : bytes) : Prop := Z.of_nat (length l) < 2 ^ 32.
Inductive data_packet : GossipPacket -> Prop :=
  | data_request o d hash h : in_width 32 h -> short (bytes_of_string o) -> short (bytes_of_string d) ->
      short hash -> data_packet (request o d hash h)
  | data_reply o d hash data h : in_width 32 h -> short (bytes_of_string o) -> short (bytes_of_string d) ->
      short hash -> short data -> data_packet (reply o d hash data h).

Lemma read_sized_app l t : short l -> read_sized (sized l ++ t) = (l, t).
Proof.
  intros Hl. unfold read_sized, sized. rewrite <-app_assoc.
  rewrite take_app_length', drop_app_length' by (by rewrite be_split_length).
  rewrite be_be_split, Z.mod_small, Nat2Z.id by (unfold short in Hl; lia).
  by rewrite take_app_length, drop_app_length.
Qed.
Lemma string_of_bytes_of s : string_of_bytes (bytes_of_string s) = s.
Proof.
  apply bytes_of_string_inj. unfold string_of_bytes, bytes_of_string at 1. rewrite String.list_ascii_of_string_of_list_ascii.
  unfold bytes_of_string. rewrite <-!list_fmap_compose. apply list_fmap_ext. intros i a _. cbn.
  by rewrite N2Z.id, Ascii.ascii_N_embedding.
Qed.
Lemma read_hops b h t : in_width 32 h -> be (take 4 (drop 1 (b :: be_split 4 h ++ t))) = h.
Proof.
  intros Hh. cbn [drop]. rewrite drop_0, take_app_length' by (by rewrite be_split_length).
  rewrite be_be_split. by apply Z.mod_small.
Qed.
Lemma read_parts b h t : drop 5 (b :: be_split 4 h ++ t) = t.
Proof. change (drop 5 (b :: be_split 4 h ++ t)) with (drop 4 (be_split 4 h ++ t)). by rewrite drop_app_length' by (by rewrite be_split_length). Qed.
Lemma decode_padded p k : data_packet p -> decode_data (encode_data p ++ replicate k 0) = p.
Proof.
  intros [o d hash h Hh Ho Hd Hs|o d hash data h Hh Ho Hd Hs Hdt]; cbn [encode_data request reply];
    unfold encode_data; cbn -[be_split sized read_sized app bytes_of_string]; rewrite <-?app_comm_cons, <-!app_assoc; unfold decode_data;
    rewrite read_hops, read_parts by done; do 3 (rewrite read_sized_app by done; cbv beta iota zeta);
    by rewrite ?read_sized_app, !string_of_bytes_of by done.
Qed.
#[export] Instance data_format : Wire := {
  wire_ok := data_packet; wire_encode := encode_data; wire_decode := decode_data; wire_padded := decode_padded
}.
#[export] Instance data_format_sizes : DataWire.
Proof.
  split.
  - intros o d hash h Hw Hh Hl. unfold packetSize in Hl. split.
    + constructor; unfold short; rewrite ?bytes_of_string_length; lia || done.
    + cbn -[be_split sized bytes_of_string]. rewrite !length_app, !be_split_length. unfold sized.
      rewrite !length_app, !be_split_length, !bytes_of_string_length. lia.
  - intros o d hash data h Hw Hd Hh Hl. unfold packetSize in Hl. split.
    + constructor; unfold short; rewrite ?bytes_of_string_length; lia || done.
    + cbn -[be_split sized bytes_of_string]. rewrite !length_app, !be_split_length. unfold sized.
      rewrite !length_app, !be_split_length, !bytes_of_string_length. lia.
Qed.

Lemma file_transferred_witness : exists nB' fs' datas nA' sent,
  answers (<["127.0.0.1:5001" := nB']> linked_files) "127.0.0.1:5000" (metahash_of one_chunk) "B" 18 = Ok (Some (fs', datas)) /\
  clientFileDownloadListen (NewFileNode linked_state) ∅ (mkFileToDownload "copy" "B" (metahash_of one_chunk)) (answered datas) true true =
    Ok (nA', <[dlBaseDir +:+ "copy" := one_chunk]> ∅, sent, true).
Proof.
  destruct (file_transferred linked_world linked_files "127.0.0.1:5000" "127.0.0.1:5001" (NewFileNode linked_state)
    (NewFileNode ticked_state) one_chunk "file" "copy" ∅ linked_reachable)
    as (nB' & fs' & datas & nA' & sent & _ & E1 & E2 & _).
  - vm_compute. reflexivity.
  - apply (bool_decide_unpack _). vm_compute. exact I.
  - reflexivity.
  - reflexivity.
  - vm_compute. discriminate.
  - vm_compute. discriminate.
  - exists "127.0.0.1:5001". reflexivity.
  - exists "127.0.0.1:5000". reflexivity.
  - intros h d E. discriminate E.
  - assert (Hne : bool_decide (Sum256 (metafile_of one_chunk) = Sum256 one_chunk) = false) by (vm_compute; reflexivity).
    apply bool_decide_eq_false in Hne. assert (Ek : known (NewFileNode ticked_state) one_chunk = [metafile_of one_chunk; one_chunk]) by (vm_compute; reflexivity).
    rewrite Ek. intros x y [->| ->%list_elem_of_singleton]%elem_of_cons [->| ->%list_elem_of_singleton]%elem_of_cons E;
      [reflexivity | destruct (Hne E) | destruct (Hne (eq_sym E)) | reflexivity].
  - intros h _. apply lookup_empty.
  - intros H. exact (not_elem_of_empty (C := gset bytes) (metahash_of one_chunk) H).
  - apply (bool_decide_unpack _). vm_compute. exact I.
  - apply (bool_decide_unpack _). vm_compute. exact I.
  - apply (bool_decide_unpack _). vm_compute. exact I.
  - exists nB', fs', datas, nA', sent. exact (conj E1 E2).
Defined.
